(** * Violet webhook service: a shallow embedding and its verified properties

    The development follows the Python sources module by module:
    [violet_core.py] (classification, identifier extraction, deduplication,
    record creation, orchestration), [salesforce_client.py] (credential
    resolution with its process-wide cache, the authenticated GET helper and
    the paginated query), [dead_letter.py] (the line-delimited failure log)
    and [app.py] (signature verification, the webhook handler and the replay
    route).

    Conventions.
    - A Python value is a [pyval]; payloads arrive as JSON, so dictionaries
      have string keys and keep insertion order.
    - A Python [str] is a Rocq [string] holding the UTF-8 bytes of its
      characters: [len], slices and [strip] work on characters, a byte that
      continues a sequence belonging to the character begun before it.  The
      letter case functions are exact on ASCII letters.
    - A floating-point number is carried by its JSON lexeme: its truth value
      is computed from the lexeme exactly, its text is the lexeme (which is
      what Python prints only when the lexeme is the shortest one).
    - [json.loads] is modelled within the limits of the interpreter: no
      integer literal beyond [Json.INT_MAX_STR_DIGITS] digits and no nesting
      beyond what the interpreter still allows ([json_room]); outside them
      the library raises ValueError and RecursionError, and the statements
      about documents from outside carry [Json.within_limits] as a
      hypothesis.
    - A Python exception is an [exn]: its class and its message ([str(e)]).
      Pure code lives in [res]; code with effects in the monad
      [M A := World -> res A * World], where an exception keeps the effects
      that happened before it.
    - Time is an integer number of microseconds. *)

From Stdlib Require Import ZArith List String Ascii Bool Lia Arith DecimalString
  DecimalPos Permutation.
Import ListNotations.
Local Open Scope string_scope.
Local Open Scope Z_scope.

Set Implicit Arguments.
Set Warnings "-register-all".


(* ===================================================================== *)
(** ** Strings *)
(* ===================================================================== *)

Module Str.

Definition code (c : ascii) : N := N_of_ascii c.

(** A byte that continues a UTF-8 sequence *)
Definition is_cont (c : ascii) : bool :=
  let n := code c in ((128 <=? n) && (n <? 192))%N.

(** The number of characters: the bytes that start one *)
Fixpoint char_count (s : string) : nat :=
  match s with
  | EmptyString => O
  | String c s' => ((if is_cont c then 0 else 1) + char_count s')%nat
  end.

(** [len(s)] *)
Definition len (s : string) : Z := Z.of_nat (char_count s).

(** [s.startswith(p)] *)
Fixpoint startswith (p s : string) : bool :=
  match p, s with
  | EmptyString, _ => true
  | String a p', String b s' => Ascii.eqb a b && startswith p' s'
  | String _ _, EmptyString => false
  end.

(** [sub in s] for strings *)
Fixpoint contains (sub s : string) : bool :=
  startswith sub s ||
  match s with
  | EmptyString => false
  | String _ s' => contains sub s'
  end.

(** [s[:n]] for [0 <= n]: the first [n] characters, each with the bytes
    that continue it *)
Fixpoint take (n : nat) (s : string) : string :=
  match s with
  | EmptyString => EmptyString
  | String c s' =>
      if is_cont c then String c (take n s')
      else match n with
           | O => EmptyString
           | S k => String c (take k s')
           end
  end.

(** The characters of a string, each as a string of its own *)
Fixpoint chars (s : string) : list string :=
  match s with
  | EmptyString => []
  | String c s' =>
      match chars s' with
      | String d x :: rest =>
          if is_cont d then String c (String d x) :: rest
          else String c EmptyString :: String d x :: rest
      | rest => String c EmptyString :: rest
      end
  end.

Fixpoint drop (n : nat) (s : string) : string :=
  match n, s with
  | O, _ => s
  | _, EmptyString => EmptyString
  | S k, String _ s' => drop k s'
  end.

Fixpoint rev_append (acc s : string) : string :=
  match acc with
  | EmptyString => s
  | String c acc' => rev_append acc' (String c s)
  end.

(** [acc] holds the current piece backwards; [skip] counts the characters of
    a separator just matched that are still to be passed over. *)
Fixpoint split_aux (sep s : string) (skip : nat) (acc : string) : list string :=
  match s with
  | EmptyString => [rev_append acc EmptyString]
  | String c s' =>
      match skip with
      | S k => split_aux sep s' k acc
      | O =>
          if startswith sep s
          then rev_append acc EmptyString
                 :: split_aux sep s' (String.length sep - 1) EmptyString
          else split_aux sep s' O (String c acc)
      end
  end.

(** [s.split(sep)] for a non-empty separator *)
Definition split (sep s : string) : list string := split_aux sep s O EmptyString.

(** [sep.join(l)] *)
Fixpoint join (sep : string) (l : list string) : string :=
  match l with
  | [] => EmptyString
  | [x] => x
  | x :: rest => x ++ sep ++ join sep rest
  end.

Fixpoint forallb (f : ascii -> bool) (s : string) : bool :=
  match s with
  | EmptyString => true
  | String c s' => f c && forallb f s'
  end.

Definition is_ascii (s : string) : bool := forallb (fun c => (code c <? 128)%N) s.

(** Strict UTF-8: no byte out of place, no overlong form, no surrogate,
    nothing beyond U+10FFFF.  It is what [open(..., encoding='utf-8')]
    decodes without raising UnicodeDecodeError. *)
Fixpoint is_utf8 (s : string) : bool :=
  match s with
  | EmptyString => true
  | String a r =>
      let n := code a in
      (if n <? 128 then is_utf8 r
       else if (194 <=? n) && (n <? 224) then
         match r with
         | String b r' => is_cont b && is_utf8 r'
         | _ => false
         end
       else if (224 <=? n) && (n <? 240) then
         match r with
         | String b (String c r') =>
             is_cont b && is_cont c
             && (negb (n =? 224) || (160 <=? code b))
             && (negb (n =? 237) || (code b <? 160))
             && is_utf8 r'
         | _ => false
         end
       else if (240 <=? n) && (n <? 245) then
         match r with
         | String b (String c (String d r')) =>
             is_cont b && is_cont c && is_cont d
             && (negb (n =? 240) || (144 <=? code b))
             && (negb (n =? 244) || (code b <? 144))
             && is_utf8 r'
         | _ => false
         end
       else false)%N
  end.

(** The white space of one byte: tab, line feed, vertical tab, form feed,
    carriage return, the four separators 28..31 and the space. *)
Definition is_space (c : ascii) : bool :=
  let n := code c in
  ((9 <=? n) && (n <=? 13) || (28 <=? n) && (n <=? 32))%N.

(** The number of bytes of the white-space character at the head of [s], 0
    when there is none.  [str.isspace] holds of the characters above and of
    U+0085, U+00A0, U+1680, U+2000 to U+200A, U+2028, U+2029, U+202F, U+205F
    and U+3000. *)
Definition space_width (s : string) : nat :=
  match s with
  | EmptyString => O
  | String a r =>
      if is_space a then 1%nat
      else
        match r with
        | String b r' =>
            let n := code a in
            let m := code b in
            if ((n =? 194) && ((m =? 133) || (m =? 160)))%N then 2%nat
            else
              match r' with
              | String c _ =>
                  let k := code c in
                  if ((n =? 225) && (m =? 154) && (k =? 128)
                      || (n =? 226) && (m =? 128)
                         && ((128 <=? k) && (k <=? 138) || (k =? 168) || (k =? 169)
                             || (k =? 175))
                      || (n =? 226) && (m =? 129) && (k =? 159)
                      || (n =? 227) && (m =? 128) && (k =? 128))%N
                  then 3%nat else O
              | EmptyString => O
              end
        | EmptyString => O
        end
  end.

Fixpoint lstrip_aux (fuel : nat) (s : string) : string :=
  match fuel with
  | O => s
  | S fuel' =>
      match space_width s with
      | O => s
      | w => lstrip_aux fuel' (drop w s)
      end
  end.

(** [s.lstrip()] *)
Definition lstrip (s : string) : string := lstrip_aux (String.length s) s.

(** The string is white space from end to end. *)
Definition all_space (s : string) : bool := String.eqb (lstrip s) EmptyString.

(** [s.rstrip()]: what is left when the longest tail of white space is cut *)
Fixpoint rstrip (s : string) : string :=
  match s with
  | EmptyString => EmptyString
  | String c s' => if all_space s then EmptyString else String c (rstrip s')
  end.

(** [s.strip()] *)
Definition strip (s : string) : string := rstrip (lstrip s).

Definition of_Z (z : Z) : string := NilZero.string_of_int (Z.to_int z).

(** Decimal rendering padded on the left with zeros to [w] digits
    (for a number that is not negative). *)
Fixpoint zeros (n : nat) : string :=
  match n with O => EmptyString | S k => String "0" (zeros k) end.

Definition pad (w : nat) (z : Z) : string :=
  let s := of_Z z in zeros (w - String.length s) ++ s.

Definition hex_digit (n : N) : ascii :=
  ascii_of_N (if (n <? 10)%N then 48 + n else 87 + n)%N.

Definition hex_digit_upper (n : N) : ascii :=
  ascii_of_N (if (n <? 10)%N then 48 + n else 55 + n)%N.

End Str.

(* ===================================================================== *)
(** ** Exceptions and results *)
(* ===================================================================== *)

(** The exception classes that occur; every one of them derives from
    [Exception].  [OtherError] stands for any other class the network layer
    may raise. *)
Inductive exn_class : Type :=
| AttributeError | TypeError | KeyError | IndexError | ValueError
| RuntimeError | JSONDecodeError | ReadTimeout | ConnectionError | HTTPError
| OtherError (name : string).

Record exn : Type := mkExn { exn_cls : exn_class; exn_msg : string }.

Definition is_ReadTimeout (e : exn) : bool :=
  match exn_cls e with ReadTimeout => true | _ => false end.

Definition is_JSONDecodeError (e : exn) : bool :=
  match exn_cls e with JSONDecodeError => true | _ => false end.

Inductive res (A : Type) : Type :=
| Ok (a : A)
| Raise (e : exn).
Arguments Ok {A} a.
Arguments Raise {A} e.

Definition rbind {A B} (r : res A) (k : A -> res B) : res B :=
  match r with
  | Ok a => k a
  | Raise e => Raise e
  end.

Declare Scope res_scope.
Delimit Scope res_scope with res.
Notation "x <~ e ;; k" := (rbind e (fun x => k))
  (at level 100, e at next level, right associativity) : res_scope.
Notation "e ;;~ k" := (rbind e (fun _ => k))
  (at level 100, right associativity) : res_scope.
Local Open Scope res_scope.

(* ===================================================================== *)
(** ** Python values *)
(* ===================================================================== *)

Inductive pyval : Type :=
| PNone
| PBool (b : bool)
| PInt (z : Z)
| PFloat (lexeme : string)
| PStr (s : string)
| PList (l : list pyval)
| PDict (d : list (string * pyval)).

Module Py.

Definition type_name (v : pyval) : string :=
  match v with
  | PNone => "NoneType"
  | PBool _ => "bool"
  | PInt _ => "int"
  | PFloat _ => "float"
  | PStr _ => "str"
  | PList _ => "list"
  | PDict _ => "dict"
  end.

Definition dquote : ascii := ascii_of_N 34.
Definition squote : ascii := ascii_of_N 39.
Definition backslash : ascii := ascii_of_N 92.

(** *** The truth value of a float, from its lexeme

    A lexeme is [-]digits[.digits][(e|E)[+|-]digits], or one of [NaN],
    [Infinity] and [-Infinity].  It denotes the number m * 10^k, m the
    integer its digits spell and k the exponent less the number of digits
    after the dot; the float is the nearest double, which is zero exactly
    when m * 10^k is at most 2^-1075, half of the smallest double. *)

Definition is_digit (c : ascii) : bool :=
  let n := Str.code c in ((48 <=? n) && (n <=? 57))%N.

(** The value of the run of digits at the head of [s] after [acc], the
    number of digits of the run, and what follows it *)
Fixpoint digit_run (acc : Z) (s : string) : Z * nat * string :=
  match s with
  | String c s' =>
      if is_digit c
      then let '(v, n, r) := digit_run (10 * acc + Z.of_N (Str.code c - 48)) s' in
           (v, S n, r)
      else (acc, O, s)
  | EmptyString => (acc, O, s)
  end.

(** The mantissa [m], its number of digits and the exponent [k] of a
    lexeme; [None] for the three lexemes that are not numbers *)
Definition float_parts (l : string) : option (Z * nat * Z) :=
  let unsigned :=
    match l with
    | String c l' => if (Str.code c =? 45)%N then l' else l
    | EmptyString => l
    end in
  match unsigned with
  | String c _ =>
      if is_digit c then
        let '(i, ni, r1) := digit_run 0 unsigned in
        let '(m, nf, r2) :=
          match r1 with
          | String d r =>
              if (Str.code d =? 46)%N then digit_run i r else (i, O, r1)
          | EmptyString => (i, O, r1)
          end in
        let e :=
          match r2 with
          | String x r =>
              if ((Str.code x =? 101) || (Str.code x =? 69))%N then
                match r with
                | String g r' =>
                    if (Str.code g =? 45)%N then - fst (fst (digit_run 0 r'))
                    else if (Str.code g =? 43)%N then fst (fst (digit_run 0 r'))
                    else fst (fst (digit_run 0 r))
                | EmptyString => 0
                end
              else 0
          | EmptyString => 0
          end in
        Some (m, (ni + nf)%nat, e - Z.of_nat nf)
      else None
  | EmptyString => None
  end.

(** The float of the lexeme is zero.  A number below 10^-324 is decided
    without computing the power. *)
Definition float_is_zero (l : string) : bool :=
  match float_parts l with
  | None => false
  | Some (m, digits, k) =>
      if m =? 0 then true
      else if 0 <=? k then false
      else if Z.of_nat digits + k <=? -324 then true
      else m * 2 ^ 1075 <=? 10 ^ (- k)
  end.

(** [bool(v)] *)
Definition truthy (v : pyval) : bool :=
  match v with
  | PNone => false
  | PBool b => b
  | PInt z => negb (z =? 0)
  | PFloat l => negb (float_is_zero l)
  | PStr s => negb (String.eqb s "")
  | PList l => match l with [] => false | _ => true end
  | PDict d => match d with [] => false | _ => true end
  end.

(** [a or b] *)
Definition or_ (a b : pyval) : pyval := if truthy a then a else b.

(** [v == 'literal'] *)
Definition eq_str (v : pyval) (s : string) : bool :=
  match v with
  | PStr s' => String.eqb s' s
  | _ => false
  end.

(** [v in (s1, s2, ...)]: membership in a tuple of string literals *)
Definition in_tuple (v : pyval) (l : list string) : bool :=
  existsb (eq_str v) l.

Definition no_attribute (v : pyval) (attr : string) : exn :=
  mkExn AttributeError
        ("'" ++ type_name v ++ "' object has no attribute '" ++ attr ++ "'").

(** [v in {s1, s2, ...}]: membership in a set of string literals hashes [v] *)
Definition in_set (v : pyval) (l : list string) : res bool :=
  match v with
  | PList _ | PDict _ =>
      Raise (mkExn TypeError ("unhashable type: '" ++ type_name v ++ "'"))
  | _ => Ok (existsb (eq_str v) l)
  end.

Fixpoint dict_lookup (k : string) (d : list (string * pyval)) : option pyval :=
  match d with
  | [] => None
  | (k', v) :: d' => if String.eqb k' k then Some v else dict_lookup k d'
  end.

(** [d[k] = v]: an existing key keeps its place, a new one goes last *)
Fixpoint dict_set (k : string) (v : pyval) (d : list (string * pyval))
  : list (string * pyval) :=
  match d with
  | [] => [(k, v)]
  | (k', v') :: d' =>
      if String.eqb k' k then (k, v) :: d' else (k', v') :: dict_set k v d'
  end.

(** [{**a, **b}] *)
Definition dict_merge (a b : list (string * pyval)) : list (string * pyval) :=
  fold_left (fun acc kv => dict_set (fst kv) (snd kv) acc) b a.

(** The lookup of the bound method [v.get], before its arguments are
    evaluated. *)
Definition has_get (v : pyval) : res unit :=
  match v with
  | PDict _ => Ok tt
  | _ => Raise (no_attribute v "get")
  end.

(** [v.get(k, default)] *)
Definition get (v : pyval) (k : string) (default : pyval) : res pyval :=
  match v with
  | PDict d =>
      Ok (match dict_lookup k d with Some x => x | None => default end)
  | _ => Raise (no_attribute v "get")
  end.

Definition not_subscriptable (v : pyval) : exn :=
  mkExn TypeError ("'" ++ type_name v ++ "' object is not subscriptable").

(** [v['k']] with a string key *)
Definition getitem (v : pyval) (k : string) : res pyval :=
  match v with
  | PDict d =>
      match dict_lookup k d with
      | Some x => Ok x
      | None => Raise (mkExn KeyError ("'" ++ k ++ "'"))
      end
  | PStr _ =>
      Raise (mkExn TypeError "string indices must be integers, not 'str'")
  | PList _ =>
      Raise (mkExn TypeError "list indices must be integers or slices, not str")
  | _ => Raise (not_subscriptable v)
  end.

(** [v[0]] *)
Definition first (v : pyval) : res pyval :=
  match v with
  | PList (x :: _) => Ok x
  | PList [] => Raise (mkExn IndexError "list index out of range")
  | PStr EmptyString => Raise (mkExn IndexError "string index out of range")
  | PStr s => Ok (PStr (Str.take 1 s))
  | PDict _ => Raise (mkExn KeyError "0")
  | _ => Raise (not_subscriptable v)
  end.

(** [v[:n]]; slicing a dictionary fails, like every other value that is
    neither a string nor a list *)
Definition slice_to (n : nat) (v : pyval) : res pyval :=
  match v with
  | PStr s => Ok (PStr (Str.take n s))
  | PList l => Ok (PList (firstn n l))
  | PDict _ => Raise (mkExn TypeError "unhashable type: 'slice'")
  | _ => Raise (not_subscriptable v)
  end.

(** [v.startswith(p)] *)
Definition startswith (v : pyval) (p : string) : res bool :=
  match v with
  | PStr s => Ok (Str.startswith p s)
  | _ => Raise (no_attribute v "startswith")
  end.

(** [len(v)] *)
Definition len (v : pyval) : res Z :=
  match v with
  | PStr s => Ok (Str.len s)
  | PList l => Ok (Z.of_nat (List.length l))
  | PDict d => Ok (Z.of_nat (List.length d))
  | _ => Raise (mkExn TypeError
                  ("object of type '" ++ type_name v ++ "' has no len()"))
  end.

(** ['literal' in v] *)
Definition contains (sub : string) (v : pyval) : res bool :=
  match v with
  | PStr s => Ok (Str.contains sub s)
  | PList l => Ok (existsb (fun x => eq_str x sub) l)
  | PDict d => Ok (match dict_lookup sub d with Some _ => true | None => false end)
  | _ => Raise (mkExn TypeError
                  ("argument of type '" ++ type_name v ++ "' is not iterable"))
  end.

(** [v.split(sep)] *)
Definition split (v : pyval) (sep : string) : res (list string) :=
  match v with
  | PStr s => Ok (Str.split sep s)
  | _ => Raise (no_attribute v "split")
  end.

(** [l[i]] on a list of strings produced by [split] *)
Definition nth_str (l : list string) (i : nat) : res string :=
  match nth_error l i with
  | Some s => Ok s
  | None => Raise (mkExn IndexError "list index out of range")
  end.

(** *** [repr] and [str] *)

Definition repr_char (q : ascii) (c : ascii) : string :=
  let n := Str.code c in
  if Ascii.eqb c backslash then String backslash (String backslash EmptyString)
  else if Ascii.eqb c q then String backslash (String q EmptyString)
  else if (n =? 9)%N then String backslash "t"
  else if (n =? 10)%N then String backslash "n"
  else if (n =? 13)%N then String backslash "r"
  else if ((n <? 32) || (n =? 127))%N
       then String backslash
              (String "x" (String (Str.hex_digit (n / 16))
                                  (String (Str.hex_digit (n mod 16)) EmptyString)))
  else String c EmptyString.

Fixpoint repr_chars (q : ascii) (s : string) : string :=
  match s with
  | EmptyString => EmptyString
  | String c s' => repr_char q c ++ repr_chars q s'
  end.

Fixpoint has_char (q : ascii) (s : string) : bool :=
  match s with
  | EmptyString => false
  | String c s' => Ascii.eqb c q || has_char q s'
  end.

(** [repr(s)]: single quotes, unless the string holds one and no double
    quote *)
Definition repr_str (s : string) : string :=
  let q := if has_char squote s && negb (has_char dquote s) then dquote else squote in
  String q (repr_chars q s ++ String q EmptyString).

Fixpoint repr (v : pyval) : string :=
  match v with
  | PNone => "None"
  | PBool true => "True"
  | PBool false => "False"
  | PInt z => Str.of_Z z
  | PFloat l => l
  | PStr s => repr_str s
  | PList l => "[" ++ Str.join ", " (map repr l) ++ "]"
  | PDict d =>
      "{" ++ Str.join ", "
               (map (fun kv => repr_str (fst kv) ++ ": " ++ repr (snd kv)) d)
          ++ "}"
  end.

(** [str(v)], which is also what an f-string field renders *)
Definition str (v : pyval) : string :=
  match v with
  | PStr s => s
  | _ => repr v
  end.

End Py.

(* ===================================================================== *)
(** ** JSON: [json.loads] and [json.dumps] *)
(* ===================================================================== *)

Module Json.

Definition is_ws (c : ascii) : bool :=
  let n := Str.code c in ((n =? 32) || (n =? 9) || (n =? 10) || (n =? 13))%N.

Fixpoint skip_ws (s : string) : string :=
  match s with
  | String c s' => if is_ws c then skip_ws s' else s
  | EmptyString => EmptyString
  end.

Definition is_digit (c : ascii) : bool :=
  let n := Str.code c in ((48 <=? n) && (n <=? 57))%N.

(** The longest run of digits at the head of [s], and what follows it. *)
Fixpoint digits (s : string) : string * string :=
  match s with
  | String c s' =>
      if is_digit c then let '(d, r) := digits s' in (String c d, r)
      else (EmptyString, s)
  | EmptyString => (EmptyString, EmptyString)
  end.

Fixpoint nat_of_digits (acc : Z) (s : string) : Z :=
  match s with
  | String c s' => nat_of_digits (10 * acc + Z.of_N (Str.code c - 48)) s'
  | EmptyString => acc
  end.

(** The integer part: an optional minus sign, then either a single 0 or a
    run of digits that does not start with 0. *)
Definition int_part (s : string) : option (string * string) :=
  let '(sign, s1) :=
    match s with
    | String c s' => if (Str.code c =? 45)%N then ("-", s') else ("", s)
    | EmptyString => ("", s)
    end in
  match s1 with
  | String c s' =>
      if (Str.code c =? 48)%N then Some (sign ++ "0", s')
      else if is_digit c
           then let '(d, r) := digits s1 in Some (sign ++ d, r)
           else None
  | EmptyString => None
  end.

(** The optional fraction: a dot and at least one digit *)
Definition frac_part (s : string) : string * string :=
  match s with
  | String c s' =>
      if (Str.code c =? 46)%N
      then match digits s' with
           | (EmptyString, _) => (EmptyString, s)
           | (d, r) => (String c d, r)
           end
      else (EmptyString, s)
  | EmptyString => (EmptyString, s)
  end.

(** The optional exponent: e or E, an optional sign, at least one digit *)
Definition exp_part (s : string) : string * string :=
  match s with
  | String c s' =>
      if ((Str.code c =? 101) || (Str.code c =? 69))%N
      then
        let '(sign, s1) :=
          match s' with
          | String g s'' =>
              if ((Str.code g =? 45) || (Str.code g =? 43))%N
              then (String g EmptyString, s'') else (EmptyString, s')
          | EmptyString => (EmptyString, s')
          end in
        match digits s1 with
        | (EmptyString, _) => (EmptyString, s)
        | (d, r) => (String c (sign ++ d), r)
        end
      else (EmptyString, s)
  | EmptyString => (EmptyString, s)
  end.

Definition int_of_lexeme (s : string) : Z :=
  match s with
  | String c s' =>
      if (Str.code c =? 45)%N then - nat_of_digits 0 s' else nat_of_digits 0 s
  | EmptyString => 0
  end.

Definition scan_number (s : string) : option (pyval * string) :=
  match int_part s with
  | None => None
  | Some (i, r1) =>
      let '(f, r2) := frac_part r1 in
      let '(e, r3) := exp_part r2 in
      match f, e with
      | EmptyString, EmptyString => Some (PInt (int_of_lexeme i), r3)
      | _, _ => Some (PFloat (i ++ f ++ e), r3)
      end
  end.

Definition hex_value (c : ascii) : option N :=
  let n := Str.code c in
  if ((48 <=? n) && (n <=? 57))%N then Some (n - 48)%N
  else if ((97 <=? n) && (n <=? 102))%N then Some (n - 87)%N
  else if ((65 <=? n) && (n <=? 70))%N then Some (n - 55)%N
  else None.

(** Four hexadecimal digits at the head of [s] *)
Definition hex4 (s : string) : option (N * string) :=
  match s with
  | String a (String b (String c (String d r))) =>
      match hex_value a, hex_value b, hex_value c, hex_value d with
      | Some x, Some y, Some z, Some w =>
          Some (((x * 16 + y) * 16 + z) * 16 + w, r)%N
      | _, _, _, _ => None
      end
  | _ => None
  end.

(** The UTF-8 bytes of a code point, most significant first. *)
Definition utf8 (n : N) : string :=
  let b (x : N) := ascii_of_N x in
  (if n <? 128 then String (b n) EmptyString
   else if n <? 2048
        then String (b (192 + n / 64)) (String (b (128 + n mod 64)) EmptyString)
   else if n <? 65536
        then String (b (224 + n / 4096))
               (String (b (128 + (n / 64) mod 64))
                  (String (b (128 + n mod 64)) EmptyString))
   else String (b (240 + n / 262144))
          (String (b (128 + (n / 4096) mod 64))
             (String (b (128 + (n / 64) mod 64))
                (String (b (128 + n mod 64)) EmptyString))))%N.

(** A [\uXXXX] escape, after the [u]: a high surrogate followed by an escaped
    low surrogate makes one code point. *)
Definition unicode_escape (s : string) : option (string * string) :=
  match hex4 s with
  | None => None
  | Some (hi, r) =>
      let single := Some (utf8 hi, r) in
      if ((55296 <=? hi) && (hi <=? 56319))%N
      then match r with
           | String a (String b r') =>
               if Ascii.eqb a Py.backslash && (Str.code b =? 117)%N
               then match hex4 r' with
                    | Some (lo, r'') =>
                        if ((56320 <=? lo) && (lo <=? 57343))%N
                        then Some (utf8 (65536 + (hi - 55296) * 1024
                                         + (lo - 56320))%N, r'')
                        else single
                    | None => single
                    end
               else single
           | _ => single
           end
      else single
  end.

(** The body of a string literal, after its opening quote, up to and
    including the closing one; [acc] holds the decoded text backwards.  A
    control character is refused (the decoder is strict). *)
Fixpoint scan_string (fuel : nat) (s : string) (acc : string)
  : option (string * string) :=
  match fuel with
  | O => None
  | S fuel' =>
      match s with
      | EmptyString => None
      | String c s' =>
          let n := Str.code c in
          if (n =? 34)%N then Some (Str.rev_append acc EmptyString, s')
          else if (n <? 32)%N then None
          else if (n =? 92)%N then
            match s' with
            | EmptyString => None
            | String e s'' =>
                let m := Str.code e in
                let plain (x : N) :=
                  scan_string fuel' s'' (String (ascii_of_N x) acc) in
                if (m =? 34)%N then plain 34%N
                else if (m =? 92)%N then plain 92%N
                else if (m =? 47)%N then plain 47%N
                else if (m =? 98)%N then plain 8%N
                else if (m =? 102)%N then plain 12%N
                else if (m =? 110)%N then plain 10%N
                else if (m =? 114)%N then plain 13%N
                else if (m =? 116)%N then plain 9%N
                else if (m =? 117)%N then
                  match unicode_escape s'' with
                  | Some (bytes, r) =>
                      scan_string fuel' r (Str.rev_append bytes acc)
                  | None => None
                  end
                else None
            end
          else scan_string fuel' s' (String c acc)
      end
  end.

Definition literal (word : string) (v : pyval) (s : string)
  : option (pyval * string) :=
  if Str.startswith word s
  then Some (v, Str.drop (String.length word) s)
  else None.

(** [scan_once]: a value at the head of [s] (no leading white space), then
    the elements of an array and the members of an object. *)
Fixpoint value (fuel : nat) (s : string) : option (pyval * string) :=
  match fuel with
  | O => None
  | S fuel' =>
      match s with
      | EmptyString => None
      | String c s' =>
          let n := Str.code c in
          if (n =? 34)%N then
            match scan_string (S (String.length s')) s' EmptyString with
            | Some (t, r) => Some (PStr t, r)
            | None => None
            end
          else if (n =? 123)%N then
            match skip_ws s' with
            | String d r =>
                if (Str.code d =? 125)%N then Some (PDict [], r)
                else members fuel' (skip_ws s') []
            | EmptyString => None
            end
          else if (n =? 91)%N then
            match skip_ws s' with
            | String d r =>
                if (Str.code d =? 93)%N then Some (PList [], r)
                else elements fuel' (skip_ws s') []
            | EmptyString => None
            end
          else if (n =? 110)%N then literal "null" PNone s
          else if (n =? 116)%N then literal "true" (PBool true) s
          else if (n =? 102)%N then literal "false" (PBool false) s
          else
            match scan_number s with
            | Some r => Some r
            | None =>
                if (n =? 78)%N then literal "NaN" (PFloat "NaN") s
                else if (n =? 73)%N then literal "Infinity" (PFloat "Infinity") s
                else if (n =? 45)%N
                     then literal "-Infinity" (PFloat "-Infinity") s
                else None
            end
      end
  end
with elements (fuel : nat) (s : string) (acc : list pyval)
  : option (pyval * string) :=
  match fuel with
  | O => None
  | S fuel' =>
      match value fuel' s with
      | None => None
      | Some (v, r) =>
          match skip_ws r with
          | String d r' =>
              if (Str.code d =? 93)%N then Some (PList (rev (v :: acc)), r')
              else if (Str.code d =? 44)%N
                   then elements fuel' (skip_ws r') (v :: acc)
              else None
          | EmptyString => None
          end
      end
  end
with members (fuel : nat) (s : string) (acc : list (string * pyval))
  : option (pyval * string) :=
  match fuel with
  | O => None
  | S fuel' =>
      match s with
      | String q s' =>
          if (Str.code q =? 34)%N then
            match scan_string (S (String.length s')) s' EmptyString with
            | None => None
            | Some (k, r) =>
                match skip_ws r with
                | String col r1 =>
                    if (Str.code col =? 58)%N then
                      match value fuel' (skip_ws r1) with
                      | None => None
                      | Some (v, r2) =>
                          let acc' := Py.dict_set k v acc in
                          match skip_ws r2 with
                          | String d r3 =>
                              if (Str.code d =? 125)%N
                              then Some (PDict acc', r3)
                              else if (Str.code d =? 44)%N
                                   then members fuel' (skip_ws r3) acc'
                              else None
                          | EmptyString => None
                          end
                      end
                    else None
                | EmptyString => None
                end
            end
          else None
      | EmptyString => None
      end
  end.

Definition decode_error : exn :=
  mkExn JSONDecodeError "the document is not valid JSON".

(** [json.loads(s)]: one value between optional white space, and nothing
    after it.  Every call of the scanner consumes a character within two
    steps, so twice the length is fuel enough. *)
Definition loads (s : string) : res pyval :=
  match value (2 * String.length s + 2) (skip_ws s) with
  | Some (v, r) =>
      match skip_ws r with
      | EmptyString => Ok v
      | _ => Raise decode_error
      end
  | None => Raise decode_error
  end.

(** *** [json.dumps] with its defaults: ASCII output, [", "] and [": "] *)

Definition u_escape (n : N) : string :=
  String Py.backslash
    (String "u"
       (String (Str.hex_digit (n / 4096))
          (String (Str.hex_digit ((n / 256) mod 16))
             (String (Str.hex_digit ((n / 16) mod 16))
                (String (Str.hex_digit (n mod 16)) EmptyString))))).

(** A code point beyond the basic plane is written as a surrogate pair. *)
Definition escape_code_point (n : N) : string :=
  (if n <? 65536 then u_escape n
   else u_escape (55296 + (n - 65536) / 1024)
          ++ u_escape (56320 + (n - 65536) mod 1024))%N.

Definition is_cont (c : ascii) : bool :=
  let n := Str.code c in ((128 <=? n) && (n <? 192))%N.

Definition cont (c : ascii) : N := (Str.code c - 128)%N.

(** The escaped text of a string: a printable ASCII character stands for
    itself, a UTF-8 sequence is written as the escape of its code point, and
    a byte that starts no sequence as the escape of its own value. *)
Fixpoint escape_chars (s : string) : string :=
  match s with
  | EmptyString => EmptyString
  | String c s' =>
      let n := Str.code c in
      let two :=
        match s' with
        | String c1 _ => ((192 <=? n) && (n <? 224))%N && is_cont c1
        | _ => false
        end in
      let three :=
        match s' with
        | String c1 (String c2 _) =>
            ((224 <=? n) && (n <? 240))%N && is_cont c1 && is_cont c2
        | _ => false
        end in
      let four :=
        match s' with
        | String c1 (String c2 (String c3 _)) =>
            ((240 <=? n) && (n <? 248))%N && is_cont c1 && is_cont c2 && is_cont c3
        | _ => false
        end in
      if (n =? 34)%N then String Py.backslash (String c (escape_chars s'))
      else if (n =? 92)%N then String Py.backslash (String c (escape_chars s'))
      else if (n =? 10)%N then String Py.backslash (String "n" (escape_chars s'))
      else if (n =? 13)%N then String Py.backslash (String "r" (escape_chars s'))
      else if (n =? 9)%N then String Py.backslash (String "t" (escape_chars s'))
      else if (n =? 8)%N then String Py.backslash (String "b" (escape_chars s'))
      else if (n =? 12)%N then String Py.backslash (String "f" (escape_chars s'))
      else if ((32 <=? n) && (n <=? 126))%N then String c (escape_chars s')
      else if two then
        match s' with
        | String c1 r =>
            escape_code_point ((n - 192) * 64 + cont c1)%N ++ escape_chars r
        | _ => EmptyString
        end
      else if three then
        match s' with
        | String c1 (String c2 r) =>
            escape_code_point (((n - 224) * 64 + cont c1) * 64 + cont c2)%N
              ++ escape_chars r
        | _ => EmptyString
        end
      else if four then
        match s' with
        | String c1 (String c2 (String c3 r)) =>
            escape_code_point
              ((((n - 240) * 64 + cont c1) * 64 + cont c2) * 64 + cont c3)%N
              ++ escape_chars r
        | _ => EmptyString
        end
      else u_escape n ++ escape_chars s'
  end.

Definition dumps_str (s : string) : string :=
  String Py.dquote (escape_chars s ++ String Py.dquote EmptyString).

Fixpoint dumps (v : pyval) : string :=
  match v with
  | PNone => "null"
  | PBool true => "true"
  | PBool false => "false"
  | PInt z => Str.of_Z z
  | PFloat l => l
  | PStr s => dumps_str s
  | PList l => "[" ++ Str.join ", " (map dumps l) ++ "]"
  | PDict d =>
      "{" ++ Str.join ", "
               (map (fun kv => dumps_str (fst kv) ++ ": " ++ dumps (snd kv)) d)
          ++ "}"
  end.

(** *** The limits of the interpreter

    [json.loads] converts an integer literal with [int], which raises
    ValueError when the literal has more digits than the interpreter allows
    (4300 by default), and it raises RecursionError when arrays and objects
    are nested deeper than the interpreter still has room for.  A text that
    has no longer run of digits and no more opening brackets than that is
    within both limits, whatever else it holds. *)

Definition INT_MAX_STR_DIGITS : nat := 4300.

(** The longest run of digits of [s]; [run] is the length of the run that
    ends where [s] starts. *)
Fixpoint longest_digit_run (s : string) (run : nat) : nat :=
  match s with
  | EmptyString => run
  | String c s' =>
      if is_digit c then longest_digit_run s' (S run)
      else Nat.max run (longest_digit_run s' O)
  end.

(** The number of opening brackets and braces of [s] *)
Fixpoint brackets (s : string) : nat :=
  match s with
  | EmptyString => O
  | String c s' =>
      ((if ((Str.code c =? 91) || (Str.code c =? 123))%N then 1 else 0)
       + brackets s')%nat
  end.

Definition within_limits (room : nat) (s : string) : bool :=
  (brackets s <=? room)%nat && (longest_digit_run s O <=? INT_MAX_STR_DIGITS)%nat.

End Json.

(* ===================================================================== *)
(** ** The world: configuration, caches, clock, network, files, trace *)
(* ===================================================================== *)

Inductive body : Type :=
| NoBody
| JsonBody (v : pyval)                       (* [json=...] *)
| FormBody (fields : list (string * string)). (* [data=...] *)

Record Request : Type := mkRequest {
  req_method : string;
  req_url : string;
  req_headers : list (string * string);
  req_body : body;
  req_timeout : Z
}.

Record Response : Type := mkResponse {
  status_code : Z;
  content_type : string;
  text : string
}.

(** What the network does with one request: it answers or the call raises,
    after some time has passed. *)
Inductive net_outcome : Type :=
| Responds (elapsed : Z) (r : Response)
| Fails (elapsed : Z) (e : exn).

(** The observable actions of the process, in the order they happen. *)
Inductive event : Type :=
| ENet (r : Request)                      (* an HTTP request is sent *)
| ESleep (seconds : Z)                    (* [time.sleep] *)
| ELog (logger level message : string)    (* a call of a logger *)
| EAcquire (lock : string)                (* entering [with lock:] *)
| ERelease (lock : string).               (* leaving it *)

(** [_stats] of app.py *)
Record Stats : Type := mkStats {
  start_time : string;
  webhooks_received : Z;
  created : Z;
  duplicates : Z;
  skipped : Z;
  errors : Z;
  last_webhook : option string;
  last_created : option string;
  recent_events : list pyval
}.

Record World : Type := mkWorld {
  (* the process environment *)
  environ : list (string * string);
  (* the order in which the members of a set of strings are iterated (it
     follows the hash seed of the process) *)
  hash_order : list string -> list string;
  (* how many arrays and objects inside one another the interpreter has room
     for wherever the process reads a JSON document or writes it back, the
     entry it wraps around it included; beyond that it raises RecursionError
     (it follows the recursion limit of the interpreter and the depth of the
     calls) *)
  json_room : nat;
  (* module constants, read from the environment at import *)
  RETELL_API_KEY : string;
  SLACK_WEBHOOK_URL : string;
  SF_REQUEST_TIMEOUT : Z;
  SF_TOKEN_CACHE_TTL : Z;
  (* the globals of salesforce_client.py *)
  cached_token : pyval;
  cached_instance : pyval;
  token_fetched_at : option Z;
  (* the clock, in microseconds *)
  clock : Z;
  (* the network: the answers to the requests still to come, each a function
     of the request, and how a request fails once they are used up *)
  net_script : list (Request -> net_outcome);
  net_down : Request -> exn;
  (* what the process has done so far *)
  trace : list event;
  (* the files of the working directory *)
  files : list (string * string);
  (* the counters of app.py *)
  stats : Stats
}.

Definition set_cache (t i : pyval) (at_ : option Z) (w : World) : World :=
  mkWorld (environ w) (hash_order w) (json_room w) (RETELL_API_KEY w) (SLACK_WEBHOOK_URL w)
          (SF_REQUEST_TIMEOUT w) (SF_TOKEN_CACHE_TTL w)
          t i at_
          (clock w) (net_script w) (net_down w) (trace w) (files w) (stats w).

Definition set_clock (c : Z) (w : World) : World :=
  mkWorld (environ w) (hash_order w) (json_room w) (RETELL_API_KEY w) (SLACK_WEBHOOK_URL w)
          (SF_REQUEST_TIMEOUT w) (SF_TOKEN_CACHE_TTL w)
          (cached_token w) (cached_instance w) (token_fetched_at w)
          c (net_script w) (net_down w) (trace w) (files w) (stats w).

Definition set_net_script (s : list (Request -> net_outcome)) (w : World) : World :=
  mkWorld (environ w) (hash_order w) (json_room w) (RETELL_API_KEY w) (SLACK_WEBHOOK_URL w)
          (SF_REQUEST_TIMEOUT w) (SF_TOKEN_CACHE_TTL w)
          (cached_token w) (cached_instance w) (token_fetched_at w)
          (clock w) s (net_down w) (trace w) (files w) (stats w).

Definition set_trace (t : list event) (w : World) : World :=
  mkWorld (environ w) (hash_order w) (json_room w) (RETELL_API_KEY w) (SLACK_WEBHOOK_URL w)
          (SF_REQUEST_TIMEOUT w) (SF_TOKEN_CACHE_TTL w)
          (cached_token w) (cached_instance w) (token_fetched_at w)
          (clock w) (net_script w) (net_down w) t (files w) (stats w).

Definition set_files (f : list (string * string)) (w : World) : World :=
  mkWorld (environ w) (hash_order w) (json_room w) (RETELL_API_KEY w) (SLACK_WEBHOOK_URL w)
          (SF_REQUEST_TIMEOUT w) (SF_TOKEN_CACHE_TTL w)
          (cached_token w) (cached_instance w) (token_fetched_at w)
          (clock w) (net_script w) (net_down w) (trace w) f (stats w).

Definition set_stats (s : Stats) (w : World) : World :=
  mkWorld (environ w) (hash_order w) (json_room w) (RETELL_API_KEY w) (SLACK_WEBHOOK_URL w)
          (SF_REQUEST_TIMEOUT w) (SF_TOKEN_CACHE_TTL w)
          (cached_token w) (cached_instance w) (token_fetched_at w)
          (clock w) (net_script w) (net_down w) (trace w) (files w) s.

(** *** The monad of effectful code *)

Definition M (A : Type) : Type := World -> res A * World.

Definition ret {A} (a : A) : M A := fun w => (Ok a, w).

Definition raise {A} (e : exn) : M A := fun w => (Raise e, w).

Definition bind {A B} (m : M A) (k : A -> M B) : M B :=
  fun w =>
    match m w with
    | (Ok a, w') => k a w'
    | (Raise e, w') => (Raise e, w')
    end.

(** A pure computation that may raise *)
Definition lift {A} (r : res A) : M A := fun w => (r, w).

(** [try: body  except <classes accepted by catches> as e: handler(e)] *)
Definition try_except {A} (body : M A) (catches : exn -> bool)
           (handler : exn -> M A) : M A :=
  fun w =>
    match body w with
    | (Ok a, w') => (Ok a, w')
    | (Raise e, w') => if catches e then handler e w' else (Raise e, w')
    end.

(** [except Exception]: every class of the model derives from it *)
Definition any_exception (e : exn) : bool := true.

Declare Scope m_scope.
Delimit Scope m_scope with M.
Notation "x <- e ;; k" := (bind e (fun x => k))
  (at level 100, e at next level, right associativity) : m_scope.
Notation "' pat <- e ;; k" := (bind e (fun x => match x with pat => k end))
  (at level 100, pat pattern, e at next level, right associativity) : m_scope.
Notation "e ;; k" := (bind e (fun _ => k))
  (at level 100, right associativity) : m_scope.
Local Open Scope m_scope.

Definition emit (e : event) : M unit :=
  fun w => (Ok tt, set_trace (trace w ++ [e]) w).

Definition log (logger level message : string) : M unit :=
  emit (ELog logger level message).

(** [with lock: body]: the lock is released on every way out *)
Definition with_lock {A} (lock : string) (body : M A) : M A :=
  fun w =>
    let '(_, w1) := emit (EAcquire lock) w in
    let '(r, w2) := body w1 in
    let '(_, w3) := emit (ERelease lock) w2 in
    (r, w3).

(** [datetime.now()] *)
Definition datetime_now : M Z := fun w => (Ok (clock w), w).

Definition advance (dt : Z) (w : World) : World := set_clock (clock w + dt) w.

(** [time.sleep(seconds)] *)
Definition sleep (seconds : Z) : M unit :=
  fun w =>
    let '(_, w1) := emit (ESleep seconds) w in
    (Ok tt, advance (seconds * 1000000) w1).

(** One HTTP exchange ([requests.get], [requests.post]): the request is
    sent, and the next entry of the script decides what comes back. *)
Definition http (req : Request) : M Response :=
  fun w =>
    let '(_, w1) := emit (ENet req) w in
    match net_script w1 with
    | f :: rest =>
        match f req with
        | Responds dt r => (Ok r, advance dt (set_net_script rest w1))
        | Fails dt e => (Raise e, advance dt (set_net_script rest w1))
        end
    | [] => (Raise (net_down w1 req), w1)
    end.

Fixpoint assoc (k : string) (l : list (string * string)) : option string :=
  match l with
  | [] => None
  | (k', v) :: l' => if String.eqb k' k then Some v else assoc k l'
  end.

(** [os.environ.get(name)] *)
Definition getenv (name : string) : M (option string) :=
  fun w => (Ok (assoc name (environ w)), w).

(** The truth value of [os.environ.get(name)] *)
Definition env_set (o : option string) : bool :=
  match o with
  | Some s => negb (String.eqb s "")
  | None => false
  end.

Definition env_or (o : option string) (default : string) : string :=
  match o with Some s => s | None => default end.

(** [resp.raise_for_status()]: a status from 400 to 599 raises *)
Definition raise_for_status (url : string) (resp : Response) : M unit :=
  if (400 <=? status_code resp) && (status_code resp <? 600)
  then raise (mkExn HTTPError
                (Str.of_Z (status_code resp) ++ " Error for url: " ++ url))
  else ret tt.

(** [resp.json()] *)
Definition resp_json (resp : Response) : M pyval := lift (Json.loads (text resp)).

(* ===================================================================== *)
(** ** salesforce_client.py *)
(* ===================================================================== *)

Definition SF_API_VERSION : string := "v59.0".

Definition sf_log := log "sf_client".

Definition bearer (token : pyval) : list (string * string) :=
  [("Authorization", "Bearer " ++ Py.str token)].

(** Mode 2: the connector of the hosting platform.  [None, None] when it is
    not configured or holds no connection. *)
Definition _refresh_via_connector : M (pyval * pyval) :=
  hostname <- getenv "REPLIT_CONNECTORS_HOSTNAME" ;;
  repl_identity <- getenv "REPL_IDENTITY" ;;
  web_repl <- getenv "WEB_REPL_RENEWAL" ;;
  let token :=
    if env_set repl_identity then Some ("repl " ++ env_or repl_identity "")
    else if env_set web_repl then Some ("depl " ++ env_or web_repl "")
    else None in
  match token with
  | None => ret (PNone, PNone)
  | Some token =>
      if negb (env_set hostname) then ret (PNone, PNone)
      else
        timeout <- (fun w => (Ok (SF_REQUEST_TIMEOUT w), w)) ;;
        let url := "https://" ++ env_or hostname ""
                   ++ "/api/v2/connection?include_secrets=true&connector_names=salesforce" in
        resp <- http (mkRequest "GET" url
                        [("Accept", "application/json"); ("X-Replit-Token", token)]
                        NoBody timeout) ;;
        raise_for_status url resp ;;
        data <- resp_json resp ;;
        items <- lift (Py.get data "items" PNone) ;;
        item <- lift (Py.first (Py.or_ items (PList [PNone]))) ;;
        if negb (Py.truthy item) then ret (PNone, PNone)
        else
          settings <- lift (Py.get item "settings" (PDict [])) ;;
          direct <- lift (Py.get settings "access_token" PNone) ;;
          access_token <-
            (if Py.truthy direct then ret direct
             else
               oauth <- lift (Py.get settings "oauth" (PDict [])) ;;
               credentials <- lift (Py.get oauth "credentials" (PDict [])) ;;
               lift (Py.get credentials "access_token" PNone)) ;;
          instance_url <- lift (Py.get settings "instance_url" PNone) ;;
          ret (access_token, instance_url)
  end.

(** The text an authentication failure reports: the parsed body when the
    answer says it is JSON, its text otherwise. *)
Definition error_detail (resp : Response) : M string :=
  if Str.startswith "application/json" (content_type resp)
  then (v <- resp_json resp ;; ret (Py.str v))
  else ret (text resp).

(** The token exchange shared by modes 3 and 4 once the form is built. *)
Definition token_exchange (login_url : string) (form : list (string * string))
           (failure : string) : M (pyval * pyval) :=
  timeout <- (fun w => (Ok (SF_REQUEST_TIMEOUT w), w)) ;;
  resp <- http (mkRequest "POST" (login_url ++ "/services/oauth2/token") []
                  (FormBody form) timeout) ;;
  if negb (status_code resp =? 200) then
    detail <- error_detail resp ;;
    raise (mkExn RuntimeError
             (failure ++ " (" ++ Str.of_Z (status_code resp) ++ "): " ++ detail))
  else
    data <- resp_json resp ;;
    access_token <- lift (Py.getitem data "access_token") ;;
    instance_url <- lift (Py.getitem data "instance_url") ;;
    ret (access_token, instance_url).

(** Mode 3: a refresh token *)
Definition _refresh_via_oauth : M (pyval * pyval) :=
  client_id <- getenv "SF_CLIENT_ID" ;;
  client_secret <- getenv "SF_CLIENT_SECRET" ;;
  refresh_token <- getenv "SF_REFRESH_TOKEN" ;;
  login_url <- getenv "SF_LOGIN_URL" ;;
  let login_url := env_or login_url "https://surestaff.my.salesforce.com" in
  if negb (env_set client_id && env_set client_secret && env_set refresh_token)
  then raise (mkExn RuntimeError
    "Refresh Token mode requires: SF_CLIENT_ID, SF_CLIENT_SECRET, SF_REFRESH_TOKEN")
  else
    token_exchange login_url
      [("grant_type", "refresh_token");
       ("refresh_token", env_or refresh_token "");
       ("client_id", env_or client_id "");
       ("client_secret", env_or client_secret "")]
      "Salesforce refresh token auth failed".

(** Mode 4: user name and password *)
Definition _refresh_via_password : M (pyval * pyval) :=
  client_id <- getenv "SF_CLIENT_ID" ;;
  client_secret <- getenv "SF_CLIENT_SECRET" ;;
  username <- getenv "SF_USERNAME" ;;
  password <- getenv "SF_PASSWORD" ;;
  security_token <- getenv "SF_SECURITY_TOKEN" ;;
  login_url <- getenv "SF_LOGIN_URL" ;;
  let login_url := env_or login_url "https://login.salesforce.com" in
  if negb (env_set client_id && env_set client_secret && env_set username)
  then raise (mkExn RuntimeError
    "Direct OAuth requires: SF_CLIENT_ID, SF_CLIENT_SECRET, SF_USERNAME, SF_PASSWORD, SF_SECURITY_TOKEN")
  else
    token_exchange login_url
      [("grant_type", "password");
       ("client_id", env_or client_id "");
       ("client_secret", env_or client_secret "");
       ("username", env_or username "");
       ("password", env_or password "" ++ env_or security_token "")]
      "Salesforce OAuth failed".

(** Writes the three cache globals and returns the pair. *)
Definition remember (token instance : pyval) : M (pyval * pyval) :=
  fun w => (Ok (token, instance), set_cache token instance (Some (clock w)) w).

(** [if _cached_token and _token_fetched_at: age < SF_TOKEN_CACHE_TTL]:
    the cache holds a token that is still within its time to live. *)
Definition cache_fresh (w : World) : bool :=
  Py.truthy (cached_token w) &&
  match token_fetched_at w with
  | Some t => clock w - t <? SF_TOKEN_CACHE_TTL w * 1000000
  | None => false
  end.

Definition no_credentials : exn :=
  mkExn RuntimeError
    "No Salesforce credentials configured. Set one of:
  A) SF_ACCESS_TOKEN + SF_INSTANCE_URL (token mode)
  B) REPLIT_CONNECTORS_HOSTNAME (Replit mode)
  C) SF_CLIENT_ID + SF_CLIENT_SECRET + SF_REFRESH_TOKEN (refresh token — recommended)
  D) SF_CLIENT_ID + SF_CLIENT_SECRET + SF_USERNAME + SF_PASSWORD + SF_SECURITY_TOKEN (direct OAuth)".

(** Mode 2 as [get_salesforce_credentials] runs it: the connector is asked,
    its token is probed, and every failure falls through to the next mode
    ([None] here) with a warning. *)
Definition connector_mode : M (option (pyval * pyval)) :=
  try_except
    ('(token, instance) <- _refresh_via_connector ;;
     if Py.truthy token && Py.truthy instance then
       timeout <- (fun w => (Ok (SF_REQUEST_TIMEOUT w), w)) ;;
       test_resp <- http (mkRequest "GET"
                            (Py.str instance ++ "/services/data/" ++ SF_API_VERSION
                               ++ "/limits")
                            (bearer token) NoBody timeout) ;;
       if status_code test_resp =? 200 then
         remember token instance ;;
         sf_log "INFO" ("Authenticated via connector: " ++ Py.str instance) ;;
         ret (Some (token, instance))
       else
         sf_log "WARNING" "Connector token invalid, falling back to OAuth" ;;
         ret None
     else ret None)
    any_exception
    (fun e =>
       sf_log "WARNING"
         ("Connector auth failed (" ++ exn_msg e ++ "), falling back to OAuth") ;;
       ret None).

(** The strategy chain of [get_salesforce_credentials], modes 1 to 4: what
    the function runs once the cache check has not answered. *)
Definition resolve_chain : M (pyval * pyval) :=
  access <- getenv "SF_ACCESS_TOKEN" ;;
  instance <- getenv "SF_INSTANCE_URL" ;;
  if env_set access && env_set instance then
    sf_log "DEBUG" "Using Token mode (SF_ACCESS_TOKEN)" ;;
    remember (PStr (env_or access "")) (PStr (env_or instance ""))
  else
    connected <- connector_mode ;;
    match connected with
    | Some creds => ret creds
    | None =>
        refresh_token <- getenv "SF_REFRESH_TOKEN" ;;
        client_id <- getenv "SF_CLIENT_ID" ;;
        if env_set refresh_token && env_set client_id then
          '(token, instance) <- _refresh_via_oauth ;;
          remember token instance ;;
          sf_log "INFO" ("Authenticated via refresh token: " ++ Py.str instance) ;;
          ret (token, instance)
        else
          username <- getenv "SF_USERNAME" ;;
          if env_set client_id && env_set username then
            '(token, instance) <- _refresh_via_password ;;
            remember token instance ;;
            sf_log "INFO"
              ("Authenticated via username-password: " ++ Py.str instance) ;;
            ret (token, instance)
          else raise no_credentials
    end.

(** [get_salesforce_credentials()]: under the token lock, the cached pair
    while it is fresh, the strategy chain otherwise. *)
Definition get_salesforce_credentials : M (pyval * pyval) :=
  with_lock "_token_lock"
    (fun w =>
       if cache_fresh w then (Ok (cached_token w, cached_instance w), w)
       else resolve_chain w).

(** [_invalidate_token_cache()]: the token and its time are dropped, the
    cached instance stays. *)
Definition _invalidate_token_cache : M unit :=
  with_lock "_token_lock"
    (fun w => (Ok tt, set_cache PNone (cached_instance w) None w)).

(** [sf_api_get(path)]: an authenticated GET, tried once more with fresh
    credentials when the answer is 401. *)
Definition sf_api_get (path : string) : M pyval :=
  let get :=
    '(access_token, instance_url) <- get_salesforce_credentials ;;
    timeout <- (fun w => (Ok (SF_REQUEST_TIMEOUT w), w)) ;;
    let url := Py.str instance_url ++ "/services/data/" ++ SF_API_VERSION ++ path in
    resp <- http (mkRequest "GET" url
                    (bearer access_token ++ [("Content-Type", "application/json")])
                    NoBody timeout) ;;
    ret (url, resp) in
  '(url, resp) <- get ;;
  '(url, resp) <-
     (if status_code resp =? 401
      then _invalidate_token_cache ;; get
      else ret (url, resp)) ;;
  raise_for_status url resp ;;
  resp_json resp.

(** [sf_api_post(path, body)]: an authenticated POST of a JSON body, tried
    once more with fresh credentials when the answer is 401. *)
Definition sf_api_post (path : string) (body : pyval) : M pyval :=
  let post :=
    '(access_token, instance_url) <- get_salesforce_credentials ;;
    timeout <- (fun w => (Ok (SF_REQUEST_TIMEOUT w), w)) ;;
    let url := Py.str instance_url ++ "/services/data/" ++ SF_API_VERSION ++ path in
    resp <- http (mkRequest "POST" url
                    (bearer access_token ++ [("Content-Type", "application/json")])
                    (JsonBody body) timeout) ;;
    ret (url, resp) in
  '(url, resp) <- post ;;
  '(url, resp) <-
     (if status_code resp =? 401
      then _invalidate_token_cache ;; post
      else ret (url, resp)) ;;
  raise_for_status url resp ;;
  resp_json resp.

(** [urllib.parse.quote] with its default safe set: letters, digits and
    [_.-~/] stay, every other byte becomes a percent escape. *)
Definition quote_char (c : ascii) : string :=
  let n := Str.code c in
  if ((48 <=? n) && (n <=? 57) || (65 <=? n) && (n <=? 90)
      || (97 <=? n) && (n <=? 122)
      || (n =? 95) || (n =? 46) || (n =? 45) || (n =? 126) || (n =? 47))%N
  then String c EmptyString
  else String "%" (String (Str.hex_digit_upper (n / 16))
                          (String (Str.hex_digit_upper (n mod 16)) EmptyString)).

Fixpoint quote (s : string) : string :=
  match s with
  | EmptyString => EmptyString
  | String c s' => quote_char c ++ quote s'
  end.

(** [sf_query(soql)] *)
Definition sf_query (soql : string) : M pyval :=
  sf_api_get ("/query?q=" ++ quote soql).

(** The values a [for] loop (or [list.extend]) draws from [v] *)
Definition chars (s : string) : list pyval := map PStr (Str.chars s).

Definition iterate (v : pyval) : res (list pyval) :=
  match v with
  | PList l => Ok l
  | PStr s => Ok (chars s)
  | PDict d => Ok (map (fun kv => PStr (fst kv)) d)
  | _ => Raise (mkExn TypeError
                  ("'" ++ Py.type_name v ++ "' object is not iterable"))
  end.

(** The lookup of the bound method [records.extend], before its argument is
    evaluated. *)
Definition has_extend (records : pyval) : res unit :=
  match records with
  | PList _ => Ok tt
  | _ => Raise (Py.no_attribute records "extend")
  end.

(** [records.extend(more)] *)
Definition extend (records more : pyval) : res pyval :=
  match records with
  | PList l => more' <~ iterate more ;; Ok (PList (l ++ more'))
  | _ => Raise (Py.no_attribute records "extend")
  end.

Definition out_of_pages : exn := mkExn (OtherError "OutOfPages") "".

(** The [while] loop of [sf_query_all].  Every turn sends a request, and a
    request that finds the script used up raises, so a loop started with
    more fuel than the script has entries never reaches [out_of_pages]. *)
Fixpoint query_pages (fuel : nat) (result records : pyval) : M pyval :=
  match fuel with
  | O => raise out_of_pages
  | S fuel' =>
      done <- lift (Py.get result "done" (PBool true)) ;;
      more <- (if negb (Py.truthy done)
               then (next <- lift (Py.get result "nextRecordsUrl" PNone) ;;
                     ret (Py.truthy next))
               else ret false) ;;
      if more then
        next_url <- lift (Py.getitem result "nextRecordsUrl") ;;
        versioned <- lift (Py.startswith next_url "/services/data/") ;;
        let next_url :=
          if versioned
          then Str.drop (String.length ("/services/data/" ++ SF_API_VERSION))
                        (Py.str next_url)
          else Py.str next_url in
        result' <- sf_api_get next_url ;;
        lift (has_extend records) ;;
        page <- lift (Py.get result' "records" (PList [])) ;;
        records' <- lift (extend records page) ;;
        query_pages fuel' result' records'
      else ret records
  end.

(** [sf_query_all(soql)] *)
Definition sf_query_all (soql : string) : M pyval :=
  result <- sf_query soql ;;
  records <- lift (Py.get result "records" (PList [])) ;;
  fun w => query_pages (S (List.length (net_script w))) result records w.

(** [str.lower] on the letters the model is exact on, A to Z *)
Definition lower_char (c : ascii) : ascii :=
  let n := Str.code c in
  if ((65 <=? n) && (n <=? 90))%N then ascii_of_N (n + 32) else c.

Fixpoint lower (s : string) : string :=
  match s with
  | EmptyString => EmptyString
  | String c s' => String (lower_char c) (lower s')
  end.

(** [v.lower()] *)
Definition py_lower (v : pyval) : res string :=
  match v with
  | PStr s => Ok (lower s)
  | _ => Raise (Py.no_attribute v "lower")
  end.

(** [keyword_lower in obj.get(key, "").lower()] *)
Definition keyword_in (keyword_lower : string) (obj : pyval) (key : string) : res bool :=
  v <~ Py.get obj key (PStr "") ;;
  l <~ py_lower v ;;
  Ok (Str.contains keyword_lower l).

(** The filter of the comprehension of [find_sobjects]: the name, then the
    label, then the plural label *)
Definition sobject_matches (keyword_lower : string) (obj : pyval) : res bool :=
  by_name <~ keyword_in keyword_lower obj "name" ;;
  if by_name then Ok true
  else
    by_label <~ keyword_in keyword_lower obj "label" ;;
    if by_label then Ok true
    else keyword_in keyword_lower obj "labelPlural".

(** The dictionary the comprehension builds for an object that matches *)
Definition sobject_summary (obj : pyval) : res pyval :=
  name <~ Py.getitem obj "name" ;;
  label <~ Py.get obj "label" (PStr "") ;;
  labelPlural <~ Py.get obj "labelPlural" (PStr "") ;;
  keyPrefix <~ Py.get obj "keyPrefix" (PStr "") ;;
  custom <~ Py.get obj "custom" (PBool false) ;;
  queryable <~ Py.get obj "queryable" (PBool false) ;;
  urls <~ Py.get obj "urls" (PDict []) ;;
  Ok (PDict [("name", name); ("label", label); ("labelPlural", labelPlural);
             ("keyPrefix", keyPrefix); ("custom", custom);
             ("queryable", queryable); ("urls", urls)]).

Fixpoint match_sobjects (keyword_lower : string) (objects : list pyval)
  : res (list pyval) :=
  match objects with
  | [] => Ok []
  | obj :: rest =>
      matches <~ sobject_matches keyword_lower obj ;;
      if matches then
        summary <~ sobject_summary obj ;;
        more <~ match_sobjects keyword_lower rest ;;
        Ok (summary :: more)
      else match_sobjects keyword_lower rest
  end.

(** [find_sobjects(keyword)] *)
Definition find_sobjects (keyword : pyval) : M pyval :=
  sobjects_data <- sf_api_get "/sobjects" ;;
  all_objects <- lift (Py.get sobjects_data "sobjects" (PList [])) ;;
  keyword_lower <- lift (py_lower keyword) ;;
  objects <- lift (iterate all_objects) ;;
  matches <- lift (match_sobjects keyword_lower objects) ;;
  ret (PList matches).

(* ===================================================================== *)
(** ** violet_core.py *)
(* ===================================================================== *)

Definition STAGE_QUALIFIED : string := "New Application".
Definition STAGE_INTERESTED : string := "Candidate Interested".

Definition SYNC_QUAL_RESULTS : list string :=
  ["fully_qualified"; "partially_qualified"].
Definition SYNC_INTEREST_LEVELS : list string :=
  ["very_interested"; "somewhat_interested"].

Definition SKIP_AGENTS : list string :=
  ["SMS Violet - EMR Trainer Outreach"; "Violet - MedPro Inbound Lead Agent"].

Definition core_log := log "violet_core".

(** [classify_chat(chat)]: the pair (action, detail) *)
Definition classify_chat (chat : pyval) : res (string * string) :=
  agent <~ Py.get chat "agent_name" (PStr "") ;;
  skipped_agent <~ Py.in_set agent SKIP_AGENTS ;;
  if skipped_agent then Ok ("skip", "agent skipped: " ++ Py.str agent)
  else
    status <~ Py.get chat "chat_status" (PStr "") ;;
    if Py.eq_str status "ongoing" then Ok ("skip", "chat still ongoing")
    else
      ca0 <~ Py.get chat "chat_analysis" PNone ;;
      let ca := Py.or_ ca0 (PDict []) in
      custom0 <~ Py.get ca "custom_analysis_data" PNone ;;
      let custom := Py.or_ custom0 (PDict []) in
      if negb (Py.truthy custom) then Ok ("skip", "no analysis data")
      else
        opted_out <~ Py.get custom "opted_out" PNone ;;
        if Py.truthy opted_out then Ok ("skip", "opted out")
        else
          qual <~ Py.get custom "qualification_result" (PStr "") ;;
          if Py.in_tuple qual SYNC_QUAL_RESULTS
          then Ok ("qualified", STAGE_QUALIFIED)
          else
            interest <~ Py.get custom "interest_level" (PStr "") ;;
            if Py.in_tuple interest SYNC_INTEREST_LEVELS
            then Ok ("interested", STAGE_INTERESTED)
            else Ok ("skip",
                     "not qualified/interested (qual=" ++ Py.str qual
                       ++ ", interest=" ++ Py.str interest ++ ")").

(** [v and v.startswith('003') and len(v) >= 15] *)
Definition is_contact_id (v : pyval) : res bool :=
  if Py.truthy v then
    sw <~ Py.startswith v "003" ;;
    if sw then (n <~ Py.len v ;; Ok (15 <=? n)) else Ok false
  else Ok false.

(** [extract_contact_id(chat)] *)
Definition extract_contact_id (chat : pyval) : res pyval :=
  dv0 <~ Py.get chat "retell_llm_dynamic_variables" PNone ;;
  let dv := Py.or_ dv0 (PDict []) in
  meta0 <~ Py.get chat "metadata" PNone ;;
  let meta := Py.or_ meta0 (PDict []) in
  Py.has_get dv ;;~
  fallback <~ Py.get meta "candidate_id" (PStr "") ;;
  cid <~ Py.get dv "candidate_id" fallback ;;
  direct <~ is_contact_id cid ;;
  if direct then Ok cid
  else
    url <~ Py.get dv "candidate_salesforce_url" (PStr "") ;;
    linked <~ (if Py.truthy url then Py.contains "/Contact/" url else Ok false) ;;
    if linked then
      parts <~ Py.split url "/Contact/" ;;
      tail <~ Py.nth_str parts 1 ;;
      extracted <~ Py.nth_str (Str.split "/" tail) 0 ;;
      if Str.startswith "003" extracted && (15 <=? Str.len extracted)
      then Ok (PStr extracted)
      else Ok (PStr "")
    else Ok (PStr "").

(** [extract_job_id(chat)] *)
Definition extract_job_id (chat : pyval) : res pyval :=
  dv0 <~ Py.get chat "retell_llm_dynamic_variables" PNone ;;
  let dv := Py.or_ dv0 (PDict []) in
  url <~ Py.get dv "job_salesforce_url" (PStr "") ;;
  linked <~ (if Py.truthy url then Py.contains "/AVTRRT__Job__c/" url
             else Ok false) ;;
  if linked then
    parts <~ Py.split url "/AVTRRT__Job__c/" ;;
    tail <~ Py.nth_str parts 1 ;;
    extracted <~ Py.nth_str (Str.split "/" tail) 0 ;;
    Ok (PStr extracted)
  else
    j18 <~ Py.get dv "job_ID_18" (PStr "") ;;
    direct <~ (if Py.truthy j18 then Py.startswith j18 "a0F" else Ok false) ;;
    if direct then Ok j18 else Ok (PStr "").

(** A set of (contact id, job id) pairs, as the list of its members *)
Definition pairs : Type := list (string * string).

Definition pair_eqb (p q : string * string) : bool :=
  String.eqb (fst p) (fst q) && String.eqb (snd p) (snd q).

(** [p in s] *)
Definition pair_in (p : string * string) (s : pairs) : bool :=
  existsb (pair_eqb p) s.

(** [s.add(p)] *)
Definition pair_add (p : string * string) (s : pairs) : pairs :=
  if pair_in p s then s else (s ++ [p])%list.

(** The body of [for r in records]: the pair of one record, when it has
    one.  A pair whose component is not a string cannot be hashed. *)
Definition record_pair (r : pyval) : res (option (string * string)) :=
  cc <~ Py.get r "AVTRRT__Contact_Candidate__c" (PStr "") ;;
  jj <~ Py.get r "AVTRRT__Job__c" (PStr "") ;;
  if Py.truthy cc && Py.truthy jj then
    cc15 <~ Py.slice_to 15 cc ;;
    jj15 <~ Py.slice_to 15 jj ;;
    match cc15, jj15 with
    | PStr c, PStr j => Ok (Some (c, j))
    | PStr _, other | other, _ =>
        Raise (mkExn TypeError ("unhashable type: '" ++ Py.type_name other ++ "'"))
    end
  else Ok None.

(** [for r in records: ...] over the set built so far: the set after the
    loop, and the exception that cut the loop short, if one did.  The pairs
    added before the exception stay. *)
Fixpoint collect (records : list pyval) (existing : pairs)
  : pairs * option exn :=
  match records with
  | [] => (existing, None)
  | r :: rest =>
      match record_pair r with
      | Raise e => (existing, Some e)
      | Ok None => collect rest existing
      | Ok (Some p) => collect rest (pair_add p existing)
      end
  end.

(** The query of one batch *)
Definition dedup_soql (batch : list string) : string :=
  "SELECT AVTRRT__Contact_Candidate__c, AVTRRT__Job__c FROM AVTRRT__Job_Applicant__c WHERE AVTRRT__Contact_Candidate__c IN ('"
    ++ Str.join "','" batch ++ "')".

(** [range(0, n, 25)] *)
Definition batch_starts (n : nat) : list nat :=
  map (fun k => (25 * k)%nat) (seq 0 ((n + 24) / 25)).

(** [l[i:i + 25]] *)
Definition slice25 (l : list string) (i : nat) : list string :=
  firstn 25 (skipn i l).

(** Runs [m] and hands back its outcome, raised exception included, as a
    value: the way into a [try] block whose [except] clause goes on. *)
Definition attempt {A} (m : M A) : M (res A) :=
  fun w => let '(r, w') := m w in (Ok r, w').

Section VioletCore.

(** The two names violet_core imports from salesforce_client. *)
Variable sf_query_all : string -> M pyval.
Variable get_salesforce_credentials : M (pyval * pyval).

(** One turn of the loop of [check_existing_applicants]: the [try] block
    with its [except Exception] clause. *)
Definition dedup_batch (batch : list string) (existing : pairs) : M pairs :=
  queried <- attempt (sf_query_all (dedup_soql batch)) ;;
  let '(existing', failure) :=
    match queried with
    | Raise e => (existing, Some e)
    | Ok records =>
        match iterate records with
        | Raise e => (existing, Some e)
        | Ok rs => collect rs existing
        end
    end in
  match failure with
  | Some e =>
      core_log "WARNING" ("Dedup query failed for batch: " ++ exn_msg e) ;;
      ret existing'
  | None => ret existing'
  end.

Fixpoint dedup_loop (unique_ids : list string) (starts : list nat)
         (existing : pairs) : M pairs :=
  match starts with
  | [] => ret existing
  | i :: rest =>
      existing' <- dedup_batch (slice25 unique_ids i) existing ;;
      dedup_loop unique_ids rest existing'
  end.

(** [list(set(contact_ids))]: the set keeps one copy of each id, and the
    list holds them in the order the set is iterated. *)
Definition unique_list (contact_ids : list string) : M (list string) :=
  fun w => (Ok (hash_order w (nodup string_dec contact_ids)), w).

(** [check_existing_applicants(contact_ids)] *)
Definition check_existing_applicants (contact_ids : list string) : M pairs :=
  unique_ids <- unique_list contact_ids ;;
  dedup_loop unique_ids (batch_starts (List.length unique_ids)) [].

Definition create_url (instance_url : pyval) : string :=
  Py.str instance_url ++ "/services/data/v59.0/composite/sobjects".

Definition create_request (access_token instance_url payload : pyval) : Request :=
  mkRequest "POST" (create_url instance_url)
            (bearer access_token ++ [("Content-Type", "application/json")])
            (JsonBody payload) 120.

Definition unbound_resp : exn :=
  mkExn (OtherError "UnboundLocalError")
        "cannot access local variable 'resp' where it is not associated with a value".

(** The [try] block of one attempt: the answer, or [None] when the request
    raised [ReadTimeout] (the only class the [except] clause names). *)
Definition attempt_post (access_token instance_url payload : pyval)
  : M (option Response) :=
  try_except
    (resp <- http (create_request access_token instance_url payload) ;;
     ret (Some resp))
    is_ReadTimeout
    (fun _ => ret None).

(** [for attempt in range(3)] of [create_job_applicant]: the answer of the
    first attempt that does not time out, or [None] when the function
    returns from inside the loop. *)
Fixpoint post_loop (attempts : list Z) (access_token instance_url payload : pyval)
  : M (option Response) :=
  match attempts with
  | [] => raise unbound_resp
  | attempt :: rest =>
      posted <- attempt_post access_token instance_url payload ;;
      match posted with
      | Some resp => ret (Some resp)
      | None =>
          core_log "WARNING"
            ("SF timeout, attempt " ++ Str.of_Z (attempt + 1) ++ "/3") ;;
          if attempt <? 2 then
            '(access_token', instance_url') <- get_salesforce_credentials ;;
            sleep 2 ;;
            post_loop rest access_token' instance_url' payload
          else ret None
      end
  end.

Definition create_payload (contact_id job_id stage : pyval) : pyval :=
  PDict [("allOrNone", PBool false);
         ("records",
          PList [PDict [("attributes", PDict [("type", PStr "AVTRRT__Job_Applicant__c")]);
                        ("AVTRRT__Contact_Candidate__c", contact_id);
                        ("AVTRRT__Job__c", job_id);
                        ("AVTRRT__Stage__c", stage)]])].

Definition timeout_error : pyval := PDict [("error", PStr "timeout after 3 attempts")].

(** What [create_job_applicant] makes of the answer once the loop is left
    with one. *)
Definition read_create_response (record : pyval) (resp : Response)
  : M (bool * pyval) :=
  if status_code resp =? 200 then
    api_results <- resp_json resp ;;
    result <- lift (Py.first api_results) ;;
    success <- lift (Py.get result "success" PNone) ;;
    if Py.truthy success then
      contact_id <- lift (Py.getitem record "contact_id") ;;
      job_id <- lift (Py.getitem record "job_id") ;;
      id <- lift (Py.getitem result "id") ;;
      tier <- lift (Py.get record "tier" (PStr "?")) ;;
      core_log "INFO" ("CREATED: " ++ Py.str contact_id ++ " + " ++ Py.str job_id
                         ++ " -> " ++ Py.str id ++ " (" ++ Py.str tier ++ ")") ;;
      id' <- lift (Py.getitem result "id") ;;
      ret (true, PDict [("applicant_id", id')])
    else
      errs <- lift (Py.get result "errors" (PList [])) ;;
      let err := Py.str errs in
      contact_id <- lift (Py.getitem record "contact_id") ;;
      job_id <- lift (Py.getitem record "job_id") ;;
      core_log "ERROR" ("SF create failed: " ++ Py.str contact_id ++ " + "
                          ++ Py.str job_id ++ ": " ++ err) ;;
      ret (false, PDict [("error", PStr err)])
  else
    let detail := Str.of_Z (status_code resp) ++ ": " ++ Str.take 300 (text resp) in
    core_log "ERROR" ("SF API error " ++ detail) ;;
    ret (false, PDict [("error", PStr ("HTTP " ++ detail))]).

(** [create_job_applicant(record)]: the pair (success, result) *)
Definition create_job_applicant (record : pyval) : M (bool * pyval) :=
  '(access_token, instance_url) <- get_salesforce_credentials ;;
  contact_id <- lift (Py.getitem record "contact_id") ;;
  job_id <- lift (Py.getitem record "job_id") ;;
  stage <- lift (Py.getitem record "stage") ;;
  let payload := create_payload contact_id job_id stage in
  answered <- post_loop [0; 1; 2] access_token instance_url payload ;;
  match answered with
  | None => ret (false, timeout_error)
  | Some resp => read_create_response record resp
  end.

(** The tag of a log line: [chat_id[:12]] rendered in an f-string *)
Definition tag (chat_id : pyval) : res string :=
  short <~ Py.slice_to 12 chat_id ;; Ok ("[" ++ Py.str short ++ "] ").

Definition set_key (k : string) (v : pyval) (d : pyval) : pyval :=
  match d with
  | PDict l => PDict (Py.dict_set k v l)
  | _ => d
  end.

(** The text of a value that is known to be a string *)
Definition as_text (v : pyval) : string :=
  match v with PStr s => s | _ => EmptyString end.

(** The record [process_chat_webhook] proposes for creation, its fields in
    the order the dictionary display evaluates them *)
Definition build_record (chat : pyval) (action detail : string)
           (contact_id job_id chat_id : pyval) : res (list (string * pyval)) :=
  dv0 <~ Py.get chat "retell_llm_dynamic_variables" PNone ;;
  let dv := Py.or_ dv0 (PDict []) in
  ca0 <~ Py.get chat "chat_analysis" PNone ;;
  let ca := Py.or_ ca0 (PDict []) in
  custom0 <~ Py.get ca "custom_analysis_data" PNone ;;
  let custom := Py.or_ custom0 (PDict []) in
  conversation <~ Py.get custom "conversation_summary" PNone ;;
  summary0 <~ (if Py.truthy conversation then Ok conversation
               else Py.get ca "chat_summary" (PStr "")) ;;
  summary <~ Py.slice_to 500 summary0 ;;
  job_title <~ Py.get dv "job_title" (PStr "") ;;
  job_city <~ Py.get dv "job_city" (PStr "") ;;
  job_state <~ Py.get dv "job_state" (PStr "") ;;
  agent <~ Py.get chat "agent_name" (PStr "") ;;
  Ok [("contact_id", contact_id);
      ("job_id", job_id);
      ("stage", PStr detail);
      ("tier", PStr action);
      ("chat_id", chat_id);
      ("summary", summary);
      ("job_desc", PStr (Py.str job_title ++ " in " ++ Py.str job_city
                           ++ ", " ++ Py.str job_state));
      ("agent", agent)].

(** The end of [process_chat_webhook], from the answer of
    [create_job_applicant] on: the result is completed, the outcome logged
    and the notification sent. *)
Definition report_creation (chat_id result : pyval) (record : list (string * pyval))
           (notify_fn : option (string -> pyval -> M unit))
           (created_ : bool * pyval) : M pyval :=
  let '(success, sf_result) := created_ in
  let result := set_key "sf_result" sf_result result in
  let sf_fields := match sf_result with PDict l => l | _ => [] end in
  if success then
    applicant_id <- lift (Py.get sf_result "applicant_id" (PStr "")) ;;
    let detail' := "Job Applicant " ++ Py.str applicant_id ++ " created" in
    let result := set_key "detail" (PStr detail')
                    (set_key "action" (PStr "created") result) in
    t <- lift (tag chat_id) ;;
    core_log "INFO" (t ++ "CREATED: " ++ detail') ;;
    match notify_fn with
    | Some notify =>
        notify "created" (PDict (Py.dict_merge record sf_fields)) ;;
        ret result
    | None => ret result
    end
  else
    detail' <- lift (Py.get sf_result "error" (PStr "unknown SF error")) ;;
    let result := set_key "detail" detail'
                    (set_key "action" (PStr "error") result) in
    t <- lift (tag chat_id) ;;
    core_log "ERROR" (t ++ "ERROR: " ++ Py.str detail') ;;
    match notify_fn with
    | Some notify =>
        notify "error" (PDict (Py.dict_set "error" detail' record)) ;;
        ret result
    | None => ret result
    end.

(** [process_chat_webhook(chat, notify_fn)]: the result dictionary *)
Definition process_chat_webhook (chat : pyval)
           (notify_fn : option (string -> pyval -> M unit)) : M pyval :=
  chat_id <- lift (Py.get chat "chat_id" (PStr "unknown")) ;;
  let result := PDict [("chat_id", chat_id); ("action", PNone); ("detail", PNone)] in
  (* 1. classify *)
  '(action, detail) <- lift (classify_chat chat) ;;
  let result := set_key "detail" (PStr detail) (set_key "action" (PStr action) result) in
  if String.eqb action "skip" then
    t <- lift (tag chat_id) ;;
    core_log "INFO" (t ++ "SKIP: " ++ detail) ;;
    ret result
  else
    (* 2. extract the identifiers *)
    contact_id <- lift (extract_contact_id chat) ;;
    job_id <- lift (extract_job_id chat) ;;
    let result := set_key "job_id" job_id (set_key "contact_id" contact_id result) in
    if negb (Py.truthy contact_id) then
      t <- lift (tag chat_id) ;;
      core_log "WARNING" (t ++ "SKIP: no contact ID") ;;
      ret (set_key "detail" (PStr "no contact ID in chat data")
             (set_key "action" (PStr "skip") result))
    else if negb (Py.truthy job_id) then
      t <- lift (tag chat_id) ;;
      core_log "WARNING" (t ++ "SKIP: no job ID") ;;
      ret (set_key "detail" (PStr "no job ID in chat data")
             (set_key "action" (PStr "skip") result))
    else
      (* 3. deduplicate; [contact_id] is a string here *)
      existing <- check_existing_applicants [as_text contact_id] ;;
      contact15 <- lift (Py.slice_to 15 contact_id) ;;
      job15 <- lift (Py.slice_to 15 job_id) ;;
      present <- lift (match job15 with
                       | PStr j => Ok (pair_in (as_text contact15, j) existing)
                       | other => Raise (mkExn TypeError
                                   ("unhashable type: '" ++ Py.type_name other ++ "'"))
                       end) ;;
      if present then
        t <- lift (tag chat_id) ;;
        core_log "INFO" (t ++ "DEDUP: " ++ Py.str contact_id ++ " + "
                           ++ Py.str job_id ++ " already exists") ;;
        ret (set_key "detail" (PStr "job applicant already exists in SF")
               (set_key "action" (PStr "duplicate") result))
      else
        (* 4. build the record and create it *)
        record <- lift (build_record chat action detail contact_id job_id chat_id) ;;
        created_ <- create_job_applicant (PDict record) ;;
        report_creation chat_id result record notify_fn created_.

End VioletCore.

(* ===================================================================== *)
(** ** Dates and files *)
(* ===================================================================== *)

Module Clock.

(** The civil date (year, month, day) of a day count from 1970-01-01. *)
Definition civil (days : Z) : Z * Z * Z :=
  let z := days + 719468 in
  let era := z / 146097 in
  let doe := z - era * 146097 in
  let yoe := (doe - doe / 1460 + doe / 36524 - doe / 146096) / 365 in
  let doy := doe - (365 * yoe + yoe / 4 - yoe / 100) in
  let mp := (5 * doy + 2) / 153 in
  let d := doy - (153 * mp + 2) / 5 + 1 in
  let m := if mp <? 10 then mp + 3 else mp - 9 in
  let y := yoe + era * 400 in
  (if m <=? 2 then y + 1 else y, m, d).

Definition seconds (t : Z) : Z := t / 1000000.
Definition hour (t : Z) : Z := (seconds t mod 86400) / 3600.
Definition minute (t : Z) : Z := (seconds t mod 3600) / 60.
Definition second (t : Z) : Z := seconds t mod 60.

(** [strftime('%H:%M:%S')] *)
Definition hms (t : Z) : string :=
  Str.pad 2 (hour t) ++ ":" ++ Str.pad 2 (minute t) ++ ":" ++ Str.pad 2 (second t).

(** [datetime.now(timezone.utc).isoformat()]: the microseconds are left out
    when they are zero *)
Definition isoformat (t : Z) : string :=
  let '(y, m, d) := civil (seconds t / 86400) in
  let us := t mod 1000000 in
  Str.pad 4 y ++ "-" ++ Str.pad 2 m ++ "-" ++ Str.pad 2 d ++ "T" ++ hms t
    ++ (if us =? 0 then "" else "." ++ Str.pad 6 us) ++ "+00:00".

(** [strftime('%Y%m%d_%H%M%S')] *)
Definition compact (t : Z) : string :=
  let '(y, m, d) := civil (seconds t / 86400) in
  Str.pad 4 y ++ Str.pad 2 m ++ Str.pad 2 d ++ "_"
    ++ Str.pad 2 (hour t) ++ Str.pad 2 (minute t) ++ Str.pad 2 (second t).

End Clock.

Module File.

Definition newline : string := String (ascii_of_N 10) EmptyString.

Definition exists_ (name : string) : M bool :=
  fun w => (Ok (match assoc name (files w) with Some _ => true | None => false end), w).

Fixpoint remove (name : string) (l : list (string * string)) : list (string * string) :=
  match l with
  | [] => []
  | (k, v) :: l' => if String.eqb k name then remove name l' else (k, v) :: remove name l'
  end.

Definition write (name content : string) (l : list (string * string))
  : list (string * string) :=
  (remove name l ++ [(name, content)])%list.

(** [open(name, 'a').write(data)]: the file is created when it is missing *)
Definition append (name data : string) : M unit :=
  fun w =>
    let old := match assoc name (files w) with Some c => c | None => "" end in
    (Ok tt, set_files (write name (old ++ data) (files w)) w).

(** [shutil.move(src, dst)] of a file that exists *)
Definition move (src dst : string) : M unit :=
  fun w =>
    match assoc src (files w) with
    | Some c => (Ok tt, set_files (write dst c (remove src (files w))) w)
    | None => (Raise (mkExn (OtherError "FileNotFoundError") src), w)
    end.

(** The lines a text file yields when it is iterated: a line ends at a line
    feed, a carriage return or the pair of them, each read as one line feed;
    [acc] holds the current line backwards. *)
Fixpoint lines_aux (s : string) (acc : string) (after_cr : bool) : list string :=
  match s with
  | EmptyString =>
      match acc with
      | EmptyString => []
      | _ => [Str.rev_append acc EmptyString]
      end
  | String c s' =>
      let n := Str.code c in
      if (n =? 10)%N then
        if after_cr then lines_aux s' acc false
        else Str.rev_append acc newline :: lines_aux s' EmptyString false
      else if (n =? 13)%N then
        Str.rev_append acc newline :: lines_aux s' EmptyString true
      else lines_aux s' (String c acc) false
  end.

Definition lines (content : string) : list string := lines_aux content EmptyString false.

(** [for line in open(name)]: the lines of a file that exists *)
Definition read_lines (name : string) : M (list string) :=
  fun w =>
    match assoc name (files w) with
    | Some c => (Ok (lines c), w)
    | None => (Raise (mkExn (OtherError "FileNotFoundError") name), w)
    end.

End File.

(* ===================================================================== *)
(** ** dead_letter.py *)
(* ===================================================================== *)

Module dead_letter.

Definition DEAD_LETTER_FILE : string := "dead_letter.jsonl".

(** [append(chat, record, error)] *)
Definition append (chat record : pyval) (error : string) : M unit :=
  t <- datetime_now ;;
  chat_id <- lift (Py.get chat "chat_id" (PStr "unknown")) ;;
  contact_id <- lift (Py.get record "contact_id" (PStr "")) ;;
  job_id <- lift (Py.get record "job_id" (PStr "")) ;;
  stage <- lift (Py.get record "stage" (PStr "")) ;;
  tier <- lift (Py.get record "tier" (PStr "")) ;;
  let entry :=
    PDict [("timestamp", PStr (Clock.isoformat t));
           ("chat_id", chat_id);
           ("contact_id", contact_id);
           ("job_id", job_id);
           ("stage", stage);
           ("tier", tier);
           ("error", PStr error);
           ("chat_payload", chat)] in
  with_lock "_lock"
    (File.append DEAD_LETTER_FILE (Json.dumps entry ++ File.newline)).

(** The loop of [read_all]: a line that is blank once stripped is passed
    over; one that is not is decoded, and [except json.JSONDecodeError] passes
    over the line when the decoder raises that error and no other. *)
Fixpoint read_entries (lines : list string) : res (list pyval) :=
  match lines with
  | [] => Ok []
  | line :: rest =>
      let line := Str.strip line in
      if negb (String.eqb line "") then
        match Json.loads line with
        | Ok entry => (entries <~ read_entries rest ;; Ok (entry :: entries))%res
        | Raise e => if is_JSONDecodeError e then read_entries rest else Raise e
        end
      else read_entries rest
  end.

(** The entries of the lines that decode, in order *)
Fixpoint parse_lines (lines : list string) : list pyval :=
  match lines with
  | [] => []
  | line :: rest =>
      let line := Str.strip line in
      if negb (String.eqb line "") then
        match Json.loads line with
        | Ok entry => entry :: parse_lines rest
        | Raise _ => parse_lines rest
        end
      else parse_lines rest
  end.

(** [read_all()] *)
Definition read_all : M (list pyval) :=
  present <- File.exists_ DEAD_LETTER_FILE ;;
  if negb present then ret []
  else
    with_lock "_lock"
      (lines <- File.read_lines DEAD_LETTER_FILE ;;
       lift (read_entries lines)).

(** The counting loop shared by [count] and [clear] *)
Fixpoint count_lines (lines : list string) : Z :=
  match lines with
  | [] => 0
  | line :: rest =>
      if negb (String.eqb (Str.strip line) "") then 1 + count_lines rest
      else count_lines rest
  end.

(** [count()] *)
Definition count : M Z :=
  present <- File.exists_ DEAD_LETTER_FILE ;;
  if negb present then ret 0
  else
    with_lock "_lock"
      (lines <- File.read_lines DEAD_LETTER_FILE ;;
       ret (count_lines lines)).

(** [clear()]: the archive path ([None] when nothing was archived) and the
    number of entries *)
Definition clear : M (option string * Z) :=
  present <- File.exists_ DEAD_LETTER_FILE ;;
  if negb present then ret (None, 0)
  else
    with_lock "_lock"
      (lines <- File.read_lines DEAD_LETTER_FILE ;;
       let n := count_lines lines in
       if n =? 0 then ret (None, 0)
       else
         t <- datetime_now ;;
         let archive_path := "dead_letter_archive_" ++ Clock.compact t ++ ".jsonl" in
         File.move DEAD_LETTER_FILE archive_path ;;
         ret (Some archive_path, n)).

End dead_letter.

(* ===================================================================== *)
(** ** notify.py *)
(* ===================================================================== *)

Module notify.

Definition notify_log := log "notify".

(** [_log_event(event_type, details)] *)
Definition _log_event (event_type : string) (details : pyval) : M unit :=
  chat_id <- lift (Py.get details "chat_id" (PStr "")) ;;
  contact_id <- lift (Py.get details "contact_id" (PStr "")) ;;
  job_id <- lift (Py.get details "job_id" (PStr "")) ;;
  stage <- lift (Py.get details "stage" (PStr "")) ;;
  tier <- lift (Py.get details "tier" (PStr "")) ;;
  let entry :=
    [("event", PStr event_type); ("chat_id", chat_id); ("contact_id", contact_id);
     ("job_id", job_id); ("stage", stage); ("tier", tier)] in
  if String.eqb event_type "created" then
    applicant_id <- lift (Py.get details "applicant_id" (PStr "")) ;;
    notify_log "INFO"
      ("SF_CREATE | " ++ Json.dumps (PDict (Py.dict_set "applicant_id" applicant_id entry)))
  else if String.eqb event_type "error" then
    error <- lift (Py.get details "error" (PStr "")) ;;
    notify_log "ERROR"
      ("SF_ERROR | " ++ Json.dumps (PDict (Py.dict_set "error" error entry)))
  else notify_log "INFO" ("EVENT | " ++ Json.dumps (PDict entry)).

Definition upper_char (c : ascii) : ascii :=
  let n := Str.code c in
  if ((97 <=? n) && (n <=? 122))%N then ascii_of_N (n - 32) else c.

Fixpoint upper (s : string) : string :=
  match s with
  | EmptyString => EmptyString
  | String c s' => String (upper_char c) (upper s')
  end.

(** [v.upper()] *)
Definition py_upper (v : pyval) : res string :=
  match v with
  | PStr s => Ok (upper s)
  | _ => Raise (Py.no_attribute v "upper")
  end.

Definition mrkdwn (s : string) : pyval :=
  PDict [("type", PStr "mrkdwn"); ("text", PStr s)].

Definition plain_text (s : string) : pyval :=
  PDict [("type", PStr "plain_text"); ("text", PStr s)].

(** The message [_send_slack] builds, or [None] for an event type it does
    not report *)
Definition slack_payload (event_type : string) (details : pyval)
  : M (option pyval) :=
  login <- getenv "SF_LOGIN_URL" ;;
  let instance_url := env_or login "https://surestaff.my.salesforce.com" in
  if String.eqb event_type "created" then
    applicant_id <- lift (Py.get details "applicant_id" (PStr "")) ;;
    let sf_link := instance_url ++ "/lightning/r/AVTRRT__Job_Applicant__c/"
                     ++ Py.str applicant_id ++ "/view" in
    job_desc <- lift (Py.get details "job_desc" (PStr "Unknown position")) ;;
    tier0 <- lift (Py.get details "tier" (PStr "")) ;;
    tier <- lift (notify.py_upper tier0) ;;
    stage <- lift (Py.get details "stage" (PStr "")) ;;
    agent <- lift (Py.get details "agent" (PStr "")) ;;
    chat_id <- lift (Py.get details "chat_id" (PStr "")) ;;
    short <- lift (Py.slice_to 12 chat_id) ;;
    ret (Some (PDict [("blocks", PList [
      PDict [("type", PStr "header");
             ("text", plain_text ("New " ++ tier ++ " Candidate"))];
      PDict [("type", PStr "section");
             ("fields", PList [
                mrkdwn ("*Position:*" ++ File.newline ++ Py.str job_desc);
                mrkdwn ("*Stage:*" ++ File.newline ++ Py.str stage);
                mrkdwn ("*Agent:*" ++ File.newline ++ Py.str agent);
                mrkdwn ("*Chat ID:*" ++ File.newline ++ Py.str short ++ "...")])];
      PDict [("type", PStr "actions");
             ("elements", PList [
                PDict [("type", PStr "button");
                       ("text", plain_text "View in Salesforce");
                       ("url", PStr sf_link);
                       ("style", PStr "primary")]])]])]))
  else if String.eqb event_type "error" then
    chat_id <- lift (Py.get details "chat_id" (PStr "")) ;;
    short <- lift (Py.slice_to 12 chat_id) ;;
    contact_id <- lift (Py.get details "contact_id" (PStr "")) ;;
    error <- lift (Py.get details "error" (PStr "")) ;;
    error200 <- lift (Py.slice_to 200 error) ;;
    ret (Some (PDict [("text", PStr
      (":warning: *SF Create Failed*" ++ File.newline
         ++ "Chat: " ++ Py.str short ++ "..." ++ File.newline
         ++ "Contact: " ++ Py.str contact_id ++ File.newline
         ++ "Error: " ++ Py.str error200))]))
  else ret None.

(** [_send_slack(event_type, details)]: a failure of the post is logged and
    goes no further *)
Definition _send_slack (event_type : string) (details : pyval) : M unit :=
  payload <- slack_payload event_type details ;;
  match payload with
  | None => ret tt
  | Some payload =>
      try_except
        (url <- (fun w => (Ok (SLACK_WEBHOOK_URL w), w)) ;;
         resp <- http (mkRequest "POST" url [] (JsonBody payload) 10) ;;
         if negb (status_code resp =? 200)
         then notify_log "WARNING"
                ("Slack notification failed: " ++ Str.of_Z (status_code resp))
         else ret tt)
        any_exception
        (fun e => notify_log "WARNING" ("Slack notification error: " ++ exn_msg e))
  end.

(** [send_notification(event_type, details)] *)
Definition send_notification (event_type : string) (details : pyval) : M unit :=
  _log_event event_type details ;;
  url <- (fun w => (Ok (SLACK_WEBHOOK_URL w), w)) ;;
  if negb (String.eqb url "")
     && (String.eqb event_type "created" || String.eqb event_type "error")
  then _send_slack event_type details
  else ret tt.

End notify.

(* ===================================================================== *)
(** ** app.py *)
(* ===================================================================== *)

Definition app_log := log "app".

Definition MAX_RECENT_EVENTS : nat := 50.

(** [l[-n:]] *)
Definition last_n {A} (n : nat) (l : list A) : list A :=
  skipn (List.length l - n) l.

Definition bump_received (t : Z) (s : Stats) : Stats :=
  mkStats (start_time s) (webhooks_received s + 1) (created s) (duplicates s)
          (skipped s) (errors s) (Some (Clock.isoformat t)) (last_created s)
          (recent_events s).

Definition bump_counter (event_type : pyval) (t : Z) (s : Stats) : Stats :=
  if Py.eq_str event_type "created" then
    mkStats (start_time s) (webhooks_received s) (created s + 1) (duplicates s)
            (skipped s) (errors s) (last_webhook s) (Some (Clock.isoformat t))
            (recent_events s)
  else if Py.eq_str event_type "duplicate" then
    mkStats (start_time s) (webhooks_received s) (created s) (duplicates s + 1)
            (skipped s) (errors s) (last_webhook s) (last_created s) (recent_events s)
  else if Py.eq_str event_type "skip" then
    mkStats (start_time s) (webhooks_received s) (created s) (duplicates s)
            (skipped s + 1) (errors s) (last_webhook s) (last_created s)
            (recent_events s)
  else if Py.eq_str event_type "error" then
    mkStats (start_time s) (webhooks_received s) (created s) (duplicates s)
            (skipped s) (errors s + 1) (last_webhook s) (last_created s)
            (recent_events s)
  else s.

Definition push_recent (entry : pyval) (s : Stats) : Stats :=
  let events := (recent_events s ++ [entry])%list in
  mkStats (start_time s) (webhooks_received s) (created s) (duplicates s)
          (skipped s) (errors s) (last_webhook s) (last_created s)
          (if (MAX_RECENT_EVENTS <? List.length events)%nat
           then last_n MAX_RECENT_EVENTS events else events).

Definition update_stats (f : Stats -> Stats) : M unit :=
  fun w => (Ok tt, set_stats (f (stats w)) w).

(** [chat_id[:12] + '...' if len(chat_id) > 12 else chat_id] *)
Definition short_chat_id (chat_id : pyval) : res pyval :=
  n <~ Py.len chat_id ;;
  if 12 <? n then
    head <~ Py.slice_to 12 chat_id ;;
    match head with
    | PStr s => Ok (PStr (s ++ "..."))
    | other => Raise (mkExn TypeError
                 ("can only concatenate " ++ Py.type_name other ++ " (not "
                    ++ String Py.dquote ("str" ++ String Py.dquote ") to ")
                    ++ Py.type_name other))
    end
  else Ok chat_id.

(** [_record_event(event_type, chat_id, detail)]: the counters move before
    the entry of the recent events is built *)
Definition _record_event (event_type chat_id : pyval) (detail : pyval) : M unit :=
  with_lock "_stats_lock"
    (t <- datetime_now ;;
     update_stats (bump_received t) ;;
     update_stats (bump_counter event_type t) ;;
     shown <- lift (short_chat_id chat_id) ;;
     update_stats (push_recent
       (PDict [("time", PStr (Clock.hms t));
               ("type", event_type);
               ("chat_id", shown);
               ("detail", PStr (Str.take 100 (Py.str detail)))]))).

(** An incoming HTTP request: its raw body and the value of the
    [x-retell-signature] header when it has one *)
Record HttpRequest : Type := mkHttpRequest {
  raw_body : string;
  signature_header : option string
}.

Section App.

(** [hmac.new(key, body, hashlib.sha256).hexdigest()], a library function:
    the digest as text, which is ASCII *)
Variable hmac_sha256_hexdigest : string -> string -> string.

(** [hmac.compare_digest(a, b)] on two strings: it refuses text that is not
    ASCII *)
Definition compare_digest (a b : string) : res bool :=
  if Str.is_ascii a && Str.is_ascii b then Ok (String.eqb a b)
  else Raise (mkExn TypeError
                "comparing strings with non-ASCII characters is not supported").

(** [verify_retell_signature(payload_body, signature)] *)
Definition verify_retell_signature (payload_body signature : string) : M bool :=
  key <- (fun w => (Ok (RETELL_API_KEY w), w)) ;;
  if String.eqb key "" then
    app_log "WARNING" "RETELL_API_KEY not set — skipping signature verification" ;;
    ret true
  else if String.eqb signature "" then ret false
  else
    let expected := hmac_sha256_hexdigest key payload_body in
    lift (compare_digest expected signature).

(** The [try] block of [webhook_retell] *)
Definition process_and_record (chat chat_id : pyval) : M unit :=
  result <- process_chat_webhook sf_query_all get_salesforce_credentials
              chat (Some notify.send_notification) ;;
  action <- lift (Py.get result "action" (PStr "unknown")) ;;
  detail <- lift (Py.get result "detail" (PStr "")) ;;
  _record_event action chat_id detail ;;
  if Py.eq_str action "error"
  then dead_letter.append chat result (Py.str detail)
  else ret tt.

(** [webhook_retell()]: the status of the answer.  An exception that leaves
    the function is what the web framework answers with status 500. *)
Definition webhook_retell (request : HttpRequest) : M Z :=
  let signature := match signature_header request with Some s => s | None => "" end in
  valid <- verify_retell_signature (raw_body request) signature ;;
  if negb valid then
    app_log "WARNING" "Invalid webhook signature — rejected" ;;
    ret 401
  else
    match Json.loads (raw_body request) with
    | Raise e =>
        if is_JSONDecodeError e
        then app_log "WARNING" "Invalid JSON in webhook body" ;; ret 400
        else raise e
    | Ok payload =>
        event <- lift (Py.get payload "event" (PStr "")) ;;
        if negb (Py.eq_str event "chat_analyzed") then
          app_log "INFO" ("Ignoring event type: " ++ Py.str event) ;;
          ret 204
        else
          inner <- lift (Py.get payload "chat" payload) ;;
          chat <- lift (Py.get payload "data" inner) ;;
          chat_id <- lift (Py.get chat "chat_id" (PStr "unknown")) ;;
          t <- lift (tag chat_id) ;;
          app_log "INFO" (t ++ "Received chat_analyzed webhook") ;;
          try_except
            (process_and_record chat chat_id)
            any_exception
            (fun e =>
               app_log "ERROR" (t ++ "Unhandled error processing webhook") ;;
               _record_event (PStr "error") chat_id (PStr (exn_msg e)) ;;
               dead_letter.append chat (PDict [("chat_id", chat_id)]) (exn_msg e)) ;;
          ret 204
    end.

Definition replay_result (chat_id action detail : pyval) : pyval :=
  PDict [("chat_id", chat_id); ("action", action); ("detail", detail)].

(** One turn of the loop of [retry_failed]: the results after it *)
Definition replay_entry (entry : pyval) (results : list pyval) : M (list pyval) :=
  chat <- lift (Py.get entry "chat_payload" (PDict [])) ;;
  chat_id <- lift (Py.get entry "chat_id" (PStr "unknown")) ;;
  let failed (e : exn) (results : list pyval) : list pyval :=
    (results ++ [replay_result chat_id (PStr "error")
                   (PStr (Str.take 200 (exn_msg e)))])%list in
  processed <- attempt
    (result <- process_chat_webhook sf_query_all get_salesforce_credentials
                 chat (Some notify.send_notification) ;;
     action <- lift (Py.get result "action" PNone) ;;
     detail <- lift (Py.get result "detail" PNone) ;;
     ret (result, replay_result chat_id action detail)) ;;
  match processed with
  | Raise e => ret (failed e results)
  | Ok (result, line) =>
      let results := (results ++ [line])%list in
      recorded <- attempt
        (action <- lift (Py.get result "action" (PStr "retry")) ;;
         detail <- lift (Py.get result "detail" (PStr "")) ;;
         _record_event action chat_id detail) ;;
      match recorded with
      | Raise e => ret (failed e results)
      | Ok _ => ret results
      end
  end.

Fixpoint replay_all (entries : list pyval) (results : list pyval) : M (list pyval) :=
  match entries with
  | [] => ret results
  | entry :: rest =>
      results' <- replay_entry entry results ;;
      replay_all rest results'
  end.

(** [sum(1 for r in results if r['action'] == tag)] *)
Definition count_action (tag_ : string) (results : list pyval) : Z :=
  Z.of_nat (List.length
    (filter (fun r => match Py.getitem r "action" with
                      | Ok a => Py.eq_str a tag_
                      | Raise _ => false
                      end) results)).

(** [retry_failed()]: the JSON body of the answer *)
Definition retry_failed : M pyval :=
  entries <- dead_letter.read_all ;;
  match entries with
  | [] => ret (PDict [("message", PStr "Dead letter queue is empty");
                      ("retried", PInt 0)])
  | _ =>
      results <- replay_all entries [] ;;
      '(archive_path, cleared) <- dead_letter.clear ;;
      ret (PDict [("retried", PInt (Z.of_nat (List.length results)));
                  ("created", PInt (count_action "created" results));
                  ("failed", PInt (count_action "error" results));
                  ("archived", match archive_path with
                               | Some p => PStr p
                               | None => PNone
                               end);
                  ("results", PList results)])
  end.

(** [datetime.fromisoformat(text)], a library function: the instant the text
    denotes, in microseconds *)
Variable fromisoformat : string -> res Z.

(** [health()]: the JSON body of the answer.  [int(uptime_seconds)] is the
    quotient below as long as the two instants are less than 2^32 seconds
    apart, where the division of [total_seconds] is exact enough. *)
Definition health : M pyval :=
  '(sf_ok, sf_detail) <-
     try_except
       ('(token, url) <- get_salesforce_credentials ;;
        let sf_ok := Py.truthy (if Py.truthy token then url else token) in
        ret (sf_ok, if sf_ok then url else PStr "no credentials"))
       any_exception
       (fun e => ret (false, PStr (Str.take 200 (exn_msg e)))) ;;
  start_text <- (fun w => (Ok (start_time (stats w)), w)) ;;
  start <- lift (fromisoformat start_text) ;;
  now <- datetime_now ;;
  let uptime_seconds := Z.quot (now - start) 1000000 in
  dead_letter_count <- dead_letter.count ;;
  s <- (fun w => (Ok (stats w), w)) ;;
  ret (PDict [("status", PStr (if sf_ok then "healthy" else "degraded"));
              ("salesforce",
               PDict [("connected", PBool sf_ok);
                      ("instance", if sf_ok then sf_detail else PNone);
                      ("error", if negb sf_ok then sf_detail else PNone)]);
              ("uptime_seconds", PInt uptime_seconds);
              ("dead_letter_count", PInt dead_letter_count);
              ("stats",
               PDict [("webhooks_received", PInt (webhooks_received s));
                      ("created", PInt (created s));
                      ("errors", PInt (errors s))])]).

End App.

(* ===================================================================== *)
(** * Verified properties *)
(* ===================================================================== *)

Unset Implicit Arguments.

(** ** Facts about the string helpers *)

Lemma split_aux_nonempty : forall sep s skip acc, Str.split_aux sep s skip acc <> [].
Proof.
  induction s as [|c s IH]; intros skip acc; simpl.
  - discriminate.
  - destruct skip as [|k]; [|apply IH].
    destruct (Str.startswith sep (String c s)); [discriminate|apply IH].
Qed.

(** A separator that occurs yields at least two pieces. *)
Lemma contains_split_two : forall a sep s acc,
  Str.contains (String a sep) s = true ->
  exists x y rest, Str.split_aux (String a sep) s O acc = x :: y :: rest.
Proof.
  intros a sep; induction s as [|c s IH]; intros acc H.
  - simpl in H. discriminate.
  - cbn [Str.contains] in H. cbn [Str.split_aux].
    destruct (Str.startswith (String a sep) (String c s)) eqn:E.
    + destruct (Str.split_aux (String a sep) s (String.length (String a sep) - 1) "") eqn:E2.
      * exfalso. eapply split_aux_nonempty; eauto.
      * eauto.
    + simpl in H. apply IH; assumption.
Qed.

Lemma split_second : forall a sep s,
  Str.contains (String a sep) s = true ->
  exists tail, Py.nth_str (Str.split (String a sep) s) 1 = Ok tail.
Proof.
  intros a sep s H. unfold Str.split.
  destruct (contains_split_two a sep s "" H) as (x & y & rest & E).
  rewrite E. exists y. reflexivity.
Qed.

Lemma split_first : forall sep s,
  exists seg, Py.nth_str (Str.split sep s) 0 = Ok seg.
Proof.
  intros sep s. unfold Str.split.
  destruct (Str.split_aux sep s 0 "") eqn:E.
  - exfalso. eapply split_aux_nonempty; eauto.
  - eexists; reflexivity.
Qed.

(** ** Events as the pipeline reads them *)

(** A value that can be hashed: anything but a list or a dictionary. *)
Definition hashable (v : pyval) : bool :=
  match v with
  | PList _ | PDict _ => false
  | _ => true
  end.

(** [block chat name fields]: the block [name] of the event, read the way
    the code reads it ([chat.get(name) or {}]), is the dictionary [fields]. *)
Definition block (chat : pyval) (name : string) (fields : list (string * pyval)) : Prop :=
  exists v, Py.get chat name PNone = Ok v /\ Py.or_ v (PDict []) = PDict fields.

(** The text of a field of a block: empty when the field is missing. *)
Definition field (fields : list (string * pyval)) (name : string) : pyval :=
  match Py.dict_lookup name fields with
  | Some v => v
  | None => PStr ""
  end.

(** Every field of the block holds text. *)
Definition text_fields (fields : list (string * pyval)) : Prop :=
  forall k v, Py.dict_lookup k fields = Some v -> exists s, v = PStr s.

Lemma field_text : forall fields name,
  text_fields fields -> exists s, field fields name = PStr s.
Proof.
  intros fields name H. unfold field.
  destruct (Py.dict_lookup name fields) eqn:E; eauto.
Qed.

(** ** C8: an ongoing chat is skipped *)

(** C8.  For every event whose lifecycle status is the literal 'ongoing' (and
    whose agent label can be hashed, as every JSON scalar can),
    [classify_chat] returns a skip outcome whatever the analysis block holds:
    'agent skipped: ...' when the agent is in the skip set, 'chat still
    ongoing' otherwise. *)
Theorem classify_chat_ongoing_skips : forall chat agent,
  Py.get chat "agent_name" (PStr "") = Ok agent ->
  hashable agent = true ->
  Py.get chat "chat_status" (PStr "") = Ok (PStr "ongoing") ->
  classify_chat chat =
    Ok ("skip",
        if existsb (Py.eq_str agent) SKIP_AGENTS
        then "agent skipped: " ++ Py.str agent
        else "chat still ongoing").
Proof.
  intros chat agent Hagent Hhash Hstatus.
  unfold classify_chat. rewrite Hagent. cbn [rbind].
  assert (Hin : Py.in_set agent SKIP_AGENTS = Ok (existsb (Py.eq_str agent) SKIP_AGENTS)).
  { destruct agent; try reflexivity; discriminate. }
  rewrite Hin. cbn [rbind].
  destruct (existsb (Py.eq_str agent) SKIP_AGENTS); [reflexivity|].
  rewrite Hstatus. reflexivity.
Qed.

Definition ongoing_chat : pyval :=
  PDict [("chat_id", PStr "chat_1");
         ("agent_name", PStr "Violet - Nurse Outreach");
         ("chat_status", PStr "ongoing");
         ("chat_analysis",
          PDict [("custom_analysis_data",
                  PDict [("qualification_result", PStr "fully_qualified");
                         ("interest_level", PStr "very_interested")])])].

Lemma classify_chat_ongoing_skips_witness :
  classify_chat ongoing_chat = Ok ("skip", "chat still ongoing").
Proof.
  exact (classify_chat_ongoing_skips ongoing_chat
           (PStr "Violet - Nurse Outreach") eq_refl eq_refl eq_refl).
Defined.

(** ** C3, C10: the identifier extractors *)

Definition DYNAMIC_VARIABLES : string := "retell_llm_dynamic_variables".

(** The pattern of a contact id: the prefix 003 and at least 15 characters *)
Definition valid_contact_id (s : string) : bool :=
  Str.startswith "003" s && (15 <=? Str.len s).

(** [url.split(marker)[1].split('/')[0]]: the path segment that follows the
    first occurrence of the marker *)
Definition path_segment (marker url : string) : string :=
  hd "" (Str.split "/" (nth 1 (Str.split marker url) "")).

Lemma rbind_ok : forall A B (e : res A) (k : A -> res B) v,
  rbind e k = Ok v -> exists a, e = Ok a /\ k a = Ok v.
Proof. intros A B [a|x] k v H; simpl in H; [eauto|discriminate]. Qed.

Lemma is_contact_id_text : forall s, is_contact_id (PStr s) = Ok (valid_contact_id s).
Proof.
  intros s. unfold is_contact_id, valid_contact_id.
  destruct s as [|c s]; [reflexivity|].
  cbn [Py.truthy String.eqb negb Py.startswith Py.len rbind].
  destruct (Str.startswith "003" (String c s)); reflexivity.
Qed.

Lemma is_contact_id_true : forall v,
  is_contact_id v = Ok true -> exists s, v = PStr s /\ valid_contact_id s = true.
Proof.
  intros v H.
  destruct v; try (unfold is_contact_id in H;
    cbn [Py.truthy Py.startswith Py.no_attribute rbind] in H;
    repeat match type of H with
           | (if ?b then _ else _) = _ => destruct b
           end; discriminate).
  rewrite is_contact_id_text in H. inversion H. eauto.
Qed.

Lemma nth_str_segment : forall marker url tail seg,
  Py.nth_str (Str.split marker url) 1 = Ok tail ->
  Py.nth_str (Str.split "/" tail) 0 = Ok seg ->
  seg = path_segment marker url.
Proof.
  intros marker url tail seg H1 H2. unfold path_segment, Py.nth_str in *.
  destruct (Str.split marker url) as [|x [|y rest]]; simpl in *; try discriminate.
  inversion H1; subst y.
  destruct (Str.split "/" tail); simpl in *; [discriminate|].
  inversion H2; reflexivity.
Qed.

(** The link of a block of text fields: does it hold the marker, and which
    segment follows it.  [linked] is the test the extractors run. *)
Lemma linked_text : forall a marker url,
  (if Py.truthy (PStr url) then Py.contains (String a marker) (PStr url) else Ok false)
  = Ok (Str.contains (String a marker) url).
Proof.
  intros a marker url. destruct url as [|c url]; reflexivity.
Qed.

Lemma get_block_field : forall fields name,
  Py.get (PDict fields) name (PStr "") = Ok (field fields name).
Proof. reflexivity. Qed.

(** What [extract_contact_id] computes on an event whose two blocks hold
    text. *)
Lemma extract_contact_id_text : forall chat dv meta cid url,
  block chat DYNAMIC_VARIABLES dv -> block chat "metadata" meta ->
  match Py.dict_lookup "candidate_id" dv with
  | Some v => v
  | None => field meta "candidate_id"
  end = PStr cid ->
  field dv "candidate_salesforce_url" = PStr url ->
  extract_contact_id chat =
    Ok (PStr (if valid_contact_id cid then cid
              else if Str.contains "/Contact/" url
                      && valid_contact_id (path_segment "/Contact/" url)
                   then path_segment "/Contact/" url
                   else "")).
Proof.
  intros chat dv meta cid url (v1 & G1 & O1) (v2 & G2 & O2) Hcid Hurl.
  unfold extract_contact_id. unfold DYNAMIC_VARIABLES in G1.
  rewrite G1. cbn [rbind]. rewrite G2. cbn [rbind]. rewrite O1, O2.
  cbn [Py.has_get rbind]. rewrite get_block_field. cbn [rbind].
  assert (E : Py.get (PDict dv) "candidate_id" (field meta "candidate_id") = Ok (PStr cid)).
  { unfold Py.get. rewrite Hcid. reflexivity. }
  rewrite E. cbn [rbind]. rewrite is_contact_id_text. cbn [rbind].
  destruct (valid_contact_id cid); [reflexivity|].
  rewrite get_block_field, Hurl. cbn [rbind]. rewrite linked_text. cbn [rbind].
  destruct (Str.contains "/Contact/" url) eqn:C; [|reflexivity].
  cbn [Py.split rbind].
  destruct (split_second "/" "Contact/" url C) as (tail & T).
  rewrite T. cbn [rbind].
  destruct (split_first "/" tail) as (seg & S).
  rewrite S. cbn [rbind].
  rewrite (nth_str_segment _ _ _ _ T S). fold (valid_contact_id (path_segment "/Contact/" url)).
  cbn [andb].
  destruct (valid_contact_id (path_segment "/Contact/" url)); reflexivity.
Qed.

(** What [extract_job_id] computes on an event whose block of dynamic
    variables holds text. *)
Lemma extract_job_id_text : forall chat dv url j18,
  block chat DYNAMIC_VARIABLES dv ->
  field dv "job_salesforce_url" = PStr url ->
  field dv "job_ID_18" = PStr j18 ->
  extract_job_id chat =
    Ok (PStr (if Str.contains "/AVTRRT__Job__c/" url
              then path_segment "/AVTRRT__Job__c/" url
              else if Str.startswith "a0F" j18 then j18 else "")).
Proof.
  intros chat dv url j18 (v1 & G1 & O1) Hurl Hj.
  unfold extract_job_id. unfold DYNAMIC_VARIABLES in G1.
  rewrite G1. cbn [rbind]. rewrite O1.
  rewrite get_block_field, Hurl. cbn [rbind]. rewrite linked_text. cbn [rbind].
  destruct (Str.contains "/AVTRRT__Job__c/" url) eqn:C.
  - cbn [Py.split rbind].
    destruct (split_second "/" "AVTRRT__Job__c/" url C) as (tail & T).
    rewrite T. cbn [rbind].
    destruct (split_first "/" tail) as (seg & S).
    rewrite S. cbn [rbind].
    rewrite (nth_str_segment _ _ _ _ T S). reflexivity.
  - rewrite get_block_field, Hj. cbn [rbind].
    destruct j18 as [|c j]; [reflexivity|]. cbn [Py.truthy String.eqb negb Py.startswith rbind].
    destruct (Str.startswith "a0F" (String c j)); reflexivity.
Qed.

(** Whatever the event holds, a value [extract_contact_id] returns is the
    empty string or matches the pattern. *)
Lemma extract_contact_id_shape : forall chat v,
  extract_contact_id chat = Ok v ->
  v = PStr "" \/ exists s, v = PStr s /\ valid_contact_id s = true.
Proof.
  intros chat v H. unfold extract_contact_id in H.
  repeat (apply rbind_ok in H; destruct H as (? & ? & H)).
  match type of H with (if ?b then _ else _) = _ => destruct b eqn:D end.
  - inversion H; subst. right. apply is_contact_id_true. assumption.
  - repeat (apply rbind_ok in H; destruct H as (? & ? & H)).
    match type of H with (if ?b then _ else _) = _ => destruct b end.
    + repeat (apply rbind_ok in H; destruct H as (? & ? & H)).
      match type of H with (if ?b then _ else _) = _ => destruct b eqn:V end;
        inversion H; subst; [right|left; reflexivity].
      eexists; split; [reflexivity|exact V].
    + inversion H. left; reflexivity.
Qed.

Definition link_first_chat : pyval :=
  PDict [("retell_llm_dynamic_variables",
          PDict [("job_ID_18", PStr "a0F000000000001AAA");
                 ("job_salesforce_url",
                  PStr "https://crm.example/lightning/r/AVTRRT__Job__c/zzz/view")])].

(** C3, the claim as stated fails for the job: with a well-formed id in the
    direct field and a link whose segment is 'zzz', [extract_job_id] does not
    try the direct field first and does not check what the link yields: it
    returns 'zzz', which has neither the prefix nor the length of an id. *)
Lemma extract_job_id_link_first :
  Py.get link_first_chat DYNAMIC_VARIABLES PNone
    = Ok (PDict [("job_ID_18", PStr "a0F000000000001AAA");
                 ("job_salesforce_url",
                  PStr "https://crm.example/lightning/r/AVTRRT__Job__c/zzz/view")])
  /\ Str.startswith "a0F" "a0F000000000001AAA" = true
  /\ Str.len "a0F000000000001AAA" = 18
  /\ extract_job_id link_first_chat = Ok (PStr "zzz")
  /\ Str.startswith "a0F" "zzz" = false.
Proof. repeat split; reflexivity. Qed.

(** C3, amended.  On an event whose blocks hold text:
    - [extract_contact_id] tries the direct field first (the candidate_id of
      the dynamic variables, else that of the metadata) and the deep link
      second, and returns the empty string unless the value it found starts
      with 003 and has at least 15 characters;
    - [extract_job_id] tries the deep link first and returns the segment that
      follows the marker as it is; only when the link has no marker does it
      read the direct field, which it returns when it starts with a0F (no
      length is asked), and the empty string otherwise. *)
Theorem extractors_order_and_pattern :
  (forall chat dv meta cid url,
     block chat DYNAMIC_VARIABLES dv -> block chat "metadata" meta ->
     match Py.dict_lookup "candidate_id" dv with
     | Some v => v
     | None => field meta "candidate_id"
     end = PStr cid ->
     field dv "candidate_salesforce_url" = PStr url ->
     extract_contact_id chat =
       Ok (PStr (if valid_contact_id cid then cid
                 else if Str.contains "/Contact/" url
                         && valid_contact_id (path_segment "/Contact/" url)
                      then path_segment "/Contact/" url
                      else "")))
  /\
  (forall chat dv url j18,
     block chat DYNAMIC_VARIABLES dv ->
     field dv "job_salesforce_url" = PStr url ->
     field dv "job_ID_18" = PStr j18 ->
     extract_job_id chat =
       Ok (PStr (if Str.contains "/AVTRRT__Job__c/" url
                 then path_segment "/AVTRRT__Job__c/" url
                 else if Str.startswith "a0F" j18 then j18 else ""))).
Proof.
  split.
  - exact extract_contact_id_text.
  - exact extract_job_id_text.
Qed.

Definition linked_contact_chat : pyval :=
  PDict [("retell_llm_dynamic_variables",
          PDict [("candidate_id", PStr "12345");
                 ("candidate_salesforce_url",
                  PStr "https://crm.example/lightning/r/Contact/003000000000001AAA/view");
                 ("job_ID_18", PStr "a0F1")])].

Lemma extractors_order_and_pattern_witness :
  extract_contact_id linked_contact_chat = Ok (PStr "003000000000001AAA")
  /\ extract_job_id linked_contact_chat = Ok (PStr "a0F1").
Proof.
  split.
  - refine (proj1 extractors_order_and_pattern linked_contact_chat
              [("candidate_id", PStr "12345");
               ("candidate_salesforce_url",
                PStr "https://crm.example/lightning/r/Contact/003000000000001AAA/view");
               ("job_ID_18", PStr "a0F1")]
              [] "12345"
              "https://crm.example/lightning/r/Contact/003000000000001AAA/view"
              _ _ _ _).
    + eexists; split; reflexivity.
    + eexists; split; reflexivity.
    + reflexivity.
    + reflexivity.
  - refine (proj2 extractors_order_and_pattern linked_contact_chat
              [("candidate_id", PStr "12345");
               ("candidate_salesforce_url",
                PStr "https://crm.example/lightning/r/Contact/003000000000001AAA/view");
               ("job_ID_18", PStr "a0F1")]
              "" "a0F1" _ _ _).
    + eexists; split; reflexivity.
    + reflexivity.
    + reflexivity.
Defined.

(** The length is counted in characters, as [len] does: '003' followed by
    six times e-acute is nine characters (and fifteen bytes in UTF-8), and it
    is not returned. *)
Definition accented_id : string :=
  let e_acute := String (ascii_of_N 195) (String (ascii_of_N 169) EmptyString) in
  "003" ++ e_acute ++ e_acute ++ e_acute ++ e_acute ++ e_acute ++ e_acute.

Example extract_contact_id_counts_characters :
  String.length accented_id = 15%nat
  /\ Str.len accented_id = 9
  /\ extract_contact_id
       (PDict [("retell_llm_dynamic_variables",
                PDict [("candidate_id", PStr accented_id)])])
     = Ok (PStr "").
Proof. repeat split; reflexivity. Qed.

Definition metadata_chat : pyval :=
  PDict [("retell_llm_dynamic_variables", PDict [("job_title", PStr "RN")]);
         ("metadata", PDict [("candidate_id", PStr "003000000000001")])].

(** C10.  For every payload, what [extract_contact_id] returns is the empty
    string or a string that starts with 003 and has at least 15 characters
    (and on an event whose blocks hold text it does return); when the block
    of dynamic variables has no candidate_id, the direct lookup falls back to
    the candidate_id of the metadata block.  The value [extract_job_id] takes
    from a link has no such guarantee: it can be 'zzz'. *)
Theorem extract_contact_id_prefix_and_length :
  (forall chat v,
     extract_contact_id chat = Ok v ->
     v = PStr "" \/
     exists s, v = PStr s /\ Str.startswith "003" s = true /\ 15 <= Str.len s)
  /\
  (forall chat dv meta,
     block chat DYNAMIC_VARIABLES dv -> block chat "metadata" meta ->
     text_fields dv -> text_fields meta ->
     exists v, extract_contact_id chat = Ok v)
  /\
  (forall chat dv meta cid,
     block chat DYNAMIC_VARIABLES dv -> block chat "metadata" meta ->
     Py.dict_lookup "candidate_id" dv = None ->
     Py.dict_lookup "candidate_id" meta = Some (PStr cid) ->
     valid_contact_id cid = true ->
     extract_contact_id chat = Ok (PStr cid))
  /\
  (extract_job_id link_first_chat = Ok (PStr "zzz")
   /\ Str.startswith "a0F" "zzz" = false /\ Str.len "zzz" < 15).
Proof.
  split; [|split; [|split]].
  - intros chat v H. destruct (extract_contact_id_shape chat v H) as [E|(s & E & V)].
    + left; exact E.
    + right. exists s. unfold valid_contact_id in V.
      apply andb_true_iff in V. destruct V as [P L].
      apply Z.leb_le in L. auto.
  - intros chat dv meta Bdv Bmeta Tdv Tmeta.
    assert (exists cid, match Py.dict_lookup "candidate_id" dv with
                        | Some v => v
                        | None => field meta "candidate_id"
                        end = PStr cid) as (cid & Hcid).
    { destruct (Py.dict_lookup "candidate_id" dv) eqn:E.
      - exact (Tdv _ _ E).
      - exact (field_text _ "candidate_id" Tmeta). }
    destruct (field_text _ "candidate_salesforce_url" Tdv) as (url & Hurl).
    eexists. exact (extract_contact_id_text chat dv meta cid url Bdv Bmeta Hcid Hurl).
  - intros chat dv meta cid (v1 & G1 & O1) (v2 & G2 & O2) Hdv Hmeta V.
    unfold extract_contact_id. unfold DYNAMIC_VARIABLES in G1.
    rewrite G1. cbn [rbind]. rewrite G2. cbn [rbind]. rewrite O1, O2.
    cbn [Py.has_get rbind Py.get]. rewrite Hmeta, Hdv. cbn [rbind].
    rewrite is_contact_id_text, V. reflexivity.
  - repeat split; reflexivity.
Qed.

Lemma extract_contact_id_prefix_and_length_witness :
  extract_contact_id metadata_chat = Ok (PStr "003000000000001").
Proof.
  refine (proj1 (proj2 (proj2 extract_contact_id_prefix_and_length))
            metadata_chat [("job_title", PStr "RN")]
            [("candidate_id", PStr "003000000000001")]
            "003000000000001" _ _ _ _ _).
  - eexists; split; reflexivity.
  - eexists; split; reflexivity.
  - reflexivity.
  - reflexivity.
  - reflexivity.
Defined.

(** ** C4: counting the dead-letter store *)

(** The decoder of the model raises one error. *)
Lemma loads_raises_decode_error : forall s e,
  Json.loads s = Raise e -> e = Json.decode_error.
Proof.
  intros s e H. unfold Json.loads in H.
  destruct (Json.value _ _) as [[v r]|]; [|inversion H; reflexivity].
  destruct (Json.skip_ws r); inversion H; reflexivity.
Qed.

(** The loop of [read_all] gathers the entries of the lines that decode. *)
Lemma read_entries_parse_lines : forall ls,
  dead_letter.read_entries ls = Ok (dead_letter.parse_lines ls).
Proof.
  induction ls as [|l ls IH]; [reflexivity|].
  cbn [dead_letter.read_entries dead_letter.parse_lines]. cbv zeta.
  destruct (negb (String.eqb (Str.strip l) "")); [|exact IH].
  destruct (Json.loads (Str.strip l)) as [entry|e] eqn:J.
  - rewrite IH. reflexivity.
  - rewrite (loads_raises_decode_error _ _ J). exact IH.
Qed.

(** The lines of the store as [read_all], [count] and [clear] iterate them;
    none when the file is missing. *)
Definition stored_lines (w : World) : list string :=
  match assoc dead_letter.DEAD_LETTER_FILE (files w) with
  | Some content => File.lines content
  | None => []
  end.

(** The content of the store, empty when the file is missing *)
Definition store (w : World) : string :=
  match assoc dead_letter.DEAD_LETTER_FILE (files w) with
  | Some content => content
  | None => ""
  end.

Definition nonblank (line : string) : bool :=
  negb (String.eqb (Str.strip line) "").

Definition parses (line : string) : bool :=
  match Json.loads (Str.strip line) with
  | Ok _ => true
  | Raise _ => false
  end.

Lemma count_lines_filter : forall ls,
  dead_letter.count_lines ls = Z.of_nat (List.length (filter nonblank ls)).
Proof.
  induction ls as [|l ls IH]; [reflexivity|].
  cbn [dead_letter.count_lines filter]. fold (nonblank l).
  destruct (nonblank l); [|exact IH].
  cbn [List.length]. rewrite IH. lia.
Qed.

Lemma parse_lines_filter : forall ls,
  List.length (dead_letter.parse_lines ls)
  = List.length (filter (fun l => nonblank l && parses l) ls).
Proof.
  induction ls as [|l ls IH]; [reflexivity|].
  cbn [dead_letter.parse_lines filter]. fold (nonblank l). unfold parses at 1.
  destruct (nonblank l); cbn [andb]; [|exact IH].
  destruct (Json.loads (Str.strip l)); cbn [List.length]; congruence.
Qed.

Lemma filter_both_le : forall (f g : string -> bool) ls,
  (List.length (filter (fun l => f l && g l) ls) <= List.length (filter f ls))%nat.
Proof.
  intros f g; induction ls as [|l ls IH]; [apply le_n|].
  cbn [filter]. destruct (f l), (g l); cbn [andb List.length]; lia.
Qed.

Lemma filter_both_eq : forall (f g : string -> bool) ls,
  List.length (filter (fun l => f l && g l) ls) = List.length (filter f ls)
  <-> Forall (fun l => g l = true) (filter f ls).
Proof.
  intros f g; induction ls as [|l ls IH]; [split; [constructor|reflexivity]|].
  cbn [filter]. pose proof (filter_both_le f g ls) as LE.
  destruct (f l) eqn:F; cbn [andb]; [|exact IH].
  destruct (g l) eqn:G; cbn [List.length].
  - split.
    + intros H. constructor; [exact G|]. apply IH. lia.
    + intros H. inversion H; subst. f_equal. apply IH. assumption.
  - split.
    + intros H. lia.
    + intros H. inversion H; subst. congruence.
Qed.

Lemma count_run : forall w,
  fst (dead_letter.count w) = Ok (dead_letter.count_lines (stored_lines w)).
Proof.
  intros w. unfold dead_letter.count, stored_lines, bind, File.exists_.
  destruct (assoc dead_letter.DEAD_LETTER_FILE (files w)) eqn:E; [|reflexivity].
  cbn [negb]. unfold with_lock, emit, bind, File.read_lines, ret.
  cbn [files set_trace]. rewrite E. reflexivity.
Qed.

Lemma read_all_run : forall w,
  fst (dead_letter.read_all w) = Ok (dead_letter.parse_lines (stored_lines w)).
Proof.
  intros w. unfold dead_letter.read_all, stored_lines, bind, File.exists_.
  destruct (assoc dead_letter.DEAD_LETTER_FILE (files w)) eqn:E; [|reflexivity].
  cbn [negb]. unfold with_lock, emit, bind, File.read_lines, lift.
  cbn [files set_trace]. rewrite E, read_entries_parse_lines. reflexivity.
Qed.

Definition stats0 : Stats := mkStats "2026-01-01T00:00:00+00:00" 0 0 0 0 0 None None [].

(** A world with no configuration, an empty cache, a network that is down
    and the given files. *)
Definition bare_world (fs : list (string * string)) : World :=
  mkWorld [] (fun l => l) 900 "" "" 30 1800 PNone PNone None 1762163700000000
          [] (fun _ => mkExn ConnectionError "the network is down") [] fs stats0.

Definition torn_store : World :=
  bare_world [("dead_letter.jsonl", "{bad" ++ File.newline)].

(** C4, the claim as stated fails: on a store whose only line is the torn
    entry [{bad], [count] returns 1 while [read_all] returns no entry. *)
Lemma count_differs_from_read_all :
  fst (dead_letter.count torn_store) = Ok 1
  /\ fst (dead_letter.read_all torn_store) = Ok [].
Proof. split; reflexivity. Qed.

(** C4, amended.  For every content of the store that decodes as UTF-8:
    - [count] returns the number of lines that are not blank (a line of
      white space in the sense of [str.strip], a no-break space included, is
      blank), whether they parse or not;
    - when no line is beyond the limits of the decoder, [read_all] returns
      one entry for each line that is not blank and parses; so the sequence it
      returns is never longer than [count] says, and the two agree exactly
      when every line that is not blank parses.
    Beyond this the functions raise instead: UnicodeDecodeError on a store
    that is not UTF-8, and in [read_all] the ValueError or RecursionError of
    the decoder, which its handler does not catch. *)
Theorem count_is_nonblank_lines : forall w,
  Str.is_utf8 (store w) = true ->
  fst (dead_letter.count w)
  = Ok (Z.of_nat (List.length (filter nonblank (stored_lines w))))
  /\
  (Forall (fun l => Json.within_limits (json_room w) l = true) (stored_lines w) ->
   exists n entries,
     fst (dead_letter.count w) = Ok n
     /\ fst (dead_letter.read_all w) = Ok entries
     /\ List.length entries
        = List.length (filter (fun l => nonblank l && parses l) (stored_lines w))
     /\ Z.of_nat (List.length entries) <= n
     /\ (Z.of_nat (List.length entries) = n
         <-> Forall (fun l => parses l = true) (filter nonblank (stored_lines w)))).
Proof.
  intros w _. split.
  - rewrite count_run. f_equal. apply count_lines_filter.
  - intros _.
    exists (dead_letter.count_lines (stored_lines w)),
           (dead_letter.parse_lines (stored_lines w)).
    split; [apply count_run|]. split; [apply read_all_run|].
    split; [apply parse_lines_filter|].
    rewrite count_lines_filter, parse_lines_filter.
    pose proof (filter_both_le nonblank parses (stored_lines w)) as LE.
    split; [lia|].
    rewrite <- filter_both_eq. split; intros H; lia.
Qed.

(** A store of three lines: a no-break space, a torn entry and an entry *)
Definition mixed_store : World :=
  bare_world
    [("dead_letter.jsonl",
      String (ascii_of_N 194) (String (ascii_of_N 160) File.newline)
        ++ "{bad" ++ File.newline
        ++ "{}" ++ File.newline)].

Lemma count_is_nonblank_lines_witness :
  fst (dead_letter.count mixed_store) = Ok 2
  /\ exists n entries,
       fst (dead_letter.count mixed_store) = Ok n
       /\ fst (dead_letter.read_all mixed_store) = Ok entries
       /\ List.length entries
          = List.length (filter (fun l => nonblank l && parses l)
                           (stored_lines mixed_store))
       /\ Z.of_nat (List.length entries) <= n
       /\ (Z.of_nat (List.length entries) = n
           <-> Forall (fun l => parses l = true)
                 (filter nonblank (stored_lines mixed_store))).
Proof.
  destruct (count_is_nonblank_lines mixed_store eq_refl) as [C R].
  split; [exact C|]. apply R. repeat constructor.
Defined.

(** On that store [count] says 2 and [read_all] returns the one entry. *)
Example mixed_store_read :
  fst (dead_letter.read_all mixed_store) = Ok [PDict []].
Proof. reflexivity. Qed.

(** ** C9: the signature gate *)

(** The signature a request carries: empty when the header is absent. *)
Definition signature_of (request : HttpRequest) : string :=
  match signature_header request with
  | Some s => s
  | None => ""
  end.

(** C9.  With a digest function whose output is ASCII (a hexadecimal digest
    is):
    - when the shared secret is not configured, [verify_retell_signature]
      accepts every request (it returns true after logging a warning);
    - when it is configured, a request whose signature is absent or differs
      from the expected digest is turned away before anything else happens:
      the answer is 401, the only effect is one log line, and the counters,
      the files and the network script are untouched (the orchestrator, which
      would leave lock and network events in the trace, has not run).  A
      signature that is not ASCII makes the comparison itself raise, with no
      effect at all. *)
Theorem signature_gate : forall hmac,
  (forall key body, Str.is_ascii (hmac key body) = true) ->
  (forall body signature w,
     RETELL_API_KEY w = "" ->
     exists w',
       verify_retell_signature hmac body signature w = (Ok true, w')
       /\ trace w' = (trace w ++ [ELog "app" "WARNING"
            "RETELL_API_KEY not set — skipping signature verification"])%list)
  /\
  (forall request w,
     RETELL_API_KEY w <> "" ->
     signature_of request = ""
     \/ signature_of request <> hmac (RETELL_API_KEY w) (raw_body request) ->
     exists r w',
       webhook_retell hmac request w = (r, w')
       /\ stats w' = stats w
       /\ files w' = files w
       /\ net_script w' = net_script w
       /\ (Str.is_ascii (signature_of request) = true ->
           r = Ok 401
           /\ trace w' = (trace w ++ [ELog "app" "WARNING"
                "Invalid webhook signature — rejected"])%list)
       /\ (Str.is_ascii (signature_of request) = false ->
           (exists e, r = Raise e /\ exn_cls e = TypeError) /\ w' = w)).
Proof.
  intros hmac Hascii. split.
  - intros body signature w Hkey.
    unfold verify_retell_signature, bind. rewrite Hkey. cbn [String.eqb].
    eexists. split; reflexivity.
  - intros request w Hkey Hsig.
    apply String.eqb_neq in Hkey.
    unfold webhook_retell. fold (signature_of request).
    unfold verify_retell_signature, bind at 1. unfold bind at 1.
    rewrite Hkey.
    destruct (String.eqb (signature_of request) "") eqn:Eempty.
    + apply String.eqb_eq in Eempty. rewrite Eempty.
      cbn [ret negb bind app_log log emit].
      do 2 eexists. split; [reflexivity|].
      cbn [stats files net_script trace set_trace].
      repeat split; try reflexivity; intros; discriminate.
    + unfold lift, compare_digest. rewrite Hascii. cbn [andb].
      destruct (Str.is_ascii (signature_of request)) eqn:A.
      * destruct Hsig as [Hsig|Hsig]; [apply String.eqb_neq in Eempty; contradiction|].
        assert (E : String.eqb (hmac (RETELL_API_KEY w) (raw_body request))
                               (signature_of request) = false).
        { apply String.eqb_neq. congruence. }
        rewrite E. cbn [negb bind app_log log emit ret].
        do 2 eexists. split; [reflexivity|].
        cbn [stats files net_script trace set_trace].
        repeat split; try reflexivity; intros; discriminate.
      * do 2 eexists. split; [reflexivity|].
        repeat split; try reflexivity; intros; try discriminate.
        eexists. split; reflexivity.
Qed.

Definition toy_digest (key body : string) : string := "00".

Definition keyed_world : World :=
  mkWorld [] (fun l => l) 900 "secret" "" 30 1800 PNone PNone None 1762163700000000
          [] (fun _ => mkExn ConnectionError "the network is down") [] [] stats0.

Lemma signature_gate_witness :
  exists r w',
    webhook_retell toy_digest (mkHttpRequest "{}" None) keyed_world = (r, w')
    /\ stats w' = stats keyed_world
    /\ r = Ok 401.
Proof.
  destruct (proj2 (signature_gate toy_digest (fun _ _ => eq_refl))
              (mkHttpRequest "{}" None) keyed_world
              ltac:(discriminate) (or_introl eq_refl))
    as (r & w' & Run & St & _ & _ & Aok & _).
  exists r, w'. split; [exact Run|]. split; [exact St|].
  exact (proj1 (Aok eq_refl)).
Defined.

(** ** Running monadic code *)

Lemma bind_inv : forall A B (m : M A) (k : A -> M B) w r w',
  bind m k w = (r, w') ->
  (exists a w1, m w = (Ok a, w1) /\ k a w1 = (r, w'))
  \/ (exists e, m w = (Raise e, w') /\ r = Raise e).
Proof.
  intros A B m k w r w' H. unfold bind in H.
  destruct (m w) as [[a|e] w1].
  - left; eauto.
  - right. inversion H; subst. eauto.
Qed.

Lemma bind_ok_inv : forall A B (m : M A) (k : A -> M B) w b w',
  bind m k w = (Ok b, w') ->
  exists a w1, m w = (Ok a, w1) /\ k a w1 = (Ok b, w').
Proof.
  intros A B m k w b w' H. apply bind_inv in H.
  destruct H as [H|(e & _ & H)]; [exact H|discriminate].
Qed.

(** ** C7: the credential cache *)

(** The cache holds the pair and the time it was fetched. *)
Definition caches (t u : pyval) (w : World) : Prop :=
  cached_token w = t /\ cached_instance w = u /\ token_fetched_at w <> None.

Lemma caches_remember : forall t u w lvl msg,
  caches t u (snd (sf_log lvl msg (snd (remember t u w)))).
Proof. intros. repeat split. discriminate. Qed.

Lemma connector_mode_caches : forall w t u w',
  connector_mode w = (Ok (Some (t, u)), w') -> caches t u w'.
Proof.
  intros w t u w' H. unfold connector_mode, try_except in H.
  match type of H with
  | (let (_, _) := ?body w in _) = _ => destruct (body w) as [[r|e] w1] eqn:B
  | match ?body w with _ => _ end = _ => destruct (body w) as [[r|e] w1] eqn:B
  end.
  - inversion H; subst. clear H.
    apply bind_ok_inv in B. destruct B as ([tok inst] & w2 & _ & B).
    destruct (Py.truthy tok && Py.truthy inst); [|discriminate].
    apply bind_ok_inv in B. destruct B as (timeout & w3 & T & B).
    inversion T; subst. clear T.
    apply bind_ok_inv in B. destruct B as (resp & w4 & _ & B).
    destruct (status_code resp =? 200).
    + unfold bind, remember, sf_log, log, emit, ret in B. inversion B; subst.
      repeat split. discriminate.
    + unfold bind, sf_log, log, emit, ret in B. discriminate.
  - cbn [any_exception] in H. unfold bind, sf_log, log, emit, ret in H. discriminate.
Qed.

Lemma resolve_chain_caches : forall w t u w',
  resolve_chain w = (Ok (t, u), w') -> caches t u w'.
Proof.
  intros w t u w' H. unfold resolve_chain in H.
  unfold bind at 1 2 in H. cbn [getenv] in H.
  destruct (env_set (assoc "SF_ACCESS_TOKEN" (environ w))
            && env_set (assoc "SF_INSTANCE_URL" (environ w))).
  - unfold bind, sf_log, log, emit, remember in H. inversion H; subst.
    repeat split. discriminate.
  - apply bind_ok_inv in H. destruct H as (connected & w1 & C & H).
    destruct connected as [[t' u']|].
    + inversion H; subst. eapply connector_mode_caches; eassumption.
    + unfold bind at 1 2 in H. cbn [getenv] in H.
      destruct (env_set (assoc "SF_REFRESH_TOKEN" (environ w1))
                && env_set (assoc "SF_CLIENT_ID" (environ w1))).
      * apply bind_ok_inv in H. destruct H as ([t' u'] & w2 & _ & H).
        unfold bind, remember, sf_log, log, emit, ret in H. inversion H; subst.
        repeat split. discriminate.
      * unfold bind at 1 in H. cbn [getenv] in H.
        destruct (env_set (assoc "SF_CLIENT_ID" (environ w1))
                  && env_set (assoc "SF_USERNAME" (environ w1))); [|discriminate].
        apply bind_ok_inv in H. destruct H as ([t' u'] & w2 & _ & H).
        unfold bind, remember, sf_log, log, emit, ret in H. inversion H; subst.
        repeat split. discriminate.
Qed.

(** After a resolution that succeeds, the cache holds what it returned. *)
Lemma resolved_is_cached : forall w t u w',
  get_salesforce_credentials w = (Ok (t, u), w') -> caches t u w'.
Proof.
  intros w t u w' H. unfold get_salesforce_credentials, with_lock in H.
  cbn [emit] in H.
  match type of H with
  | context [cache_fresh ?x] => destruct (cache_fresh x) eqn:F
  end.
  - inversion H; subst. unfold cache_fresh in F. cbn in F.
    apply andb_true_iff in F. destruct F as [_ F].
    repeat split. cbn. destruct (token_fetched_at w); [discriminate|discriminate].
  - match type of H with
    | context [resolve_chain ?x] => destruct (resolve_chain x) as [[[t' u']|e] w1] eqn:R
    end; inversion H; subst.
    apply resolve_chain_caches in R. exact R.
Qed.

(** The two lock events every call of [get_salesforce_credentials] leaves *)
Definition locked (w : World) : World :=
  set_trace (trace w ++ [EAcquire "_token_lock"; ERelease "_token_lock"]) w.

(** *** The time of the resolution *)

Lemma connector_mode_stamp : forall w t u w',
  connector_mode w = (Ok (Some (t, u)), w') -> token_fetched_at w' = Some (clock w').
Proof.
  intros w t u w' H. unfold connector_mode, try_except in H.
  match type of H with
  | (let (_, _) := ?body w in _) = _ => destruct (body w) as [[r|e] w1] eqn:B
  | match ?body w with _ => _ end = _ => destruct (body w) as [[r|e] w1] eqn:B
  end.
  - inversion H; subst. clear H.
    apply bind_ok_inv in B. destruct B as ([tok inst] & w2 & _ & B).
    destruct (Py.truthy tok && Py.truthy inst); [|discriminate].
    apply bind_ok_inv in B. destruct B as (timeout & w3 & T & B).
    inversion T; subst. clear T.
    apply bind_ok_inv in B. destruct B as (resp & w4 & _ & B).
    destruct (status_code resp =? 200).
    + unfold bind, remember, sf_log, log, emit, ret in B. inversion B; subst.
      reflexivity.
    + unfold bind, sf_log, log, emit, ret in B. discriminate.
  - cbn [any_exception] in H. unfold bind, sf_log, log, emit, ret in H. discriminate.
Qed.

Lemma resolve_chain_stamp : forall w t u w',
  resolve_chain w = (Ok (t, u), w') -> token_fetched_at w' = Some (clock w').
Proof.
  intros w t u w' H. unfold resolve_chain in H.
  unfold bind at 1 2 in H. cbn [getenv] in H.
  destruct (env_set (assoc "SF_ACCESS_TOKEN" (environ w))
            && env_set (assoc "SF_INSTANCE_URL" (environ w))).
  - unfold bind, sf_log, log, emit, remember in H. inversion H; subst. reflexivity.
  - apply bind_ok_inv in H. destruct H as (connected & w1 & C & H).
    destruct connected as [[t' u']|].
    + inversion H; subst. eapply connector_mode_stamp; eassumption.
    + unfold bind at 1 2 in H. cbn [getenv] in H.
      destruct (env_set (assoc "SF_REFRESH_TOKEN" (environ w1))
                && env_set (assoc "SF_CLIENT_ID" (environ w1))).
      * apply bind_ok_inv in H. destruct H as ([t' u'] & w2 & _ & H).
        unfold bind, remember, sf_log, log, emit, ret in H. inversion H; subst.
        reflexivity.
      * unfold bind at 1 in H. cbn [getenv] in H.
        destruct (env_set (assoc "SF_CLIENT_ID" (environ w1))
                  && env_set (assoc "SF_USERNAME" (environ w1))); [|discriminate].
        apply bind_ok_inv in H. destruct H as ([t' u'] & w2 & _ & H).
        unfold bind, remember, sf_log, log, emit, ret in H. inversion H; subst.
        reflexivity.
Qed.

(** A call that did not find a fresh entry and returned has stamped the
    cache with the time of its return. *)
Lemma resolution_stamp : forall w t u w',
  cache_fresh w = false ->
  get_salesforce_credentials w = (Ok (t, u), w') ->
  token_fetched_at w' = Some (clock w').
Proof.
  intros w t u w' F H. unfold get_salesforce_credentials, with_lock in H.
  cbn [emit] in H.
  assert (F' : cache_fresh (set_trace (trace w ++ [EAcquire "_token_lock"]) w) = false)
    by exact F.
  rewrite F' in H.
  match type of H with
  | context [resolve_chain ?x] => destruct (resolve_chain x) as [[[t' u']|e] w1] eqn:R
  end; inversion H; subst.
  apply resolve_chain_stamp in R. exact R.
Qed.

(** A process in refresh-token mode whose token endpoint answers, twice,
    with an empty access token *)
Definition empty_token_answer : Request -> net_outcome :=
  fun _ =>
    Responds 1000
      (mkResponse 200 "application/json"
         (Json.dumps (PDict [("access_token", PStr "");
                             ("instance_url", PStr "https://sf.example")]))).

Definition empty_token_world : World :=
  mkWorld [("SF_REFRESH_TOKEN", "r"); ("SF_CLIENT_ID", "c"); ("SF_CLIENT_SECRET", "s")]
          (fun l => l) 900 "" "" 30 1800 PNone PNone None 1762163700000000
          [empty_token_answer; empty_token_answer]
          (fun _ => mkExn ConnectionError "the network is down") [] [] stats0.

(** The world after the first call, and after the call that follows at once *)
Definition after_empty_token : World :=
  snd (get_salesforce_credentials empty_token_world).

Definition after_second_call : World :=
  snd (get_salesforce_credentials after_empty_token).

(** C7, the claim as stated fails: the token endpoint answers 200 with an
    empty access token, the resolution returns it and caches it, stamped with
    the time; the next call, made at once and so within the time to live,
    does not return from the cache: it asks the endpoint again (the script
    has one answer fewer after each of the two calls). *)
Lemma empty_token_is_resolved_again :
  fst (get_salesforce_credentials empty_token_world)
  = Ok (PStr "", PStr "https://sf.example")
  /\ cached_token after_empty_token = PStr ""
  /\ cached_instance after_empty_token = PStr "https://sf.example"
  /\ token_fetched_at after_empty_token = Some (clock after_empty_token)
  /\ 0 < SF_TOKEN_CACHE_TTL after_empty_token * 1000000
  /\ List.length (net_script empty_token_world) = 2%nat
  /\ List.length (net_script after_empty_token) = 1%nat
  /\ fst (get_salesforce_credentials after_empty_token)
     = Ok (PStr "", PStr "https://sf.example")
  /\ List.length (net_script after_second_call) = 0%nat.
Proof. vm_compute. repeat split; reflexivity. Qed.

(** C7, amended.  The pair a resolution returns is cached, stamped with the
    time of the resolution.
    - When the token is truthy, a call made while the cache still holds that
      entry and less than the time to live after the stamp returns the same
      pair, and its only effect is taking and releasing the token lock: no
      request is sent, nothing is logged, no strategy is evaluated.
    - When the token is falsy (empty or null, which modes 3 and 4 return
      unchecked), the entry is never served: the next call runs the whole
      strategy chain, however soon it comes.
    - After [_invalidate_token_cache], and once the time to live has passed,
      the call runs the whole strategy chain. *)
Theorem credential_cache :
  (forall w t u w1,
     cache_fresh w = false ->
     get_salesforce_credentials w = (Ok (t, u), w1) ->
     cached_token w1 = t /\ cached_instance w1 = u
     /\ token_fetched_at w1 = Some (clock w1))
  /\
  (forall w t u w1,
     get_salesforce_credentials w = (Ok (t, u), w1) ->
     Py.truthy t = true ->
     forall w2 fetched,
       cached_token w2 = cached_token w1 ->
       cached_instance w2 = cached_instance w1 ->
       token_fetched_at w2 = token_fetched_at w1 ->
       token_fetched_at w1 = Some fetched ->
       clock w2 - fetched < SF_TOKEN_CACHE_TTL w2 * 1000000 ->
       get_salesforce_credentials w2 = (Ok (t, u), locked w2))
  /\
  (forall w t u w1,
     get_salesforce_credentials w = (Ok (t, u), w1) ->
     Py.truthy t = false ->
     forall w2,
       cached_token w2 = cached_token w1 ->
       get_salesforce_credentials w2 = with_lock "_token_lock" resolve_chain w2)
  /\
  (forall w,
     get_salesforce_credentials (snd (_invalidate_token_cache w))
     = with_lock "_token_lock" resolve_chain (snd (_invalidate_token_cache w)))
  /\
  (forall w fetched,
     token_fetched_at w = Some fetched ->
     SF_TOKEN_CACHE_TTL w * 1000000 <= clock w - fetched ->
     get_salesforce_credentials w = with_lock "_token_lock" resolve_chain w).
Proof.
  split; [|split; [|split; [|split]]].
  - intros w t u w1 F H.
    pose proof (resolution_stamp w t u w1 F H) as S.
    apply resolved_is_cached in H. destruct H as (Ht & Hu & _). auto.
  - intros w t u w1 H T w2 fetched Ct Ci Cf F Age.
    apply resolved_is_cached in H. destruct H as (Ht & Hu & _).
    unfold get_salesforce_credentials, with_lock. cbn [emit].
    unfold cache_fresh. cbn [cached_token set_trace token_fetched_at clock
                             SF_TOKEN_CACHE_TTL cached_instance].
    rewrite Ct, Ci, Cf, F, Ht, Hu, T. cbn [andb].
    apply Z.ltb_lt in Age. rewrite Age.
    unfold locked. cbn. rewrite <- app_assoc. reflexivity.
  - intros w t u w1 H T w2 Ct.
    apply resolved_is_cached in H. destruct H as (Ht & _ & _).
    unfold get_salesforce_credentials, with_lock. cbn [emit].
    unfold cache_fresh. cbn [cached_token set_trace].
    rewrite Ct, Ht, T. reflexivity.
  - intros w.
    unfold get_salesforce_credentials, with_lock, _invalidate_token_cache, emit,
      cache_fresh.
    cbn [snd fst cached_token set_trace set_cache Py.truthy andb].
    reflexivity.
  - intros w fetched F Age.
    unfold get_salesforce_credentials, with_lock. cbn [emit].
    unfold cache_fresh. cbn [cached_token set_trace token_fetched_at clock
                             SF_TOKEN_CACHE_TTL cached_instance].
    rewrite F. apply Z.ltb_ge in Age. rewrite Age, andb_false_r. reflexivity.
Qed.

(** A world in token mode: the two variables of mode 1 are set, the cache is
    empty, and the network follows the given script. *)
Definition token_world (script : list (Request -> net_outcome)) : World :=
  mkWorld [("SF_ACCESS_TOKEN", "tok"); ("SF_INSTANCE_URL", "https://sf.example")]
          (fun l => l) 900 "" "" 30 1800 PNone PNone None 1762163700000000
          script (fun _ => mkExn ConnectionError "the network is down") [] [] stats0.

Lemma credential_cache_witness :
  get_salesforce_credentials (snd (get_salesforce_credentials (token_world [])))
  = (Ok (PStr "tok", PStr "https://sf.example"),
     locked (snd (get_salesforce_credentials (token_world [])))).
Proof.
  refine (proj1 (proj2 credential_cache) (token_world []) (PStr "tok")
            (PStr "https://sf.example")
            (snd (get_salesforce_credentials (token_world [])))
            eq_refl eq_refl
            (snd (get_salesforce_credentials (token_world [])))
            1762163700000000 eq_refl eq_refl eq_refl eq_refl _).
  vm_compute. reflexivity.
Defined.

(** ** C6: the deduplication check *)

(** The batches [check_existing_applicants] walks through *)
Definition batches (unique_ids : list string) : list (list string) :=
  map (slice25 unique_ids) (batch_starts (List.length unique_ids)).

(** What the answer of one batch adds to the set, and the exception that
    ended the [try] block early, if one did: a query that raised adds
    nothing. *)
Definition gathered (outcome : res pyval) (acc : pairs) : pairs * option exn :=
  match outcome with
  | Raise e => (acc, Some e)
  | Ok records =>
      match iterate records with
      | Raise e => (acc, Some e)
      | Ok rs => collect rs acc
      end
  end.

Definition failure_of (outcome : res pyval) : option exn := snd (gathered outcome []).

(** The world after the [except] clause has logged the failure, if any *)
Definition warned (failure : option exn) (w : World) : World :=
  match failure with
  | Some e => snd (core_log "WARNING" ("Dedup query failed for batch: " ++ exn_msg e) w)
  | None => w
  end.

(** The union of what the answered batches hold *)
Definition union_found (outcomes : list (res pyval)) (acc : pairs) : pairs :=
  fold_left (fun acc o => fst (gathered o acc)) outcomes acc.

(** [queries q bs w outcomes w']: starting in [w], one query is issued for
    each batch of [bs], in order, whatever the earlier ones returned;
    [outcomes] lists what each returned, and [w'] is the world at the end. *)
Inductive queries (q : string -> M pyval)
  : list (list string) -> World -> list (res pyval) -> World -> Prop :=
| queries_nil : forall w, queries q [] w [] w
| queries_cons : forall b bs w o w1 os w',
    q (dedup_soql b) w = (o, w1) ->
    queries q bs (warned (failure_of o) w1) os w' ->
    queries q (b :: bs) w (o :: os) w'.

Lemma collect_failure : forall rs acc acc',
  snd (collect rs acc) = snd (collect rs acc').
Proof.
  induction rs as [|r rs IH]; intros acc acc'; [reflexivity|].
  cbn [collect]. destruct (record_pair r) as [[p|]|e]; [apply IH|apply IH|reflexivity].
Qed.

Lemma gathered_failure : forall o acc, snd (gathered o acc) = failure_of o.
Proof.
  intros o acc. unfold failure_of, gathered.
  destruct o as [records|e]; [|reflexivity].
  destruct (iterate records); [apply collect_failure|reflexivity].
Qed.

Lemma dedup_batch_run : forall q batch acc w,
  dedup_batch q batch acc w
  = (Ok (fst (gathered (fst (q (dedup_soql batch) w)) acc)),
     warned (failure_of (fst (q (dedup_soql batch) w))) (snd (q (dedup_soql batch) w))).
Proof.
  intros q batch acc w. rewrite <- (gathered_failure _ acc).
  unfold dedup_batch, bind, attempt.
  destruct (q (dedup_soql batch) w) as [o w1]. cbn [fst snd].
  unfold gathered.
  destruct o as [records|e].
  - destruct (iterate records) as [rs|e].
    + destruct (collect rs acc) as [acc' [e|]]; reflexivity.
    + reflexivity.
  - reflexivity.
Qed.

Lemma dedup_loop_run : forall q unique starts acc w,
  exists outcomes w',
    dedup_loop q unique starts acc w = (Ok (union_found outcomes acc), w')
    /\ queries q (map (slice25 unique) starts) w outcomes w'.
Proof.
  intros q unique; induction starts as [|i starts IH]; intros acc w.
  - exists [], w. split; [reflexivity|constructor].
  - cbn [dedup_loop map]. unfold bind. rewrite dedup_batch_run.
    destruct (q (dedup_soql (slice25 unique i)) w) as [o w1] eqn:Q. cbn [fst snd].
    destruct (IH (fst (gathered o acc)) (warned (failure_of o) w1))
      as (os & w' & Run & Qs).
    exists (o :: os), w'. split; [exact Run|].
    econstructor; eassumption.
Qed.

(** *** The batches cover the list, 25 at a time *)

Lemma firstn_plus : forall (A : Type) a b (l : list A),
  firstn (a + b) l = (firstn a l ++ firstn b (skipn a l))%list.
Proof.
  intros A; induction a as [|a IH]; intros b l; [reflexivity|].
  destruct l as [|x l]; cbn [Nat.add firstn skipn app].
  - rewrite firstn_nil. reflexivity.
  - rewrite IH. reflexivity.
Qed.

Lemma concat_slices : forall (l : list string) k,
  List.concat (map (fun j => slice25 l (25 * j)%nat) (seq 0 k)) = firstn (25 * k) l.
Proof.
  intros l; induction k as [|k IH]; [reflexivity|].
  rewrite seq_S, map_app, concat_app, IH. cbn [map List.concat Nat.add].
  rewrite app_nil_r. unfold slice25.
  replace (25 * S k)%nat with (25 * k + 25)%nat by lia.
  symmetry. apply firstn_plus.
Qed.

Lemma batches_concat : forall l, List.concat (batches l) = l.
Proof.
  intros l. unfold batches, batch_starts. rewrite map_map, concat_slices.
  apply firstn_all2.
  pose proof (Nat.div_mod_eq (List.length l + 24) 25).
  pose proof (Nat.mod_upper_bound (List.length l + 24) 25). lia.
Qed.

Lemma batches_size : forall l,
  Forall (fun b => (1 <= List.length b <= 25)%nat) (batches l).
Proof.
  intros l. unfold batches, batch_starts. rewrite map_map.
  apply Forall_forall. intros b Hb. apply in_map_iff in Hb.
  destruct Hb as (j & <- & Hj). apply in_seq in Hj.
  unfold slice25. rewrite length_firstn, length_skipn.
  pose proof (Nat.div_mod_eq (List.length l + 24) 25).
  pose proof (Nat.mod_upper_bound (List.length l + 24) 25). lia.
Qed.

(** *** The pairs of the answers *)

Lemma pair_in_In : forall p s, pair_in p s = true -> In p s.
Proof.
  intros p s H. unfold pair_in in H. apply existsb_exists in H.
  destruct H as (x & Hx & E). unfold pair_eqb in E.
  apply andb_true_iff in E. destruct E as [E1 E2].
  apply String.eqb_eq in E1, E2. destruct p, x; cbn in *; subst. exact Hx.
Qed.

Lemma pair_add_In : forall p q s, In p (pair_add q s) <-> p = q \/ In p s.
Proof.
  intros p q s. unfold pair_add. destruct (pair_in q s) eqn:E.
  - split; [auto|]. intros [->|H]; [apply pair_in_In; exact E|exact H].
  - rewrite in_app_iff. cbn [In]. intuition congruence.
Qed.

Lemma collect_sound : forall rs acc p,
  In p (fst (collect rs acc)) ->
  In p acc \/ exists r, In r rs /\ record_pair r = Ok (Some p).
Proof.
  induction rs as [|r rs IH]; intros acc p H; [left; exact H|].
  cbn [collect] in H. destruct (record_pair r) as [[x|]|e] eqn:R.
  - apply IH in H. destruct H as [H|(r' & Hr & E)].
    + apply pair_add_In in H. destruct H as [->|H]; [|left; exact H].
      right. exists r. split; [left; reflexivity|exact R].
    + right. exists r'. split; [right; exact Hr|exact E].
  - apply IH in H. destruct H as [H|(r' & Hr & E)]; [left; exact H|].
    right. exists r'. split; [right; exact Hr|exact E].
  - left. exact H.
Qed.

Lemma collect_keeps : forall rs acc p, In p acc -> In p (fst (collect rs acc)).
Proof.
  induction rs as [|r rs IH]; intros acc p H; [exact H|].
  cbn [collect]. destruct (record_pair r) as [[x|]|e].
  - apply IH. apply pair_add_In. right; exact H.
  - apply IH; exact H.
  - exact H.
Qed.

Lemma collect_complete : forall rs acc r p,
  (forall r', In r' rs -> exists x, record_pair r' = Ok x) ->
  In r rs -> record_pair r = Ok (Some p) ->
  In p (fst (collect rs acc)).
Proof.
  induction rs as [|r0 rs IH]; intros acc r p Hall Hin R; [destruct Hin|].
  cbn [collect]. destruct Hin as [->|Hin].
  - rewrite R. apply collect_keeps. apply pair_add_In. left; reflexivity.
  - destruct (Hall r0 (or_introl eq_refl)) as (x & E). rewrite E.
    assert (Hall' : forall r', In r' rs -> exists x, record_pair r' = Ok x)
      by (intros r' Hr'; apply Hall; right; exact Hr').
    destruct x; eapply IH; eassumption.
Qed.

Lemma gathered_keeps : forall o acc p, In p acc -> In p (fst (gathered o acc)).
Proof.
  intros o acc p H. unfold gathered. destruct o as [records|e]; [|exact H].
  destruct (iterate records); [apply collect_keeps|]; exact H.
Qed.

Lemma union_found_keeps : forall os acc p, In p acc -> In p (union_found os acc).
Proof.
  induction os as [|o os IH]; intros acc p H; [exact H|].
  cbn [union_found fold_left]. apply IH. apply gathered_keeps. exact H.
Qed.

Lemma union_found_sound : forall os acc p,
  In p (union_found os acc) ->
  In p acc \/
  exists records rs r,
    In (Ok records) os /\ iterate records = Ok rs /\ In r rs
    /\ record_pair r = Ok (Some p).
Proof.
  induction os as [|o os IH]; intros acc p H; [left; exact H|].
  cbn [union_found fold_left] in H. apply IH in H.
  destruct H as [H|(records & rs & r & Ho & I & Hr & R)].
  - unfold gathered in H. destruct o as [records|e]; [|left; exact H].
    destruct (iterate records) as [rs|e] eqn:I; [|left; exact H].
    apply collect_sound in H. destruct H as [H|(r & Hr & R)]; [left; exact H|].
    right. exists records, rs, r. repeat split; try assumption. left; reflexivity.
  - right. exists records, rs, r. repeat split; try assumption. right; exact Ho.
Qed.

Lemma union_found_complete : forall os acc records rs r p,
  In (Ok records) os -> iterate records = Ok rs ->
  (forall r', In r' rs -> exists x, record_pair r' = Ok x) ->
  In r rs -> record_pair r = Ok (Some p) ->
  In p (union_found os acc).
Proof.
  induction os as [|o os IH]; intros acc records rs r p Ho I Hall Hr R; [destruct Ho|].
  cbn [union_found fold_left]. destruct Ho as [->|Ho].
  - apply union_found_keeps. unfold gathered. rewrite I.
    eapply collect_complete; eassumption.
  - eapply IH; eassumption.
Qed.

(** The pair of a record is the pair of its two ids cut to 15 characters. *)
Lemma record_pair_normalized : forall r c j,
  record_pair r = Ok (Some (c, j)) ->
  exists cc jj,
    Py.get r "AVTRRT__Contact_Candidate__c" (PStr "") = Ok (PStr cc)
    /\ Py.get r "AVTRRT__Job__c" (PStr "") = Ok (PStr jj)
    /\ cc <> "" /\ jj <> ""
    /\ c = Str.take 15 cc /\ j = Str.take 15 jj.
Proof.
  intros r c j H. unfold record_pair in H.
  apply rbind_ok in H. destruct H as (cc & Gc & H).
  apply rbind_ok in H. destruct H as (jj & Gj & H).
  destruct (Py.truthy cc && Py.truthy jj) eqn:T; [|discriminate].
  apply andb_true_iff in T. destruct T as [Tc Tj].
  apply rbind_ok in H. destruct H as (cc15 & Sc & H).
  apply rbind_ok in H. destruct H as (jj15 & Sj & H).
  destruct cc15 as [| | | |c'| |]; try discriminate;
    destruct jj15 as [| | | |j'| |]; try discriminate.
  inversion H; subst c' j'. clear H.
  destruct cc as [| | | |cc| |]; try discriminate.
  destruct jj as [| | | |jj| |]; try discriminate.
  cbn [Py.slice_to] in Sc, Sj. inversion Sc. inversion Sj.
  exists cc, jj. repeat split; try assumption.
  - intros ->. discriminate.
  - intros ->. discriminate.
Qed.

Lemma queries_length : forall q bs w os w',
  queries q bs w os w' -> List.length os = List.length bs.
Proof.
  intros q bs w os w' H. induction H; cbn [List.length]; congruence.
Qed.

(** A record of an answer as the CRM sends it: a dictionary whose contact
    and job are text (or missing). *)
Definition applicant_record (r : pyval) : Prop :=
  exists d,
    r = PDict d
    /\ (exists s, field d "AVTRRT__Contact_Candidate__c" = PStr s)
    /\ (exists s, field d "AVTRRT__Job__c" = PStr s).

(** The pair such a record gives: its two ids cut to 15 characters, when
    neither is empty. *)
Lemma record_pair_text : forall d cc jj,
  field d "AVTRRT__Contact_Candidate__c" = PStr cc ->
  field d "AVTRRT__Job__c" = PStr jj ->
  record_pair (PDict d)
  = Ok (if negb (String.eqb cc "") && negb (String.eqb jj "")
        then Some (Str.take 15 cc, Str.take 15 jj) else None).
Proof.
  intros d cc jj Hc Hj. unfold record_pair.
  rewrite !get_block_field, Hc, Hj. cbn [rbind Py.truthy].
  destruct (negb (String.eqb cc "") && negb (String.eqb jj "")); reflexivity.
Qed.

Lemma applicant_record_pair : forall r,
  applicant_record r -> exists x, record_pair r = Ok x.
Proof.
  intros r (d & -> & (cc & Hc) & (jj & Hj)).
  eexists. apply record_pair_text; eassumption.
Qed.


Definition one_applicant (soql : string) : M pyval :=
  ret (PList [PDict [("AVTRRT__Contact_Candidate__c", PStr "003000000000001AAA");
                     ("AVTRRT__Job__c", PStr "a0F000000000001AAA")]]).


(** ** C5: record creation under timeouts *)

(** [s.endswith(suffix)] *)
Fixpoint ends_with (suffix s : string) : bool :=
  String.eqb suffix s ||
  match s with
  | EmptyString => false
  | String _ s' => ends_with suffix s'
  end.

(** The request that creates a record: a POST to the composite endpoint *)
Definition is_create_request (req : Request) : bool :=
  String.eqb (req_method req) "POST"
  && ends_with "/services/data/v59.0/composite/sobjects" (req_url req).

(** What matters of the trace for record creation: a credential resolution
    (it takes the token lock), an attempt to create, a pause. *)
Inductive step : Type :=
| Resolve
| Post
| Pause (seconds : Z).

Definition view_event (e : event) : list step :=
  match e with
  | ENet r => if is_create_request r then [Post] else []
  | ESleep s => [Pause s]
  | EAcquire l => if String.eqb l "_token_lock" then [Resolve] else []
  | _ => []
  end.

Definition view (t : list event) : list step := flat_map view_event t.

(** [steps w w' v]: the process went from [w] to [w'], the events it added
    to the trace show as [v], the environment is the same and the network
    script has only been consumed. *)
Definition steps (w w' : World) (v : list step) : Prop :=
  exists new k,
    trace w' = (trace w ++ new)%list /\ view new = v
    /\ environ w' = environ w /\ net_down w' = net_down w
    /\ net_script w' = skipn k (net_script w).

Lemma steps_refl : forall w, steps w w [].
Proof.
  intros w. exists [], O. rewrite app_nil_r. repeat split; reflexivity.
Qed.

Lemma steps_trans : forall w w1 w2 v1 v2,
  steps w w1 v1 -> steps w1 w2 v2 -> steps w w2 (v1 ++ v2)%list.
Proof.
  intros w w1 w2 v1 v2 (n1 & k1 & T1 & V1 & E1 & D1 & S1) (n2 & k2 & T2 & V2 & E2 & D2 & S2).
  exists (n1 ++ n2)%list, (k1 + k2)%nat. repeat split.
  - rewrite T2, T1, app_assoc. reflexivity.
  - unfold view in *. rewrite flat_map_app, V1, V2. reflexivity.
  - congruence.
  - congruence.
  - rewrite S2, S1, skipn_skipn. f_equal. lia.
Qed.

(** A computation whose events do not show: no creation attempt, no pause,
    no credential resolution. *)
Definition Quiet {A} (m : M A) : Prop :=
  forall w r w', m w = (r, w') -> steps w w' [].

Lemma Quiet_ret : forall A (a : A), Quiet (ret a).
Proof. intros A a w r w' H. inversion H; subst. apply steps_refl. Qed.

Lemma Quiet_raise : forall A e, Quiet (@raise A e).
Proof. intros A e w r w' H. inversion H; subst. apply steps_refl. Qed.

Lemma Quiet_lift : forall A (x : res A), Quiet (lift x).
Proof. intros A x w r w' H. inversion H; subst. apply steps_refl. Qed.

Lemma Quiet_bind : forall A B (m : M A) (k : A -> M B),
  Quiet m -> (forall a, Quiet (k a)) -> Quiet (bind m k).
Proof.
  intros A B m k Hm Hk w r w' H. apply bind_inv in H.
  destruct H as [(a & w1 & H1 & H2)|(e & H1 & _)].
  - change (@nil step) with (@nil step ++ [])%list.
    eapply steps_trans; [eapply Hm; eassumption|eapply Hk; eassumption].
  - eapply Hm; eassumption.
Qed.

Lemma Quiet_try_except : forall A (body : M A) catches handler,
  Quiet body -> (forall e, Quiet (handler e)) -> Quiet (try_except body catches handler).
Proof.
  intros A body catches handler Hb Hh w r w' H. unfold try_except in H.
  destruct (body w) as [[a|e] w1] eqn:B.
  - inversion H; subst. eapply Hb; eassumption.
  - destruct (catches e).
    + change (@nil step) with (@nil step ++ [])%list.
      eapply steps_trans; [eapply Hb; eassumption|eapply Hh; eassumption].
    + inversion H; subst. eapply Hb; eassumption.
Qed.

Lemma Quiet_read : forall A (f : World -> A), Quiet (fun w => (Ok (f w), w)).
Proof. intros A f w r w' H. inversion H; subst. apply steps_refl. Qed.

Lemma Quiet_getenv : forall name, Quiet (getenv name).
Proof. intros name. exact (Quiet_read _ (fun w => assoc name (environ w))). Qed.

Lemma Quiet_log : forall logger level message, Quiet (log logger level message).
Proof.
  intros logger level message w r w' H. inversion H; subst.
  exists [ELog logger level message], O. repeat split; reflexivity.
Qed.

Lemma Quiet_remember : forall t u, Quiet (remember t u).
Proof.
  intros t u w r w' H. inversion H; subst.
  exists [], O. cbn. rewrite app_nil_r. repeat split; reflexivity.
Qed.

Lemma Quiet_http : forall req, is_create_request req = false -> Quiet (http req).
Proof.
  intros req Hreq w r w' H. unfold http in H. cbn [emit] in H.
  cbn [net_script set_trace] in H.
  destruct (net_script w) as [|f rest] eqn:S.
  - inversion H; subst. exists [ENet req], O. cbn. rewrite Hreq, S. repeat split; reflexivity.
  - destruct (f req); inversion H; subst;
      exists [ENet req], 1%nat; cbn; rewrite Hreq, S; repeat split; reflexivity.
Qed.

Lemma Quiet_raise_for_status : forall url resp, Quiet (raise_for_status url resp).
Proof.
  intros url resp. unfold raise_for_status.
  destruct ((400 <=? status_code resp) && (status_code resp <? 600));
    [apply Quiet_raise|apply Quiet_ret].
Qed.

(** *** Which requests create a record *)

Lemma ends_with_app : forall suffix s, ends_with suffix (s ++ suffix) = true.
Proof.
  intros suffix; induction s as [|c s IH]; cbn [append].
  - destruct suffix; cbn [ends_with]; rewrite String.eqb_refl; reflexivity.
  - cbn [ends_with]. rewrite IH. apply orb_true_r.
Qed.

Lemma ends_with_inv : forall suffix s,
  ends_with suffix s = true -> exists pre, s = pre ++ suffix.
Proof.
  intros suffix; induction s as [|c s IH]; intros H; cbn [ends_with] in H.
  - rewrite orb_false_r in H. apply String.eqb_eq in H. exists "". cbn. congruence.
  - apply orb_true_iff in H. destruct H as [H|H].
    + apply String.eqb_eq in H. exists "". cbn. congruence.
    + destruct (IH H) as (pre & ->). exists (String c pre). reflexivity.
Qed.

Fixpoint last_char (s : string) : option ascii :=
  match s with
  | EmptyString => None
  | String c EmptyString => Some c
  | String _ s' => last_char s'
  end.

Lemma last_char_app : forall s c t,
  last_char (s ++ String c t) = last_char (String c t).
Proof.
  induction s as [|a s IH]; intros c t; [reflexivity|].
  cbn [append]. change (last_char (String a (s ++ String c t)))
    with (match s ++ String c t with
          | EmptyString => Some a
          | _ => last_char (s ++ String c t)
          end).
  destruct (s ++ String c t) eqn:E.
  - destruct s; discriminate.
  - rewrite <- E. apply IH.
Qed.

Lemma token_url_is_not_create : forall login_url headers body timeout,
  is_create_request
    (mkRequest "POST" (login_url ++ "/services/oauth2/token") headers body timeout)
  = false.
Proof.
  intros login_url headers body timeout. unfold is_create_request.
  cbn [req_method req_url String.eqb Ascii.eqb Bool.eqb andb].
  destruct (ends_with "/services/data/v59.0/composite/sobjects"
                      (login_url ++ "/services/oauth2/token")) eqn:E; [|reflexivity].
  apply ends_with_inv in E. destruct E as (pre & E).
  apply (f_equal last_char) in E.
  rewrite !last_char_app in E. discriminate.
Qed.

Lemma create_request_is_create : forall t u payload,
  is_create_request (create_request t u payload) = true.
Proof.
  intros t u payload. unfold is_create_request, create_request, create_url.
  cbn [req_method req_url]. rewrite ends_with_app. reflexivity.
Qed.

(** *** The resolver sends no creation request and never pauses *)

Ltac quiet_step :=
  first
    [ apply Quiet_ret | apply Quiet_raise | apply Quiet_lift | apply Quiet_getenv
    | apply Quiet_log | apply Quiet_remember | apply Quiet_raise_for_status
    | apply Quiet_read
    | apply Quiet_http; first [reflexivity | apply token_url_is_not_create]
    | apply Quiet_try_except; [|intros ?]
    | apply Quiet_bind; [|intros ?]
    | match goal with
      | |- Quiet (if ?b then _ else _) => destruct b
      | |- Quiet (match ?x with _ => _ end) => destruct x
      end ].

Ltac quiet := repeat quiet_step.

Ltac quiet_using known := repeat first [known | quiet_step].

Lemma Quiet_resp_json : forall resp, Quiet (resp_json resp).
Proof. intros resp. apply Quiet_lift. Qed.

Lemma Quiet_refresh_via_connector : Quiet _refresh_via_connector.
Proof. unfold _refresh_via_connector, resp_json. quiet. Qed.

Lemma Quiet_token_exchange : forall login_url form failure,
  Quiet (token_exchange login_url form failure).
Proof. intros. unfold token_exchange, error_detail, resp_json. quiet. Qed.

Lemma Quiet_refresh_via_oauth : Quiet _refresh_via_oauth.
Proof.
  unfold _refresh_via_oauth. quiet_using ltac:(apply Quiet_token_exchange).
Qed.

Lemma Quiet_refresh_via_password : Quiet _refresh_via_password.
Proof.
  unfold _refresh_via_password. quiet_using ltac:(apply Quiet_token_exchange).
Qed.

Lemma Quiet_connector_mode : Quiet connector_mode.
Proof.
  unfold connector_mode, sf_log.
  apply Quiet_try_except; [|intros e; quiet].
  apply Quiet_bind; [apply Quiet_refresh_via_connector|]. intros [token instance].
  quiet.
Qed.

Lemma Quiet_resolve_chain : Quiet resolve_chain.
Proof.
  unfold resolve_chain, sf_log.
  apply Quiet_bind; [apply Quiet_getenv|intros access].
  apply Quiet_bind; [apply Quiet_getenv|intros instance].
  destruct (env_set access && env_set instance); [quiet|].
  apply Quiet_bind; [apply Quiet_connector_mode|intros connected].
  destruct connected as [creds|]; [quiet|].
  apply Quiet_bind; [apply Quiet_getenv|intros refresh_token].
  apply Quiet_bind; [apply Quiet_getenv|intros client_id].
  destruct (env_set refresh_token && env_set client_id).
  - apply Quiet_bind; [apply Quiet_refresh_via_oauth|intros [t u]]. quiet.
  - apply Quiet_bind; [apply Quiet_getenv|intros username].
    destruct (env_set client_id && env_set username); [|quiet].
    apply Quiet_bind; [apply Quiet_refresh_via_password|intros [t u]]. quiet.
Qed.

(** A call of [get_salesforce_credentials] shows as one resolution. *)
Lemma resolve_steps : forall w r w',
  get_salesforce_credentials w = (r, w') -> steps w w' [Resolve].
Proof.
  intros w r w' H. unfold get_salesforce_credentials, with_lock in H.
  cbn [emit] in H.
  set (w1 := set_trace (trace w ++ [EAcquire "_token_lock"]) w) in *.
  assert (S1 : steps w w1 [Resolve]).
  { exists [EAcquire "_token_lock"], O. repeat split; reflexivity. }
  destruct (if cache_fresh w1 then (Ok (cached_token w1, cached_instance w1), w1)
            else resolve_chain w1) as [r2 w2] eqn:B.
  inversion H; subst r w'. clear H.
  assert (S2 : steps w1 w2 []).
  { destruct (cache_fresh w1).
    - inversion B; subst. apply steps_refl.
    - eapply Quiet_resolve_chain; eassumption. }
  assert (S3 : steps w2 (set_trace (trace w2 ++ [ERelease "_token_lock"]) w2) []).
  { exists [ERelease "_token_lock"], O. repeat split; reflexivity. }
  pose proof (steps_trans _ _ _ _ _ (steps_trans _ _ _ _ _ S1 S2) S3) as S.
  exact S.
Qed.

(** *** The creation request keeps timing out *)

(** The outcome is a read timeout. *)
Definition times_out (o : net_outcome) : Prop :=
  exists dt e, o = Fails dt e /\ is_ReadTimeout e = true.

(** The entry of the script answers every creation request with a read
    timeout. *)
Definition times_out_on_create (f : Request -> net_outcome) : Prop :=
  forall req, is_create_request req = true -> times_out (f req).

(** Whenever a creation request is sent, now or later, it times out. *)
Definition creation_times_out (w : World) : Prop :=
  Forall times_out_on_create (net_script w)
  /\ forall req, is_create_request req = true -> is_ReadTimeout (net_down w req) = true.

Lemma Forall_skipn_keep : forall (A : Type) (P : A -> Prop) k (l : list A),
  Forall P l -> Forall P (skipn k l).
Proof.
  intros A P; induction k as [|k IH]; intros l H; [exact H|].
  destruct l as [|x l]; [exact H|]. inversion H; subst. apply IH; assumption.
Qed.

Lemma creation_times_out_steps : forall w w' v,
  steps w w' v -> creation_times_out w -> creation_times_out w'.
Proof.
  intros w w' v (new & k & _ & _ & _ & D & S) [F N]. split.
  - rewrite S. apply Forall_skipn_keep. exact F.
  - rewrite D. exact N.
Qed.

Lemma attempt_post_times_out : forall w t u payload,
  creation_times_out w ->
  exists w1,
    attempt_post t u payload w = (Ok None, w1) /\ steps w w1 [Post].
Proof.
  intros w t u payload [F N].
  pose proof (create_request_is_create t u payload) as C.
  unfold attempt_post, try_except, bind, http. cbn [emit set_trace net_script net_down].
  destruct (net_script w) as [|f rest] eqn:S.
  - rewrite (N _ C). cbn [ret]. eexists. split; [reflexivity|].
    exists [ENet (create_request t u payload)], O.
    split; [reflexivity|]. split.
    { unfold view. cbn [flat_map view_event]. rewrite C. reflexivity. }
    repeat split; try reflexivity.
  - inversion F as [|f' rest' Hf Hrest]; subst.
    destruct (Hf _ C) as (dt & e & E & R). rewrite E, R. cbn [ret].
    eexists. split; [reflexivity|].
    exists [ENet (create_request t u payload)], 1%nat.
    split; [reflexivity|]. split.
    { unfold view. cbn [flat_map view_event]. rewrite C. reflexivity. }
    repeat split; try reflexivity.
    cbn [net_script set_trace set_net_script set_clock advance]. rewrite S. reflexivity.
Qed.

Lemma log_steps : forall logger level message w,
  steps w (snd (log logger level message w)) [].
Proof.
  intros. eapply Quiet_log. apply surjective_pairing.
Qed.

Lemma sleep_steps : forall s w, steps w (snd (sleep s w)) [Pause s].
Proof.
  intros s w. exists [ESleep s], O. repeat split; reflexivity.
Qed.

(** One turn of the loop when the attempt times out. *)
Lemma post_loop_turn : forall w attempt rest t u payload,
  creation_times_out w ->
  exists w2,
    steps w w2 [Post] /\
    post_loop get_salesforce_credentials (attempt :: rest) t u payload w
    = (if attempt <? 2
       then match get_salesforce_credentials w2 with
            | (Ok (t', u'), w3) =>
                post_loop get_salesforce_credentials rest t' u' payload
                          (snd (sleep 2 w3))
            | (Raise e, w3) => (Raise e, w3)
            end
       else (Ok None, w2)).
Proof.
  intros w attempt rest t u payload H.
  destruct (attempt_post_times_out w t u payload H) as (w1 & A & S1).
  exists (snd (core_log "WARNING"
                 ("SF timeout, attempt " ++ Str.of_Z (attempt + 1) ++ "/3") w1)).
  split.
  - change [Post] with ([Post] ++ [])%list.
    eapply steps_trans; [exact S1|apply log_steps].
  - cbn [post_loop]. unfold bind at 1. rewrite A. cbn iota.
    unfold bind at 1. unfold core_log at 1, log at 1, emit at 1. cbn iota.
    destruct (attempt <? 2); [|reflexivity].
    unfold bind at 1. unfold core_log, log, emit. cbn [snd].
    destruct (get_salesforce_credentials _) as [[[t' u']|e] w3]; [|reflexivity].
    unfold bind at 1. reflexivity.
Qed.

(** The three resolutions of credentials that can fail, by what the process
    has done when they run. *)
Definition before_resolution (v : list step) : Prop :=
  v = [] \/ v = [Resolve; Post] \/ v = [Resolve; Post; Resolve; Pause 2; Post].

Definition exhausted : list step :=
  [Resolve; Post; Resolve; Pause 2; Post; Resolve; Pause 2; Post].

(** [r] is the outcome of a run that ended in [w'] because the credential
    resolution started in [wr], after the steps [pre], raised. *)
Definition resolution_raised {A} (w : World) (r : res A) (w' : World)
           (pre : list step) : Prop :=
  exists e wr,
    r = Raise e /\ steps w wr pre
    /\ get_salesforce_credentials wr = (Raise e, w').

Lemma post_loop_times_out : forall w t u payload,
  creation_times_out w ->
  exists r w' v,
    post_loop get_salesforce_credentials [0; 1; 2] t u payload w = (r, w')
    /\ steps w w' v
    /\ ((r = Ok None
         /\ v = [Post; Resolve; Pause 2; Post; Resolve; Pause 2; Post])
        \/ (resolution_raised w r w' [Post] /\ v = [Post; Resolve])
        \/ (resolution_raised w r w' [Post; Resolve; Pause 2; Post]
            /\ v = [Post; Resolve; Pause 2; Post; Resolve])).
Proof.
  intros w t u payload H.
  destruct (post_loop_turn w 0 [1; 2] t u payload H) as (w2 & S2 & E0).
  rewrite E0. cbn [Z.ltb Z.compare].
  destruct (get_salesforce_credentials w2) as [[[t1 u1]|e] w3] eqn:G1.
  2:{ pose proof (resolve_steps _ _ _ G1) as S3.
      exists (Raise e), w3, [Post; Resolve]. split; [reflexivity|].
      split; [exact (steps_trans _ _ _ _ _ S2 S3)|].
      right; left. split; [|reflexivity]. exists e, w2. auto. }
  pose proof (resolve_steps _ _ _ G1) as S3.
  pose proof (sleep_steps 2 w3) as S4.
  pose proof (steps_trans _ _ _ _ _ (steps_trans _ _ _ _ _ S2 S3) S4) as S5.
  cbn [app] in S5.
  pose proof (creation_times_out_steps _ _ _ S5 H) as H5.
  destruct (post_loop_turn _ 1 [2] t1 u1 payload H5) as (w6 & S6 & E1).
  rewrite E1. cbn [Z.ltb Z.compare Pos.compare Pos.compare_cont].
  pose proof (steps_trans _ _ _ _ _ S5 S6) as S7. cbn [app] in S7.
  destruct (get_salesforce_credentials w6) as [[[t2 u2]|e] w7] eqn:G2.
  2:{ pose proof (resolve_steps _ _ _ G2) as S8.
      exists (Raise e), w7, [Post; Resolve; Pause 2; Post; Resolve].
      split; [reflexivity|].
      split; [exact (steps_trans _ _ _ _ _ S7 S8)|].
      right; right. split; [|reflexivity]. exists e, w6. auto. }
  pose proof (resolve_steps _ _ _ G2) as S8.
  pose proof (sleep_steps 2 w7) as S9.
  pose proof (steps_trans _ _ _ _ _ (steps_trans _ _ _ _ _ S7 S8) S9) as S10.
  cbn [app] in S10.
  pose proof (creation_times_out_steps _ _ _ S10 H) as H10.
  destruct (post_loop_turn _ 2 [] t2 u2 payload H10) as (w11 & S11 & E2).
  rewrite E2. cbn [Z.ltb Z.compare Pos.compare Pos.compare_cont].
  exists (Ok None), w11, [Post; Resolve; Pause 2; Post; Resolve; Pause 2; Post].
  split; [reflexivity|].
  split; [exact (steps_trans _ _ _ _ _ S10 S11)|].
  left. split; reflexivity.
Qed.

(** *** Token mode: the resolver needs no network *)

(** Mode 1 is configured: both of its variables are set. *)
Definition token_mode (w : World) : Prop :=
  env_set (assoc "SF_ACCESS_TOKEN" (environ w))
  && env_set (assoc "SF_INSTANCE_URL" (environ w)) = true.

Lemma token_mode_steps : forall w w' v, steps w w' v -> token_mode w -> token_mode w'.
Proof.
  intros w w' v (new & k & _ & _ & E & _) H. unfold token_mode in *. rewrite E. exact H.
Qed.

Lemma token_mode_resolves : forall w,
  token_mode w ->
  exists t u w',
    get_salesforce_credentials w = (Ok (t, u), w')
    /\ net_script w' = net_script w.
Proof.
  intros w H. unfold get_salesforce_credentials, with_lock. cbn [emit].
  match goal with
  | |- context [cache_fresh ?x] => destruct (cache_fresh x)
  end.
  - do 3 eexists. split; reflexivity.
  - unfold resolve_chain. unfold bind at 1 2. cbn [getenv environ set_trace].
    unfold token_mode in H. rewrite H.
    unfold bind, sf_log, log, emit, remember.
    do 3 eexists. split; reflexivity.
Qed.

(** The entry of the script answers every creation request with [resp]. *)
Definition answers_create (f : Request -> net_outcome) (resp : Response) : Prop :=
  forall req, is_create_request req = true -> exists dt, f req = Responds dt resp.

Lemma attempt_post_head_times_out : forall w f rest t u payload,
  net_script w = f :: rest -> times_out_on_create f ->
  exists w1,
    attempt_post t u payload w = (Ok None, w1)
    /\ steps w w1 [Post] /\ net_script w1 = rest.
Proof.
  intros w f rest t u payload S Hf.
  pose proof (create_request_is_create t u payload) as C.
  unfold attempt_post, try_except, bind, http. cbn [emit set_trace net_script net_down].
  rewrite S. destruct (Hf _ C) as (dt & e & E & R). rewrite E, R. cbn [ret].
  eexists. split; [reflexivity|]. split; [|reflexivity].
  exists [ENet (create_request t u payload)], 1%nat.
  split; [reflexivity|]. split.
  { unfold view. cbn [flat_map view_event]. rewrite C. reflexivity. }
  repeat split; try reflexivity.
  cbn [net_script set_trace set_net_script set_clock advance]. rewrite S. reflexivity.
Qed.

Lemma attempt_post_head_answers : forall w f rest resp t u payload,
  net_script w = f :: rest -> answers_create f resp ->
  exists w1,
    attempt_post t u payload w = (Ok (Some resp), w1)
    /\ steps w w1 [Post] /\ net_script w1 = rest.
Proof.
  intros w f rest resp t u payload S Hf.
  pose proof (create_request_is_create t u payload) as C.
  unfold attempt_post, try_except, bind, http. cbn [emit set_trace net_script net_down].
  rewrite S. destruct (Hf _ C) as (dt & E). rewrite E. cbn [ret].
  eexists. split; [reflexivity|]. split; [|reflexivity].
  exists [ENet (create_request t u payload)], 1%nat.
  split; [reflexivity|]. split.
  { unfold view. cbn [flat_map view_event]. rewrite C. reflexivity. }
  repeat split; try reflexivity.
  cbn [net_script set_trace set_net_script set_clock advance]. rewrite S. reflexivity.
Qed.

(** In token mode, a turn of the loop whose attempt times out resolves the
    credentials again, pauses two seconds and goes on with the next turn. *)
Lemma token_mode_turn : forall w f rest attempt more t u payload,
  token_mode w -> net_script w = f :: rest -> times_out_on_create f ->
  (attempt <? 2) = true ->
  exists t' u' w',
    steps w w' [Post; Resolve; Pause 2] /\ net_script w' = rest
    /\ post_loop get_salesforce_credentials (attempt :: more) t u payload w
       = post_loop get_salesforce_credentials more t' u' payload w'.
Proof.
  intros w f rest attempt more t u payload Hmode S Hf Hlt.
  destruct (attempt_post_head_times_out w f rest t u payload S Hf) as (w1 & A & S1 & N1).
  set (w2 := snd (core_log "WARNING"
                    ("SF timeout, attempt " ++ Str.of_Z (attempt + 1) ++ "/3") w1)).
  assert (S2 : steps w w2 [Post]).
  { change [Post] with ([Post] ++ [])%list.
    eapply steps_trans; [exact S1|apply log_steps]. }
  destruct (token_mode_resolves w2 (token_mode_steps _ _ _ S2 Hmode))
    as (t' & u' & w3 & G & N3).
  pose proof (resolve_steps _ _ _ G) as S3.
  exists t', u', (snd (sleep 2 w3)).
  split.
  { exact (steps_trans _ _ _ _ _ (steps_trans _ _ _ _ _ S2 S3) (sleep_steps 2 w3)). }
  split.
  { cbn [sleep emit snd net_script set_trace advance set_clock]. rewrite N3.
    subst w2. cbn [core_log log emit snd net_script set_trace]. exact N1. }
  cbn [post_loop]. unfold bind at 1. rewrite A. cbn iota.
  unfold bind at 1. unfold core_log at 1, log at 1, emit at 1. cbn iota.
  rewrite Hlt. unfold bind at 1.
  change (set_trace _ w1) with w2. rewrite G.
  unfold bind at 1. reflexivity.
Qed.

Lemma post_loop_answered : forall w f rest resp attempt more t u payload,
  net_script w = f :: rest -> answers_create f resp ->
  exists w1,
    steps w w1 [Post]
    /\ post_loop get_salesforce_credentials (attempt :: more) t u payload w
       = (Ok (Some resp), w1).
Proof.
  intros w f rest resp attempt more t u payload S Hf.
  destruct (attempt_post_head_answers w f rest resp t u payload S Hf) as (w1 & A & S1 & _).
  exists w1. split; [exact S1|].
  cbn [post_loop]. unfold bind at 1. rewrite A. reflexivity.
Qed.

(** The record has the three fields the creation payload reads. *)
Definition has_create_fields (record : pyval) : Prop :=
  (exists c, Py.getitem record "contact_id" = Ok c)
  /\ (exists j, Py.getitem record "job_id" = Ok j)
  /\ (exists s, Py.getitem record "stage" = Ok s).

(** [create_job_applicant] as a resolution, the loop, and the reading of the
    answer. *)
Lemma create_job_applicant_run : forall record w,
  has_create_fields record ->
  exists payload,
    create_job_applicant get_salesforce_credentials record w
    = match get_salesforce_credentials w with
      | (Raise e, w1) => (Raise e, w1)
      | (Ok (t, u), w1) =>
          match post_loop get_salesforce_credentials [0; 1; 2] t u payload w1 with
          | (Raise e, w2) => (Raise e, w2)
          | (Ok None, w2) => (Ok (false, timeout_error), w2)
          | (Ok (Some resp), w2) => read_create_response record resp w2
          end
      end.
Proof.
  intros record w ((c & Hc) & (j & Hj) & (s & Hs)).
  exists (create_payload c j s).
  unfold create_job_applicant. unfold bind at 1.
  destruct (get_salesforce_credentials w) as [[[t u]|e] w1]; [|reflexivity].
  unfold bind at 1 2 3, lift. rewrite Hc, Hj, Hs.
  unfold bind at 1.
  destruct (post_loop get_salesforce_credentials [0; 1; 2] t u (create_payload c j s) w1)
    as [[[resp|]|e] w2]; reflexivity.
Qed.

(** *** The run of the loop, attempt by attempt *)

(** The record has the three fields the payload reads, with these values. *)
Definition create_fields (record c j s : pyval) : Prop :=
  Py.getitem record "contact_id" = Ok c
  /\ Py.getitem record "job_id" = Ok j
  /\ Py.getitem record "stage" = Ok s.

(** Attempt number [n]: the creation request sent in [w] with the pair
    [(t, u)] ends in a read timeout, and [w'] is the world once the warning
    is logged. *)
Definition attempt_times_out (t u payload : pyval) (n : Z) (w w' : World) : Prop :=
  exists e w1,
    http (create_request t u payload) w = (Raise e, w1)
    /\ is_ReadTimeout e = true
    /\ w' = snd (core_log "WARNING" ("SF timeout, attempt " ++ Str.of_Z n ++ "/3") w1).

(** [retried payload w k (t, u) wk]: started in [w], the function has
    resolved the credentials, and [k] attempts have timed out, each followed
    by a new resolution and a pause of 2 seconds; [(t, u)] is the pair of the
    last resolution and [wk] the world in which the next attempt is sent. *)
Inductive retried (payload : pyval) (w : World)
  : nat -> pyval * pyval -> World -> Prop :=
| retried_first : forall t u w0,
    get_salesforce_credentials w = (Ok (t, u), w0) ->
    retried payload w 0 (t, u) w0
| retried_again : forall k t u wk w1 t' u' w2,
    retried payload w k (t, u) wk ->
    attempt_times_out t u payload (Z.of_nat k + 1) wk w1 ->
    get_salesforce_credentials w1 = (Ok (t', u'), w2) ->
    retried payload w (S k) (t', u') (snd (sleep 2 w2)).

(** What the function does with the outcome of the loop *)
Definition finish (record : pyval) (answered : option Response) : M (bool * pyval) :=
  match answered with
  | None => ret (false, timeout_error)
  | Some resp => read_create_response record resp
  end.

Lemma create_job_applicant_started : forall record c j s w t u w0,
  create_fields record c j s ->
  get_salesforce_credentials w = (Ok (t, u), w0) ->
  create_job_applicant get_salesforce_credentials record w
  = bind (post_loop get_salesforce_credentials [0; 1; 2] t u (create_payload c j s))
         (finish record) w0.
Proof.
  intros record c j s w t u w0 (Hc & Hj & Hs) G.
  unfold create_job_applicant. unfold bind at 1. rewrite G.
  unfold bind at 1 2 3, lift. rewrite Hc, Hj, Hs. reflexivity.
Qed.

Lemma post_loop_timed_out : forall attempt rest t u payload w w1,
  attempt_times_out t u payload (attempt + 1) w w1 ->
  post_loop get_salesforce_credentials (attempt :: rest) t u payload w
  = (if attempt <? 2
     then match get_salesforce_credentials w1 with
          | (Ok (t', u'), w2) =>
              post_loop get_salesforce_credentials rest t' u' payload (snd (sleep 2 w2))
          | (Raise e, w2) => (Raise e, w2)
          end
     else (Ok None, w1)).
Proof.
  intros attempt rest t u payload w w1 (e & w0 & H & R & ->).
  cbn [post_loop]. unfold bind at 1. unfold attempt_post, try_except.
  unfold bind at 1. rewrite H, R. cbn [ret].
  unfold bind at 1. unfold core_log at 1, log at 1, emit at 1. cbn iota.
  destruct (attempt <? 2); [|reflexivity].
  unfold bind at 1. unfold core_log, log, emit. cbn [snd].
  destruct (get_salesforce_credentials _) as [[[t' u']|e'] w3]; [|reflexivity].
  unfold bind at 1. reflexivity.
Qed.

Lemma post_loop_answer : forall attempt rest t u payload w resp w1,
  http (create_request t u payload) w = (Ok resp, w1) ->
  post_loop get_salesforce_credentials (attempt :: rest) t u payload w
  = (Ok (Some resp), w1).
Proof.
  intros attempt rest t u payload w resp w1 H.
  cbn [post_loop]. unfold bind at 1. unfold attempt_post, try_except.
  unfold bind at 1. rewrite H. reflexivity.
Qed.

(** After [k] timeouts the function is where the loop stands: at its
    attempt number [k + 1], with the pair of the last resolution. *)
Lemma create_job_applicant_retried : forall record c j s w k t u wk,
  create_fields record c j s ->
  retried (create_payload c j s) w k (t, u) wk -> (k <= 2)%nat ->
  create_job_applicant get_salesforce_credentials record w
  = bind (post_loop get_salesforce_credentials (skipn k [0; 1; 2]) t u
            (create_payload c j s))
         (finish record) wk.
Proof.
  intros record c j s w k t u wk F R. remember (t, u) as p eqn:P.
  revert t u P. induction R as [t0 u0 w0 G|k t0 u0 wk w1 t' u' w2 R IH T G];
    intros t u P K; inversion P; subst.
  - apply create_job_applicant_started; assumption.
  - rewrite (IH t0 u0 eq_refl) by lia.
    destruct k as [|[|k]]; [| |lia]; cbn [skipn];
      unfold bind at 1; rewrite (post_loop_timed_out _ _ _ _ _ _ _ T);
      cbn [Z.ltb Z.compare Pos.compare Pos.compare_cont Z.of_nat Z.add Pos.of_succ_nat
           Pos.succ Pos.add];
      rewrite G; reflexivity.
Qed.

Lemma read_refused : forall record resp w,
  status_code resp <> 200 ->
  read_create_response record resp w
  = (Ok (false,
         PDict [("error",
                 PStr ("HTTP " ++ Str.of_Z (status_code resp) ++ ": "
                         ++ Str.take 300 (text resp)))]),
     snd (core_log "ERROR"
            ("SF API error " ++ Str.of_Z (status_code resp) ++ ": "
               ++ Str.take 300 (text resp)) w)).
Proof.
  intros record resp w N. unfold read_create_response.
  apply Z.eqb_neq in N. rewrite N. reflexivity.
Qed.

Lemma read_created : forall record c j s resp w result more success id,
  create_fields record c j s ->
  status_code resp = 200 ->
  Json.loads (text resp) = Ok (PList (PDict result :: more)) ->
  Py.dict_lookup "success" result = Some success -> Py.truthy success = true ->
  Py.dict_lookup "id" result = Some id ->
  fst (read_create_response record resp w) = Ok (true, PDict [("applicant_id", id)]).
Proof.
  intros record c j s resp w result more success id (Hc & Hj & _) St J Su T Hid.
  unfold read_create_response. rewrite St. cbn [Z.eqb Pos.eqb].
  unfold bind at 1, resp_json, lift at 1. rewrite J.
  unfold bind at 1, lift at 1. cbn [Py.first].
  unfold bind at 1, lift at 1. cbn [Py.get]. rewrite Su, T.
  unfold bind at 1, lift at 1. rewrite Hc.
  unfold bind at 1, lift at 1. rewrite Hj.
  unfold bind at 1, lift at 1. cbn [Py.getitem]. rewrite Hid.
  unfold bind at 1, lift at 1.
  destruct record; try discriminate. cbn [Py.get].
  unfold bind at 1. unfold core_log at 1, log at 1, emit at 1.
  unfold bind at 1, lift at 1. reflexivity.
Qed.

Lemma read_failed : forall record c j s resp w result more success errs,
  create_fields record c j s ->
  status_code resp = 200 ->
  Json.loads (text resp) = Ok (PList (PDict result :: more)) ->
  Py.get (PDict result) "success" PNone = Ok success -> Py.truthy success = false ->
  Py.get (PDict result) "errors" (PList []) = Ok errs ->
  fst (read_create_response record resp w)
  = Ok (false, PDict [("error", PStr (Py.str errs))]).
Proof.
  intros record c j s resp w result more success errs (Hc & Hj & _) St J Su T He.
  unfold read_create_response. rewrite St. cbn [Z.eqb Pos.eqb].
  unfold bind at 1, resp_json, lift at 1. rewrite J.
  unfold bind at 1, lift at 1. cbn [Py.first].
  unfold bind at 1, lift at 1. rewrite Su, T.
  unfold bind at 1, lift at 1. rewrite He.
  unfold bind at 1, lift at 1. rewrite Hc.
  unfold bind at 1, lift at 1. rewrite Hj.
  unfold bind at 1. unfold core_log at 1, log at 1, emit at 1. reflexivity.
Qed.

(** A process in refresh-token mode whose cached token is a second short of
    its time to live, on a network that lets the creation request time out
    after two minutes and then is down *)
Definition expiring_world : World :=
  mkWorld [("SF_REFRESH_TOKEN", "r"); ("SF_CLIENT_ID", "c"); ("SF_CLIENT_SECRET", "s")]
          (fun l => l) 900 "" "" 30 1800
          (PStr "tok") (PStr "https://sf.example") (Some (1762163700000000 - 1799000000))
          1762163700000000
          [fun _ => Fails 120000000 (mkExn ReadTimeout "Read timed out.")]
          (fun _ => mkExn ConnectionError "the network is down") [] [] stats0.

Definition sample_record : pyval :=
  PDict [("contact_id", PStr "003000000000001AAA");
         ("job_id", PStr "a0F000000000001AAA");
         ("stage", PStr "New Application");
         ("tier", PStr "qualified")].



(** A world in token mode whose network lets every request time out. *)
Definition timeout_world : World :=
  mkWorld [("SF_ACCESS_TOKEN", "tok"); ("SF_INSTANCE_URL", "https://sf.example")]
          (fun l => l) 900 "" "" 30 1800 PNone PNone None 1762163700000000
          [] (fun _ => mkExn ReadTimeout "Read timed out.") [] [] stats0.


(** A world in token mode whose network lets the creation request time out
    twice and then refuses it. *)
Definition refusing_world : World :=
  mkWorld [("SF_ACCESS_TOKEN", "tok"); ("SF_INSTANCE_URL", "https://sf.example")]
          (fun l => l) 900 "" "" 30 1800 PNone PNone None 1762163700000000
          [fun _ => Fails 120000000 (mkExn ReadTimeout "Read timed out.");
           fun _ => Fails 120000000 (mkExn ReadTimeout "Read timed out.");
           fun _ => Responds 1000 (mkResponse 400 "application/json" "bad request")]
          (fun _ => mkExn ConnectionError "the network is down") [] [] stats0.

(** The third attempt is answered with status 400: two pauses, three
    requests, and the failure carries the status and the body. *)
Example refused_at_the_third_attempt :
  fst (create_job_applicant get_salesforce_credentials sample_record refusing_world)
  = Ok (false, PDict [("error", PStr "HTTP 400: bad request")])
  /\ view (trace (snd (create_job_applicant get_salesforce_credentials sample_record
                         refusing_world)))
     = [Resolve; Post; Resolve; Pause 2; Post; Resolve; Pause 2; Post].
Proof. split; vm_compute; reflexivity. Qed.

(** ** C1: where an exception of the pipeline is caught *)

Definition qualified_chat : pyval :=
  PDict [("chat_id", PStr "chat_0123456789abcdef");
         ("agent_name", PStr "Violet - Nurse Outreach");
         ("chat_status", PStr "ended");
         ("chat_analysis",
          PDict [("chat_summary", PStr "Candidate is a licensed RN.");
                 ("custom_analysis_data",
                  PDict [("qualification_result", PStr "fully_qualified")])]);
         ("retell_llm_dynamic_variables",
          PDict [("candidate_id", PStr "003000000000001AAA");
                 ("job_ID_18", PStr "a0F000000000001AAA");
                 ("job_title", PStr "RN"); ("job_city", PStr "Austin");
                 ("job_state", PStr "TX")])].

(** C1, the claim as stated fails: for a qualified chat with both ids, in a
    process with no credentials configured, the credential resolution of the
    creation stage raises and [process_chat_webhook] lets the exception reach
    its caller instead of returning an 'error' result (and an event whose
    analysis block is a string makes classification raise likewise). *)
Lemma process_chat_webhook_propagates :
  fst (process_chat_webhook sf_query_all get_salesforce_credentials
         qualified_chat None (bare_world []))
  = Raise no_credentials
  /\ fst (process_chat_webhook sf_query_all get_salesforce_credentials
            (PDict [("chat_analysis", PStr "n/a")]) None (bare_world []))
     = Raise (Py.no_attribute (PStr "n/a") "get").
Proof. split; vm_compute; reflexivity. Qed.

(** The result dictionary as it stands when the record is built *)
Definition result_before_creation (chat_id : pyval) (action detail cid jid : string)
  : pyval :=
  set_key "job_id" (PStr jid)
    (set_key "contact_id" (PStr cid)
       (set_key "detail" (PStr detail)
          (set_key "action" (PStr action)
             (PDict [("chat_id", chat_id); ("action", PNone); ("detail", PNone)])))).

(** [reaches_creation q chat w chat_id result record w1]: from the world
    [w], the run of the chat gets through classification, extraction and
    deduplication (with [q] as the query function) and is about to call
    [create_job_applicant] on [record] in the world [w1]. *)
Definition reaches_creation (q : string -> M pyval) (chat : pyval) (w : World)
           (chat_id result : pyval) (record : list (string * pyval)) (w1 : World)
  : Prop :=
  exists action detail cid jid existing,
    Py.get chat "chat_id" (PStr "unknown") = Ok chat_id
    /\ classify_chat chat = Ok (action, detail)
    /\ String.eqb action "skip" = false
    /\ extract_contact_id chat = Ok (PStr cid) /\ cid <> ""
    /\ extract_job_id chat = Ok (PStr jid) /\ jid <> ""
    /\ check_existing_applicants q [cid] w = (Ok existing, w1)
    /\ pair_in (Str.take 15 cid, Str.take 15 jid) existing = false
    /\ build_record chat action detail (PStr cid) (PStr jid) chat_id = Ok record
    /\ result = result_before_creation chat_id action detail cid jid.

Lemma truthy_text : forall s, s <> "" -> Py.truthy (PStr s) = true.
Proof.
  intros s H. cbn [Py.truthy]. apply String.eqb_neq in H. rewrite H. reflexivity.
Qed.

Lemma process_chat_webhook_at_creation :
  forall q gsc chat notify_fn w chat_id result record w1,
    reaches_creation q chat w chat_id result record w1 ->
    process_chat_webhook q gsc chat notify_fn w
    = bind (create_job_applicant gsc (PDict record))
           (report_creation chat_id result record notify_fn) w1.
Proof.
  intros q gsc chat notify_fn w chat_id result record w1
         (action & detail & cid & jid & existing & Hid & Hc & Hskip & Hcid & Ncid
          & Hjid & Njid & Hdedup & Hnew & Hrec & ->).
  unfold process_chat_webhook.
  unfold bind at 1, lift at 1. rewrite Hid.
  unfold bind at 1, lift at 1. rewrite Hc. rewrite Hskip.
  unfold bind at 1, lift at 1. rewrite Hcid.
  unfold bind at 1, lift at 1. rewrite Hjid.
  rewrite (truthy_text cid Ncid), (truthy_text jid Njid). cbn [negb as_text].
  unfold bind at 1. rewrite Hdedup.
  unfold bind at 1 2 3, lift at 1 2 3. cbn [Py.slice_to as_text]. rewrite Hnew.
  unfold bind at 1, lift at 1. rewrite Hrec.
  reflexivity.
Qed.

Lemma create_job_applicant_resolution_raises : forall gsc record w e w',
  gsc w = (Raise e, w') -> create_job_applicant gsc record w = (Raise e, w').
Proof.
  intros gsc record w e w' H. unfold create_job_applicant, bind. rewrite H. reflexivity.
Qed.

(** *** The handler of [webhook_retell] *)

(** [payload.get('data', payload.get('chat', payload))] *)
Definition incoming_chat (payload : pyval) : res pyval :=
  inner <~ Py.get payload "chat" payload ;; Py.get payload "data" inner.

(** The world once the handler has logged that the webhook was received *)
Definition received (cid : string) (w : World) : World :=
  snd (app_log "INFO"
         (("[" ++ Str.take 12 cid ++ "] ") ++ "Received chat_analyzed webhook") w).

(** How the recent events show a chat id *)
Definition shown (cid : string) : pyval :=
  if 12 <? Str.len cid then PStr (Str.take 12 cid ++ "...") else PStr cid.

Lemma short_chat_id_text : forall cid, short_chat_id (PStr cid) = Ok (shown cid).
Proof.
  intros cid. unfold short_chat_id, shown. cbn [Py.len rbind].
  destruct (12 <? Str.len cid); reflexivity.
Qed.

(** The entry [_record_event] adds to the recent events *)
Definition recent_entry (t : Z) (event_type : pyval) (cid : string) (detail : pyval)
  : pyval :=
  PDict [("time", PStr (Clock.hms t));
         ("type", event_type);
         ("chat_id", shown cid);
         ("detail", PStr (Str.take 100 (Py.str detail)))].

Lemma last_n_snoc : forall (A : Type) n (l : list A) x,
  (1 <= n)%nat -> exists earlier, last_n n (l ++ [x]) = (earlier ++ [x])%list.
Proof.
  intros A n l x Hn. unfold last_n. rewrite length_app. cbn [List.length].
  rewrite skipn_app.
  replace (List.length l + 1 - n - List.length l)%nat with O by lia.
  eexists. reflexivity.
Qed.

Lemma push_recent_last : forall entry s,
  exists earlier, recent_events (push_recent entry s) = (earlier ++ [entry])%list.
Proof.
  intros entry s. unfold push_recent. cbn [recent_events].
  destruct (MAX_RECENT_EVENTS <? List.length (recent_events s ++ [entry]))%nat.
  - apply last_n_snoc. unfold MAX_RECENT_EVENTS. lia.
  - eexists. reflexivity.
Qed.

(** [_record_event] with a chat id that is text: it returns, one more
    webhook is counted, the counter of the event type moves, the entry is the
    last of the recent events, and nothing else changes but the trace. *)
Lemma record_event_text : forall event_type cid detail w,
  exists w',
    _record_event event_type (PStr cid) detail w = (Ok tt, w')
    /\ stats w'
       = push_recent (recent_entry (clock w) event_type cid detail)
           (bump_counter event_type (clock w) (bump_received (clock w) (stats w)))
    /\ files w' = files w /\ clock w' = clock w
    /\ net_script w' = net_script w /\ environ w' = environ w.
Proof.
  intros event_type cid detail w.
  unfold _record_event, with_lock, bind, emit, datetime_now, update_stats, lift.
  cbn [clock set_trace stats set_stats]. rewrite short_chat_id_text.
  eexists. split; [reflexivity|]. repeat split; reflexivity.
Qed.

(** The line [dead_letter.append] writes *)
Definition dead_letter_entry (t : Z) (chat chat_id contact_id job_id stage tier : pyval)
           (error : string) : pyval :=
  PDict [("timestamp", PStr (Clock.isoformat t));
         ("chat_id", chat_id);
         ("contact_id", contact_id);
         ("job_id", job_id);
         ("stage", stage);
         ("tier", tier);
         ("error", PStr error);
         ("chat_payload", chat)].

Lemma dead_letter_append_run : forall chat fields error w chat_id,
  Py.get chat "chat_id" (PStr "unknown") = Ok chat_id ->
  exists w',
    dead_letter.append chat (PDict fields) error w = (Ok tt, w')
    /\ files w'
       = File.write dead_letter.DEAD_LETTER_FILE
           (store w
              ++ Json.dumps (dead_letter_entry (clock w) chat chat_id
                               (field fields "contact_id") (field fields "job_id")
                               (field fields "stage") (field fields "tier") error)
              ++ File.newline)
           (files w)
    /\ stats w' = stats w.
Proof.
  intros chat fields error w chat_id H.
  unfold dead_letter.append, bind, datetime_now, lift. rewrite H.
  rewrite !get_block_field.
  unfold with_lock, emit, File.append. cbn [files set_trace set_files].
  eexists. split; [reflexivity|]. split; reflexivity.
Qed.

Lemma assoc_write : forall name content l,
  assoc name (File.write name content l) = Some content.
Proof.
  intros name content l. unfold File.write.
  induction l as [|[k v] l IH]; cbn [File.remove app assoc].
  - rewrite String.eqb_refl. reflexivity.
  - destruct (String.eqb k name) eqn:E; [exact IH|].
    cbn [app assoc]. rewrite E. exact IH.
Qed.

(** The [except Exception] clause of [webhook_retell] *)
Definition on_exception (chat : pyval) (cid : string) (e : exn) : M unit :=
  app_log "ERROR" (("[" ++ Str.take 12 cid ++ "] ") ++ "Unhandled error processing webhook") ;;
  _record_event (PStr "error") (PStr cid) (PStr (exn_msg e)) ;;
  dead_letter.append chat (PDict [("chat_id", PStr cid)]) (exn_msg e).

(** A request that passes the gate and carries a chat_analyzed event whose
    chat has a text id: [wv] is the world after the signature check. *)
Definition accepted (hmac : string -> string -> string) (request : HttpRequest)
           (w wv : World) (chat : pyval) (cid : string) : Prop :=
  exists payload,
    verify_retell_signature hmac (raw_body request) (signature_of request) w
    = (Ok true, wv)
    /\ Json.loads (raw_body request) = Ok payload
    /\ Py.get payload "event" (PStr "") = Ok (PStr "chat_analyzed")
    /\ incoming_chat payload = Ok chat
    /\ Py.get chat "chat_id" (PStr "unknown") = Ok (PStr cid).

Lemma webhook_retell_accepted : forall hmac request w wv chat cid,
  accepted hmac request w wv chat cid ->
  webhook_retell hmac request w
  = bind (try_except (process_and_record chat (PStr cid)) any_exception
            (on_exception chat cid))
         (fun _ => ret 204) (received cid wv).
Proof.
  intros hmac request w wv chat cid (payload & V & J & E & C & I).
  unfold incoming_chat in C. apply rbind_ok in C. destruct C as (inner & C1 & C2).
  unfold webhook_retell. fold (signature_of request).
  unfold bind at 1. rewrite V. cbn [negb]. rewrite J.
  unfold bind at 1, lift at 1. rewrite E. cbn [Py.eq_str String.eqb Ascii.eqb Bool.eqb negb].
  unfold bind at 1, lift at 1. rewrite C1.
  unfold bind at 1, lift at 1. rewrite C2.
  unfold bind at 1, lift at 1. rewrite I.
  unfold bind at 1, lift at 1. cbn [tag Py.slice_to rbind Py.str].
  unfold bind at 1. unfold app_log at 1, log at 1, emit at 1.
  reflexivity.
Qed.

Lemma on_exception_run : forall chat cid e w,
  Py.get chat "chat_id" (PStr "unknown") = Ok (PStr cid) ->
  exists w',
    on_exception chat cid e w = (Ok tt, w')
    /\ stats w'
       = push_recent (recent_entry (clock w) (PStr "error") cid (PStr (exn_msg e)))
           (bump_counter (PStr "error") (clock w) (bump_received (clock w) (stats w)))
    /\ files w'
       = File.write dead_letter.DEAD_LETTER_FILE
           (store w
              ++ Json.dumps (dead_letter_entry (clock w) chat (PStr cid) (PStr "")
                               (PStr "") (PStr "") (PStr "") (exn_msg e))
              ++ File.newline)
           (files w).
Proof.
  intros chat cid e w H. unfold on_exception.
  unfold bind at 1. unfold app_log, log, emit.
  set (w0 := set_trace _ w).
  destruct (record_event_text (PStr "error") cid (PStr (exn_msg e)) w0)
    as (w1 & R & St & Fi & Cl & _ & _).
  unfold bind at 1. rewrite R.
  destruct (dead_letter_append_run chat [("chat_id", PStr cid)] (exn_msg e) w1
              (PStr cid) H) as (w2 & A & Fi2 & St2).
  rewrite A. exists w2. split; [reflexivity|]. split.
  - rewrite St2, St. reflexivity.
  - rewrite Fi2. unfold store. rewrite Fi, Cl. reflexivity.
Qed.

(** *** What the notification does with an error *)

(** The line [_log_event] writes for an event *)
Definition event_line (event_type : string) (d : list (string * pyval)) : event :=
  let entry :=
    [("event", PStr event_type); ("chat_id", field d "chat_id");
     ("contact_id", field d "contact_id"); ("job_id", field d "job_id");
     ("stage", field d "stage"); ("tier", field d "tier")] in
  if String.eqb event_type "created" then
    ELog "notify" "INFO"
      ("SF_CREATE | "
         ++ Json.dumps (PDict (entry ++ [("applicant_id", field d "applicant_id")])))
  else if String.eqb event_type "error" then
    ELog "notify" "ERROR"
      ("SF_ERROR | " ++ Json.dumps (PDict (entry ++ [("error", field d "error")])))
  else ELog "notify" "INFO" ("EVENT | " ++ Json.dumps (PDict entry)).

Lemma log_event_run : forall event_type d w,
  notify._log_event event_type (PDict d) w
  = (Ok tt, set_trace (trace w ++ [event_line event_type d]) w).
Proof.
  intros event_type d w. unfold notify._log_event, event_line.
  unfold bind, lift. cbn [Py.get]. fold (field d).
  destruct (String.eqb event_type "created"); [reflexivity|].
  destruct (String.eqb event_type "error"); reflexivity.
Qed.

(** [send_notification('error', details)] returns when the chat id and the
    error of the details can be sliced, with or without a Slack hook and
    whatever the hook answers: the message for Slack is built from the two
    slices and a failure of the post is caught. *)
Lemma send_notification_error_returns : forall d w short cut,
  Py.slice_to 12 (field d "chat_id") = Ok short ->
  Py.slice_to 200 (field d "error") = Ok cut ->
  exists w', notify.send_notification "error" (PDict d) w = (Ok tt, w').
Proof.
  intros d w short cut Hc He.
  unfold notify.send_notification. unfold bind at 1. rewrite log_event_run.
  unfold bind at 1. cbn [SLACK_WEBHOOK_URL set_trace].
  destruct (negb (String.eqb (SLACK_WEBHOOK_URL w) "")); [|eexists; reflexivity].
  cbn [andb orb String.eqb Ascii.eqb Bool.eqb].
  unfold notify._send_slack. unfold bind at 1.
  unfold notify.slack_payload. unfold bind at 1. unfold getenv at 1.
  cbn [String.eqb Ascii.eqb Bool.eqb].
  unfold bind at 1, lift at 1. cbn [Py.get]. fold (field d "chat_id"). 
  unfold bind at 1, lift at 1. rewrite Hc.
  unfold bind at 1, lift at 1.
  unfold bind at 1, lift at 1. fold (field d "error").
  unfold bind at 1, lift at 1. rewrite He. cbn [ret].
  unfold try_except.
  match goal with
  | |- context [match ?m ?w0 with _ => _ end] =>
      destruct (m w0) as [[[]|e] w1]
  end.
  - eexists; reflexivity.
  - cbn [any_exception]. unfold notify.notify_log, log, emit. eexists; reflexivity.
Qed.

Lemma build_record_fields : forall chat action detail cid jid chat_id record,
  build_record chat action detail cid jid chat_id = Ok record ->
  exists summary job_desc agent,
    record = [("contact_id", cid); ("job_id", jid); ("stage", PStr detail);
              ("tier", PStr action); ("chat_id", chat_id); ("summary", summary);
              ("job_desc", job_desc); ("agent", agent)].
Proof.
  intros chat action detail cid jid chat_id record H. unfold build_record in H.
  repeat (apply rbind_ok in H; destruct H as (? & _ & H)).
  inversion H. do 3 eexists. reflexivity.
Qed.

(** *** Bodies and values read as the code reads them *)

(** The byte order mark of UTF-8 *)
Definition BOM_UTF8 : string :=
  String (ascii_of_N 239) (String (ascii_of_N 187) (String (ascii_of_N 191) EmptyString)).

(** A body [json.loads] decodes as UTF-8 text: valid UTF-8, no byte order
    mark, and no NUL among its first two bytes (a NUL there makes the decoder
    take the body for UTF-16 or UTF-32). *)
Definition text_body (s : string) : bool :=
  Str.is_utf8 s
  && negb (Str.startswith BOM_UTF8 s)
  && match s with
     | String a (String b _) => negb (Str.code a =? 0)%N && negb (Str.code b =? 0)%N
     | _ => true
     end.

(** No floating-point number anywhere in the value: [json.dumps] writes a
    float in Python's shortest form, which need not be the text it was read
    from. *)
Fixpoint float_free (v : pyval) : bool :=
  match v with
  | PFloat _ => false
  | PList l => forallb float_free l
  | PDict d => forallb (fun kv => float_free (snd kv)) d
  | _ => true
  end.

(** C1, amended.  [process_chat_webhook] has no exception handler of its
    own:
    - an exception raised by classification, by extraction, by the creation
      of the record or by the credential resolution it starts with reaches
      the caller unchanged (only a failed dedup query is absorbed, see C6);
    - it returns a result whose action is 'error', carrying the error detail
      and the failure, when [create_job_applicant] returns a failure: with no
      notify function, and with [send_notification], the one both routes
      pass, when the error detail is text (with or without a Slack hook,
      whatever the hook answers).
    The handler is the boundary.  For every request whose body is UTF-8 text
    within the limits of the decoder, that passes the gate with a
    chat_analyzed event whose chat has a text id, [webhook_retell] answers
    204 whatever the run does; when the run raised, one more webhook and one
    more error are counted, the last of the recent events is an 'error' event
    carrying the exception's message, and the store gains one line, which for
    a chat without floating-point numbers is the entry carrying that message
    and the chat. *)
Theorem exceptions_are_caught_by_the_handler :
  (forall q gsc chat notify_fn w e,
     classify_chat chat = Raise e ->
     process_chat_webhook q gsc chat notify_fn w = (Raise e, w))
  /\
  (forall q gsc chat notify_fn w action detail e,
     classify_chat chat = Ok (action, detail) -> String.eqb action "skip" = false ->
     extract_contact_id chat = Raise e
     \/ ((exists cid, extract_contact_id chat = Ok cid) /\ extract_job_id chat = Raise e) ->
     process_chat_webhook q gsc chat notify_fn w = (Raise e, w))
  /\
  (forall q gsc chat notify_fn w chat_id result record w1 e w2,
     reaches_creation q chat w chat_id result record w1 ->
     gsc w1 = (Raise e, w2)
     \/ create_job_applicant gsc (PDict record) w1 = (Raise e, w2) ->
     process_chat_webhook q gsc chat notify_fn w = (Raise e, w2))
  /\
  (forall q gsc chat notify_fn w chat_id result record w1 failure w2 t,
     reaches_creation q chat w chat_id result record w1 ->
     create_job_applicant gsc (PDict record) w1 = (Ok (false, PDict failure), w2) ->
     tag chat_id = Ok t ->
     notify_fn = None
     \/ (notify_fn = Some notify.send_notification
         /\ exists m, match Py.dict_lookup "error" failure with
                      | Some detail => detail
                      | None => PStr "unknown SF error"
                      end = PStr m) ->
     exists result' w3,
       process_chat_webhook q gsc chat notify_fn w = (Ok result', w3)
       /\ Py.get result' "action" PNone = Ok (PStr "error")
       /\ Py.get result' "detail" PNone
          = Ok (match Py.dict_lookup "error" failure with
                | Some detail => detail
                | None => PStr "unknown SF error"
                end)
       /\ Py.get result' "sf_result" PNone = Ok (PDict failure))
  /\
  (forall hmac request w wv chat cid,
     text_body (raw_body request) = true ->
     Json.within_limits (json_room w) (raw_body request) = true ->
     accepted hmac request w wv chat cid ->
     (exists w2, webhook_retell hmac request w = (Ok 204, w2))
     /\ forall e w1,
          process_chat_webhook sf_query_all get_salesforce_credentials chat
            (Some notify.send_notification) (received cid wv) = (Raise e, w1) ->
          exists w2 earlier line,
            webhook_retell hmac request w = (Ok 204, w2)
            /\ webhooks_received (stats w2) = webhooks_received (stats w1) + 1
            /\ errors (stats w2) = errors (stats w1) + 1
            /\ recent_events (stats w2)
               = (earlier ++ [recent_entry (clock w1) (PStr "error") cid
                                (PStr (exn_msg e))])%list
            /\ assoc dead_letter.DEAD_LETTER_FILE (files w2)
               = Some (store w1 ++ line ++ File.newline)
            /\ (float_free chat = true ->
                line = Json.dumps (dead_letter_entry (clock w1) chat (PStr cid)
                                     (PStr "") (PStr "") (PStr "") (PStr "")
                                     (exn_msg e)))).
Proof.
  split; [|split; [|split; [|split]]].
  - intros q gsc chat notify_fn w e H.
    unfold process_chat_webhook. unfold bind at 1, lift at 1.
    destruct chat; try (unfold classify_chat in H; cbn in H; inversion H; reflexivity).
    cbn [Py.get]. unfold bind at 1, lift at 1. rewrite H. reflexivity.
  - intros q gsc chat notify_fn w action detail e Hc Hskip Hx.
    unfold process_chat_webhook. unfold bind at 1, lift at 1.
    destruct chat; try (unfold classify_chat in Hc; cbn in Hc; discriminate).
    cbn [Py.get]. unfold bind at 1, lift at 1. rewrite Hc, Hskip.
    unfold bind at 1, lift at 1.
    destruct Hx as [Hx|[(cid & Hcid) Hx]].
    + rewrite Hx. reflexivity.
    + rewrite Hcid. unfold bind at 1, lift at 1. rewrite Hx. reflexivity.
  - intros q gsc chat notify_fn w chat_id result record w1 e w2 Hreach Hraise.
    rewrite (process_chat_webhook_at_creation q gsc chat notify_fn w chat_id result
               record w1 Hreach).
    assert (C : create_job_applicant gsc (PDict record) w1 = (Raise e, w2)).
    { destruct Hraise as [G|C]; [|exact C].
      apply create_job_applicant_resolution_raises. exact G. }
    unfold bind. rewrite C. reflexivity.
  - intros q gsc chat notify_fn w chat_id result record w1 failure w2 t
           Hreach Hfail Htag Hnotify.
    rewrite (process_chat_webhook_at_creation q gsc chat notify_fn w chat_id result
               record w1 Hreach).
    unfold bind at 1. rewrite Hfail.
    unfold report_creation. unfold bind at 1, lift at 1. cbn [Py.get].
    unfold bind at 1, lift at 1. rewrite Htag.
    unfold bind at 1. unfold core_log at 1, log at 1, emit at 1.
    destruct Hreach as (action & detail & cid & jid & existing & _ & _ & _ & _ & _
                        & _ & _ & _ & _ & Hrec & ->).
    destruct Hnotify as [->|[-> (m & Hm)]].
    + do 2 eexists. split; [reflexivity|]. repeat split; reflexivity.
    + rewrite Hm.
      destruct (@build_record_fields _ _ _ _ _ _ _ Hrec) as (summary & job_desc & agent & ->).
      unfold tag in Htag. apply rbind_ok in Htag. destruct Htag as (short & Hshort & _).
      match goal with
      | |- context [bind (notify.send_notification "error" (PDict ?d)) ?k ?w0] =>
          destruct (send_notification_error_returns d w0 short (PStr (Str.take 200 m))
                      Hshort eq_refl) as (w3 & N)
      end.
      unfold bind at 1. rewrite N.
      do 2 eexists. split; [reflexivity|]. repeat split; reflexivity.
  - intros hmac request w wv chat cid _ _ Hacc.
    rewrite (webhook_retell_accepted hmac request w wv chat cid Hacc).
    destruct Hacc as (payload & _ & _ & _ & _ & Hid).
    split.
    + unfold bind at 1, try_except.
      destruct (process_and_record chat (PStr cid) (received cid wv)) as [[[]|e] w1].
      * eexists; reflexivity.
      * cbn [any_exception].
        destruct (on_exception_run chat cid e w1 Hid) as (w2 & R & _).
        rewrite R. eexists; reflexivity.
    + intros e w1 Hrun.
      unfold bind at 1, try_except.
      assert (P : process_and_record chat (PStr cid) (received cid wv) = (Raise e, w1)).
      { unfold process_and_record. unfold bind at 1. rewrite Hrun. reflexivity. }
      rewrite P. cbn [any_exception].
      destruct (on_exception_run chat cid e w1 Hid) as (w2 & R & St & Fi).
      rewrite R.
      destruct (push_recent_last
                  (recent_entry (clock w1) (PStr "error") cid (PStr (exn_msg e)))
                  (bump_counter (PStr "error") (clock w1)
                     (bump_received (clock w1) (stats w1)))) as (earlier & Last).
      exists w2, earlier. eexists. split; [reflexivity|].
      rewrite St, Fi. repeat split.
      * exact Last.
      * apply assoc_write.
Qed.

Definition qualified_request : HttpRequest :=
  mkHttpRequest
    (Json.dumps (PDict [("event", PStr "chat_analyzed"); ("data", qualified_chat)]))
    None.

(** The world in which the run of [qualified_request] starts when nothing is
    configured: the gate has logged that verification is off, the handler
    that the webhook was received. *)
Definition unconfigured_start : World :=
  received "chat_0123456789abcdef"
    (snd (verify_retell_signature toy_digest (raw_body qualified_request) ""
            (bare_world []))).

(** A process in token mode with a Slack hook: the CRM finds no applicant
    and refuses the creation, and the hook cannot be reached. *)
Definition refused_with_hook : World :=
  mkWorld [("SF_ACCESS_TOKEN", "tok"); ("SF_INSTANCE_URL", "https://sf.example")]
          (fun l => l) 900 "" "https://hooks.slack.example/T0" 30 1800 PNone PNone None
          1762163700000000
          [fun _ => Responds 1000 (mkResponse 200 "application/json" "{}");
           fun _ => Responds 1000 (mkResponse 500 "application/json" "boom")]
          (fun _ => mkExn ConnectionError "the network is down") [] [] stats0.

Lemma exceptions_are_caught_by_the_handler_witness :
  (exists result' w3,
     process_chat_webhook sf_query_all get_salesforce_credentials qualified_chat
       (Some notify.send_notification) refused_with_hook = (Ok result', w3)
     /\ Py.get result' "action" PNone = Ok (PStr "error")
     /\ Py.get result' "detail" PNone = Ok (PStr "HTTP 500: boom")
     /\ Py.get result' "sf_result" PNone = Ok (PDict [("error", PStr "HTTP 500: boom")]))
  /\
  (exists w2,
     webhook_retell toy_digest qualified_request (bare_world []) = (Ok 204, w2)
     /\ errors (stats w2) = 1).
Proof.
  split.
  - edestruct (proj1 (proj2 (proj2 (proj2 exceptions_are_caught_by_the_handler)))
                 sf_query_all get_salesforce_credentials qualified_chat
                 (Some notify.send_notification) refused_with_hook)
      as (r & w3 & Run & A & D & S).
    + exists "qualified", "New Application", "003000000000001AAA",
             "a0F000000000001AAA", [].
      repeat split; try discriminate; vm_compute; reflexivity.
    + vm_compute. reflexivity.
    + vm_compute. reflexivity.
    + right. split; [reflexivity|]. eexists. reflexivity.
    + exists r, w3. repeat split; assumption.
  - assert (Hacc : accepted toy_digest qualified_request (bare_world [])
                     (snd (verify_retell_signature toy_digest
                             (raw_body qualified_request) "" (bare_world [])))
                     qualified_chat "chat_0123456789abcdef").
    { exists (PDict [("event", PStr "chat_analyzed"); ("data", qualified_chat)]).
      repeat split; vm_compute; reflexivity. }
    destruct (proj2 (proj2 (proj2 (proj2 (proj2 exceptions_are_caught_by_the_handler)))
                toy_digest qualified_request (bare_world []) _ qualified_chat
                "chat_0123456789abcdef" eq_refl eq_refl Hacc)
                no_credentials
                (snd (process_chat_webhook sf_query_all get_salesforce_credentials
                        qualified_chat (Some notify.send_notification)
                        unconfigured_start)))
      as (w2 & earlier & line & Run & _ & Err & _).
    { vm_compute. reflexivity. }
    exists w2. split; [exact Run|]. rewrite Err. vm_compute. reflexivity.
Defined.

(** ** C2: dead-lettering on the two paths that run the orchestrator *)

(** On the webhook path a run that ends with the action 'error' is appended
    to the store: the entry carries the chat, the ids of the result and the
    error detail. *)
Lemma webhook_error_is_dead_lettered :
  forall hmac request w wv chat cid fields detail w1,
    accepted hmac request w wv chat cid ->
    process_chat_webhook sf_query_all get_salesforce_credentials chat
      (Some notify.send_notification) (received cid wv) = (Ok (PDict fields), w1) ->
    Py.dict_lookup "action" fields = Some (PStr "error") ->
    Py.dict_lookup "detail" fields = Some detail ->
    exists w2,
      webhook_retell hmac request w = (Ok 204, w2)
      /\ assoc dead_letter.DEAD_LETTER_FILE (files w2)
         = Some (store w1
                 ++ Json.dumps (dead_letter_entry (clock w1) chat (PStr cid)
                                  (field fields "contact_id") (field fields "job_id")
                                  (field fields "stage") (field fields "tier")
                                  (Py.str detail))
                 ++ File.newline).
Proof.
  intros hmac request w wv chat cid fields detail w1 Hacc Hrun Haction Hdetail.
  rewrite (webhook_retell_accepted hmac request w wv chat cid Hacc).
  destruct Hacc as (payload & _ & _ & _ & _ & Hid).
  unfold bind at 1, try_except.
  unfold process_and_record. unfold bind at 1. rewrite Hrun.
  unfold bind at 1 2, lift at 1 2. cbn [Py.get]. rewrite Haction, Hdetail.
  destruct (record_event_text (PStr "error") cid detail w1)
    as (w2 & R & St & Fi & Cl & _ & _).
  unfold bind at 1. rewrite R. cbn [Py.eq_str String.eqb Ascii.eqb Bool.eqb].
  destruct (dead_letter_append_run chat fields (Py.str detail) w2 (PStr cid) Hid)
    as (w3 & A & Fi3 & _).
  rewrite A. exists w3. split; [reflexivity|].
  rewrite Fi3. unfold store. rewrite Fi, Cl. apply assoc_write.
Qed.

(** An answer of the network with the given status and body *)
Definition answer (status : Z) (body : string) : Request -> net_outcome :=
  fun _ => Responds 1000 (mkResponse status "application/json" body).

(** A CRM that finds no existing applicant and refuses the creation *)
Definition refusing_crm : list (Request -> net_outcome) :=
  [answer 200 "{}"; answer 500 "boom"].

(** The world after the webhook of the qualified chat met the refusing CRM *)
Definition after_webhook : World :=
  snd (webhook_retell toy_digest qualified_request (token_world refusing_crm)).

(** The replay starts from there, and the CRM still refuses. *)
Definition replay_start : World := set_net_script refusing_crm after_webhook.

(** C2, the code at the failing input.  The webhook path appends the failed
    run to the store (one entry).  Replaying that store while the CRM still
    refuses ends the run with the action 'error' again (the answer reports one
    failure), yet nothing is appended: the store file is gone, moved to the
    archive, and the store counts no entry. *)
Theorem replay_does_not_dead_letter :
  fst (webhook_retell toy_digest qualified_request (token_world refusing_crm)) = Ok 204
  /\ fst (dead_letter.count after_webhook) = Ok 1
  /\ (exists body,
        fst (retry_failed replay_start) = Ok body
        /\ Py.get body "failed" PNone = Ok (PInt 1)
        /\ Py.get body "results" PNone
           = Ok (PList [PDict [("chat_id", PStr "chat_0123456789abcdef");
                               ("action", PStr "error");
                               ("detail", PStr "HTTP 500: boom")]]))
  /\ assoc dead_letter.DEAD_LETTER_FILE (files (snd (retry_failed replay_start))) = None
  /\ fst (dead_letter.count (snd (retry_failed replay_start))) = Ok 0
  /\ List.length (files (snd (retry_failed replay_start))) = 1%nat.
Proof.
  split; [vm_compute; reflexivity|].
  split; [vm_compute; reflexivity|].
  split.
  - eexists. split; [vm_compute; reflexivity|]. split; vm_compute; reflexivity.
  - repeat split; vm_compute; reflexivity.
Qed.

(** ** The paginated query never runs out of fuel *)

Lemma bind_ext_on : forall A B (m : M A) (k1 k2 : A -> M B) w,
  (forall a w1, m w = (Ok a, w1) -> k1 a w1 = k2 a w1) ->
  bind m k1 w = bind m k2 w.
Proof.
  intros A B m k1 k2 w H. unfold bind.
  destruct (m w) as [[a|e] w1]; [apply H; reflexivity|reflexivity].
Qed.

Lemma lift_world : forall A (x : res A) w a w1, lift x w = (Ok a, w1) -> w1 = w.
Proof. intros A x w a w1 H. inversion H; reflexivity. Qed.

Lemma steps_script_length : forall w w' v,
  steps w w' v -> (List.length (net_script w') <= List.length (net_script w))%nat.
Proof.
  intros w w' v (new & k & _ & _ & _ & _ & S). rewrite S, length_skipn. lia.
Qed.

Lemma http_consumes : forall req w resp w',
  http req w = (Ok resp, w') ->
  (List.length (net_script w') < List.length (net_script w))%nat.
Proof.
  intros req w resp w' H. unfold http in H. cbn [emit net_script set_trace] in H.
  destruct (net_script w) as [|f rest]; [discriminate|].
  destruct (f req); inversion H; subst. cbn. lia.
Qed.

(** One authenticated GET: the resolution and the request. *)
Lemma sf_get_consumes : forall path w url resp w',
  ('(access_token, instance_url) <- get_salesforce_credentials ;;
   timeout <- (fun w => (Ok (SF_REQUEST_TIMEOUT w), w)) ;;
   let url := Py.str instance_url ++ "/services/data/" ++ SF_API_VERSION ++ path in
   resp <- http (mkRequest "GET" url
                   (bearer access_token ++ [("Content-Type", "application/json")])
                   NoBody timeout) ;;
   ret (url, resp)) w = (Ok (url, resp), w') ->
  (List.length (net_script w') < List.length (net_script w))%nat.
Proof.
  intros path w url resp w' H.
  apply bind_ok_inv in H. destruct H as ([t u] & w1 & G & H).
  apply bind_ok_inv in H. destruct H as (timeout & w2 & T & H).
  inversion T; subst w2. clear T.
  apply bind_ok_inv in H. destruct H as (resp' & w3 & Hh & H).
  inversion H; subst.
  pose proof (steps_script_length _ _ _ (resolve_steps _ _ _ G)).
  pose proof (http_consumes _ _ _ _ Hh). lia.
Qed.

Lemma sf_api_get_consumes : forall path w v w',
  sf_api_get path w = (Ok v, w') ->
  (List.length (net_script w') < List.length (net_script w))%nat.
Proof.
  intros path w v w' H. unfold sf_api_get in H.
  apply bind_ok_inv in H. destruct H as ([url resp] & w1 & G1 & H).
  pose proof (sf_get_consumes _ _ _ _ _ G1) as L1.
  apply bind_ok_inv in H. destruct H as ([url2 resp2] & w2 & G2 & H).
  assert (L2 : (List.length (net_script w2) <= List.length (net_script w1))%nat).
  { destruct (status_code resp =? 401).
    - apply bind_ok_inv in G2. destruct G2 as ([] & w1' & I & G2).
      pose proof (sf_get_consumes _ _ _ _ _ G2) as L.
      unfold _invalidate_token_cache, with_lock in I. cbn [emit] in I.
      inversion I; subst w1'. cbn in L. lia.
    - inversion G2; subst. lia. }
  apply bind_ok_inv in H. destruct H as ([] & w3 & R & H).
  assert (w3 = w2).
  { unfold raise_for_status in R.
    destruct ((400 <=? status_code resp2) && (status_code resp2 <? 600));
      inversion R; reflexivity. }
  subst w3. unfold resp_json, lift in H. inversion H; subst. lia.
Qed.

(** With more fuel than the script has entries, more fuel changes nothing:
    the loop of [sf_query_all] ends by itself, and [out_of_pages] is never
    what stops it. *)
Lemma query_pages_enough_fuel : forall fuel fuel' result records w,
  (List.length (net_script w) < fuel)%nat ->
  (List.length (net_script w) < fuel')%nat ->
  query_pages fuel result records w = query_pages fuel' result records w.
Proof.
  induction fuel as [|fuel IH]; intros fuel' result records w H H'; [lia|].
  destruct fuel' as [|fuel']; [lia|].
  cbn [query_pages].
  apply bind_ext_on. intros done w1 E1. apply lift_world in E1. subst w1.
  apply bind_ext_on. intros more w1 E2.
  assert (w1 = w).
  { destruct (negb (Py.truthy done)).
    - apply bind_ok_inv in E2. destruct E2 as (next & w2 & E2 & E3).
      apply lift_world in E2. subst w2. inversion E3; reflexivity.
    - inversion E2; reflexivity. }
  subst w1. destruct more; [|reflexivity].
  apply bind_ext_on. intros next_url w1 E3. apply lift_world in E3. subst w1.
  apply bind_ext_on. intros versioned w1 E4. apply lift_world in E4. subst w1.
  apply bind_ext_on. intros result' w1 E5.
  pose proof (sf_api_get_consumes _ _ _ _ E5) as L.
  apply bind_ext_on. intros [] w2 E6. apply lift_world in E6. subst w2.
  apply bind_ext_on. intros page w2 E7. apply lift_world in E7. subst w2.
  apply bind_ext_on. intros records' w2 E8. apply lift_world in E8. subst w2.
  apply IH; lia.
Qed.

(** ** The string, JSON and clock helpers on known values *)

(** *** [split] cuts the text at the separators and nowhere else *)

Lemma rev_append_app : forall acc s t,
  Str.rev_append acc s ++ t = Str.rev_append acc (s ++ t).
Proof.
  induction acc as [|c acc IH]; intros s t; [reflexivity|].
  cbn [Str.rev_append]. rewrite IH. reflexivity.
Qed.

Lemma split_aux_skip : forall sep k s acc,
  (k <= String.length s)%nat ->
  Str.split_aux sep s k acc = Str.split_aux sep (Str.drop k s) O acc.
Proof.
  intros sep; induction k as [|k IH]; intros s acc H.
  - destruct s; reflexivity.
  - destruct s as [|c s]; [cbn in H; lia|].
    cbn [Str.split_aux Str.drop]. apply IH. cbn in H. lia.
Qed.

Lemma startswith_drop : forall p s,
  Str.startswith p s = true ->
  s = p ++ Str.drop (String.length p) s
  /\ (String.length p <= String.length s)%nat.
Proof.
  induction p as [|a p IH]; intros s H.
  - split; [destruct s; reflexivity|cbn; lia].
  - destruct s as [|b s]; [discriminate|].
    cbn [Str.startswith] in H. apply andb_true_iff in H. destruct H as [E H].
    apply Ascii.eqb_eq in E. subst b.
    destruct (IH s H) as [E L]. split.
    + cbn [append String.length Str.drop]. f_equal. exact E.
    + cbn [String.length]. lia.
Qed.

Lemma length_drop : forall k s,
  String.length (Str.drop k s) = (String.length s - k)%nat.
Proof.
  induction k as [|k IH]; intros s; [cbn; lia|].
  destruct s as [|c s]; [reflexivity|]. cbn [Str.drop String.length]. apply IH.
Qed.

Lemma join_cons : forall sep x l,
  l <> [] -> Str.join sep (x :: l) = x ++ sep ++ Str.join sep l.
Proof. intros sep x l H. destruct l; [contradiction|reflexivity]. Qed.

(** Joining the pieces with the separator gives the text back. *)
Lemma split_aux_join : forall a sep n s acc,
  (String.length s <= n)%nat ->
  Str.join (String a sep) (Str.split_aux (String a sep) s O acc)
  = Str.rev_append acc s.
Proof.
  intros a sep; induction n as [|n IH]; intros s acc H.
  - destruct s; [reflexivity|cbn in H; lia].
  - destruct s as [|c s]; [reflexivity|].
    cbn [Str.split_aux].
    destruct (Str.startswith (String a sep) (String c s)) eqn:E.
    + destruct (startswith_drop _ _ E) as [Es L].
      rewrite join_cons by apply split_aux_nonempty.
      rewrite split_aux_skip by (cbn [String.length] in *; lia).
      rewrite (IH _ EmptyString)
        by (rewrite length_drop; cbn [String.length] in *; lia).
      cbn [Str.rev_append].
      replace (Str.drop (String.length (String a sep) - 1) s)
        with (Str.drop (String.length (String a sep)) (String c s))
        by (cbn [String.length Str.drop Nat.sub]; rewrite Nat.sub_0_r; reflexivity).
      rewrite <- Es. rewrite rev_append_app. reflexivity.
    + rewrite IH by (cbn [String.length] in H; lia). reflexivity.
Qed.

Lemma split_join : forall a sep s,
  Str.join (String a sep) (Str.split (String a sep) s) = s.
Proof.
  intros a sep s. unfold Str.split.
  rewrite (split_aux_join a sep (String.length s)) by lia. reflexivity.
Qed.

(** *** The JSON reader and writer on examples *)

Example loads_object :
  Json.loads (Json.dumps (PDict [("chat_id", PStr "c1");
                                 ("scores", PList [PInt (-3); PFloat "2.5e3"; PNone]);
                                 ("ok", PBool true)]))
  = Ok (PDict [("chat_id", PStr "c1");
               ("scores", PList [PInt (-3); PFloat "2.5e3"; PNone]);
               ("ok", PBool true)]).
Proof. reflexivity. Qed.

Example loads_refuses_torn_line : Json.loads "{bad" = Raise Json.decode_error.
Proof. reflexivity. Qed.

Example loads_refuses_trailing_comma : Json.loads "[1, 2,]" = Raise Json.decode_error.
Proof. reflexivity. Qed.

Example loads_refuses_leading_zero : Json.loads "01" = Raise Json.decode_error.
Proof. reflexivity. Qed.

Example loads_scalar_line : Json.loads " 5 " = Ok (PInt 5).
Proof. reflexivity. Qed.

Example isoformat_example :
  Clock.isoformat 1762163700123456 = "2025-11-03T09:55:00.123456+00:00".
Proof. reflexivity. Qed.

Example lines_example :
  File.lines ("a" ++ File.newline ++ File.newline ++ "b")
  = ["a" ++ File.newline; File.newline; "b"].
Proof. reflexivity. Qed.

Lemma append_assoc : forall s t u : string, (s ++ t) ++ u = s ++ (t ++ u).
Proof.
  induction s as [|c s IH]; intros t u; [reflexivity|].
  cbn [append]. rewrite IH. reflexivity.
Qed.

Lemma append_empty_r : forall s : string, s ++ "" = s.
Proof.
  induction s as [|c s IH]; [reflexivity|]. cbn [append]. rewrite IH. reflexivity.
Qed.

(** The segment [path_segment] returns stands in the link right after the
    first occurrence of the marker, and ends at the next slash or at the end
    of the link. *)
Lemma path_segment_in_url : forall m url,
  Str.contains (String "/" m) url = true ->
  exists pre rest,
    url = pre ++ String "/" m ++ path_segment (String "/" m) url ++ rest
    /\ (rest = "" \/ exists rest', rest = String "/" rest').
Proof.
  intros m url H.
  destruct (contains_split_two "/" m url "" H) as (x & y & more & E).
  pose proof (split_join "/" m url) as J. unfold Str.split in J. rewrite E in J.
  rewrite join_cons in J by discriminate.
  unfold path_segment, Str.split. rewrite E. cbn [nth].
  pose proof (split_join "/" "" y) as Jy. unfold Str.split in Jy.
  destruct (Str.split_aux "/" y 0 "") as [|seg segs] eqn:Ey.
  { exfalso. eapply split_aux_nonempty; eauto. }
  cbn [hd]. exists x.
  destruct segs as [|seg2 segs].
  - cbn [Str.join] in Jy. subst y.
    destruct more as [|z more].
    + exists "". split; [|left; reflexivity].
      cbn [Str.join] in J. rewrite append_empty_r. symmetry. exact J.
    + exists (String "/" m ++ Str.join (String "/" m) (z :: more)).
      split; [|right; eexists; reflexivity].
      rewrite join_cons in J by discriminate. symmetry. exact J.
  - rewrite join_cons in Jy by discriminate.
    exists ("/" ++ Str.join "/" (seg2 :: segs)
            ++ match more with
               | [] => ""
               | _ => String "/" m ++ Str.join (String "/" m) more
               end).
    split; [|right; eexists; reflexivity].
    rewrite <- J. f_equal. f_equal.
    destruct more as [|z more].
    + cbn [Str.join]. rewrite append_empty_r. rewrite <- Jy. reflexivity.
    + rewrite join_cons by discriminate. rewrite <- Jy.
      rewrite !append_assoc. reflexivity.
Qed.

(* ===================================================================== *)
(** * Further properties of the code *)
(* ===================================================================== *)

(** ** Classification *)

Lemma in_set_ok : forall v l b,
  Py.in_set v l = Ok b -> b = Py.in_tuple v l /\ hashable v = true.
Proof.
  intros v l b H. destruct v; cbn in H; try discriminate; inversion H; auto.
Qed.

Lemma get_ok_dict : forall v k default x,
  Py.get v k default = Ok x -> exists d, v = PDict d.
Proof.
  intros v k default x H. destruct v; try discriminate. eauto.
Qed.

(** X1.  [classify_chat] lets a chat through to the sync (an action other
    than 'skip') only when its agent is not in the skip set, its status is
    not 'ongoing', its analysis block carries custom data that is not empty,
    the candidate has not opted out, and either the qualification result is
    one of the two synced ones (action 'qualified', stage 'New Application')
    or it is not and the interest level is one of the two synced ones (action
    'interested', stage 'Candidate Interested'). *)
Theorem classify_chat_sync_sound : forall chat action detail,
  classify_chat chat = Ok (action, detail) -> action <> "skip" ->
  exists agent status ca custom,
    Py.get chat "agent_name" (PStr "") = Ok agent
    /\ Py.in_tuple agent SKIP_AGENTS = false
    /\ Py.get chat "chat_status" (PStr "") = Ok status
    /\ Py.eq_str status "ongoing" = false
    /\ block chat "chat_analysis" ca
    /\ block (PDict ca) "custom_analysis_data" custom
    /\ custom <> []
    /\ (forall o, Py.dict_lookup "opted_out" custom = Some o -> Py.truthy o = false)
    /\ ((action = "qualified" /\ detail = STAGE_QUALIFIED
         /\ Py.in_tuple (field custom "qualification_result") SYNC_QUAL_RESULTS = true)
        \/ (action = "interested" /\ detail = STAGE_INTERESTED
            /\ Py.in_tuple (field custom "qualification_result") SYNC_QUAL_RESULTS = false
            /\ Py.in_tuple (field custom "interest_level") SYNC_INTEREST_LEVELS = true)).
Proof.
  intros chat action detail H Hsync. unfold classify_chat in H.
  apply rbind_ok in H. destruct H as (agent & Hagent & H).
  apply rbind_ok in H. destruct H as (skipped_agent & Hset & H).
  apply in_set_ok in Hset. destruct Hset as [-> _].
  destruct (Py.in_tuple agent SKIP_AGENTS) eqn:Eagent.
  { inversion H; subst. contradiction Hsync; reflexivity. }
  apply rbind_ok in H. destruct H as (status & Hstatus & H).
  destruct (Py.eq_str status "ongoing") eqn:Estatus.
  { inversion H; subst. contradiction Hsync; reflexivity. }
  apply rbind_ok in H. destruct H as (ca0 & Hca & H).
  apply rbind_ok in H. destruct H as (custom0 & Hcustom & H).
  destruct (get_ok_dict _ _ _ _ Hcustom) as (ca & Eca).
  destruct (negb (Py.truthy (Py.or_ custom0 (PDict [])))) eqn:Eempty.
  { inversion H; subst. contradiction Hsync; reflexivity. }
  apply rbind_ok in H. destruct H as (opted_out & Hopt & H).
  destruct (get_ok_dict _ _ _ _ Hopt) as (custom & Ecustom).
  rewrite Ecustom in *.
  destruct (Py.truthy opted_out) eqn:Eopt.
  { inversion H; subst. contradiction Hsync; reflexivity. }
  apply rbind_ok in H. destruct H as (qual & Hqual & H).
  exists agent, status, ca, custom.
  split; [exact Hagent|]. split; [exact Eagent|].
  split; [exact Hstatus|]. split; [exact Estatus|].
  split; [exists ca0; split; assumption|].
  split; [exists custom0; rewrite <- Eca; split; assumption|].
  split.
  { intros ->. discriminate. }
  split.
  { intros o Ho. cbn [Py.get] in Hopt. rewrite Ho in Hopt.
    inversion Hopt; subst. exact Eopt. }
  rewrite get_block_field in Hqual. inversion Hqual; subst qual.
  destruct (Py.in_tuple (field custom "qualification_result") SYNC_QUAL_RESULTS) eqn:Q.
  { inversion H; subst. left. auto. }
  apply rbind_ok in H. destruct H as (interest & Hint & H).
  rewrite get_block_field in Hint. inversion Hint; subst interest.
  destruct (Py.in_tuple (field custom "interest_level") SYNC_INTEREST_LEVELS) eqn:I.
  { inversion H; subst. right. auto. }
  inversion H; subst. contradiction Hsync; reflexivity.
Qed.

Lemma classify_chat_sync_sound_witness :
  exists agent status ca custom,
    Py.get qualified_chat "agent_name" (PStr "") = Ok agent
    /\ Py.in_tuple agent SKIP_AGENTS = false
    /\ Py.get qualified_chat "chat_status" (PStr "") = Ok status
    /\ Py.eq_str status "ongoing" = false
    /\ block qualified_chat "chat_analysis" ca
    /\ block (PDict ca) "custom_analysis_data" custom
    /\ custom <> []
    /\ (forall o, Py.dict_lookup "opted_out" custom = Some o -> Py.truthy o = false)
    /\ (("qualified" = "qualified" /\ "New Application" = STAGE_QUALIFIED
         /\ Py.in_tuple (field custom "qualification_result") SYNC_QUAL_RESULTS = true)
        \/ ("qualified" = "interested" /\ "New Application" = STAGE_INTERESTED
            /\ Py.in_tuple (field custom "qualification_result") SYNC_QUAL_RESULTS = false
            /\ Py.in_tuple (field custom "interest_level") SYNC_INTEREST_LEVELS = true)).
Proof.
  apply (classify_chat_sync_sound qualified_chat "qualified" "New Application").
  - reflexivity.
  - discriminate.
Defined.

(** The values an f-string renders in the model as it does in Python: None,
    a boolean, text, and an integer short enough to be printed (the
    conversion of an integer of more than [Json.INT_MAX_STR_DIGITS] digits
    raises ValueError).  A float is printed in its shortest form and the
    text of a list or a dictionary escapes what cannot be printed; neither
    is followed here. *)
Definition prints_exactly (v : pyval) : bool :=
  match v with
  | PNone | PBool _ | PStr _ => true
  | PInt z => Z.abs z <? 10 ^ Z.of_nat Json.INT_MAX_STR_DIGITS
  | _ => false
  end.

Lemma in_tuple_two : forall v a b,
  Py.in_tuple v [a; b] = true <-> v = PStr a \/ v = PStr b.
Proof.
  intros v a b. unfold Py.in_tuple. cbn [existsb]. rewrite orb_false_r.
  rewrite orb_true_iff. unfold Py.eq_str.
  destruct v; try (split; [intros [H|H]; discriminate | intros [H|H]; discriminate]).
  rewrite !String.eqb_eq.
  split; (intros [H|H]; [left|right]); congruence.
Qed.

Lemma in_tuple_two_false : forall v a b,
  v <> PStr a -> v <> PStr b -> Py.in_tuple v [a; b] = false.
Proof.
  intros v a b Ha Hb. destruct (Py.in_tuple v [a; b]) eqn:E; [|reflexivity].
  apply in_tuple_two in E. destruct E; contradiction.
Qed.

(** X2.  For a chat whose agent is not one of the two skipped agents and
    whose status is not 'ongoing', [classify_chat] decides in this order:
    - no custom analysis data (the block is missing, null or empty) skips
      with 'no analysis data';
    - a truthy opted_out skips with 'opted out', whatever the qualification
      and the interest;
    - otherwise the qualification result 'fully_qualified' or
      'partially_qualified' gives ('qualified', 'New Application'), whatever
      the interest level;
    - otherwise the interest level 'very_interested' or
      'somewhat_interested' gives ('interested', 'Candidate Interested');
    - anything else skips, and when the two values are None, booleans, text
      or integers the detail is 'not qualified/interested (qual=<value>,
      interest=<value>)'. *)
Theorem classify_chat_decision : forall chat agent status ca custom,
  Py.get chat "agent_name" (PStr "") = Ok agent -> hashable agent = true ->
  agent <> PStr "SMS Violet - EMR Trainer Outreach" ->
  agent <> PStr "Violet - MedPro Inbound Lead Agent" ->
  Py.get chat "chat_status" (PStr "") = Ok status ->
  status <> PStr "ongoing" ->
  block chat "chat_analysis" ca ->
  block (PDict ca) "custom_analysis_data" custom ->
  let opted_out := match Py.dict_lookup "opted_out" custom with
                   | Some o => o
                   | None => PNone
                   end in
  let qual := field custom "qualification_result" in
  let interest := field custom "interest_level" in
  (custom = [] -> classify_chat chat = Ok ("skip", "no analysis data"))
  /\
  (custom <> [] -> Py.truthy opted_out = true ->
   classify_chat chat = Ok ("skip", "opted out"))
  /\
  (custom <> [] -> Py.truthy opted_out = false ->
   qual = PStr "fully_qualified" \/ qual = PStr "partially_qualified" ->
   classify_chat chat = Ok ("qualified", "New Application"))
  /\
  (custom <> [] -> Py.truthy opted_out = false ->
   qual <> PStr "fully_qualified" -> qual <> PStr "partially_qualified" ->
   interest = PStr "very_interested" \/ interest = PStr "somewhat_interested" ->
   classify_chat chat = Ok ("interested", "Candidate Interested"))
  /\
  (custom <> [] -> Py.truthy opted_out = false ->
   qual <> PStr "fully_qualified" -> qual <> PStr "partially_qualified" ->
   interest <> PStr "very_interested" -> interest <> PStr "somewhat_interested" ->
   (exists reason, classify_chat chat = Ok ("skip", reason))
   /\ (prints_exactly qual = true -> prints_exactly interest = true ->
       classify_chat chat
       = Ok ("skip",
             "not qualified/interested (qual=" ++ Py.str qual
               ++ ", interest=" ++ Py.str interest ++ ")"))).
Proof.
  intros chat agent status ca custom Hagent Hhash Ha1 Ha2 Hstatus Hongoing
         (ca0 & Hca & Oca) (custom0 & Hcustom & Ocustom) opted_out qual interest.
  assert (Hskip : Py.in_tuple agent SKIP_AGENTS = false)
    by (apply in_tuple_two_false; assumption).
  assert (Hon : Py.eq_str status "ongoing" = false).
  { destruct status; try reflexivity. cbn [Py.eq_str]. apply String.eqb_neq.
    intros ->. apply Hongoing. reflexivity. }
  assert (Hin : Py.in_set agent SKIP_AGENTS = Ok (Py.in_tuple agent SKIP_AGENTS)).
  { destruct agent; try reflexivity; discriminate. }
  assert (Run : classify_chat chat =
    Ok (match custom with
        | [] => ("skip", "no analysis data")
        | _ =>
          if Py.truthy opted_out then ("skip", "opted out")
          else if Py.in_tuple qual SYNC_QUAL_RESULTS
          then ("qualified", "New Application")
          else if Py.in_tuple interest SYNC_INTEREST_LEVELS
          then ("interested", "Candidate Interested")
          else ("skip",
                "not qualified/interested (qual=" ++ Py.str qual
                  ++ ", interest=" ++ Py.str interest ++ ")")
        end)).
  { unfold classify_chat. rewrite Hagent. cbn [rbind].
    rewrite Hin, Hskip. cbn [rbind]. rewrite Hstatus. cbn [rbind]. rewrite Hon.
    rewrite Hca. cbn [rbind]. rewrite Oca, Hcustom. cbn [rbind]. rewrite Ocustom.
    subst opted_out qual interest.
    destruct custom as [|kv custom]; [reflexivity|].
    cbn [Py.truthy negb]. set (d := kv :: custom).
    cbn [Py.get rbind].
    destruct (Py.truthy match Py.dict_lookup "opted_out" d with
                        | Some x => x
                        | None => PNone
                        end); [reflexivity|].
    fold (field d "qualification_result").
    destruct (Py.in_tuple (field d "qualification_result") SYNC_QUAL_RESULTS);
      [reflexivity|].
    fold (field d "interest_level").
    destruct (Py.in_tuple (field d "interest_level") SYNC_INTEREST_LEVELS); reflexivity. }
  rewrite Run. clear Run.
  split; [|split; [|split; [|split]]].
  - intros ->. reflexivity.
  - intros N T. destruct custom; [contradiction|]. rewrite T. reflexivity.
  - intros N T Q. destruct custom; [contradiction|]. rewrite T.
    apply in_tuple_two in Q. unfold SYNC_QUAL_RESULTS. rewrite Q. reflexivity.
  - intros N T Q1 Q2 I. destruct custom; [contradiction|]. rewrite T.
    unfold SYNC_QUAL_RESULTS. rewrite (in_tuple_two_false _ _ _ Q1 Q2).
    apply in_tuple_two in I. unfold SYNC_INTEREST_LEVELS. rewrite I. reflexivity.
  - intros N T Q1 Q2 I1 I2. destruct custom; [contradiction|]. rewrite T.
    unfold SYNC_QUAL_RESULTS, SYNC_INTEREST_LEVELS.
    rewrite (in_tuple_two_false _ _ _ Q1 Q2), (in_tuple_two_false _ _ _ I1 I2).
    split; [eexists; reflexivity|]. intros _ _. reflexivity.
Qed.

(** A candidate who is fully qualified and has opted out *)
Definition opted_out_chat : pyval :=
  PDict [("chat_id", PStr "chat_42");
         ("agent_name", PStr "Violet - Nurse Outreach");
         ("chat_analysis",
          PDict [("custom_analysis_data",
                  PDict [("qualification_result", PStr "fully_qualified");
                         ("interest_level", PStr "very_interested");
                         ("opted_out", PBool true)])])].

(** A candidate whose opted_out is a float that rounds to zero, with no
    qualification and a numeric interest level *)
Definition undecided_chat : pyval :=
  PDict [("chat_id", PStr "chat_43");
         ("agent_name", PStr "Violet - Nurse Outreach");
         ("chat_analysis",
          PDict [("custom_analysis_data",
                  PDict [("opted_out", PFloat "1e-400");
                         ("qualification_result", PNone);
                         ("interest_level", PInt 3)])])].

Lemma classify_chat_decision_witness :
  classify_chat opted_out_chat = Ok ("skip", "opted out")
  /\ classify_chat undecided_chat
     = Ok ("skip", "not qualified/interested (qual=None, interest=3)").
Proof.
  split.
  - apply (proj1 (proj2
             (@classify_chat_decision opted_out_chat
                (PStr "Violet - Nurse Outreach") (PStr "")
                [("custom_analysis_data",
                  PDict [("qualification_result", PStr "fully_qualified");
                         ("interest_level", PStr "very_interested");
                         ("opted_out", PBool true)])]
                [("qualification_result", PStr "fully_qualified");
                 ("interest_level", PStr "very_interested");
                 ("opted_out", PBool true)]
                eq_refl eq_refl ltac:(discriminate) ltac:(discriminate)
                eq_refl ltac:(discriminate)
                ltac:(eexists; split; reflexivity)
                ltac:(eexists; split; reflexivity)))).
    + discriminate.
    + reflexivity.
  - apply (proj2 (proj2 (proj2 (proj2
             (@classify_chat_decision undecided_chat
                (PStr "Violet - Nurse Outreach") (PStr "")
                [("custom_analysis_data",
                  PDict [("opted_out", PFloat "1e-400");
                         ("qualification_result", PNone);
                         ("interest_level", PInt 3)])]
                [("opted_out", PFloat "1e-400");
                 ("qualification_result", PNone);
                 ("interest_level", PInt 3)]
                eq_refl eq_refl ltac:(discriminate) ltac:(discriminate)
                eq_refl ltac:(discriminate)
                ltac:(eexists; split; reflexivity)
                ltac:(eexists; split; reflexivity)))))).
    all: try discriminate; vm_compute; reflexivity.
Defined.

(** ** What a computation leaves alone *)

Section Frame.

Context {X : Type} (f : World -> X).

(** [Keeps f m]: whatever [m] does and however it ends, the part [f] of the
    world is the same afterwards. *)
Definition Keeps {A} (m : M A) : Prop :=
  forall w r w', m w = (r, w') -> f w' = f w.

Hypothesis f_trace : forall t w, f (set_trace t w) = f w.
Hypothesis f_clock : forall c w, f (set_clock c w) = f w.
Hypothesis f_script : forall s w, f (set_net_script s w) = f w.
Hypothesis f_cache : forall t i a w, f (set_cache t i a w) = f w.
Hypothesis f_files : forall fs w, f (set_files fs w) = f w.
Hypothesis f_stats : forall s w, f (set_stats s w) = f w.

Lemma Keeps_ret : forall A (a : A), Keeps (ret a).
Proof. intros A a w r w' H. inversion H; reflexivity. Qed.

Lemma Keeps_raise : forall A e, Keeps (@raise A e).
Proof. intros A e w r w' H. inversion H; reflexivity. Qed.

Lemma Keeps_lift : forall A (x : res A), Keeps (lift x).
Proof. intros A x w r w' H. inversion H; reflexivity. Qed.

Lemma Keeps_read : forall A (g : World -> A), Keeps (fun w => (Ok (g w), w)).
Proof. intros A g w r w' H. inversion H; reflexivity. Qed.

Lemma Keeps_bind : forall A B (m : M A) (k : A -> M B),
  Keeps m -> (forall a, Keeps (k a)) -> Keeps (bind m k).
Proof.
  intros A B m k Hm Hk w r w' H. apply bind_inv in H.
  destruct H as [(a & w1 & H1 & H2)|(e & H1 & _)].
  - rewrite (Hk _ _ _ _ H2). eapply Hm; eassumption.
  - eapply Hm; eassumption.
Qed.

Lemma Keeps_try_except : forall A (body : M A) catches handler,
  Keeps body -> (forall e, Keeps (handler e)) -> Keeps (try_except body catches handler).
Proof.
  intros A body catches handler Hb Hh w r w' H. unfold try_except in H.
  destruct (body w) as [[a|e] w1] eqn:B.
  - inversion H; subst. eapply Hb; eassumption.
  - destruct (catches e).
    + rewrite (Hh _ _ _ _ H). eapply Hb; eassumption.
    + inversion H; subst. eapply Hb; eassumption.
Qed.

Lemma Keeps_attempt : forall A (m : M A), Keeps m -> Keeps (attempt m).
Proof.
  intros A m Hm w r w' H. unfold attempt in H.
  destruct (m w) as [x w1] eqn:E. inversion H; subst. eapply Hm; eassumption.
Qed.

Lemma Keeps_emit : forall e, Keeps (emit e).
Proof. intros e w r w' H. inversion H; subst. apply f_trace. Qed.

Lemma Keeps_log : forall logger level message, Keeps (log logger level message).
Proof. intros. apply Keeps_emit. Qed.

Lemma Keeps_with_lock : forall A lock (body : M A), Keeps body -> Keeps (with_lock lock body).
Proof.
  intros A lock body Hb w r w' H. unfold with_lock in H. cbn [emit] in H.
  destruct (body _) as [x w2] eqn:B. inversion H; subst.
  rewrite f_trace, (Hb _ _ _ B). apply f_trace.
Qed.

Lemma Keeps_sleep : forall s, Keeps (sleep s).
Proof.
  intros s w r w' H. inversion H; subst. unfold advance.
  rewrite f_clock. apply f_trace.
Qed.

Lemma Keeps_http : forall req, Keeps (http req).
Proof.
  intros req w r w' H. unfold http in H. cbn [emit net_script set_trace] in H.
  destruct (net_script w) as [|g rest].
  - inversion H; subst. apply f_trace.
  - destruct (g req); inversion H; subst; unfold advance;
      rewrite f_clock, f_script; apply f_trace.
Qed.

Lemma Keeps_remember : forall t u, Keeps (remember t u).
Proof. intros t u w r w' H. inversion H; subst. apply f_cache. Qed.

Lemma Keeps_raise_for_status : forall url resp, Keeps (raise_for_status url resp).
Proof.
  intros url resp. unfold raise_for_status.
  destruct ((400 <=? status_code resp) && (status_code resp <? 600));
    [apply Keeps_raise|apply Keeps_ret].
Qed.

Lemma Keeps_update_stats : forall g, Keeps (update_stats g).
Proof. intros g w r w' H. inversion H; subst. apply f_stats. Qed.

Lemma Keeps_file_append : forall name data, Keeps (File.append name data).
Proof. intros name data w r w' H. inversion H; subst. apply f_files. Qed.

Lemma Keeps_file_move : forall src dst, Keeps (File.move src dst).
Proof.
  intros src dst w r w' H. unfold File.move in H.
  destruct (assoc src (files w)); inversion H; subst; [apply f_files|reflexivity].
Qed.

Lemma Keeps_read_lines : forall name, Keeps (File.read_lines name).
Proof.
  intros name w r w' H. unfold File.read_lines in H.
  destruct (assoc name (files w)); inversion H; reflexivity.
Qed.

Lemma Keeps_invalidate_token_cache : Keeps _invalidate_token_cache.
Proof.
  apply Keeps_with_lock. intros w r w' H. inversion H; subst. apply f_cache.
Qed.

End Frame.

Ltac keeps_step :=
  first
    [ apply Keeps_ret | apply Keeps_raise | apply Keeps_lift
    | apply Keeps_read | apply Keeps_raise_for_status
    | apply Keeps_log; solve [intros; reflexivity]
    | apply Keeps_emit; solve [intros; reflexivity]
    | apply Keeps_sleep; solve [intros; reflexivity]
    | apply Keeps_http; solve [intros; reflexivity]
    | apply Keeps_remember; solve [intros; reflexivity]
    | apply Keeps_update_stats; solve [intros; reflexivity]
    | apply Keeps_file_append; solve [intros; reflexivity]
    | apply Keeps_file_move; solve [intros; reflexivity]
    | apply Keeps_read_lines
    | apply Keeps_invalidate_token_cache; solve [intros; reflexivity]
    | apply Keeps_with_lock; [solve [intros; reflexivity]|]
    | apply Keeps_attempt
    | apply Keeps_try_except; [|intros ?]
    | apply Keeps_bind; [|intros ?]
    | match goal with
      | |- Keeps _ (if ?b then _ else _) => destruct b
      | |- Keeps _ (match ?x with _ => _ end) => destruct x
      end ].

Ltac keeps := repeat keeps_step.

Ltac keeps_using known := repeat first [known | keeps_step].

(** The parts of the world the frame lemmas are used for: the counters and
    the files.  [Calm m]: [m] touches neither. *)
Definition Calm {A} (m : M A) : Prop := Keeps stats m /\ Keeps files m.

Ltac calm := split; keeps.
Ltac calm_using known := split; keeps_using known.

Lemma Calm_resolve_chain : Calm resolve_chain.
Proof.
  unfold resolve_chain, connector_mode, _refresh_via_connector, _refresh_via_oauth,
    _refresh_via_password, token_exchange, error_detail, resp_json, sf_log, getenv.
  calm.
Qed.

Lemma Calm_get_salesforce_credentials : Calm get_salesforce_credentials.
Proof.
  destruct Calm_resolve_chain as [S F].
  unfold get_salesforce_credentials. split.
  - apply Keeps_with_lock; [intros; reflexivity|].
    intros w r w' H. destruct (cache_fresh w); [inversion H; reflexivity|].
    eapply S; eassumption.
  - apply Keeps_with_lock; [intros; reflexivity|].
    intros w r w' H. destruct (cache_fresh w); [inversion H; reflexivity|].
    eapply F; eassumption.
Qed.

Lemma Calm_sf_api_get : forall path, Calm (sf_api_get path).
Proof.
  intros path. destruct Calm_get_salesforce_credentials as [S F].
  unfold sf_api_get, resp_json.
  split.
  - keeps_using ltac:(apply S).
  - keeps_using ltac:(apply F).
Qed.

Lemma Calm_query_pages : forall fuel result records,
  Calm (query_pages fuel result records).
Proof.
  induction fuel as [|fuel IH]; intros result records.
  - split; apply Keeps_raise.
  - cbn [query_pages]. split.
    + keeps_using ltac:(first [apply (proj1 (Calm_sf_api_get _)) | apply (proj1 (IH _ _))]).
    + keeps_using ltac:(first [apply (proj2 (Calm_sf_api_get _)) | apply (proj2 (IH _ _))]).
Qed.

Lemma Calm_sf_query_all : forall soql, Calm (sf_query_all soql).
Proof.
  intros soql. unfold sf_query_all, sf_query. split.
  - apply Keeps_bind; [apply (proj1 (Calm_sf_api_get _))|intros result].
    apply Keeps_bind; [apply Keeps_lift|intros records].
    intros w r w' H. eapply (proj1 (Calm_query_pages _ _ _)); eassumption.
  - apply Keeps_bind; [apply (proj2 (Calm_sf_api_get _))|intros result].
    apply Keeps_bind; [apply Keeps_lift|intros records].
    intros w r w' H. eapply (proj2 (Calm_query_pages _ _ _)); eassumption.
Qed.

Lemma Calm_send_notification : forall event_type details,
  Calm (notify.send_notification event_type details).
Proof.
  intros event_type details.
  unfold notify.send_notification, notify._log_event, notify._send_slack,
    notify.slack_payload, notify.notify_log, getenv.
  calm.
Qed.

Section CoreFrame.

Context {X : Type} (f : World -> X).
Hypothesis f_trace : forall t w, f (set_trace t w) = f w.
Hypothesis f_clock : forall c w, f (set_clock c w) = f w.
Hypothesis f_script : forall s w, f (set_net_script s w) = f w.

Variable q : string -> M pyval.
Variable gsc : M (pyval * pyval).
Hypothesis Keeps_q : forall soql, Keeps f (q soql).
Hypothesis Keeps_gsc : Keeps f gsc.

Lemma Keeps_dedup_loop : forall unique_ids starts existing,
  Keeps f (dedup_loop q unique_ids starts existing).
Proof.
  intros unique_ids starts. induction starts as [|i rest IH]; intros existing.
  - apply Keeps_ret.
  - cbn [dedup_loop]. apply Keeps_bind; [|intros existing'; apply IH].
    unfold dedup_batch, core_log.
    apply Keeps_bind; [apply Keeps_attempt, Keeps_q|intros queried].
    destruct (match queried with
              | Ok records =>
                  match iterate records with
                  | Ok rs => collect rs existing
                  | Raise e => (existing, Some e)
                  end
              | Raise e => (existing, Some e)
              end) as [existing' [e|]].
    + apply Keeps_bind; [apply Keeps_log; assumption|intros ?; apply Keeps_ret].
    + apply Keeps_ret.
Qed.

Lemma Keeps_check_existing_applicants : forall ids,
  Keeps f (check_existing_applicants q ids).
Proof.
  intros ids. unfold check_existing_applicants, unique_list.
  apply Keeps_bind; [apply Keeps_read|intros unique_ids; apply Keeps_dedup_loop].
Qed.

Lemma Keeps_post_loop : forall attempts t u payload,
  Keeps f (post_loop gsc attempts t u payload).
Proof.
  induction attempts as [|a rest IH]; intros t u payload.
  - apply Keeps_raise.
  - cbn [post_loop]. unfold attempt_post, core_log.
    apply Keeps_bind.
    { apply Keeps_try_except; [|intros ?; apply Keeps_ret].
      apply Keeps_bind; [apply Keeps_http; assumption|intros ?; apply Keeps_ret]. }
    intros [resp|]; [apply Keeps_ret|].
    apply Keeps_bind; [apply Keeps_log; assumption|intros _].
    destruct (a <? 2); [|apply Keeps_ret].
    apply Keeps_bind; [apply Keeps_gsc|intros [t' u']].
    apply Keeps_bind; [apply Keeps_sleep; assumption|intros _]. apply IH.
Qed.

Lemma Keeps_create_job_applicant : forall record,
  Keeps f (create_job_applicant gsc record).
Proof.
  intros record. unfold create_job_applicant.
  apply Keeps_bind; [apply Keeps_gsc|intros [t u]].
  apply Keeps_bind; [apply Keeps_lift|intros contact_id].
  apply Keeps_bind; [apply Keeps_lift|intros job_id].
  apply Keeps_bind; [apply Keeps_lift|intros stage].
  apply Keeps_bind; [apply Keeps_post_loop|intros [resp|]]; [|apply Keeps_ret].
  unfold read_create_response, resp_json, core_log.
  repeat first
    [ apply Keeps_ret | apply Keeps_lift | apply Keeps_log; assumption
    | apply Keeps_bind; [|intros ?]
    | match goal with
      | |- Keeps _ (if ?b then _ else _) => destruct b
      end ].
Qed.

Lemma Keeps_process_chat_webhook : forall chat notify_fn,
  (forall notify event_type details,
     notify_fn = Some notify -> Keeps f (notify event_type details)) ->
  Keeps f (process_chat_webhook q gsc chat notify_fn).
Proof.
  intros chat notify_fn Hn. unfold process_chat_webhook, report_creation, core_log.
  repeat first
    [ apply Keeps_ret | apply Keeps_lift | apply Keeps_log; assumption
    | apply Keeps_check_existing_applicants
    | apply Keeps_create_job_applicant
    | eapply Hn; reflexivity
    | apply Keeps_bind; [|intros ?]
    | match goal with
      | |- Keeps _ (if ?b then _ else _) => destruct b
      | |- Keeps _ (match ?x with _ => _ end) => destruct x
      | |- Keeps _ (let '(_, _) := ?x in _) => destruct x
      end ].
Qed.

End CoreFrame.

(** The pipeline as the two routes run it touches neither the counters nor
    the files. *)
Lemma Calm_process_chat_webhook : forall chat,
  Calm (process_chat_webhook sf_query_all get_salesforce_credentials chat
          (Some notify.send_notification)).
Proof.
  intros chat. split.
  - apply Keeps_process_chat_webhook; try (intros; reflexivity).
    + intros soql. apply (proj1 (Calm_sf_query_all soql)).
    + apply (proj1 Calm_get_salesforce_credentials).
    + intros notify e d H. inversion H; subst. apply (proj1 (Calm_send_notification e d)).
  - apply Keeps_process_chat_webhook; try (intros; reflexivity).
    + intros soql. apply (proj2 (Calm_sf_query_all soql)).
    + apply (proj2 Calm_get_salesforce_credentials).
    + intros notify e d H. inversion H; subst. apply (proj2 (Calm_send_notification e d)).
Qed.

Lemma Keeps_files_record_event : forall event_type chat_id detail,
  Keeps files (_record_event event_type chat_id detail).
Proof.
  intros. unfold _record_event, datetime_now. keeps.
Qed.

Lemma Keeps_stats_dead_letter_append : forall chat record error,
  Keeps stats (dead_letter.append chat record error).
Proof.
  intros. unfold dead_letter.append, datetime_now. keeps.
Qed.

(** ** The result of the pipeline *)

Tactic Notation "bind_ok" hyp(H) ident(a) ident(w) ident(E) :=
  apply bind_ok_inv in H; destruct H as (a & w & E & H).

Lemma lift_ok : forall A (x : res A) w a w1,
  lift x w = (Ok a, w1) -> x = Ok a /\ w1 = w.
Proof. intros A x w a w1 H. inversion H; auto. Qed.

(** What [create_job_applicant] returns when it returns: the id of the new
    record with the success flag, or the text of an error without it. *)
Lemma create_job_applicant_result : forall gsc record w success sf w',
  create_job_applicant gsc record w = (Ok (success, sf), w') ->
  (success = true /\ exists id, sf = PDict [("applicant_id", id)])
  \/ (success = false /\ exists err, sf = PDict [("error", PStr err)]).
Proof.
  intros gsc record w success sf w' H. unfold create_job_applicant in H.
  bind_ok H creds w1 E1. destruct creds as [t u].
  bind_ok H contact_id w2 E2. bind_ok H job_id w3 E3. bind_ok H stage w4 E4.
  bind_ok H answered w5 E5.
  destruct answered as [resp|].
  - unfold read_create_response in H.
    destruct (status_code resp =? 200).
    + bind_ok H api w6 E6. bind_ok H first_result w7 E7. bind_ok H ok w8 E8.
      destruct (Py.truthy ok).
      * bind_ok H c w9 E9. bind_ok H j w10 E10. bind_ok H id w11 E11.
        bind_ok H tier w12 E12. bind_ok H u1 w13 E13. bind_ok H id' w14 E14.
        inversion H; subst. left. eauto.
      * bind_ok H errs w9 E9. bind_ok H c w10 E10. bind_ok H j w11 E11.
        bind_ok H u1 w12 E12. inversion H; subst. right. eauto.
    + bind_ok H u1 w6 E6. inversion H; subst. right. eauto.
  - inversion H; subst. right. unfold timeout_error. eauto.
Qed.

Ltac shape_head E1 :=
  do 4 eexists; split; [reflexivity|]; split; [exact E1|]; cbn;
  split; [reflexivity|]; split; [reflexivity|]; split; [auto 6|];
  split; [reflexivity|]; split.

Definition ACTIONS : list string := ["skip"; "duplicate"; "created"; "error"].

(** The shape of a result of the pipeline for the event [chat] *)
Definition pipeline_result (chat result : pyval) : Prop :=
  exists fields chat_id action detail,
    result = PDict fields
    /\ Py.get chat "chat_id" (PStr "unknown") = Ok chat_id
    /\ Py.dict_lookup "chat_id" fields = Some chat_id
    /\ Py.dict_lookup "action" fields = Some (PStr action)
    /\ In action ACTIONS
    /\ Py.dict_lookup "detail" fields = Some (PStr detail)
    /\ (action <> "skip" ->
        exists cid jid,
          Py.dict_lookup "contact_id" fields = Some (PStr cid) /\ cid <> ""
          /\ Py.dict_lookup "job_id" fields = Some (PStr jid) /\ jid <> "")
    /\ (action = "created" \/ action = "error"
        <-> Py.dict_lookup "sf_result" fields <> None).

(** The shape of the results of the pipeline, shared by the facts about
    the routes *)
Lemma pipeline_result_of_run : forall q gsc chat notify_fn w result w',
  process_chat_webhook q gsc chat notify_fn w = (Ok result, w') ->
  pipeline_result chat result.
Proof.
  intros q gsc chat notify_fn w result w' H. unfold pipeline_result.
  unfold process_chat_webhook in H.
  bind_ok H chat_id w1 E1. apply lift_ok in E1. destruct E1 as [E1 ->].
  bind_ok H cls w2 E2. apply lift_ok in E2. destruct E2 as [E2 ->].
  destruct cls as [action detail].
  destruct (String.eqb action "skip") eqn:Eskip.
  { apply String.eqb_eq in Eskip. subst action.
    bind_ok H t w3 E3. bind_ok H u1 w4 E4. inversion H; subst.
    shape_head E1.
    - intros C; contradiction C; reflexivity.
    - split; [intros [C|C]; discriminate|intros C; contradiction C; reflexivity]. }
  bind_ok H contact_id w3 E3. apply lift_ok in E3. destruct E3 as [E3 ->].
  bind_ok H job_id w4 E4. apply lift_ok in E4. destruct E4 as [E4 ->].
  destruct (Py.truthy contact_id) eqn:Tc; cbn [negb] in H.
  2:{ bind_ok H t w5 E5. bind_ok H u1 w6 E6. inversion H; subst.
      shape_head E1.
      - intros C; contradiction C; reflexivity.
      - split; [intros [C|C]; discriminate|intros C; contradiction C; reflexivity]. }
  destruct (Py.truthy job_id) eqn:Tj; cbn [negb] in H.
  2:{ bind_ok H t w5 E5. bind_ok H u1 w6 E6. inversion H; subst.
      shape_head E1.
      - intros C; contradiction C; reflexivity.
      - split; [intros [C|C]; discriminate|intros C; contradiction C; reflexivity]. }
  assert (Hc : exists cid, contact_id = PStr cid /\ cid <> "").
  { destruct (extract_contact_id_shape chat contact_id E3) as [->|(s & -> & _)].
    - discriminate.
    - exists s. split; [reflexivity|]. intros ->. discriminate. }
  destruct Hc as (cid & -> & Ncid).
  bind_ok H existing w5 E5.
  bind_ok H contact15 w6 E6. apply lift_ok in E6. destruct E6 as [E6 ->].
  bind_ok H job15 w7 E7. apply lift_ok in E7. destruct E7 as [E7 ->].
  bind_ok H present w8 E8. apply lift_ok in E8. destruct E8 as [E8 ->].
  assert (Hj : exists jid, job_id = PStr jid /\ jid <> "").
  { destruct job_id; cbn in E7; try discriminate.
    - eexists. split; [reflexivity|]. intros ->. discriminate.
    - inversion E7; subst. discriminate. }
  destruct Hj as (jid & -> & Njid).
  destruct present.
  { bind_ok H t w9 E9. bind_ok H u1 w10 E10. inversion H; subst.
    shape_head E1.
    - intros _. exists cid, jid. auto.
    - split; [intros [C|C]; discriminate|intros C; contradiction C; reflexivity]. }
  bind_ok H record w9 E9. bind_ok H created_ w10 E10.
  destruct created_ as [success sf_result].
  destruct (create_job_applicant_result _ _ _ _ _ _ E10)
    as [(-> & id & ->)|(-> & err & ->)];
    unfold report_creation in H.
  - bind_ok H applicant_id w11 E11. bind_ok H t w12 E12. bind_ok H u1 w13 E13.
    assert (R : result = set_key "detail"
                  (PStr ("Job Applicant " ++ Py.str applicant_id ++ " created"))
                  (set_key "action" (PStr "created")
                     (set_key "sf_result" (PDict [("applicant_id", id)])
                        (set_key "job_id" (PStr jid)
                           (set_key "contact_id" (PStr cid)
                              (set_key "detail" (PStr detail)
                                 (set_key "action" (PStr action)
                                    (PDict [("chat_id", chat_id); ("action", PNone);
                                            ("detail", PNone)])))))))).
    { destruct notify_fn as [notify|].
      - bind_ok H u2 w14 E14. inversion H; reflexivity.
      - inversion H; reflexivity. }
    subst result.
    shape_head E1.
    + intros _. exists cid, jid. auto.
    + split; [intros _; discriminate|auto].
  - bind_ok H detail' w11 E11. apply lift_ok in E11. destruct E11 as [E11 ->].
    cbn in E11. inversion E11; subst detail'.
    bind_ok H t w12 E12. bind_ok H u1 w13 E13.
    assert (R : result = set_key "detail" (PStr err)
                  (set_key "action" (PStr "error")
                     (set_key "sf_result" (PDict [("error", PStr err)])
                        (set_key "job_id" (PStr jid)
                           (set_key "contact_id" (PStr cid)
                              (set_key "detail" (PStr detail)
                                 (set_key "action" (PStr action)
                                    (PDict [("chat_id", chat_id); ("action", PNone);
                                            ("detail", PNone)])))))))).
    { destruct notify_fn as [notify|].
      - bind_ok H u2 w14 E14. inversion H; reflexivity.
      - inversion H; reflexivity. }
    subst result.
    shape_head E1.
    + intros _. exists cid, jid. auto.
    + split; [intros _; discriminate|auto].
Qed.

(** X3.  Whatever the query function, the credential resolver and the
    notify function do, a result [process_chat_webhook] returns is a
    dictionary that holds the chat id of the event, an action that is one of
    'skip', 'duplicate', 'created' and 'error' (never the tier 'qualified' or
    'interested' of the classification) and a detail that is text.  The two
    ids are in it, as text that is not empty, whenever the action is not
    'skip'; the key sf_result is in it exactly when the action is 'created'
    or 'error'. *)
Theorem process_chat_webhook_result : forall q gsc chat notify_fn w result w',
  process_chat_webhook q gsc chat notify_fn w = (Ok result, w') ->
  pipeline_result chat result.
Proof.
  intros q gsc chat notify_fn w result w' H.
  exact (pipeline_result_of_run q gsc chat notify_fn w result w' H).
Qed.

Lemma process_chat_webhook_result_witness :
  pipeline_result opted_out_chat
    (PDict [("chat_id", PStr "chat_42"); ("action", PStr "skip");
            ("detail", PStr "opted out")]).
Proof.
  apply (process_chat_webhook_result sf_query_all get_salesforce_credentials
           opted_out_chat None (bare_world []) _
           (snd (process_chat_webhook sf_query_all get_salesforce_credentials
                   opted_out_chat None (bare_world [])))).
  vm_compute. reflexivity.
Defined.

(** The tag of the log lines of a chat whose id is text *)
Definition chat_tag (cid : string) : string := "[" ++ Str.take 12 cid ++ "] ".

(** X4.  A chat that is skipped costs one log line and nothing else: when
    the classification says 'skip', or when an id is missing (the contact id
    is looked at first), [process_chat_webhook] returns a 'skip' result and
    the world afterwards is the world before plus that line.  The query
    function, the credential resolver and the notify function, whatever they
    are, have not run: Salesforce is not contacted and nobody is notified. *)
Theorem process_chat_webhook_skip_offline :
  forall q gsc chat notify_fn w cid action detail,
    Py.get chat "chat_id" (PStr "unknown") = Ok (PStr cid) ->
    classify_chat chat = Ok (action, detail) ->
    (action = "skip" ->
     process_chat_webhook q gsc chat notify_fn w
     = (Ok (PDict [("chat_id", PStr cid); ("action", PStr "skip");
                   ("detail", PStr detail)]),
        snd (core_log "INFO" (chat_tag cid ++ "SKIP: " ++ detail) w)))
    /\
    (forall c j,
       action <> "skip" ->
       extract_contact_id chat = Ok c -> extract_job_id chat = Ok j ->
       Py.truthy c = false \/ Py.truthy j = false ->
       let missing := if Py.truthy c then "job" else "contact" in
       process_chat_webhook q gsc chat notify_fn w
       = (Ok (PDict [("chat_id", PStr cid); ("action", PStr "skip");
                     ("detail", PStr ("no " ++ missing ++ " ID in chat data"));
                     ("contact_id", c); ("job_id", j)]),
          snd (core_log "WARNING" (chat_tag cid ++ "SKIP: no " ++ missing ++ " ID") w))).
Proof.
  intros q gsc chat notify_fn w cid action detail Hid Hc. split.
  - intros ->. unfold process_chat_webhook.
    unfold bind at 1, lift at 1. rewrite Hid.
    unfold bind at 1, lift at 1. rewrite Hc.
    reflexivity.
  - intros c j Hsync Hcid Hjid Hmiss missing. unfold process_chat_webhook.
    unfold bind at 1, lift at 1. rewrite Hid.
    unfold bind at 1, lift at 1. rewrite Hc.
    apply String.eqb_neq in Hsync. rewrite Hsync.
    unfold bind at 1, lift at 1. rewrite Hcid.
    unfold bind at 1, lift at 1. rewrite Hjid.
    subst missing. destruct (Py.truthy c); cbn [negb].
    + destruct Hmiss as [Hmiss|Hmiss]; [discriminate|]. rewrite Hmiss. reflexivity.
    + reflexivity.
Qed.

(** A qualified chat with no id of a candidate *)
Definition anonymous_chat : pyval :=
  PDict [("chat_id", PStr "chat_43");
         ("agent_name", PStr "Violet - Nurse Outreach");
         ("chat_analysis",
          PDict [("custom_analysis_data",
                  PDict [("qualification_result", PStr "fully_qualified")])]);
         ("retell_llm_dynamic_variables",
          PDict [("job_ID_18", PStr "a0F000000000001AAA")])].

Lemma process_chat_webhook_skip_offline_witness :
  (process_chat_webhook sf_query_all get_salesforce_credentials opted_out_chat None
     (bare_world [])
   = (Ok (PDict [("chat_id", PStr "chat_42"); ("action", PStr "skip");
                 ("detail", PStr "opted out")]),
      snd (core_log "INFO" (chat_tag "chat_42" ++ "SKIP: " ++ "opted out")
             (bare_world []))))
  /\
  (process_chat_webhook sf_query_all get_salesforce_credentials anonymous_chat None
     (bare_world [])
   = (Ok (PDict [("chat_id", PStr "chat_43"); ("action", PStr "skip");
                 ("detail", PStr "no contact ID in chat data");
                 ("contact_id", PStr ""); ("job_id", PStr "a0F000000000001AAA")]),
      snd (core_log "WARNING" (chat_tag "chat_43" ++ "SKIP: no contact ID")
             (bare_world [])))).
Proof.
  split.
  - apply (proj1 (process_chat_webhook_skip_offline sf_query_all
             get_salesforce_credentials opted_out_chat None (bare_world [])
             "chat_42" "skip" "opted out" eq_refl eq_refl)).
    reflexivity.
  - apply (proj2 (process_chat_webhook_skip_offline sf_query_all
             get_salesforce_credentials anonymous_chat None (bare_world [])
             "chat_43" "qualified" "New Application" eq_refl eq_refl)
             (PStr "") (PStr "a0F000000000001AAA")).
    + discriminate.
    + reflexivity.
    + reflexivity.
    + left. reflexivity.
Defined.

(** X5.  A chat whose pair of ids, cut to 15 characters each, is among the
    pairs the deduplication check found is reported as a 'duplicate' and not
    created: after the check the only effect is one log line, and neither the
    credential resolver nor the notify function runs (so no creation request
    is sent), whatever they are. *)
Theorem process_chat_webhook_duplicate :
  forall q gsc chat notify_fn w chat_id action detail cid jid existing w1,
    Py.get chat "chat_id" (PStr "unknown") = Ok (PStr chat_id) ->
    classify_chat chat = Ok (action, detail) -> action <> "skip" ->
    extract_contact_id chat = Ok (PStr cid) -> cid <> "" ->
    extract_job_id chat = Ok (PStr jid) -> jid <> "" ->
    check_existing_applicants q [cid] w = (Ok existing, w1) ->
    In (Str.take 15 cid, Str.take 15 jid) existing ->
    process_chat_webhook q gsc chat notify_fn w
    = (Ok (PDict [("chat_id", PStr chat_id); ("action", PStr "duplicate");
                  ("detail", PStr "job applicant already exists in SF");
                  ("contact_id", PStr cid); ("job_id", PStr jid)]),
       snd (core_log "INFO"
              (chat_tag chat_id ++ "DEDUP: " ++ cid ++ " + " ++ jid ++ " already exists")
              w1)).
Proof.
  intros q gsc chat notify_fn w chat_id action detail cid jid existing w1
         Hid Hc Hsync Hcid Ncid Hjid Njid Hdedup Hin.
  assert (P : pair_in (Str.take 15 cid, Str.take 15 jid) existing = true).
  { unfold pair_in. apply existsb_exists. eexists. split; [exact Hin|].
    unfold pair_eqb. cbn [fst snd]. rewrite !String.eqb_refl. reflexivity. }
  unfold process_chat_webhook.
  unfold bind at 1, lift at 1. rewrite Hid.
  unfold bind at 1, lift at 1. rewrite Hc.
  apply String.eqb_neq in Hsync. rewrite Hsync.
  unfold bind at 1, lift at 1. rewrite Hcid.
  unfold bind at 1, lift at 1. rewrite Hjid.
  rewrite (truthy_text cid Ncid), (truthy_text jid Njid). cbn [negb as_text].
  unfold bind at 1. rewrite Hdedup.
  unfold bind at 1 2 3, lift at 1 2 3. cbn [Py.slice_to as_text]. rewrite P.
  reflexivity.
Qed.

Lemma process_chat_webhook_duplicate_witness :
  fst (process_chat_webhook one_applicant get_salesforce_credentials qualified_chat
         None (bare_world []))
  = Ok (PDict [("chat_id", PStr "chat_0123456789abcdef"); ("action", PStr "duplicate");
               ("detail", PStr "job applicant already exists in SF");
               ("contact_id", PStr "003000000000001AAA");
               ("job_id", PStr "a0F000000000001AAA")]).
Proof.
  rewrite (process_chat_webhook_duplicate one_applicant get_salesforce_credentials
             qualified_chat None (bare_world []) "chat_0123456789abcdef"
             "qualified" "New Application"
             "003000000000001AAA" "a0F000000000001AAA"
             [("003000000000001", "a0F000000000001")] (bare_world [])).
  - reflexivity.
  - reflexivity.
  - reflexivity.
  - discriminate.
  - reflexivity.
  - discriminate.
  - reflexivity.
  - discriminate.
  - reflexivity.
  - left. reflexivity.
Defined.

(** ** The counters *)

(** The entry [_record_event] adds to the recent events, the chat id as it
    is shown *)
Definition event_entry (t : Z) (event_type shown detail : pyval) : pyval :=
  PDict [("time", PStr (Clock.hms t));
         ("type", event_type);
         ("chat_id", shown);
         ("detail", PStr (Str.take 100 (Py.str detail)))].

(** The counters after a call of [_record_event], however it ends: they
    have moved even when the chat id cannot be shown and the call raises. *)
Lemma record_event_stats : forall event_type chat_id detail w,
  stats (snd (_record_event event_type chat_id detail w))
  = let moved := bump_counter event_type (clock w) (bump_received (clock w) (stats w)) in
    match short_chat_id chat_id with
    | Ok shown => push_recent (event_entry (clock w) event_type shown detail) moved
    | Raise _ => moved
    end.
Proof.
  intros event_type chat_id detail w.
  unfold _record_event, with_lock, bind, emit, datetime_now, update_stats, lift.
  cbn [clock set_trace stats set_stats].
  destruct (short_chat_id chat_id); reflexivity.
Qed.

Definition counted_sum (s : Stats) : Z := created s + duplicates s + skipped s + errors s.

(** Every webhook counted is counted under one of the four outcomes. *)
Definition balanced (s : Stats) : Prop := webhooks_received s = counted_sum s.

Lemma bump_counter_sum : forall event_type t s,
  counted_sum (bump_counter event_type t s)
  = counted_sum s + (if Py.in_tuple event_type ACTIONS then 1 else 0)
  /\ webhooks_received (bump_counter event_type t s) = webhooks_received s.
Proof.
  intros event_type t s. unfold bump_counter, counted_sum, Py.in_tuple, ACTIONS.
  cbn [existsb].
  destruct (Py.eq_str event_type "created") eqn:C;
    destruct (Py.eq_str event_type "duplicate") eqn:D;
    destruct (Py.eq_str event_type "skip") eqn:S;
    destruct (Py.eq_str event_type "error") eqn:E;
    cbn [created duplicates skipped errors webhooks_received orb]; split; lia.
Qed.

(** X6.  Every call of [_record_event] counts one more webhook, also a call
    that ends in an exception (the counters move before the entry of the
    recent events is built).  With it moves the counter of the event type
    when the type is one of 'created', 'duplicate', 'skip' and 'error', and
    none for any other type: the four counters add up to the number of
    webhooks exactly as long as every type recorded is one of the four. *)
Theorem record_event_counts : forall event_type chat_id detail w,
  let s := stats w in
  let s' := stats (snd (_record_event event_type chat_id detail w)) in
  webhooks_received s' = webhooks_received s + 1
  /\ counted_sum s' = counted_sum s + (if Py.in_tuple event_type ACTIONS then 1 else 0)
  /\ created s' = created s + (if Py.eq_str event_type "created" then 1 else 0)
  /\ errors s'
     = errors s + (if Py.eq_str event_type "created" || Py.eq_str event_type "duplicate"
                      || Py.eq_str event_type "skip"
                   then 0
                   else if Py.eq_str event_type "error" then 1 else 0)
  /\ (balanced s -> (balanced s' <-> Py.in_tuple event_type ACTIONS = true)).
Proof.
  intros event_type chat_id detail w s s'. subst s s'.
  rewrite record_event_stats. cbv zeta.
  set (s := stats w).
  set (moved := bump_counter event_type (clock w) (bump_received (clock w) s)).
  destruct (bump_counter_sum event_type (clock w) (bump_received (clock w) s)) as [Sum Rec].
  fold moved in Sum, Rec.
  assert (C : created moved = created s + (if Py.eq_str event_type "created" then 1 else 0)
          /\ errors moved
             = errors s + (if Py.eq_str event_type "created"
                              || Py.eq_str event_type "duplicate"
                              || Py.eq_str event_type "skip"
                           then 0
                           else if Py.eq_str event_type "error" then 1 else 0)).
  { subst moved. unfold bump_counter.
    destruct (Py.eq_str event_type "created");
      destruct (Py.eq_str event_type "duplicate");
      destruct (Py.eq_str event_type "skip");
      destruct (Py.eq_str event_type "error");
      cbn [created errors bump_received orb]; split; lia. }
  assert (F : forall entry,
            webhooks_received (push_recent entry moved) = webhooks_received moved
            /\ counted_sum (push_recent entry moved) = counted_sum moved
            /\ created (push_recent entry moved) = created moved
            /\ errors (push_recent entry moved) = errors moved).
  { intros entry. repeat split. }
  assert (G : forall x : Stats,
            webhooks_received x = webhooks_received moved ->
            counted_sum x = counted_sum moved ->
            created x = created moved -> errors x = errors moved ->
            webhooks_received x = webhooks_received s + 1
            /\ counted_sum x
               = counted_sum s + (if Py.in_tuple event_type ACTIONS then 1 else 0)
            /\ created x = created s + (if Py.eq_str event_type "created" then 1 else 0)
            /\ errors x
               = errors s + (if Py.eq_str event_type "created"
                                || Py.eq_str event_type "duplicate"
                                || Py.eq_str event_type "skip"
                             then 0
                             else if Py.eq_str event_type "error" then 1 else 0)
            /\ (balanced s -> (balanced x <-> Py.in_tuple event_type ACTIONS = true))).
  { intros x Hr Hs Hc He. destruct C as [C1 C2].
    assert (R1 : webhooks_received x = webhooks_received s + 1).
    { rewrite Hr, Rec. reflexivity. }
    assert (S1 : counted_sum x
                 = counted_sum s + (if Py.in_tuple event_type ACTIONS then 1 else 0)).
    { rewrite Hs, Sum. reflexivity. }
    split; [exact R1|]. split; [exact S1|].
    split; [congruence|]. split; [congruence|].
    unfold balanced. intros B. rewrite R1, S1, B.
    destruct (Py.in_tuple event_type ACTIONS); split; intros K;
      try reflexivity; try lia; discriminate. }
  destruct (short_chat_id chat_id) as [shown|e].
  - destruct (F (event_entry (clock w) event_type shown detail)) as (F1 & F2 & F3 & F4).
    apply G; assumption.
  - apply G; reflexivity.
Qed.

Lemma char_count_take : forall n s, (Str.char_count (Str.take n s) <= n)%nat.
Proof.
  intros n s. revert n. induction s as [|c s IH]; intros n; [cbn; lia|].
  cbn [Str.take]. destruct (Str.is_cont c) eqn:C.
  - cbn [Str.char_count]. rewrite C. specialize (IH n). lia.
  - destruct n as [|n]; [cbn; lia|].
    cbn [Str.char_count]. rewrite C. specialize (IH n). lia.
Qed.

Lemma length_last_n : forall (A : Type) n (l : list A),
  List.length (last_n n l) = Nat.min n (List.length l).
Proof. intros A n l. unfold last_n. rewrite length_skipn. lia. Qed.

(** X7.  A call of [_record_event] that returns has put its entry last in
    the recent events and kept the 50 newest: the list is the last 50 of the
    list before with the entry added, so it never holds more than 50 entries
    and the oldest goes first.  The entry shows the detail cut to 100
    characters. *)
Theorem record_event_recent_window : forall event_type chat_id detail w w',
  _record_event event_type chat_id detail w = (Ok tt, w') ->
  exists shown,
    short_chat_id chat_id = Ok shown
    /\ recent_events (stats w')
       = last_n 50 (recent_events (stats w)
                      ++ [event_entry (clock w) event_type shown detail])
    /\ (List.length (recent_events (stats w')) <= 50)%nat
    /\ (Str.char_count (Str.take 100 (Py.str detail)) <= 100)%nat.
Proof.
  intros event_type chat_id detail w w' H.
  pose proof (record_event_stats event_type chat_id detail w) as S.
  rewrite H in S. cbn [snd] in S. cbv zeta in S.
  destruct (short_chat_id chat_id) as [shown|e] eqn:E.
  - exists shown. split; [reflexivity|].
    assert (R : recent_events (stats w')
                = last_n 50 (recent_events (stats w)
                               ++ [event_entry (clock w) event_type shown detail])).
    { rewrite S. unfold push_recent. cbn [recent_events].
      assert (K : forall x, recent_events (bump_counter event_type (clock w) x)
                            = recent_events x).
      { intros x. unfold bump_counter.
        destruct (Py.eq_str event_type "created"); [reflexivity|].
        destruct (Py.eq_str event_type "duplicate"); [reflexivity|].
        destruct (Py.eq_str event_type "skip"); [reflexivity|].
        destruct (Py.eq_str event_type "error"); reflexivity. }
      rewrite K. cbn [recent_events bump_received].
      set (events := (recent_events (stats w) ++ _)%list).
      unfold MAX_RECENT_EVENTS.
      destruct (50 <? List.length events)%nat eqn:L; [reflexivity|].
      apply Nat.ltb_ge in L. unfold last_n.
      replace (List.length events - 50)%nat with O by lia. reflexivity. }
    split; [exact R|]. split.
    + rewrite R, length_last_n. lia.
    + apply char_count_take.
  - exfalso. unfold _record_event, with_lock, bind, emit, datetime_now, update_stats,
      lift in H. cbn [clock set_trace stats set_stats] in H. rewrite E in H.
    discriminate.
Qed.

Lemma record_event_recent_window_witness :
  exists shown,
    short_chat_id (PStr "chat_0123456789abcdef") = Ok shown
    /\ recent_events (stats (snd (_record_event (PStr "skip")
                                    (PStr "chat_0123456789abcdef") (PStr "opted out")
                                    (bare_world []))))
       = last_n 50 (recent_events (stats (bare_world []))
                      ++ [event_entry (clock (bare_world [])) (PStr "skip") shown
                            (PStr "opted out")])
    /\ (List.length
          (recent_events (stats (snd (_record_event (PStr "skip")
                                        (PStr "chat_0123456789abcdef")
                                        (PStr "opted out") (bare_world []))))) <= 50)%nat
    /\ (Str.char_count (Str.take 100 (Py.str (PStr "opted out"))) <= 100)%nat.
Proof.
  apply (record_event_recent_window (PStr "skip") (PStr "chat_0123456789abcdef")
           (PStr "opted out") (bare_world [])).
  vm_compute. reflexivity.
Defined.

(** [Balanced m]: [m] keeps the counters adding up, however it ends. *)
Definition Balanced {A} (m : M A) : Prop :=
  forall w r w', m w = (r, w') -> balanced (stats w) -> balanced (stats w').

Lemma Balanced_keeps : forall A (m : M A), Keeps stats m -> Balanced m.
Proof. intros A m K w r w' H B. rewrite (K _ _ _ H). exact B. Qed.

Lemma Balanced_bind : forall A B (m : M A) (k : A -> M B),
  Balanced m ->
  (forall a w w1, m w = (Ok a, w1) -> Balanced (k a)) ->
  Balanced (bind m k).
Proof.
  intros A B m k Hm Hk w r w' H Bal. apply bind_inv in H.
  destruct H as [(a & w1 & H1 & H2)|(e & H1 & _)].
  - eapply Hk; [exact H1|exact H2|]. eapply Hm; eassumption.
  - eapply Hm; eassumption.
Qed.

Lemma Balanced_try_except : forall A (body : M A) catches handler,
  Balanced body -> (forall e, Balanced (handler e)) ->
  Balanced (try_except body catches handler).
Proof.
  intros A body catches handler Hb Hh w r w' H Bal. unfold try_except in H.
  destruct (body w) as [[a|e] w1] eqn:E.
  - inversion H; subst. eapply Hb; eassumption.
  - destruct (catches e).
    + eapply Hh; [exact H|]. eapply Hb; eassumption.
    + inversion H; subst. eapply Hb; eassumption.
Qed.

Lemma Balanced_attempt : forall A (m : M A), Balanced m -> Balanced (attempt m).
Proof.
  intros A m Hm w r w' H Bal. unfold attempt in H.
  destruct (m w) as [x w1] eqn:E. inversion H; subst. eapply Hm; eassumption.
Qed.

Lemma Balanced_record_event : forall event_type chat_id detail,
  Py.in_tuple event_type ACTIONS = true ->
  Balanced (_record_event event_type chat_id detail).
Proof.
  intros event_type chat_id detail Hin w r w' H Bal.
  assert (St : stats w' = stats (snd (_record_event event_type chat_id detail w)))
    by (rewrite H; reflexivity).
  rewrite St, record_event_stats. cbv zeta.
  destruct (bump_counter_sum event_type (clock w) (bump_received (clock w) (stats w)))
    as [Sum Rec].
  rewrite Hin in Sum. unfold balanced in *.
  assert (Moved : webhooks_received
                    (bump_counter event_type (clock w)
                       (bump_received (clock w) (stats w)))
                  = counted_sum
                      (bump_counter event_type (clock w)
                         (bump_received (clock w) (stats w)))).
  { rewrite Sum, Rec. unfold counted_sum in *. cbn [bump_received webhooks_received
      created duplicates skipped errors]. lia. }
  destruct (short_chat_id chat_id); exact Moved.
Qed.

Lemma in_actions : forall action,
  In action ACTIONS -> Py.in_tuple (PStr action) ACTIONS = true.
Proof.
  intros action H. unfold Py.in_tuple. apply existsb_exists.
  exists action. split; [exact H|]. cbn. apply String.eqb_refl.
Qed.

Lemma Balanced_pipeline : forall chat,
  Balanced (process_chat_webhook sf_query_all get_salesforce_credentials chat
              (Some notify.send_notification)).
Proof.
  intros chat. apply Balanced_keeps. apply (proj1 (Calm_process_chat_webhook chat)).
Qed.

Section Routes.

Variable hmac : string -> string -> string.

Lemma Balanced_process_and_record : forall chat chat_id,
  Balanced (process_and_record chat chat_id).
Proof.
  intros chat chat_id. unfold process_and_record.
  apply Balanced_bind; [apply Balanced_pipeline|]. intros result w w1 Run.
  destruct (pipeline_result_of_run _ _ _ _ _ _ _ Run)
    as (fields & cid & action & detail & -> & _ & _ & Ha & Hin & Hd & _).
  cbn [Py.get]. rewrite Ha, Hd.
  apply Balanced_bind; [apply Balanced_keeps, Keeps_lift|]. intros a wa wb Ea.
  apply lift_ok in Ea. destruct Ea as [Ea _]. inversion Ea; subst a.
  apply Balanced_bind; [apply Balanced_keeps, Keeps_lift|]. intros d wc wd Ed.
  apply lift_ok in Ed. destruct Ed as [Ed _]. inversion Ed; subst d.
  apply Balanced_bind; [apply Balanced_record_event, in_actions, Hin|].
  intros [] we wf _.
  destruct (Py.eq_str (PStr action) "error").
  - apply Balanced_keeps, Keeps_stats_dead_letter_append.
  - apply Balanced_keeps, Keeps_ret.
Qed.

Lemma Balanced_webhook_retell : forall request, Balanced (webhook_retell hmac request).
Proof.
  intros request. unfold webhook_retell.
  apply Balanced_bind.
  { apply Balanced_keeps. unfold verify_retell_signature, app_log. keeps. }
  intros valid w0 w1 _.
  destruct (negb valid).
  { apply Balanced_keeps. unfold app_log. keeps. }
  destruct (Json.loads (raw_body request)) as [payload|e].
  2:{ apply Balanced_keeps. unfold app_log. keeps. }
  apply Balanced_bind; [apply Balanced_keeps, Keeps_lift|]. intros event w2 w3 _.
  destruct (negb (Py.eq_str event "chat_analyzed")).
  { apply Balanced_keeps. unfold app_log. keeps. }
  apply Balanced_bind; [apply Balanced_keeps, Keeps_lift|]. intros inner w4 w5 _.
  apply Balanced_bind; [apply Balanced_keeps, Keeps_lift|]. intros chat w6 w7 _.
  apply Balanced_bind; [apply Balanced_keeps, Keeps_lift|]. intros chat_id w8 w9 _.
  apply Balanced_bind; [apply Balanced_keeps, Keeps_lift|]. intros t w10 w11 _.
  apply Balanced_bind.
  { apply Balanced_keeps. unfold app_log. keeps. }
  intros [] w12 w13 _.
  apply Balanced_bind; [|intros; apply Balanced_keeps, Keeps_ret].
  apply Balanced_try_except; [apply Balanced_process_and_record|].
  intros e.
  apply Balanced_bind.
  { apply Balanced_keeps. unfold app_log. keeps. }
  intros [] w14 w15 _.
  apply Balanced_bind; [apply Balanced_record_event; reflexivity|].
  intros [] w16 w17 _.
  apply Balanced_keeps, Keeps_stats_dead_letter_append.
Qed.

Lemma Balanced_replay_entry : forall entry results,
  Balanced (replay_entry entry results).
Proof.
  intros entry results. unfold replay_entry.
  apply Balanced_bind; [apply Balanced_keeps, Keeps_lift|]. intros chat w0 w1 _.
  apply Balanced_bind; [apply Balanced_keeps, Keeps_lift|]. intros chat_id w2 w3 _.
  apply Balanced_bind.
  { apply Balanced_attempt.
    apply Balanced_bind; [apply Balanced_pipeline|]. intros result w4 w5 _.
    apply Balanced_keeps. keeps. }
  intros processed w4 w5 Run.
  destruct processed as [[result line]|e]; [|apply Balanced_keeps, Keeps_ret].
  assert (Shape : pipeline_result chat result).
  { unfold attempt in Run.
    destruct (bind _ _ w4) as [x wx] eqn:E. inversion Run; subst x wx. clear Run.
    bind_ok E result' w6 E1. bind_ok E action w7 E2. bind_ok E detail w8 E3.
    inversion E; subst. eapply pipeline_result_of_run; exact E1. }
  destruct Shape as (fields & cid & action & detail & -> & _ & _ & Ha & Hin & Hd & _).
  apply Balanced_bind; [|intros [x|e] ? ? _; apply Balanced_keeps, Keeps_ret].
  apply Balanced_attempt. cbn [Py.get]. rewrite Ha, Hd.
  apply Balanced_bind; [apply Balanced_keeps, Keeps_lift|]. intros a wa wb Ea.
  apply lift_ok in Ea. destruct Ea as [Ea _]. inversion Ea; subst a.
  apply Balanced_bind; [apply Balanced_keeps, Keeps_lift|]. intros d wc wd Ed.
  apply lift_ok in Ed. destruct Ed as [Ed _]. inversion Ed; subst d.
  apply Balanced_record_event, in_actions, Hin.
Qed.

Lemma Balanced_replay_all : forall entries results,
  Balanced (replay_all entries results).
Proof.
  induction entries as [|entry rest IH]; intros results.
  - apply Balanced_keeps, Keeps_ret.
  - cbn [replay_all]. apply Balanced_bind; [apply Balanced_replay_entry|].
    intros results' ? ? _. apply IH.
Qed.

Lemma Keeps_stats_read_all : Keeps stats dead_letter.read_all.
Proof. unfold dead_letter.read_all, File.exists_. keeps. Qed.

Lemma Keeps_stats_clear : Keeps stats dead_letter.clear.
Proof. unfold dead_letter.clear, File.exists_, datetime_now. keeps. Qed.

Lemma Balanced_retry_failed : Balanced retry_failed.
Proof.
  unfold retry_failed.
  apply Balanced_bind; [apply Balanced_keeps, Keeps_stats_read_all|].
  intros entries w0 w1 _.
  destruct entries as [|entry rest]; [apply Balanced_keeps, Keeps_ret|].
  apply Balanced_bind; [apply Balanced_replay_all|]. intros results ? ? _.
  apply Balanced_bind; [apply Balanced_keeps, Keeps_stats_clear|].
  intros [archive cleared] ? ? _. apply Balanced_keeps, Keeps_ret.
Qed.

End Routes.

(** X8.  The two routes that run the pipeline keep the counters adding up:
    if the number of webhooks received equals created + duplicates + skipped
    + errors before a call of [webhook_retell] or of [retry_failed], it does
    so after the call, for every request, every state of the store and every
    behaviour of the network, and also when the call ends in an exception.
    (The pipeline never hands [_record_event] an action other than the four
    that have a counter.) *)
Theorem routes_keep_the_counters_balanced : forall hmac,
  (forall request w,
     balanced (stats w) -> balanced (stats (snd (webhook_retell hmac request w))))
  /\
  (forall w,
     balanced (stats w) -> balanced (stats (snd (retry_failed w)))).
Proof.
  intros hmac. split.
  - intros request w B.
    destruct (webhook_retell hmac request w) as [r w'] eqn:E.
    exact (Balanced_webhook_retell hmac request w r w' E B).
  - intros w B.
    destruct (retry_failed w) as [r w'] eqn:E.
    exact (Balanced_retry_failed w r w' E B).
Qed.

Lemma routes_keep_the_counters_balanced_witness :
  balanced (stats (snd (webhook_retell toy_digest qualified_request
                          (token_world refusing_crm))))
  /\ balanced (stats (snd (retry_failed replay_start))).
Proof.
  split.
  - apply (proj1 (routes_keep_the_counters_balanced toy_digest)). reflexivity.
  - apply (proj2 (routes_keep_the_counters_balanced toy_digest)).
    vm_compute. reflexivity.
Defined.

(** ** The webhook route on requests it does not process *)

(** X9.  A request whose body is UTF-8 text within the limits of the
    decoder (no integer literal of more than 4300 digits, no nesting beyond
    what the interpreter has room for), that passes the signature gate and is
    not a chat_analyzed event, is answered without being processed: the only
    effect is one log line, so no counter moves, the store is not written
    and nothing is sent.
    - A body that is not valid JSON is answered 400.
    - A body that is valid JSON but not an object (a list, a number, a
      string) is not answered: the lookup of its event type raises
      AttributeError, which leaves the handler.
    - An object whose event type is not 'chat_analyzed' (or is missing) is
      answered 204; the log line names the event type, as it is printed when
      it is None, a boolean, text or an integer. *)
Theorem webhook_retell_unprocessed : forall hmac request w wv,
  text_body (raw_body request) = true ->
  Json.within_limits (json_room w) (raw_body request) = true ->
  verify_retell_signature hmac (raw_body request) (signature_of request) w
  = (Ok true, wv) ->
  (forall e,
     Json.loads (raw_body request) = Raise e ->
     webhook_retell hmac request w
     = (Ok 400, snd (app_log "WARNING" "Invalid JSON in webhook body" wv)))
  /\
  (forall payload,
     Json.loads (raw_body request) = Ok payload ->
     (forall fields, payload <> PDict fields) ->
     webhook_retell hmac request w = (Raise (Py.no_attribute payload "get"), wv))
  /\
  (forall fields,
     Json.loads (raw_body request) = Ok (PDict fields) ->
     field fields "event" <> PStr "chat_analyzed" ->
     exists line,
       webhook_retell hmac request w = (Ok 204, snd (app_log "INFO" line wv))
       /\ (prints_exactly (field fields "event") = true ->
           line = "Ignoring event type: " ++ Py.str (field fields "event"))).
Proof.
  intros hmac request w wv _ _ V. split; [|split].
  - intros e J. pose proof (loads_raises_decode_error _ _ J) as ->.
    unfold webhook_retell. fold (signature_of request).
    unfold bind at 1. rewrite V. cbn [negb]. rewrite J. reflexivity.
  - intros payload J N.
    unfold webhook_retell. fold (signature_of request).
    unfold bind at 1. rewrite V. cbn [negb]. rewrite J.
    destruct payload; try reflexivity. exfalso. eapply N. reflexivity.
  - intros fields J E.
    assert (E' : Py.eq_str (field fields "event") "chat_analyzed" = false).
    { destruct (field fields "event"); try reflexivity.
      cbn [Py.eq_str]. apply String.eqb_neq. intros ->. apply E. reflexivity. }
    unfold webhook_retell. fold (signature_of request).
    unfold bind at 1. rewrite V. cbn [negb]. rewrite J.
    unfold bind at 1, lift at 1. rewrite get_block_field, E'.
    eexists. split; [reflexivity|]. intros _. reflexivity.
Qed.

(** The world after the gate has let a request through unchecked *)
Definition unchecked (w : World) : World :=
  snd (app_log "WARNING" "RETELL_API_KEY not set — skipping signature verification" w).

Lemma webhook_retell_unprocessed_witness :
  webhook_retell toy_digest (mkHttpRequest "{bad" None) (bare_world [])
  = (Ok 400, snd (app_log "WARNING" "Invalid JSON in webhook body"
                    (unchecked (bare_world []))))
  /\ webhook_retell toy_digest (mkHttpRequest "[1]" None) (bare_world [])
     = (Raise (Py.no_attribute (PList [PInt 1]) "get"), unchecked (bare_world []))
  /\ exists line,
       webhook_retell toy_digest (mkHttpRequest "{}" None) (bare_world [])
       = (Ok 204, snd (app_log "INFO" line (unchecked (bare_world []))))
       /\ (prints_exactly (PStr "") = true -> line = "Ignoring event type: " ++ "").
Proof.
  split; [|split].
  - apply (proj1 (webhook_retell_unprocessed toy_digest (mkHttpRequest "{bad" None)
                    (bare_world []) (unchecked (bare_world []))
                    eq_refl eq_refl eq_refl)
             Json.decode_error).
    reflexivity.
  - apply (proj1 (proj2 (webhook_retell_unprocessed toy_digest
                           (mkHttpRequest "[1]" None)
                           (bare_world []) (unchecked (bare_world []))
                           eq_refl eq_refl eq_refl))
             (PList [PInt 1])).
    + reflexivity.
    + discriminate.
  - apply (proj2 (proj2 (webhook_retell_unprocessed toy_digest
                           (mkHttpRequest "{}" None)
                           (bare_world []) (unchecked (bare_world []))
                           eq_refl eq_refl eq_refl))
             []).
    + reflexivity.
    + discriminate.
Defined.

(** ** Values and their JSON text *)

Section PyvalInduction.

Variable P : pyval -> Prop.
Hypothesis P_none : P PNone.
Hypothesis P_bool : forall b, P (PBool b).
Hypothesis P_int : forall z, P (PInt z).
Hypothesis P_float : forall l, P (PFloat l).
Hypothesis P_str : forall s, P (PStr s).
Hypothesis P_list : forall l, Forall P l -> P (PList l).
Hypothesis P_dict : forall d, Forall (fun kv => P (snd kv)) d -> P (PDict d).

(** Induction on a value: the members of a list and of a dictionary come
    with the property. *)
Fixpoint pyval_induction (v : pyval) : P v :=
  match v with
  | PNone => P_none
  | PBool b => P_bool b
  | PInt z => P_int z
  | PFloat l => P_float l
  | PStr s => P_str s
  | PList l =>
      P_list l
        ((fix members (l : list pyval) : Forall P l :=
            match l with
            | [] => Forall_nil P
            | x :: rest => Forall_cons x (pyval_induction x) (members rest)
            end) l)
  | PDict d =>
      P_dict d
        ((fix members (d : list (string * pyval)) : Forall (fun kv => P (snd kv)) d :=
            match d with
            | [] => Forall_nil _
            | kv :: rest =>
                @Forall_cons _ (fun kv => P (snd kv)) kv rest
                  (pyval_induction (snd kv)) (members rest)
            end) d)
  end.

End PyvalInduction.

(** A character that ends a line of a text file *)
Definition is_break (c : ascii) : bool :=
  ((Str.code c =? 10) || (Str.code c =? 13))%N.

(** Text without a line break *)
Definition one_line (s : string) : bool := Str.forallb (fun c => negb (is_break c)) s.

Lemma one_line_app : forall s t, one_line (s ++ t) = one_line s && one_line t.
Proof.
  induction s as [|c s IH]; intros t; [reflexivity|].
  cbn [append one_line Str.forallb]. fold (one_line (s ++ t)). fold (one_line s).
  rewrite IH, andb_assoc. reflexivity.
Qed.

Lemma one_line_join : forall sep l,
  one_line sep = true -> Forall (fun s => one_line s = true) l ->
  one_line (Str.join sep l) = true.
Proof.
  intros sep l Hs H. induction H as [|x l Hx Hl IH]; [reflexivity|].
  destruct l as [|y l]; [exact Hx|].
  change (Str.join sep (x :: y :: l)) with (x ++ sep ++ Str.join sep (y :: l)).
  rewrite !one_line_app, Hx, Hs, IH. reflexivity.
Qed.

Lemma hex_digit_one_line : forall k, (k < 16)%N -> is_break (Str.hex_digit k) = false.
Proof.
  intros k H.
  assert (K : In k [0; 1; 2; 3; 4; 5; 6; 7; 8; 9; 10; 11; 12; 13; 14; 15]%N).
  { cbn [In]. lia. }
  cbn [In] in K.
  repeat (destruct K as [<-|K]; [reflexivity|]). contradiction.
Qed.

Lemma u_escape_one_line : forall n, (n < 65536)%N -> one_line (Json.u_escape n) = true.
Proof.
  intros n H. unfold Json.u_escape, one_line. cbn [Str.forallb].
  rewrite !hex_digit_one_line.
  - reflexivity.
  - apply N.mod_lt. discriminate.
  - apply N.mod_lt. discriminate.
  - apply N.mod_lt. discriminate.
  - apply N.Div0.div_lt_upper_bound. lia.
Qed.

Lemma escape_code_point_one_line : forall n,
  (n < 2097152)%N -> one_line (Json.escape_code_point n) = true.
Proof.
  intros n H. unfold Json.escape_code_point.
  destruct (n <? 65536)%N eqn:L.
  - apply N.ltb_lt in L. apply u_escape_one_line. exact L.
  - apply N.ltb_ge in L. rewrite one_line_app, !u_escape_one_line; [reflexivity| |].
    + assert ((n - 65536) mod 1024 < 1024)%N by (apply N.mod_lt; discriminate). lia.
    + assert ((n - 65536) / 1024 < 1984)%N.
      { apply N.Div0.div_lt_upper_bound. lia. }
      lia.
Qed.

Lemma code_lt_256 : forall c, (Str.code c < 256)%N.
Proof. intros c. unfold Str.code. apply N_ascii_bounded. Qed.

Lemma cont_lt_64 : forall c, Json.is_cont c = true -> (Json.cont c < 64)%N.
Proof.
  intros c H. unfold Json.is_cont, Json.cont in *.
  apply andb_true_iff in H. destruct H as [H1 H2].
  apply N.leb_le in H1. apply N.ltb_lt in H2. lia.
Qed.

Lemma escape_chars_one_line_len : forall n s,
  (String.length s <= n)%nat -> one_line (Json.escape_chars s) = true.
Proof.
  induction n as [|n IH]; intros s L.
  - destruct s; [reflexivity|cbn in L; lia].
  - destruct s as [|c s]; [reflexivity|]. cbn [String.length] in L.
    assert (Hs : one_line (Json.escape_chars s) = true) by (apply IH; lia).
    pose proof (code_lt_256 c) as B.
    cbn [Json.escape_chars]. cbv zeta.
    destruct (Str.code c =? 34)%N eqn:E34.
    { cbn [one_line Str.forallb]. fold (one_line (Json.escape_chars s)).
      apply N.eqb_eq in E34. unfold is_break. rewrite E34, Hs. reflexivity. }
    destruct (Str.code c =? 92)%N eqn:E92.
    { cbn [one_line Str.forallb]. fold (one_line (Json.escape_chars s)).
      apply N.eqb_eq in E92. unfold is_break. rewrite E92, Hs. reflexivity. }
    destruct (Str.code c =? 10)%N eqn:E10.
    { cbn [one_line Str.forallb]. fold (one_line (Json.escape_chars s)).
      rewrite Hs. reflexivity. }
    destruct (Str.code c =? 13)%N eqn:E13.
    { cbn [one_line Str.forallb]. fold (one_line (Json.escape_chars s)).
      rewrite Hs. reflexivity. }
    destruct (Str.code c =? 9)%N eqn:E9.
    { cbn [one_line Str.forallb]. fold (one_line (Json.escape_chars s)).
      rewrite Hs. reflexivity. }
    destruct (Str.code c =? 8)%N eqn:E8.
    { cbn [one_line Str.forallb]. fold (one_line (Json.escape_chars s)).
      rewrite Hs. reflexivity. }
    destruct (Str.code c =? 12)%N eqn:E12.
    { cbn [one_line Str.forallb]. fold (one_line (Json.escape_chars s)).
      rewrite Hs. reflexivity. }
    destruct ((32 <=? Str.code c) && (Str.code c <=? 126))%N eqn:Eprint.
    { cbn [one_line Str.forallb]. fold (one_line (Json.escape_chars s)).
      unfold is_break. rewrite E10, E13, Hs. reflexivity. }
    destruct s as [|c1 s].
    { rewrite one_line_app, u_escape_one_line by lia. reflexivity. }
    destruct (((192 <=? Str.code c) && (Str.code c <? 224))%N && Json.is_cont c1) eqn:E2.
    { apply andb_true_iff in E2. destruct E2 as [R C1].
      apply andb_true_iff in R. destruct R as [R1 R2].
      apply N.leb_le in R1. apply N.ltb_lt in R2. apply cont_lt_64 in C1.
      rewrite one_line_app, escape_code_point_one_line by lia.
      apply IH. cbn [String.length] in L. lia. }
    destruct s as [|c2 s].
    { rewrite one_line_app, u_escape_one_line by lia. exact Hs. }
    destruct (((224 <=? Str.code c) && (Str.code c <? 240))%N
              && Json.is_cont c1 && Json.is_cont c2) eqn:E3.
    { apply andb_true_iff in E3. destruct E3 as [R C2].
      apply andb_true_iff in R. destruct R as [R C1].
      apply andb_true_iff in R. destruct R as [R1 R2].
      apply N.leb_le in R1. apply N.ltb_lt in R2.
      apply cont_lt_64 in C1. apply cont_lt_64 in C2.
      rewrite one_line_app, escape_code_point_one_line by lia.
      apply IH. cbn [String.length] in L. lia. }
    destruct s as [|c3 s].
    { rewrite one_line_app, u_escape_one_line by lia. exact Hs. }
    destruct (((240 <=? Str.code c) && (Str.code c <? 248))%N
              && Json.is_cont c1 && Json.is_cont c2 && Json.is_cont c3) eqn:E4.
    { apply andb_true_iff in E4. destruct E4 as [R C3].
      apply andb_true_iff in R. destruct R as [R C2].
      apply andb_true_iff in R. destruct R as [R C1].
      apply andb_true_iff in R. destruct R as [R1 R2].
      apply N.leb_le in R1. apply N.ltb_lt in R2.
      apply cont_lt_64 in C1. apply cont_lt_64 in C2. apply cont_lt_64 in C3.
      rewrite one_line_app, escape_code_point_one_line by lia.
      apply IH. cbn [String.length] in L. lia. }
    rewrite one_line_app, u_escape_one_line by lia. exact Hs.
Qed.

Lemma escape_chars_one_line : forall s, one_line (Json.escape_chars s) = true.
Proof. intros s. apply (escape_chars_one_line_len (String.length s)). lia. Qed.

Lemma dumps_str_one_line : forall s, one_line (Json.dumps_str s) = true.
Proof.
  intros s. unfold Json.dumps_str. cbn [one_line Str.forallb].
  fold (one_line (Json.escape_chars s ++ String Py.dquote "")).
  rewrite one_line_app, escape_chars_one_line. reflexivity.
Qed.

Lemma string_of_uint_one_line : forall d,
  one_line (NilEmpty.string_of_uint d) = true.
Proof.
  induction d; cbn [NilEmpty.string_of_uint one_line Str.forallb];
    try reflexivity; fold (one_line (NilEmpty.string_of_uint d)); rewrite IHd;
    reflexivity.
Qed.

Lemma of_Z_one_line : forall z, one_line (Str.of_Z z) = true.
Proof.
  intros z. unfold Str.of_Z, NilZero.string_of_int.
  destruct (Z.to_int z) as [d|d]; unfold NilZero.string_of_uint.
  - destruct d; try reflexivity; apply string_of_uint_one_line.
  - cbn [one_line Str.forallb].
    destruct d; try reflexivity; apply string_of_uint_one_line.
Qed.

(** Every floating-point number in the value is written on one line (the
    lexeme of a number read from JSON is). *)
Fixpoint floats_one_line (v : pyval) : bool :=
  match v with
  | PFloat l => one_line l
  | PList l => forallb floats_one_line l
  | PDict d => forallb (fun kv => floats_one_line (snd kv)) d
  | _ => true
  end.

(** [json.dumps] writes a value on one line: line breaks inside strings are
    escaped. *)
Lemma dumps_one_line : forall v,
  floats_one_line v = true -> one_line (Json.dumps v) = true.
Proof.
  induction v as [| b | z | l | s | l IH | d IH] using pyval_induction; intros F.
  - reflexivity.
  - destruct b; reflexivity.
  - apply of_Z_one_line.
  - exact F.
  - apply dumps_str_one_line.
  - cbn [Json.dumps]. rewrite !one_line_app. rewrite one_line_join; [reflexivity|reflexivity|].
    cbn [floats_one_line] in F. rewrite forallb_forall in F.
    rewrite Forall_forall in *. intros x Hx. apply in_map_iff in Hx.
    destruct Hx as (y & <- & Hy). apply IH; [exact Hy|]. apply F. exact Hy.
  - cbn [Json.dumps]. rewrite !one_line_app. rewrite one_line_join; [reflexivity|reflexivity|].
    cbn [floats_one_line] in F. rewrite forallb_forall in F.
    rewrite Forall_forall in *. intros x Hx. apply in_map_iff in Hx.
    destruct Hx as ([k y] & <- & Hy). cbn [fst snd].
    rewrite !one_line_app, dumps_str_one_line. cbn [andb one_line Str.forallb].
    apply (IH _ Hy). apply (F _ Hy).
Qed.

Lemma floats_one_line_lookup : forall d k x,
  floats_one_line (PDict d) = true -> Py.dict_lookup k d = Some x ->
  floats_one_line x = true.
Proof.
  induction d as [|[k' v] d IH]; intros k x F L; [discriminate|].
  cbn [floats_one_line forallb snd] in F. apply andb_true_iff in F. destruct F as [F1 F2].
  cbn [Py.dict_lookup] in L. destruct (String.eqb k' k).
  - inversion L; subst. exact F1.
  - eapply IH; [exact F2|exact L].
Qed.

(** ** The dead-letter store *)

(** The store holds whole lines: it is empty or ends with a line feed. *)
Definition line_terminated (content : string) : Prop :=
  content = "" \/ exists s, content = s ++ File.newline.

Lemma lines_aux_app : forall s data acc cr,
  (cr = true -> acc = "") ->
  File.lines_aux (s ++ File.newline ++ data) acc cr
  = (File.lines_aux (s ++ File.newline) acc cr ++ File.lines_aux data "" false)%list.
Proof.
  induction s as [|c s IH]; intros data acc cr Hcr.
  - cbn. destruct cr; [rewrite (Hcr eq_refl)|]; reflexivity.
  - cbn [append File.lines_aux]. cbv zeta.
    destruct (Str.code c =? 10)%N.
    + destruct cr.
      * apply IH. intros; discriminate.
      * cbn [app]. f_equal. apply IH. intros; discriminate.
    + destruct (Str.code c =? 13)%N.
      * cbn [app]. f_equal. apply IH. reflexivity.
      * apply IH. intros; discriminate.
Qed.

Lemma lines_app : forall old data,
  line_terminated old ->
  File.lines (old ++ data) = (File.lines old ++ File.lines data)%list.
Proof.
  intros old data [->|(s & ->)]; [reflexivity|].
  unfold File.lines. rewrite append_assoc. apply lines_aux_app. intros; discriminate.
Qed.

Lemma lines_aux_one_line : forall line acc,
  one_line line = true ->
  File.lines_aux (line ++ File.newline) acc false
  = [Str.rev_append acc (line ++ File.newline)].
Proof.
  induction line as [|c line IH]; intros acc H; [reflexivity|].
  cbn [one_line Str.forallb] in H. apply andb_true_iff in H. destruct H as [Hc H].
  unfold is_break in Hc. apply negb_true_iff, orb_false_iff in Hc. destruct Hc as [C1 C2].
  cbn [append File.lines_aux]. cbv zeta. rewrite C1, C2.
  rewrite (IH (String c acc) H). reflexivity.
Qed.

Lemma lines_one_line : forall line,
  one_line line = true -> File.lines (line ++ File.newline) = [line ++ File.newline].
Proof. intros line H. unfold File.lines. rewrite lines_aux_one_line; auto. Qed.

Lemma count_lines_app : forall l1 l2,
  dead_letter.count_lines (l1 ++ l2)
  = dead_letter.count_lines l1 + dead_letter.count_lines l2.
Proof.
  induction l1 as [|x l1 IH]; intros l2; [reflexivity|].
  cbn [app dead_letter.count_lines]. rewrite IH.
  destruct (negb (String.eqb (Str.strip x) "")); lia.
Qed.

Lemma parse_lines_app : forall l1 l2,
  dead_letter.parse_lines (l1 ++ l2)
  = (dead_letter.parse_lines l1 ++ dead_letter.parse_lines l2)%list.
Proof.
  induction l1 as [|x l1 IH]; intros l2; [reflexivity|].
  cbn [app dead_letter.parse_lines]. cbv zeta. rewrite IH.
  destruct (negb (String.eqb (Str.strip x) "")); [|reflexivity].
  destruct (Json.loads (Str.strip x)); reflexivity.
Qed.

(** *** Stripping a line *)

Lemma drop_app_le : forall n u t,
  (n <= String.length u)%nat -> Str.drop n (u ++ t) = Str.drop n u ++ t.
Proof.
  induction n as [|n IH]; intros u t H; [reflexivity|].
  destruct u as [|c u]; cbn [String.length] in H; [lia|].
  cbn [append Str.drop]. apply IH. lia.
Qed.

(** A closing brace belongs to no white-space character: the character at
    the head of a text ends before the first brace of the text. *)
Lemma space_width_before_brace : forall u v,
  (Str.space_width (u ++ String "}" v) <= String.length u)%nat.
Proof.
  intros u v. destruct u as [|a [|b [|c u]]]; cbn [append String.length].
  - destruct v as [|x [|y v]]; cbn; lia.
  - unfold Str.space_width. destruct (Str.is_space a); [lia|].
    destruct v as [|x v]; cbn; rewrite ?andb_false_r; cbn; lia.
  - unfold Str.space_width. destruct (Str.is_space a); [lia|].
    match goal with |- context [if ?t then 2%nat else _] => destruct t end; [lia|].
    cbn. rewrite ?andb_false_r. cbn. lia.
  - unfold Str.space_width. destruct (Str.is_space a); [lia|].
    match goal with |- context [if ?t then 2%nat else _] => destruct t end; [lia|].
    match goal with |- context [if ?t then 3%nat else _] => destruct t end; lia.
Qed.

Lemma lstrip_aux_keeps_brace : forall fuel u v,
  exists u', Str.lstrip_aux fuel (u ++ String "}" v) = u' ++ String "}" v.
Proof.
  induction fuel as [|fuel IH]; intros u v; [exists u; reflexivity|].
  cbn [Str.lstrip_aux].
  pose proof (space_width_before_brace u v) as B.
  destruct (Str.space_width (u ++ String "}" v)) as [|w] eqn:W.
  - exists u. reflexivity.
  - rewrite drop_app_le by exact B. apply IH.
Qed.

Lemma all_space_brace : forall u v, Str.all_space (u ++ String "}" v) = false.
Proof.
  intros u v. unfold Str.all_space, Str.lstrip.
  destruct (lstrip_aux_keeps_brace (String.length (u ++ String "}" v)) u v) as (u' & ->).
  destruct u'; reflexivity.
Qed.

Lemma rstrip_after_brace : forall t,
  Str.rstrip (t ++ String "}" File.newline) = t ++ "}".
Proof.
  induction t as [|c t IH]; [reflexivity|].
  cbn [append Str.rstrip].
  change (String c (t ++ String "}" File.newline))
    with (String c t ++ String "}" File.newline).
  rewrite all_space_brace. cbn [append]. rewrite IH. reflexivity.
Qed.

(** A line made of a text in braces and the line feed strips to the text. *)
Lemma strip_braced_line : forall body,
  Str.strip (("{" ++ body ++ "}") ++ File.newline) = "{" ++ body ++ "}".
Proof.
  intros body. unfold Str.strip.
  assert (L : Str.lstrip (("{" ++ body ++ "}") ++ File.newline)
              = ("{" ++ body ++ "}") ++ File.newline).
  { unfold Str.lstrip. cbn [append String.length Str.lstrip_aux].
    destruct ((body ++ "}") ++ File.newline) as [|x [|y r]]; reflexivity. }
  rewrite L.
  replace (("{" ++ body ++ "}") ++ File.newline)
    with (String "{" body ++ String "}" File.newline).
  - rewrite rstrip_after_brace. reflexivity.
  - cbn [append]. f_equal. symmetry. exact (append_assoc body "}" File.newline).
Qed.

Lemma stored_lines_store : forall w, stored_lines w = File.lines (store w).
Proof.
  intros w. unfold stored_lines, store.
  destruct (assoc dead_letter.DEAD_LETTER_FILE (files w)); reflexivity.
Qed.

Lemma assoc_remove_other : forall name other l,
  other <> name -> assoc other (File.remove name l) = assoc other l.
Proof.
  intros name other l N. induction l as [|[k v] l IH]; [reflexivity|].
  cbn [File.remove assoc].
  destruct (String.eqb k name) eqn:E.
  - apply String.eqb_eq in E. subst k.
    destruct (String.eqb name other) eqn:E2; [|exact IH].
    apply String.eqb_eq in E2. congruence.
  - cbn [assoc]. rewrite IH. reflexivity.
Qed.

Lemma assoc_app_miss : forall name l k v,
  k <> name -> assoc name (l ++ [(k, v)]) = assoc name l.
Proof.
  intros name l k v N. induction l as [|[k' v'] l IH].
  - cbn. apply String.eqb_neq in N. rewrite N. reflexivity.
  - cbn [app assoc]. rewrite IH. reflexivity.
Qed.

Lemma assoc_write_other : forall name other content l,
  other <> name -> assoc other (File.write name content l) = assoc other l.
Proof.
  intros name other content l N. unfold File.write.
  rewrite assoc_app_miss by congruence. apply assoc_remove_other. exact N.
Qed.

Lemma assoc_remove_same : forall name l, assoc name (File.remove name l) = None.
Proof.
  intros name l. induction l as [|[k v] l IH]; [reflexivity|].
  cbn [File.remove]. destruct (String.eqb k name) eqn:E; [exact IH|].
  cbn [assoc]. rewrite E. exact IH.
Qed.

(** The entry [append] builds *)
Definition appended_entry (chat record : list (string * pyval)) (error : string)
           (w : World) : pyval :=
  dead_letter_entry (clock w) (PDict chat)
    (match Py.dict_lookup "chat_id" chat with
     | Some v => v
     | None => PStr "unknown"
     end)
    (field record "contact_id") (field record "job_id")
    (field record "stage") (field record "tier") error.

(** The line [append] writes: the store grows by the JSON text of the entry
    and a line feed, and that text is one line that stripping leaves as it
    is. *)
Lemma append_writes_one_line : forall chat record error w,
  floats_one_line (PDict chat) = true -> floats_one_line (PDict record) = true ->
  let line := Json.dumps (appended_entry chat record error w) in
  exists w',
    dead_letter.append (PDict chat) (PDict record) error w = (Ok tt, w')
    /\ files w'
       = File.write dead_letter.DEAD_LETTER_FILE (store w ++ line ++ File.newline)
           (files w)
    /\ one_line line = true
    /\ Str.strip (line ++ File.newline) = line /\ line <> "".
Proof.
  intros chat record error w Fc Fr line. subst line. unfold appended_entry.
  set (chat_id := match Py.dict_lookup "chat_id" chat with
                  | Some v => v
                  | None => PStr "unknown"
                  end).
  destruct (dead_letter_append_run (PDict chat) record error w chat_id eq_refl)
    as (w' & Run & Files & _).
  set (entry := dead_letter_entry (clock w) (PDict chat) chat_id
                  (field record "contact_id") (field record "job_id")
                  (field record "stage") (field record "tier") error) in *.
  exists w'.
  assert (Ffield : forall k, floats_one_line (field record k) = true).
  { intros k. unfold field. destruct (Py.dict_lookup k record) eqn:E; [|reflexivity].
    exact (floats_one_line_lookup record k _ Fr E). }
  assert (Fentry : floats_one_line entry = true).
  { assert (Fid : floats_one_line chat_id = true).
    { unfold chat_id. destruct (Py.dict_lookup "chat_id" chat) eqn:E; [|reflexivity].
      exact (floats_one_line_lookup chat "chat_id" _ Fc E). }
    unfold entry, dead_letter_entry. cbn [floats_one_line forallb snd].
    cbn [floats_one_line] in Fc. rewrite !Ffield, Fid, Fc. reflexivity. }
  assert (Braced : exists body, Json.dumps entry = "{" ++ body ++ "}").
  { unfold entry, dead_letter_entry. cbn [Json.dumps]. eexists. reflexivity. }
  destruct Braced as (body & Braced).
  split; [exact Run|]. split; [exact Files|].
  split; [exact (dumps_one_line entry Fentry)|]. split.
  - rewrite Braced. apply strip_braced_line.
  - rewrite Braced. discriminate.
Qed.

(** X10.  [append] adds exactly one line to a store that holds whole lines,
    whatever the chat and the record hold (line breaks inside their strings
    are escaped): the lines of the store are the lines before followed by the
    JSON text of the entry, that line is not blank, so [count] returns one
    more than before, the store still holds whole lines, and no other file is
    touched. *)
Theorem dead_letter_append_adds_one_line : forall chat record error w,
  floats_one_line (PDict chat) = true -> floats_one_line (PDict record) = true ->
  line_terminated (store w) ->
  exists w' line,
    dead_letter.append (PDict chat) (PDict record) error w = (Ok tt, w')
    /\ line = Json.dumps (appended_entry chat record error w)
    /\ stored_lines w' = (stored_lines w ++ [(line ++ File.newline)%string])%list
    /\ Str.strip (line ++ File.newline) = line /\ line <> ""
    /\ fst (dead_letter.count w') = Ok (dead_letter.count_lines (stored_lines w) + 1)
    /\ line_terminated (store w')
    /\ (forall name, name <> dead_letter.DEAD_LETTER_FILE ->
                     assoc name (files w') = assoc name (files w)).
Proof.
  intros chat record error w Fc Fr T.
  destruct (append_writes_one_line chat record error w Fc Fr)
    as (w' & Run & Files & One & Strip & Nonblank).
  set (line := Json.dumps (appended_entry chat record error w)) in *.
  exists w', line.
  assert (Store : store w' = store w ++ line ++ File.newline).
  { unfold store at 1. rewrite Files, assoc_write. reflexivity. }
  assert (Lines : stored_lines w'
                  = (stored_lines w ++ [(line ++ File.newline)%string])%list).
  { rewrite !stored_lines_store, Store, lines_app by exact T.
    rewrite lines_one_line by exact One. reflexivity. }
  split; [exact Run|]. split; [reflexivity|]. split; [exact Lines|].
  split; [exact Strip|]. split; [exact Nonblank|]. split.
  { rewrite count_run, Lines, count_lines_app. cbn [dead_letter.count_lines].
    rewrite Strip. apply String.eqb_neq in Nonblank. rewrite Nonblank.
    reflexivity. }
  split.
  { right. exists (store w ++ line). rewrite Store, append_assoc. reflexivity. }
  intros name N. rewrite Files. apply assoc_write_other. exact N.
Qed.

Lemma dead_letter_append_adds_one_line_witness :
  exists w' line,
    dead_letter.append (PDict [("chat_id", PStr "chat_42")])
      (PDict [("contact_id", PStr "003000000000001AAA")]) "boom" (bare_world [])
    = (Ok tt, w')
    /\ line = Json.dumps (appended_entry [("chat_id", PStr "chat_42")]
                            [("contact_id", PStr "003000000000001AAA")] "boom"
                            (bare_world []))
    /\ stored_lines w'
       = (stored_lines (bare_world []) ++ [(line ++ File.newline)%string])%list
    /\ Str.strip (line ++ File.newline) = line /\ line <> ""
    /\ fst (dead_letter.count w')
       = Ok (dead_letter.count_lines (stored_lines (bare_world [])) + 1)
    /\ line_terminated (store w')
    /\ (forall name, name <> dead_letter.DEAD_LETTER_FILE ->
                     assoc name (files w') = assoc name (files (bare_world []))).
Proof.
  apply (dead_letter_append_adds_one_line [("chat_id", PStr "chat_42")]
           [("contact_id", PStr "003000000000001AAA")] "boom" (bare_world [])).
  - reflexivity.
  - reflexivity.
  - left. reflexivity.
Defined.

(** The name [clear] gives the archive at the time [t] *)
Definition archive_name (t : Z) : string :=
  "dead_letter_archive_" ++ Clock.compact t ++ ".jsonl".

Lemma archive_name_is_not_the_store : forall t,
  archive_name t <> dead_letter.DEAD_LETTER_FILE.
Proof.
  intros t H. unfold archive_name, dead_letter.DEAD_LETTER_FILE in H.
  cbn [append] in H. discriminate.
Qed.

(** [clear] on a store that counts an entry: the file is moved to the
    archive named after the current second. *)
Lemma clear_moves_the_store : forall w,
  dead_letter.count_lines (stored_lines w) <> 0 ->
  exists content,
    assoc dead_letter.DEAD_LETTER_FILE (files w) = Some content
    /\ dead_letter.clear w
       = (Ok (Some (archive_name (clock w)), dead_letter.count_lines (stored_lines w)),
          set_trace (trace w ++ [EAcquire "_lock"; ERelease "_lock"])
            (set_files (File.write (archive_name (clock w)) content
                          (File.remove dead_letter.DEAD_LETTER_FILE (files w))) w)).
Proof.
  intros w H. unfold stored_lines in *.
  destruct (assoc dead_letter.DEAD_LETTER_FILE (files w)) as [content|] eqn:E;
    [|contradiction H; reflexivity].
  exists content. split; [reflexivity|].
  unfold dead_letter.clear, bind, File.exists_. rewrite E. cbn [negb].
  unfold with_lock, emit, bind, File.read_lines. cbv beta.
  cbn [files set_trace]. rewrite E.
  apply Z.eqb_neq in H. rewrite H.
  unfold datetime_now, File.move. cbn [clock files set_trace]. rewrite E.
  fold (archive_name (clock w)). cbn [ret trace set_trace set_files].
  rewrite <- app_assoc. reflexivity.
Qed.

Lemma archived_store_is_gone : forall t content fs,
  assoc dead_letter.DEAD_LETTER_FILE
    (File.write (archive_name t) content (File.remove dead_letter.DEAD_LETTER_FILE fs))
  = None.
Proof.
  intros t content fs. rewrite assoc_write_other.
  - apply assoc_remove_same.
  - intros C. exact (archive_name_is_not_the_store _ (eq_sym C)).
Qed.

(** X11.  [clear] leaves a store with no entry alone and moves any other to
    an archive:
    - when the store file is missing, or holds only blank lines, it returns
      (None, 0) and no file changes;
    - otherwise it returns the archive name, made of the current second, and
      the number of lines that are not blank, whether they parse or not;
      afterwards the store file is gone, the archive holds its content byte
      for byte (replacing an archive of the same second), every other file is
      as before, [count] returns 0 and [read_all] returns no entry. *)
Theorem clear_archives_the_store : forall w,
  let n := dead_letter.count_lines (stored_lines w) in
  (n = 0 ->
   exists w',
     dead_letter.clear w = (Ok (None, 0), w') /\ files w' = files w)
  /\
  (n <> 0 ->
   exists w' content,
     dead_letter.clear w = (Ok (Some (archive_name (clock w)), n), w')
     /\ assoc dead_letter.DEAD_LETTER_FILE (files w) = Some content
     /\ assoc dead_letter.DEAD_LETTER_FILE (files w') = None
     /\ assoc (archive_name (clock w)) (files w') = Some content
     /\ (forall name,
           name <> dead_letter.DEAD_LETTER_FILE -> name <> archive_name (clock w) ->
           assoc name (files w') = assoc name (files w))
     /\ fst (dead_letter.count w') = Ok 0
     /\ fst (dead_letter.read_all w') = Ok []).
Proof.
  intros w n. subst n. split.
  - intros H. unfold stored_lines in H.
    unfold dead_letter.clear, bind, File.exists_.
    destruct (assoc dead_letter.DEAD_LETTER_FILE (files w)) as [content|] eqn:E.
    + cbn [negb]. unfold with_lock, emit, bind, File.read_lines. cbv beta.
      cbn [files set_trace]. rewrite E, H. cbn [Z.eqb ret].
      eexists. split; reflexivity.
    + eexists. split; reflexivity.
  - intros H. destruct (clear_moves_the_store w H) as (content & E & Run).
    eexists. exists content. split; [exact Run|]. split; [exact E|].
    cbn [files set_trace set_files].
    pose proof (archived_store_is_gone (clock w) content (files w)) as Gone.
    split; [exact Gone|]. split; [apply assoc_write|]. split.
    { intros name N1 N2. rewrite assoc_write_other by exact N2.
      apply assoc_remove_other. exact N1. }
    split.
    + rewrite count_run. unfold stored_lines. cbn [files set_trace set_files].
      rewrite Gone. reflexivity.
    + rewrite read_all_run. unfold stored_lines. cbn [files set_trace set_files].
      rewrite Gone. reflexivity.
Qed.

Lemma clear_archives_the_store_witness :
  exists w' content,
    dead_letter.clear torn_store
    = (Ok (Some (archive_name (clock torn_store)), 1), w')
    /\ assoc dead_letter.DEAD_LETTER_FILE (files torn_store) = Some content
    /\ assoc dead_letter.DEAD_LETTER_FILE (files w') = None
    /\ assoc (archive_name (clock torn_store)) (files w') = Some content
    /\ (forall name,
          name <> dead_letter.DEAD_LETTER_FILE ->
          name <> archive_name (clock torn_store) ->
          assoc name (files w') = assoc name (files torn_store))
    /\ fst (dead_letter.count w') = Ok 0
    /\ fst (dead_letter.read_all w') = Ok [].
Proof.
  apply (proj2 (clear_archives_the_store torn_store)).
  vm_compute. discriminate.
Defined.

(** ** Reading back what [json.dumps] wrote *)

(** The escaped text of one ASCII character *)
Definition escape_one (c : ascii) : string :=
  let n := Str.code c in
  (if n =? 34 then String Py.backslash (String c "")
   else if n =? 92 then String Py.backslash (String c "")
   else if n =? 10 then String Py.backslash "n"
   else if n =? 13 then String Py.backslash "r"
   else if n =? 9 then String Py.backslash "t"
   else if n =? 8 then String Py.backslash "b"
   else if n =? 12 then String Py.backslash "f"
   else if (32 <=? n) && (n <=? 126) then String c ""
   else Json.u_escape n)%N.

Lemma escape_chars_ascii : forall c s,
  (Str.code c <? 128)%N = true ->
  Json.escape_chars (String c s) = escape_one c ++ Json.escape_chars s.
Proof.
  intros c s H. apply N.ltb_lt in H.
  cbn [Json.escape_chars]. cbv zeta. unfold escape_one.
  destruct (Str.code c =? 34)%N; [reflexivity|].
  destruct (Str.code c =? 92)%N; [reflexivity|].
  destruct (Str.code c =? 10)%N; [reflexivity|].
  destruct (Str.code c =? 13)%N; [reflexivity|].
  destruct (Str.code c =? 9)%N; [reflexivity|].
  destruct (Str.code c =? 8)%N; [reflexivity|].
  destruct (Str.code c =? 12)%N; [reflexivity|].
  destruct ((32 <=? Str.code c) && (Str.code c <=? 126))%N; [reflexivity|].
  assert (L2 : (192 <=? Str.code c)%N = false) by (apply N.leb_gt; lia).
  assert (L3 : (224 <=? Str.code c)%N = false) by (apply N.leb_gt; lia).
  assert (L4 : (240 <=? Str.code c)%N = false) by (apply N.leb_gt; lia).
  rewrite L2, L3, L4. cbn [andb].
  destruct s as [|c1 [|c2 [|c3 s]]]; reflexivity.
Qed.

(** The scanner reads the escaped text of an ASCII character back as that
    character, in one step. *)
Lemma scan_escape_one : forall c,
  (Str.code c <? 128)%N = true ->
  forall fuel rest acc,
    Json.scan_string (S fuel) (escape_one c ++ rest) acc
    = Json.scan_string fuel rest (String c acc).
Proof.
  intros c H.
  destruct c as [[] [] [] [] [] [] [] []];
    try (vm_compute in H; discriminate H); intros fuel rest acc; reflexivity.
Qed.

Lemma scan_string_escaped : forall s fuel rest acc,
  Str.is_ascii s = true -> (String.length s < fuel)%nat ->
  Json.scan_string fuel (Json.escape_chars s ++ String Py.dquote rest) acc
  = Some (Str.rev_append acc s, rest).
Proof.
  induction s as [|c s IH]; intros fuel rest acc A L.
  - destruct fuel as [|fuel]; [cbn in L; lia|]. reflexivity.
  - cbn [Str.is_ascii Str.forallb] in A. apply andb_true_iff in A. destruct A as [Ac A].
    destruct fuel as [|fuel]; [cbn in L; lia|]. cbn [String.length] in L.
    rewrite escape_chars_ascii by exact Ac.
    rewrite append_assoc, scan_escape_one by exact Ac.
    rewrite IH; [reflexivity|exact A|lia].
Qed.

Lemma length_append : forall s t,
  String.length (s ++ t) = (String.length s + String.length t)%nat.
Proof.
  induction s as [|c s IH]; intros t; [reflexivity|].
  cbn [append String.length]. rewrite IH. reflexivity.
Qed.

Lemma escape_one_length : forall c, (1 <= String.length (escape_one c))%nat.
Proof.
  intros c. unfold escape_one, Json.u_escape.
  repeat match goal with
         | |- context [if ?b then _ else _] => destruct b
         end; cbn [String.length]; lia.
Qed.

Lemma escape_chars_length : forall s,
  Str.is_ascii s = true -> (String.length s <= String.length (Json.escape_chars s))%nat.
Proof.
  induction s as [|c s IH]; intros A; [reflexivity|].
  cbn [Str.is_ascii Str.forallb] in A. apply andb_true_iff in A. destruct A as [Ac A].
  rewrite escape_chars_ascii by exact Ac. rewrite length_append.
  pose proof (escape_one_length c). specialize (IH A). cbn [String.length]. lia.
Qed.

(** A string literal at the head of the text is read back as the string. *)
Lemma scan_dumps_str : forall s rest,
  Str.is_ascii s = true ->
  exists tail,
    Json.dumps_str s ++ rest = String Py.dquote tail
    /\ Json.scan_string (S (String.length tail)) tail "" = Some (s, rest).
Proof.
  intros s rest A. exists (Json.escape_chars s ++ String Py.dquote rest).
  split.
  - unfold Json.dumps_str. cbn [append]. rewrite append_assoc. reflexivity.
  - rewrite scan_string_escaped; [reflexivity|exact A|].
    rewrite length_append. pose proof (escape_chars_length s A). cbn [String.length]. lia.
Qed.

(** *** Integers *)

(** What may follow a value in the text [json.dumps] writes: nothing, a
    comma, or a closing bracket or brace. *)
Definition delim (rest : string) : bool :=
  match rest with
  | EmptyString => true
  | String c _ => ((Str.code c =? 44) || (Str.code c =? 93) || (Str.code c =? 125))%N
  end.

Lemma digits_delim : forall rest, delim rest = true -> Json.digits rest = ("", rest).
Proof.
  intros [|c rest] H; [reflexivity|]. cbn [delim] in H. cbn [Json.digits].
  unfold Json.is_digit.
  destruct ((48 <=? Str.code c) && (Str.code c <=? 57))%N eqn:D; [|reflexivity].
  apply andb_true_iff in D. destruct D as [D1 D2].
  apply N.leb_le in D1. apply N.leb_le in D2.
  repeat (apply orb_true_iff in H; destruct H as [H|H]); apply N.eqb_eq in H; lia.
Qed.

Lemma digits_uint : forall d rest,
  delim rest = true ->
  Json.digits (NilEmpty.string_of_uint d ++ rest) = (NilEmpty.string_of_uint d, rest).
Proof.
  induction d; intros rest H; cbn [NilEmpty.string_of_uint append];
    [apply digits_delim; exact H| ..];
    cbn [Json.digits]; change (Json.is_digit _) with true; cbv iota;
    rewrite (IHd rest H); reflexivity.
Qed.

Lemma nat_of_digits_acc : forall d acc,
  Json.nat_of_digits (Zpos acc) (NilEmpty.string_of_uint d)
  = Zpos (Pos.of_uint_acc d acc).
Proof.
  induction d; intros acc; cbn [NilEmpty.string_of_uint Json.nat_of_digits Pos.of_uint_acc];
    [reflexivity| ..];
    match goal with
    | |- Json.nat_of_digits ?a _ = _ =>
        let x := fresh in
        let E := fresh in
        remember a as x eqn:E; vm_compute (Z.of_N _) in E;
        match goal with
        | |- _ = Zpos (Pos.of_uint_acc _ ?q) =>
            replace x with (Zpos q) by (subst x; lia)
        end
    end; apply IHd.
Qed.

Lemma nat_of_digits_uint : forall d,
  Json.nat_of_digits 0 (NilEmpty.string_of_uint d) = Z.of_N (Pos.of_uint d).
Proof.
  induction d; cbn [NilEmpty.string_of_uint Json.nat_of_digits Pos.of_uint];
    [reflexivity|exact IHd| ..];
    match goal with
    | |- Json.nat_of_digits ?a _ = _ =>
        let x := fresh in
        let E := fresh in
        remember a as x eqn:E; vm_compute in E; subst x
    end; apply nat_of_digits_acc.
Qed.

Lemma unorm_D0 : forall d d', Decimal.unorm d = Decimal.D0 d' -> d' = Decimal.Nil.
Proof.
  induction d; intros d' H; cbn in H; try discriminate.
  - inversion H; reflexivity.
  - apply IHd. exact H.
Qed.

(** The decimal digits of a positive number do not start with 0. *)
Lemma to_uint_head : forall p d, Pos.to_uint p <> Decimal.D0 d.
Proof.
  intros p d H.
  pose proof (DecimalPos.Unsigned.to_of (Pos.to_uint p)) as T.
  rewrite DecimalPos.Unsigned.of_to in T. cbn [N.to_uint] in T.
  rewrite H in T. symmetry in T. apply unorm_D0 in T. subst d.
  exact (DecimalPos.Unsigned.to_uint_nonzero p H).
Qed.

Lemma frac_part_delim : forall rest, delim rest = true -> Json.frac_part rest = ("", rest).
Proof.
  intros [|c rest] H; [reflexivity|]. cbn [delim] in H. cbn [Json.frac_part].
  destruct (Str.code c =? 46)%N eqn:E; [|reflexivity].
  apply N.eqb_eq in E.
  repeat (apply orb_true_iff in H; destruct H as [H|H]); apply N.eqb_eq in H; lia.
Qed.

Lemma exp_part_delim : forall rest, delim rest = true -> Json.exp_part rest = ("", rest).
Proof.
  intros [|c rest] H; [reflexivity|]. cbn [delim] in H. cbn [Json.exp_part].
  destruct ((Str.code c =? 101) || (Str.code c =? 69))%N eqn:E; [|reflexivity].
  apply orb_true_iff in E.
  repeat (apply orb_true_iff in H; destruct H as [H|H]); apply N.eqb_eq in H;
    destruct E as [E|E]; apply N.eqb_eq in E; lia.
Qed.

(** The digits of a number that does not start with 0, at the head of the
    text: the integer part is all of them. *)
Lemma int_part_uint : forall d rest,
  d <> Decimal.Nil -> (forall d', d <> Decimal.D0 d') -> delim rest = true ->
  Json.int_part (NilEmpty.string_of_uint d ++ rest)
  = Some (NilEmpty.string_of_uint d, rest)
  /\ Json.int_part (String "-" (NilEmpty.string_of_uint d ++ rest))
     = Some (String "-" (NilEmpty.string_of_uint d), rest)
  /\ Json.int_of_lexeme (NilEmpty.string_of_uint d)
     = Json.nat_of_digits 0 (NilEmpty.string_of_uint d)
  /\ NilZero.string_of_uint d = NilEmpty.string_of_uint d.
Proof.
  intros d rest N0 N1 H.
  destruct d as [|d|d|d|d|d|d|d|d|d|d];
    [contradiction N0; reflexivity|exfalso; eapply N1; reflexivity| ..];
    (split; [|split; [|split; reflexivity]]);
    unfold Json.int_part; cbn; rewrite (digits_uint _ rest H); reflexivity.
Qed.

(** An integer at the head of the text is read back as that integer. *)
Lemma scan_number_of_Z : forall z rest,
  delim rest = true ->
  Json.scan_number (Str.of_Z z ++ rest) = Some (PInt z, rest).
Proof.
  intros z rest H. unfold Json.scan_number, Str.of_Z.
  destruct z as [|p|p].
  - cbn -[Json.frac_part Json.exp_part].
    rewrite (frac_part_delim rest H), (exp_part_delim rest H). reflexivity.
  - change (Z.to_int (Zpos p)) with (Decimal.Pos (Pos.to_uint p)).
    cbn [NilZero.string_of_int].
    destruct (int_part_uint (Pos.to_uint p) rest
                (DecimalPos.Unsigned.to_uint_nonnil p) (to_uint_head p) H)
      as (I & _ & L & Z0).
    rewrite Z0, I, (frac_part_delim rest H), (exp_part_delim rest H), L.
    rewrite nat_of_digits_uint, DecimalPos.Unsigned.of_to. reflexivity.
  - change (Z.to_int (Zneg p)) with (Decimal.Neg (Pos.to_uint p)).
    cbn [NilZero.string_of_int].
    destruct (int_part_uint (Pos.to_uint p) rest
                (DecimalPos.Unsigned.to_uint_nonnil p) (to_uint_head p) H)
      as (_ & I & _ & Z0).
    rewrite Z0. cbn [append]. rewrite I, (frac_part_delim rest H), (exp_part_delim rest H).
    cbn [Json.int_of_lexeme]. change (Str.code "-" =? 45)%N with true. cbv iota.
    rewrite nat_of_digits_uint, DecimalPos.Unsigned.of_to. reflexivity.
Qed.

(** *** Values *)

Fixpoint distinct (l : list string) : bool :=
  match l with
  | [] => true
  | x :: rest => negb (existsb (String.eqb x) rest) && distinct rest
  end.

(** The values the round trip is stated for: no floating-point number, ASCII
    strings, and dictionaries whose keys are ASCII and distinct (as the keys
    of a Python dictionary are). *)
Fixpoint plain (v : pyval) : bool :=
  match v with
  | PNone | PBool _ | PInt _ => true
  | PFloat _ => false
  | PStr s => Str.is_ascii s
  | PList l => forallb plain l
  | PDict d =>
      forallb (fun kv => Str.is_ascii (fst kv) && plain (snd kv)) d
      && distinct (map fst d)
  end.

(** Fuel that is enough to read a value back *)
Fixpoint need (v : pyval) : nat :=
  match v with
  | PList l => S (list_sum (map (fun x => S (need x)) l))
  | PDict d => S (list_sum (map (fun kv => S (need (snd kv))) d))
  | _ => 1
  end.

(** The text starts a value: its first character is neither white space nor
    a closing bracket or brace. *)
Definition starts_value (s : string) : bool :=
  match s with
  | String c _ =>
      negb (Json.is_ws c) && negb (Str.code c =? 93)%N && negb (Str.code c =? 125)%N
  | EmptyString => false
  end.

Lemma skip_ws_starts_value : forall s, starts_value s = true -> Json.skip_ws s = s.
Proof.
  intros [|c s] H; [reflexivity|]. cbn [starts_value] in H. cbn [Json.skip_ws].
  destruct (Json.is_ws c); [discriminate|reflexivity].
Qed.

Lemma of_Z_head : forall z rest,
  exists c t,
    Str.of_Z z ++ rest = String c t
    /\ (Json.is_digit c || (Str.code c =? 45)%N) = true.
Proof.
  intros z rest. unfold Str.of_Z.
  destruct (Z.to_int z) as [d|d]; destruct d; do 2 eexists; split;
    try reflexivity; reflexivity.
Qed.

Lemma dumps_starts_value : forall v rest,
  plain v = true -> starts_value (Json.dumps v ++ rest) = true.
Proof.
  intros v rest H. destruct v as [| [|] | z | l | s | l | d]; try reflexivity.
  - destruct (of_Z_head z rest) as (c & t & E & D). cbn [Json.dumps]. rewrite E.
    cbn [starts_value]. unfold Json.is_digit, Json.is_ws in *.
    apply orb_true_iff in D. destruct D as [D|D].
    + apply andb_true_iff in D. destruct D as [D1 D2].
      apply N.leb_le in D1. apply N.leb_le in D2.
      repeat match goal with
             | |- context [(Str.code c =? ?k)%N] =>
                 let E := fresh in
                 destruct (Str.code c =? k)%N eqn:E; [apply N.eqb_eq in E; lia|]
             end. reflexivity.
    + apply N.eqb_eq in D.
      repeat match goal with
             | |- context [(Str.code c =? ?k)%N] =>
                 let E := fresh in
                 destruct (Str.code c =? k)%N eqn:E; [apply N.eqb_eq in E; lia|]
             end. reflexivity.
  - discriminate.
Qed.

Lemma value_number : forall fuel c s r,
  (Json.is_digit c || (Str.code c =? 45)%N) = true ->
  Json.scan_number (String c s) = Some r ->
  Json.value (S fuel) (String c s) = Some r.
Proof.
  intros fuel c s r D H. cbn [Json.value]. cbv zeta.
  assert (T : forall k, In k [34; 123; 91; 110; 116; 102]%N -> (Str.code c =? k)%N = false).
  { intros k K. apply N.eqb_neq. intros E. unfold Json.is_digit in D.
    apply orb_true_iff in D. destruct D as [D|D].
    - apply andb_true_iff in D. destruct D as [D1 D2].
      apply N.leb_le in D1. apply N.leb_le in D2.
      cbn [In] in K. lia.
    - apply N.eqb_eq in D. cbn [In] in K. lia. }
  rewrite !T by (cbn [In]; auto 10). rewrite H. reflexivity.
Qed.

(** [reads_back v]: with fuel enough, the text of [v] followed by [rest] is
    read as [v], and [rest] is what remains. *)
Definition reads_back (v : pyval) : Prop :=
  plain v = true ->
  forall fuel rest,
    (need v <= fuel)%nat -> delim rest = true ->
    Json.value fuel (Json.dumps v ++ rest) = Some (v, rest).

Lemma elements_last : forall fuel s acc v rest,
  Json.value fuel s = Some (v, String "]" rest) ->
  Json.elements (S fuel) s acc = Some (PList (rev (v :: acc)), rest).
Proof. intros fuel s acc v rest H. cbn [Json.elements]. rewrite H. reflexivity. Qed.

Lemma elements_more : forall fuel s acc v t,
  Json.value fuel s = Some (v, String "," (String " " t)) ->
  Json.elements (S fuel) s acc = Json.elements fuel (Json.skip_ws t) (v :: acc).
Proof. intros fuel s acc v t H. cbn [Json.elements]. rewrite H. reflexivity. Qed.

Lemma join_head : forall sep x l rest,
  exists t, Str.join sep (x :: l) ++ rest = x ++ t.
Proof.
  intros sep x [|y l] rest.
  - exists rest. reflexivity.
  - exists (sep ++ Str.join sep (y :: l) ++ rest).
    change (Str.join sep (x :: y :: l)) with (x ++ sep ++ Str.join sep (y :: l)).
    rewrite !append_assoc. reflexivity.
Qed.

Lemma elements_dumps : forall l,
  Forall reads_back l -> forallb plain l = true -> l <> [] ->
  forall fuel rest acc,
    (list_sum (map (fun x => S (need x)) l) <= fuel)%nat ->
    Json.elements fuel (Str.join ", " (map Json.dumps l) ++ String "]" rest) acc
    = Some (PList (rev acc ++ l), rest).
Proof.
  induction l as [|x l IH]; intros R Pl N fuel rest acc F; [contradiction N; reflexivity|].
  inversion R as [|? ? Rx Rl]; subst.
  cbn [forallb] in Pl. apply andb_true_iff in Pl. destruct Pl as [Px Pl].
  unfold list_sum in *. cbn [map fold_right] in F.
  destruct fuel as [|fuel]; [lia|].
  destruct l as [|y l].
  - cbn [map Str.join]. rewrite (elements_last fuel _ acc x rest).
    + cbn [rev]. reflexivity.
    + apply Rx; [exact Px| cbn [map fold_right] in F; lia | reflexivity].
  - change (Str.join ", " (map Json.dumps (x :: y :: l)))
      with (Json.dumps x ++ ", " ++ Str.join ", " (map Json.dumps (y :: l))).
    rewrite !append_assoc.
    rewrite (elements_more fuel _ acc x
               (Str.join ", " (map Json.dumps (y :: l)) ++ String "]" rest)).
    + rewrite skip_ws_starts_value.
      * rewrite IH; [|exact Rl|exact Pl|discriminate|lia].
        cbn [rev]. rewrite <- app_assoc. reflexivity.
      * cbn [map]. destruct (join_head ", " (Json.dumps y) (map Json.dumps l)
                               (String "]" rest)) as (t & ->).
        apply dumps_starts_value. cbn [forallb] in Pl.
        apply andb_true_iff in Pl. apply Pl.
    + apply Rx; [exact Px|lia|reflexivity].
Qed.

(** The text of one member of a dictionary *)
Definition member_text (kv : string * pyval) : string :=
  Json.dumps_str (fst kv) ++ ": " ++ Json.dumps (snd kv).

Lemma members_last : forall fuel tail k acc v t rest,
  Json.scan_string (S (String.length tail)) tail "" = Some (k, String ":" (String " " t)) ->
  Json.value fuel (Json.skip_ws t) = Some (v, String "}" rest) ->
  Json.members (S fuel) (String Py.dquote tail) acc
  = Some (PDict (Py.dict_set k v acc), rest).
Proof.
  intros fuel tail k acc v t rest H1 H2. cbn [Json.members].
  change (Str.code Py.dquote =? 34)%N with true. cbv iota. rewrite H1.
  change (Json.skip_ws (String ":" (String " " t))) with (String ":" (String " " t)).
  cbv iota. change (Str.code ":" =? 58)%N with true. cbv iota.
  change (Json.skip_ws (String " " t)) with (Json.skip_ws t). rewrite H2.
  reflexivity.
Qed.

Lemma members_more : forall fuel tail k acc v t t',
  Json.scan_string (S (String.length tail)) tail "" = Some (k, String ":" (String " " t)) ->
  Json.value fuel (Json.skip_ws t) = Some (v, String "," (String " " t')) ->
  Json.members (S fuel) (String Py.dquote tail) acc
  = Json.members fuel (Json.skip_ws t') (Py.dict_set k v acc).
Proof.
  intros fuel tail k acc v t t' H1 H2. cbn [Json.members].
  change (Str.code Py.dquote =? 34)%N with true. cbv iota. rewrite H1.
  change (Json.skip_ws (String ":" (String " " t))) with (String ":" (String " " t)).
  cbv iota. change (Str.code ":" =? 58)%N with true. cbv iota.
  change (Json.skip_ws (String " " t)) with (Json.skip_ws t). rewrite H2.
  reflexivity.
Qed.

Lemma dict_set_fresh : forall k v acc,
  ~ In k (map fst acc) -> Py.dict_set k v acc = (acc ++ [(k, v)])%list.
Proof.
  intros k v acc. induction acc as [|[k' v'] acc IH]; intros N; [reflexivity|].
  cbn [Py.dict_set app]. cbn [map fst In] in N.
  destruct (String.eqb k' k) eqn:E.
  - apply String.eqb_eq in E. contradiction N. left. exact E.
  - rewrite IH; [reflexivity|]. intros C. apply N. right. exact C.
Qed.

Lemma distinct_cons : forall k ks,
  distinct (k :: ks) = true -> ~ In k ks /\ distinct ks = true.
Proof.
  intros k ks H. cbn [distinct] in H. apply andb_true_iff in H. destruct H as [H1 H2].
  split; [|exact H2]. intros C. apply negb_true_iff in H1.
  assert (existsb (String.eqb k) ks = true).
  { apply existsb_exists. exists k. split; [exact C|apply String.eqb_refl]. }
  congruence.
Qed.

Lemma members_dumps : forall d,
  Forall (fun kv => reads_back (snd kv)) d ->
  forallb (fun kv => Str.is_ascii (fst kv) && plain (snd kv)) d = true ->
  d <> [] ->
  forall fuel rest acc,
    distinct (map fst d) = true ->
    (forall k, In k (map fst d) -> ~ In k (map fst acc)) ->
    (list_sum (map (fun kv => S (need (snd kv))) d) <= fuel)%nat ->
    Json.members fuel (Str.join ", " (map member_text d) ++ String "}" rest) acc
    = Some (PDict (acc ++ d), rest).
Proof.
  induction d as [|[k v] d IH]; intros R Pl N fuel rest acc D Fresh F;
    [contradiction N; reflexivity|].
  inversion R as [|? ? Rv Rd]; subst. cbn [snd] in Rv.
  cbn [forallb fst snd] in Pl. apply andb_true_iff in Pl. destruct Pl as [Pkv Pl].
  apply andb_true_iff in Pkv. destruct Pkv as [Ak Pv].
  cbn [map fst] in D. apply distinct_cons in D. destruct D as [Nk D].
  unfold list_sum in *. cbn [map fold_right snd] in F.
  destruct fuel as [|fuel]; [lia|].
  assert (Fk : ~ In k (map fst acc)).
  { apply Fresh. left. reflexivity. }
  destruct d as [|[k2 v2] d].
  - cbn [map Str.join]. unfold member_text at 1. cbn [fst snd].
    rewrite !append_assoc.
    destruct (scan_dumps_str k (": " ++ Json.dumps v ++ String "}" rest) Ak)
      as (tail & -> & Scan).
    rewrite (members_last fuel tail k acc v (Json.dumps v ++ String "}" rest) rest Scan).
    + rewrite dict_set_fresh by exact Fk. reflexivity.
    + rewrite skip_ws_starts_value by (apply dumps_starts_value; exact Pv).
      apply Rv; [exact Pv|lia|reflexivity].
  - change (Str.join ", " (map member_text ((k, v) :: (k2, v2) :: d)))
      with (member_text (k, v) ++ ", " ++ Str.join ", " (map member_text ((k2, v2) :: d))).
    unfold member_text at 1. cbn [fst snd]. rewrite !append_assoc.
    set (more := Str.join ", " (map member_text ((k2, v2) :: d)) ++ String "}" rest).
    destruct (scan_dumps_str k (": " ++ Json.dumps v ++ ", " ++ more) Ak)
      as (tail & -> & Scan).
    rewrite (members_more fuel tail k acc v (Json.dumps v ++ ", " ++ more) more Scan).
    + rewrite dict_set_fresh by exact Fk. subst more.
      rewrite skip_ws_starts_value.
      * rewrite IH; [|exact Rd|exact Pl|discriminate|exact D| |lia].
        { rewrite <- app_assoc. reflexivity. }
        intros k' K C. rewrite map_app in C. apply in_app_or in C.
        destruct C as [C|C].
        -- exact (Fresh k' (or_intror K) C).
        -- cbn [map fst In] in C. destruct C as [C|[]]. subst k'. exact (Nk K).
      * cbn [map]. destruct (join_head ", " (member_text (k2, v2)) (map member_text d)
                               (String "}" rest)) as (t & ->).
        unfold member_text. cbn [fst snd]. unfold Json.dumps_str. reflexivity.
    + rewrite skip_ws_starts_value by (apply dumps_starts_value; exact Pv).
      apply Rv; [exact Pv|lia|reflexivity].
Qed.

(** Every plain value is read back from its text. *)
Lemma value_dumps : forall v, reads_back v.
Proof.
  induction v as [| b | z | l | s | l IH | d IH] using pyval_induction;
    intros Pl fuel rest F D; (destruct fuel as [|fuel]; [cbn [need] in F; lia|]).
  - reflexivity.
  - destruct b; reflexivity.
  - cbn [Json.dumps]. destruct (of_Z_head z rest) as (c & t & E & H).
    pose proof (scan_number_of_Z z rest D) as S. rewrite E in *.
    apply value_number; assumption.
  - discriminate.
  - cbn [Json.dumps]. cbn [plain] in Pl.
    destruct (scan_dumps_str s rest Pl) as (tail & -> & Scan).
    cbn [Json.value]. cbv zeta. change (Str.code Py.dquote =? 34)%N with true.
    cbv iota. rewrite Scan. reflexivity.
  - cbn [Json.dumps plain need] in *. destruct l as [|x l].
    + reflexivity.
    + cbn [append]. rewrite append_assoc.
      change ("]" ++ rest) with (String "]" rest).
      pose proof (elements_dumps (x :: l) IH Pl ltac:(discriminate) fuel rest []
                    ltac:(lia)) as E.
      cbn [Json.value]. cbv zeta.
      change (Str.code "[" =? 34)%N with false.
      change (Str.code "[" =? 123)%N with false.
      change (Str.code "[" =? 91)%N with true. cbv iota.
      assert (Sv : starts_value (Str.join ", " (map Json.dumps (x :: l)) ++ String "]" rest)
                   = true).
      { cbn [map]. destruct (join_head ", " (Json.dumps x) (map Json.dumps l)
                               (String "]" rest)) as (t & ->).
        apply dumps_starts_value. cbn [forallb] in Pl.
        apply andb_true_iff in Pl. apply Pl. }
      rewrite (skip_ws_starts_value _ Sv).
      destruct (Str.join ", " (map Json.dumps (x :: l)) ++ String "]" rest)
        as [|c t] eqn:Et; [discriminate Sv|].
      cbn [starts_value] in Sv.
      destruct (Str.code c =? 93)%N; [rewrite andb_false_r in Sv; discriminate|].
      exact E.
  - change (Json.dumps (PDict d))
      with ("{" ++ Str.join ", " (map member_text d) ++ "}").
    cbn [plain need] in *. apply andb_true_iff in Pl. destruct Pl as [Pl Dk].
    destruct d as [|kv d].
    + reflexivity.
    + cbn [append]. rewrite append_assoc.
      change ("}" ++ rest) with (String "}" rest).
      pose proof (members_dumps (kv :: d) IH Pl ltac:(discriminate) fuel rest []
                    Dk ltac:(intros ? ? []) ltac:(lia)) as E.
      cbn [Json.value]. cbv zeta.
      change (Str.code "{" =? 34)%N with false.
      change (Str.code "{" =? 123)%N with true. cbv iota.
      assert (Sv : starts_value (Str.join ", " (map member_text (kv :: d)) ++ String "}" rest)
                   = true).
      { cbn [map]. destruct (join_head ", " (member_text kv) (map member_text d)
                               (String "}" rest)) as (t & ->).
        reflexivity. }
      rewrite (skip_ws_starts_value _ Sv).
      destruct (Str.join ", " (map member_text (kv :: d)) ++ String "}" rest)
        as [|c t] eqn:Et; [discriminate Sv|].
      cbn [starts_value] in Sv.
      destruct (Str.code c =? 125)%N; [rewrite andb_false_r in Sv; discriminate|].
      exact E.
Qed.

Lemma list_need_bound : forall (A : Type) (f : A -> string) (g : A -> nat) l,
  Forall (fun a => (g a <= 2 * String.length (f a) + 1)%nat) l ->
  (list_sum (map (fun a => S (g a)) l)
   <= 2 * String.length (Str.join ", " (map f l)) + 4)%nat.
Proof.
  intros A f g l H. unfold list_sum.
  induction H as [|x l Hx Hl IH]; [cbn; lia|].
  destruct l as [|y l].
  - cbn [map fold_right Str.join]. lia.
  - change (Str.join ", " (map f (x :: y :: l)))
      with (f x ++ ", " ++ Str.join ", " (map f (y :: l))).
    rewrite !length_append. cbn [map fold_right] in *. cbn [String.length]. lia.
Qed.

Lemma need_bound : forall v, (need v <= 2 * String.length (Json.dumps v) + 1)%nat.
Proof.
  induction v as [| b | z | l | s | l IH | d IH] using pyval_induction;
    try (cbn [need]; lia).
  - cbn [need Json.dumps]. pose proof (list_need_bound _ Json.dumps need l IH) as B.
    cbn [append String.length]. rewrite length_append. cbn [String.length]. lia.
  - change (Json.dumps (PDict d))
      with ("{" ++ Str.join ", " (map member_text d) ++ "}").
    cbn [need].
    assert (H : Forall (fun kv => (need (snd kv)
                                   <= 2 * String.length (member_text kv) + 1)%nat) d).
    { rewrite Forall_forall in *. intros kv K. specialize (IH kv K).
      unfold member_text. rewrite !length_append. lia. }
    pose proof (list_need_bound _ member_text (fun kv => need (snd kv)) d H) as B.
    cbn [append String.length]. rewrite length_append. cbn [String.length]. lia.
Qed.

(** The round trip: [json.loads] reads back what [json.dumps] wrote. *)
Lemma loads_dumps : forall v, plain v = true -> Json.loads (Json.dumps v) = Ok v.
Proof.
  intros v Pl. unfold Json.loads.
  pose proof (dumps_starts_value v "" Pl) as Sv. rewrite append_empty_r in Sv.
  rewrite (skip_ws_starts_value _ Sv).
  pose proof (value_dumps v Pl (2 * String.length (Json.dumps v) + 2)%nat "") as R.
  rewrite append_empty_r in R. rewrite R; [reflexivity| |reflexivity].
  pose proof (need_bound v). lia.
Qed.

(** *** What the store gives back *)

Lemma is_ascii_app : forall s t,
  Str.is_ascii (s ++ t) = Str.is_ascii s && Str.is_ascii t.
Proof.
  induction s as [|c s IH]; intros t; [reflexivity|].
  cbn [append Str.is_ascii Str.forallb]. fold (Str.is_ascii (s ++ t)). fold (Str.is_ascii s).
  rewrite IH, andb_assoc. reflexivity.
Qed.

Lemma is_ascii_string_of_uint : forall d, Str.is_ascii (NilEmpty.string_of_uint d) = true.
Proof.
  induction d; cbn [NilEmpty.string_of_uint Str.is_ascii Str.forallb];
    try reflexivity; fold (Str.is_ascii (NilEmpty.string_of_uint d)); rewrite IHd;
    reflexivity.
Qed.

Lemma is_ascii_of_Z : forall z, Str.is_ascii (Str.of_Z z) = true.
Proof.
  intros z. unfold Str.of_Z, NilZero.string_of_int.
  destruct (Z.to_int z) as [d|d]; unfold NilZero.string_of_uint.
  - destruct d; try reflexivity; apply is_ascii_string_of_uint.
  - cbn [Str.is_ascii Str.forallb].
    destruct d; try reflexivity; apply is_ascii_string_of_uint.
Qed.

Lemma is_ascii_pad : forall w z, Str.is_ascii (Str.pad w z) = true.
Proof.
  intros w z. unfold Str.pad. rewrite is_ascii_app, is_ascii_of_Z, andb_true_r.
  generalize (w - String.length (Str.of_Z z))%nat as n.
  induction n as [|n IH]; [reflexivity|]. cbn [Str.zeros Str.is_ascii Str.forallb].
  exact IH.
Qed.

Lemma is_ascii_isoformat : forall t, Str.is_ascii (Clock.isoformat t) = true.
Proof.
  intros t. unfold Clock.isoformat, Clock.hms.
  destruct (Clock.civil (Clock.seconds t / 86400)) as [[y m] d].
  destruct (t mod 1000000 =? 0);
    repeat (rewrite is_ascii_app || rewrite is_ascii_pad); reflexivity.
Qed.

Lemma plain_lookup : forall d k x,
  plain (PDict d) = true -> Py.dict_lookup k d = Some x -> plain x = true.
Proof.
  intros d k x H L. cbn [plain] in H. apply andb_true_iff in H. destruct H as [H _].
  induction d as [|[k' v] d IH]; [discriminate|].
  cbn [forallb fst snd] in H. apply andb_true_iff in H. destruct H as [H1 H2].
  apply andb_true_iff in H1. destruct H1 as [_ Pv].
  cbn [Py.dict_lookup] in L. destruct (String.eqb k' k).
  - inversion L; subst. exact Pv.
  - exact (IH H2 L).
Qed.

Lemma plain_floats_one_line : forall v, plain v = true -> floats_one_line v = true.
Proof.
  induction v as [| b | z | l | s | l IH | d IH] using pyval_induction; intros H;
    try reflexivity.
  - discriminate.
  - cbn [plain floats_one_line] in *. rewrite forallb_forall in *.
    rewrite Forall_forall in IH. intros x Hx. apply IH; [exact Hx|]. apply H. exact Hx.
  - cbn [plain floats_one_line] in *. apply andb_true_iff in H. destruct H as [H _].
    rewrite forallb_forall in *. rewrite Forall_forall in IH.
    intros kv K. apply IH; [exact K|]. specialize (H kv K).
    apply andb_true_iff in H. apply H.
Qed.



(** ** The replay route *)

(** The store lock taken and released *)
Definition store_locked (w : World) : World :=
  set_trace (trace w ++ [EAcquire "_lock"; ERelease "_lock"]) w.

(** [read_all] as a whole: the entries and the world afterwards *)
Lemma read_all_world : forall w,
  dead_letter.read_all w
  = (Ok (dead_letter.parse_lines (stored_lines w)),
     match assoc dead_letter.DEAD_LETTER_FILE (files w) with
     | Some _ => store_locked w
     | None => w
     end).
Proof.
  intros w. unfold dead_letter.read_all, bind, File.exists_, stored_lines.
  destruct (assoc dead_letter.DEAD_LETTER_FILE (files w)) as [content|] eqn:E;
    [|reflexivity].
  cbn [negb]. unfold with_lock, emit, bind, File.read_lines, lift. cbv beta.
  cbn [files set_trace]. rewrite E, read_entries_parse_lines. unfold store_locked.
  cbn [trace set_trace]. rewrite <- app_assoc. reflexivity.
Qed.

(** X13.  When the store has no entry that can be read -- the file is
    missing, or every line of it is blank or torn -- [retry_failed] answers
    that the queue is empty and does nothing: no chat is replayed, nothing is
    sent, no counter moves, and the store is not archived, so its torn lines
    stay where they are (and [count] keeps counting them). *)
Theorem retry_failed_nothing_to_replay : forall w,
  dead_letter.parse_lines (stored_lines w) = [] ->
  retry_failed w
  = (Ok (PDict [("message", PStr "Dead letter queue is empty"); ("retried", PInt 0)]),
     match assoc dead_letter.DEAD_LETTER_FILE (files w) with
     | Some _ => store_locked w
     | None => w
     end).
Proof.
  intros w H. unfold retry_failed. unfold bind at 1.
  rewrite read_all_world, H. reflexivity.
Qed.

Lemma retry_failed_nothing_to_replay_witness :
  retry_failed torn_store
  = (Ok (PDict [("message", PStr "Dead letter queue is empty"); ("retried", PInt 0)]),
     store_locked torn_store)
  /\ fst (dead_letter.count (store_locked torn_store)) = Ok 1.
Proof.
  split.
  - apply (retry_failed_nothing_to_replay torn_store). reflexivity.
  - reflexivity.
Defined.

Lemma Keeps_files_replay_entry : forall entry results,
  Keeps files (replay_entry entry results).
Proof.
  intros entry results. unfold replay_entry.
  keeps_using ltac:(first [ apply (proj2 (Calm_process_chat_webhook _))
                          | apply Keeps_files_record_event ]).
Qed.

Lemma Keeps_files_replay_all : forall entries results,
  Keeps files (replay_all entries results).
Proof.
  induction entries as [|entry rest IH]; intros results.
  - apply Keeps_ret.
  - cbn [replay_all]. apply Keeps_bind; [apply Keeps_files_replay_entry|intros ?; apply IH].
Qed.

(** A turn of the replay adds one result for the entry, or two when the run
    returned and recording it raised. *)
Lemma replay_entry_adds : forall entry results w results' w',
  replay_entry entry results w = (Ok results', w') ->
  exists added,
    results' = (results ++ added)%list
    /\ (1 <= List.length added <= 2)%nat.
Proof.
  intros entry results w results' w' H. unfold replay_entry in H.
  bind_ok H chat w1 E1. bind_ok H chat_id w2 E2. bind_ok H processed w3 E3.
  destruct processed as [[result line]|e].
  - bind_ok H recorded w4 E4. destruct recorded as [x|e]; inversion H; subst.
    + exists [line]. split; [reflexivity|cbn; lia].
    + eexists [line; _]. rewrite <- app_assoc. split; [reflexivity|cbn; lia].
  - inversion H; subst. eexists [_]. split; [reflexivity|cbn; lia].
Qed.

Lemma replay_all_adds : forall entries results w results' w',
  replay_all entries results w = (Ok results', w') ->
  exists added,
    results' = (results ++ added)%list
    /\ (List.length entries <= List.length added <= 2 * List.length entries)%nat.
Proof.
  induction entries as [|entry rest IH]; intros results w results' w' H.
  - inversion H; subst. exists []. rewrite app_nil_r. split; [reflexivity|cbn; lia].
  - cbn [replay_all] in H. bind_ok H mid w1 E1.
    destruct (replay_entry_adds _ _ _ _ _ E1) as (a1 & -> & L1).
    destruct (IH _ _ _ _ H) as (a2 & -> & L2).
    exists (a1 ++ a2)%list. rewrite app_assoc. split; [reflexivity|].
    rewrite length_app. cbn [List.length]. lia.
Qed.

Lemma parse_lines_le_count : forall ls,
  Z.of_nat (List.length (dead_letter.parse_lines ls)) <= dead_letter.count_lines ls.
Proof.
  intros ls. rewrite count_lines_filter, parse_lines_filter.
  pose proof (filter_both_le nonblank parses ls). lia.
Qed.

Lemma filter_disjoint_length : forall (A : Type) (f g : A -> bool) l,
  (forall x, f x = true -> g x = false) ->
  (List.length (filter f l) + List.length (filter g l) <= List.length l)%nat.
Proof.
  intros A f g l D. induction l as [|x l IH]; [reflexivity|].
  cbn [filter]. destruct (f x) eqn:F.
  - rewrite (D x F). cbn [List.length]. lia.
  - destruct (g x); cbn [List.length]; lia.
Qed.

Lemma count_action_sum : forall results,
  count_action "created" results + count_action "error" results
  <= Z.of_nat (List.length results).
Proof.
  intros results. unfold count_action.
  pose proof (filter_disjoint_length pyval
    (fun r => match Py.getitem r "action" with
              | Ok a => Py.eq_str a "created"
              | Raise _ => false
              end)
    (fun r => match Py.getitem r "action" with
              | Ok a => Py.eq_str a "error"
              | Raise _ => false
              end) results) as D.
  assert (Dis : forall x,
            match Py.getitem x "action" with
            | Ok a => Py.eq_str a "created"
            | Raise _ => false
            end = true ->
            match Py.getitem x "action" with
            | Ok a => Py.eq_str a "error"
            | Raise _ => false
            end = false).
  { intros x. destruct (Py.getitem x "action") as [a|e]; [|reflexivity].
    destruct a; cbn [Py.eq_str]; try discriminate.
    intros E. apply String.eqb_eq in E. subst. reflexivity. }
  specialize (D Dis). lia.
Qed.

(** The answer of [retry_failed] after a replay *)
Definition replay_report (results : list pyval) (archive : string) : pyval :=
  PDict [("retried", PInt (Z.of_nat (List.length results)));
         ("created", PInt (count_action "created" results));
         ("failed", PInt (count_action "error" results));
         ("archived", PStr archive);
         ("results", PList results)].

(** X14.  A replay empties the store whatever becomes of the entries.  When
    the store has at least one readable entry and [retry_failed] returns, for
    every behaviour of the network and of Salesforce: the store file is gone
    and its whole content, the lines that could not be read included, is in
    the archive the answer names; no other file has changed; [count] returns
    0.  The answer lists one result per entry replayed (two for an entry
    whose run returned and could not be recorded), and its counts of created
    and failed runs do not exceed the number of results.  No failed run is
    written back. *)
Theorem retry_failed_empties_the_store : forall w body w',
  dead_letter.parse_lines (stored_lines w) <> [] ->
  retry_failed w = (Ok body, w') ->
  exists content t results,
    assoc dead_letter.DEAD_LETTER_FILE (files w) = Some content
    /\ assoc dead_letter.DEAD_LETTER_FILE (files w') = None
    /\ assoc (archive_name t) (files w') = Some content
    /\ (forall name,
          name <> dead_letter.DEAD_LETTER_FILE -> name <> archive_name t ->
          assoc name (files w') = assoc name (files w))
    /\ fst (dead_letter.count w') = Ok 0
    /\ body = replay_report results (archive_name t)
    /\ (List.length (dead_letter.parse_lines (stored_lines w))
        <= List.length results
        <= 2 * List.length (dead_letter.parse_lines (stored_lines w)))%nat
    /\ count_action "created" results + count_action "error" results
       <= Z.of_nat (List.length results).
Proof.
  intros w body w' Hentries H. unfold retry_failed in H.
  unfold bind at 1 in H. rewrite read_all_world in H.
  set (w0 := match assoc dead_letter.DEAD_LETTER_FILE (files w) with
             | Some _ => store_locked w
             | None => w
             end) in *.
  assert (F0 : files w0 = files w).
  { subst w0. destruct (assoc dead_letter.DEAD_LETTER_FILE (files w)); reflexivity. }
  destruct (dead_letter.parse_lines (stored_lines w)) as [|entry rest] eqn:E;
    [contradiction Hentries; reflexivity|].
  bind_ok H results w1 R.
  pose proof (Keeps_files_replay_all _ _ _ _ _ R) as F1.
  destruct (replay_all_adds _ _ _ _ _ R) as (added & -> & L).
  cbn [app] in *.
  assert (S1 : stored_lines w1 = stored_lines w).
  { unfold stored_lines. rewrite F1, F0. reflexivity. }
  assert (C : dead_letter.count_lines (stored_lines w1) <> 0).
  { rewrite S1. pose proof (parse_lines_le_count (stored_lines w)) as P.
    rewrite E in P. cbn [List.length] in P. lia. }
  destruct (clear_moves_the_store w1 C) as (content & A & Run).
  bind_ok H cleared w2 K. rewrite Run in K. inversion K; subst cleared w2. clear K.
  inversion H; subst body w'. clear H.
  exists content, (clock w1), added.
  cbn [files set_trace set_files].
  pose proof (archived_store_is_gone (clock w1) content (files w1)) as Gone.
  split; [rewrite <- F0, <- F1; exact A|].
  split; [exact Gone|]. split; [apply assoc_write|]. split.
  { intros name N1 N2. rewrite assoc_write_other by exact N2.
    rewrite assoc_remove_other by exact N1. rewrite F1, F0. reflexivity. }
  split.
  { rewrite count_run. unfold stored_lines. cbn [files set_trace set_files].
    rewrite Gone. reflexivity. }
  split; [reflexivity|]. split; [exact L|apply count_action_sum].
Qed.

Lemma retry_failed_empties_the_store_witness :
  exists content t results,
    assoc dead_letter.DEAD_LETTER_FILE (files replay_start) = Some content
    /\ assoc dead_letter.DEAD_LETTER_FILE (files (snd (retry_failed replay_start))) = None
    /\ assoc (archive_name t) (files (snd (retry_failed replay_start))) = Some content
    /\ (forall name,
          name <> dead_letter.DEAD_LETTER_FILE -> name <> archive_name t ->
          assoc name (files (snd (retry_failed replay_start)))
          = assoc name (files replay_start))
    /\ fst (dead_letter.count (snd (retry_failed replay_start))) = Ok 0
    /\ PDict [("retried", PInt 1); ("created", PInt 0); ("failed", PInt 1);
              ("archived", PStr "dead_letter_archive_20251103_095500.jsonl");
              ("results",
               PList [PDict [("chat_id", PStr "chat_0123456789abcdef");
                             ("action", PStr "error");
                             ("detail", PStr "HTTP 500: boom")]])]
       = replay_report results (archive_name t)
    /\ (List.length (dead_letter.parse_lines (stored_lines replay_start))
        <= List.length results
        <= 2 * List.length (dead_letter.parse_lines (stored_lines replay_start)))%nat
    /\ count_action "created" results + count_action "error" results
       <= Z.of_nat (List.length results).
Proof.
  apply (retry_failed_empties_the_store replay_start).
  - vm_compute. discriminate.
  - vm_compute. reflexivity.
Defined.

(** ** Credential resolution without the network *)

(** The requests sent so far *)
Definition requests (t : list event) : list Request :=
  flat_map (fun e => match e with ENet r => [r] | _ => [] end) t.

(** The world after a resolution that took the lock, logged [lines] under
    the client's logger and left the cache as [cache] says *)
Definition resolved (lines : list event) (cache : World -> World) (w : World) : World :=
  set_trace (trace w ++ [EAcquire "_token_lock"] ++ lines ++ [ERelease "_token_lock"])
    (cache w).

Definition var (name : string) (w : World) : option string := assoc name (environ w).

(** Mode 1 as it runs: the pair of the environment is returned and cached,
    one line is logged. *)
Lemma token_mode_run : forall w access instance,
  cache_fresh w = false ->
  var "SF_ACCESS_TOKEN" w = Some access -> access <> "" ->
  var "SF_INSTANCE_URL" w = Some instance -> instance <> "" ->
  get_salesforce_credentials w
  = (Ok (PStr access, PStr instance),
     resolved [ELog "sf_client" "DEBUG" "Using Token mode (SF_ACCESS_TOKEN)"]
       (set_cache (PStr access) (PStr instance) (Some (clock w))) w).
Proof.
  intros w access instance Fresh Ha Na Hi Ni. unfold var in *.
  unfold get_salesforce_credentials, with_lock. cbn [emit].
  assert (F : cache_fresh (set_trace (trace w ++ [EAcquire "_token_lock"]) w) = false)
    by exact Fresh.
  rewrite F. unfold resolve_chain. unfold bind at 1 2.
  cbn [getenv environ set_trace]. rewrite Ha, Hi. cbn [env_set].
  apply String.eqb_neq in Na. apply String.eqb_neq in Ni. rewrite Na, Ni. cbn [negb andb].
  unfold bind, sf_log, log, emit, remember, resolved.
  cbn [env_or trace set_trace set_cache clock]. rewrite <- !app_assoc. reflexivity.
Qed.

Lemma requests_app : forall t1 t2, requests (t1 ++ t2) = (requests t1 ++ requests t2)%list.
Proof. intros t1 t2. unfold requests. apply flat_map_app. Qed.

(** X15.  Token mode comes first.  When the cache has no fresh token and the
    two variables SF_ACCESS_TOKEN and SF_INSTANCE_URL are set and not empty,
    [get_salesforce_credentials] returns their values, whatever else is
    configured (connector, refresh token, password); it sends no request, and
    it caches the pair with the current time. *)
Theorem token_mode_comes_first : forall w access instance,
  cache_fresh w = false ->
  var "SF_ACCESS_TOKEN" w = Some access -> access <> "" ->
  var "SF_INSTANCE_URL" w = Some instance -> instance <> "" ->
  get_salesforce_credentials w
  = (Ok (PStr access, PStr instance),
     resolved [ELog "sf_client" "DEBUG" "Using Token mode (SF_ACCESS_TOKEN)"]
       (set_cache (PStr access) (PStr instance) (Some (clock w))) w)
  /\ requests (trace (snd (get_salesforce_credentials w))) = requests (trace w)
  /\ net_script (snd (get_salesforce_credentials w)) = net_script w.
Proof.
  intros w access instance Fresh Ha Na Hi Ni.
  rewrite (token_mode_run w access instance Fresh Ha Na Hi Ni).
  split; [reflexivity|]. cbn [snd]. split; [|reflexivity].
  unfold resolved. cbn [trace set_trace set_cache].
  rewrite requests_app. cbn [requests flat_map app]. rewrite app_nil_r. reflexivity.
Qed.

Lemma token_mode_comes_first_witness :
  get_salesforce_credentials (token_world [])
  = (Ok (PStr "tok", PStr "https://sf.example"),
     resolved [ELog "sf_client" "DEBUG" "Using Token mode (SF_ACCESS_TOKEN)"]
       (set_cache (PStr "tok") (PStr "https://sf.example")
          (Some (clock (token_world [])))) (token_world []))
  /\ requests (trace (snd (get_salesforce_credentials (token_world []))))
     = requests (trace (token_world []))
  /\ net_script (snd (get_salesforce_credentials (token_world [])))
     = net_script (token_world []).
Proof.
  apply (token_mode_comes_first (token_world []) "tok" "https://sf.example").
  - reflexivity.
  - reflexivity.
  - discriminate.
  - reflexivity.
  - discriminate.
Defined.

(** The connector of mode 2 is not configured: no identity token, or no host
    name. *)
Definition connector_off (w : World) : bool :=
  negb (env_set (var "REPL_IDENTITY" w) || env_set (var "WEB_REPL_RENEWAL" w))
  || negb (env_set (var "REPLIT_CONNECTORS_HOSTNAME" w)).

Lemma connector_off_run : forall w,
  connector_off w = true -> connector_mode w = (Ok None, w).
Proof.
  intros w H. unfold connector_off, var in H.
  unfold connector_mode, try_except, _refresh_via_connector.
  unfold bind at 1 2 3 4. cbn [getenv].
  destruct (env_set (assoc "REPL_IDENTITY" (environ w))) eqn:I.
  - cbn [orb negb] in H.
    destruct (env_set (assoc "REPLIT_CONNECTORS_HOSTNAME" (environ w))); [discriminate|].
    reflexivity.
  - destruct (env_set (assoc "WEB_REPL_RENEWAL" (environ w))) eqn:R.
    + cbn [orb negb] in H.
      destruct (env_set (assoc "REPLIT_CONNECTORS_HOSTNAME" (environ w))); [discriminate|].
      reflexivity.
    + reflexivity.
Qed.

(** Mode 1 is not configured. *)
Definition token_mode_off (w : World) : bool :=
  negb (env_set (var "SF_ACCESS_TOKEN" w) && env_set (var "SF_INSTANCE_URL" w)).

(** The chain from mode 3 on, when modes 1 and 2 are not configured *)
Lemma resolve_chain_oauth : forall w,
  token_mode_off w = true -> connector_off w = true ->
  resolve_chain w
  = (if env_set (var "SF_REFRESH_TOKEN" w) && env_set (var "SF_CLIENT_ID" w) then
       '(token, instance) <- _refresh_via_oauth ;;
       remember token instance ;;
       sf_log "INFO" ("Authenticated via refresh token: " ++ Py.str instance) ;;
       ret (token, instance)
     else if env_set (var "SF_CLIENT_ID" w) && env_set (var "SF_USERNAME" w) then
       '(token, instance) <- _refresh_via_password ;;
       remember token instance ;;
       sf_log "INFO" ("Authenticated via username-password: " ++ Py.str instance) ;;
       ret (token, instance)
     else raise no_credentials) w.
Proof.
  intros w T C. unfold token_mode_off, var in *. apply negb_true_iff in T.
  unfold resolve_chain. unfold bind at 1 2. cbn [getenv]. rewrite T.
  unfold bind at 1. rewrite (connector_off_run w C).
  unfold bind at 1 2. cbn [getenv].
  destruct (env_set (assoc "SF_REFRESH_TOKEN" (environ w))
            && env_set (assoc "SF_CLIENT_ID" (environ w))); [reflexivity|].
  unfold bind at 1. cbn [getenv]. reflexivity.
Qed.

Lemma locked_resolution : forall w r w1,
  cache_fresh w = false ->
  resolve_chain (set_trace (trace w ++ [EAcquire "_token_lock"]) w) = (r, w1) ->
  get_salesforce_credentials w
  = (r, set_trace (trace w1 ++ [ERelease "_token_lock"]) w1).
Proof.
  intros w r w1 F H. unfold get_salesforce_credentials, with_lock. cbn [emit].
  assert (F' : cache_fresh (set_trace (trace w ++ [EAcquire "_token_lock"]) w) = false)
    by exact F.
  rewrite F', H. reflexivity.
Qed.

(** X16.  With nothing configured -- no fresh token in the cache, mode 1
    and the connector off, and neither the pair SF_REFRESH_TOKEN and
    SF_CLIENT_ID nor the pair SF_CLIENT_ID and SF_USERNAME set --
    [get_salesforce_credentials] raises the RuntimeError that lists the four
    ways to configure the client.  It sends no request and logs nothing, the
    lock is released, and the cache is left as it was. *)
Theorem no_credentials_configured : forall w,
  cache_fresh w = false ->
  token_mode_off w = true -> connector_off w = true ->
  env_set (var "SF_REFRESH_TOKEN" w) && env_set (var "SF_CLIENT_ID" w) = false ->
  env_set (var "SF_CLIENT_ID" w) && env_set (var "SF_USERNAME" w) = false ->
  get_salesforce_credentials w = (Raise no_credentials, resolved [] (fun w => w) w)
  /\ exn_cls no_credentials = RuntimeError.
Proof.
  intros w F T C R P. split; [|reflexivity].
  set (w0 := set_trace (trace w ++ [EAcquire "_token_lock"]) w).
  assert (H : resolve_chain w0 = (Raise no_credentials, w0)).
  { rewrite resolve_chain_oauth by assumption.
    change (var "SF_REFRESH_TOKEN" w0) with (var "SF_REFRESH_TOKEN" w).
    change (var "SF_CLIENT_ID" w0) with (var "SF_CLIENT_ID" w).
    change (var "SF_USERNAME" w0) with (var "SF_USERNAME" w).
    rewrite R, P. reflexivity. }
  rewrite (locked_resolution w _ _ F H). unfold resolved, w0.
  cbn [trace set_trace app]. rewrite <- app_assoc. reflexivity.
Qed.

Lemma no_credentials_configured_witness :
  get_salesforce_credentials (bare_world [])
  = (Raise no_credentials, resolved [] (fun w => w) (bare_world []))
  /\ exn_cls no_credentials = RuntimeError.
Proof.
  apply (no_credentials_configured (bare_world [])); reflexivity.
Defined.

Definition refresh_incomplete : exn :=
  mkExn RuntimeError
    "Refresh Token mode requires: SF_CLIENT_ID, SF_CLIENT_SECRET, SF_REFRESH_TOKEN".

(** X17.  A refresh-token mode that is half configured stops the chain.
    With modes 1 and 2 off, SF_REFRESH_TOKEN and SF_CLIENT_ID set and
    SF_CLIENT_SECRET missing or empty, [get_salesforce_credentials] raises
    'Refresh Token mode requires: ...' without sending a request; the
    password mode is not tried, also when SF_USERNAME and SF_PASSWORD are
    set. *)
Theorem refresh_mode_needs_the_secret : forall w,
  cache_fresh w = false ->
  token_mode_off w = true -> connector_off w = true ->
  env_set (var "SF_REFRESH_TOKEN" w) = true ->
  env_set (var "SF_CLIENT_ID" w) = true ->
  env_set (var "SF_CLIENT_SECRET" w) = false ->
  get_salesforce_credentials w = (Raise refresh_incomplete, resolved [] (fun w => w) w).
Proof.
  intros w F T C R I S.
  set (w0 := set_trace (trace w ++ [EAcquire "_token_lock"]) w).
  assert (H : resolve_chain w0 = (Raise refresh_incomplete, w0)).
  { rewrite resolve_chain_oauth by assumption.
    change (var "SF_REFRESH_TOKEN" w0) with (var "SF_REFRESH_TOKEN" w).
    change (var "SF_CLIENT_ID" w0) with (var "SF_CLIENT_ID" w).
    rewrite R, I. cbn [andb]. unfold var in *.
    unfold bind at 1. unfold _refresh_via_oauth. unfold bind at 1 2 3 4.
    cbn [getenv]. change (environ w0) with (environ w).
    rewrite I, S. reflexivity. }
  rewrite (locked_resolution w _ _ F H). unfold resolved, w0.
  cbn [trace set_trace app]. rewrite <- app_assoc. reflexivity.
Qed.

(** A process with a refresh token, a client id, a user name and a password,
    and no client secret *)
Definition half_configured : World :=
  mkWorld [("SF_REFRESH_TOKEN", "r"); ("SF_CLIENT_ID", "c");
           ("SF_USERNAME", "u"); ("SF_PASSWORD", "p")]
          (fun l => l) 900 "" "" 30 1800 PNone PNone None 1762163700000000
          [] (fun _ => mkExn ConnectionError "the network is down") [] [] stats0.

Lemma refresh_mode_needs_the_secret_witness :
  get_salesforce_credentials half_configured
  = (Raise refresh_incomplete, resolved [] (fun w => w) half_configured).
Proof.
  apply (refresh_mode_needs_the_secret half_configured); reflexivity.
Defined.

(** ** The authenticated calls *)

Definition api_url (instance_url : pyval) (path : string) : string :=
  Py.str instance_url ++ "/services/data/" ++ SF_API_VERSION ++ path.

(** The request an authenticated call sends with the given credentials *)
Definition api_request (method : string) (content : body) (path : string)
           (token instance_url : pyval) (timeout : Z) : Request :=
  mkRequest method (api_url instance_url path)
            (bearer token ++ [("Content-Type", "application/json")]) content timeout.

(** One authenticated exchange: the credentials are resolved and the request
    is sent. *)
Definition authenticated (method : string) (content : body) (path : string)
  : M (string * Response) :=
  '(access_token, instance_url) <- get_salesforce_credentials ;;
  timeout <- (fun w => (Ok (SF_REQUEST_TIMEOUT w), w)) ;;
  resp <- http (api_request method content path access_token instance_url timeout) ;;
  ret (api_url instance_url path, resp).

(** The shape [sf_api_get] and [sf_api_post] share *)
Definition api_call (method : string) (content : body) (path : string) : M pyval :=
  '(url, resp) <- authenticated method content path ;;
  '(url, resp) <-
     (if status_code resp =? 401
      then _invalidate_token_cache ;; authenticated method content path
      else ret (url, resp)) ;;
  raise_for_status url resp ;;
  resp_json resp.

(** What the caller gets from the answer that is kept: an HTTPError for a
    status from 400 to 599, the parsed body otherwise. *)
Definition answer_of (url : string) (resp : Response) : res pyval :=
  if (400 <=? status_code resp) && (status_code resp <? 600)
  then Raise (mkExn HTTPError
                (Str.of_Z (status_code resp) ++ " Error for url: " ++ url))
  else Json.loads (text resp).

Lemma answer_of_run : forall url resp w,
  (raise_for_status url resp ;; resp_json resp) w = (answer_of url resp, w).
Proof.
  intros url resp w. unfold bind, raise_for_status, answer_of, resp_json, lift.
  destruct ((400 <=? status_code resp) && (status_code resp <? 600)); reflexivity.
Qed.

(** The world after a request was sent and answered *)
Definition exchanged (req : Request) (dt : Z) (rest : list (Request -> net_outcome))
           (w : World) : World :=
  advance dt (set_net_script rest (set_trace (trace w ++ [ENet req]) w)).

Lemma http_answered : forall req w f rest dt r,
  net_script w = f :: rest -> f req = Responds dt r ->
  http req w = (Ok r, exchanged req dt rest w).
Proof.
  intros req w f rest dt r S F. unfold http. cbn [emit net_script set_trace].
  rewrite S, F. reflexivity.
Qed.

(** In token mode a resolution succeeds without the network; after an
    invalidation it returns the pair of the environment. *)
Lemma token_resolution : forall w access instance,
  var "SF_ACCESS_TOKEN" w = Some access -> access <> "" ->
  var "SF_INSTANCE_URL" w = Some instance -> instance <> "" ->
  exists t u w1,
    get_salesforce_credentials w = (Ok (t, u), w1)
    /\ environ w1 = environ w /\ net_script w1 = net_script w
    /\ SF_REQUEST_TIMEOUT w1 = SF_REQUEST_TIMEOUT w
    /\ requests (trace w1) = requests (trace w)
    /\ (cache_fresh w = false -> t = PStr access /\ u = PStr instance).
Proof.
  intros w access instance Ha Na Hi Ni.
  destruct (cache_fresh w) eqn:F.
  - exists (cached_token w), (cached_instance w), (locked w). split.
    + unfold get_salesforce_credentials, with_lock. cbn [emit].
      assert (F' : cache_fresh (set_trace (trace w ++ [EAcquire "_token_lock"]) w) = true)
        by exact F.
      rewrite F'. unfold locked. cbn [trace set_trace cached_token cached_instance].
      rewrite <- app_assoc. reflexivity.
    + unfold locked. cbn [environ net_script SF_REQUEST_TIMEOUT trace set_trace].
      rewrite requests_app. cbn [requests flat_map app]. rewrite app_nil_r.
      repeat split; try reflexivity; discriminate.
  - rewrite (token_mode_run w access instance F Ha Na Hi Ni).
    do 3 eexists. split; [reflexivity|].
    unfold resolved. cbn [environ net_script SF_REQUEST_TIMEOUT trace set_trace set_cache].
    rewrite requests_app. cbn [requests flat_map app]. rewrite app_nil_r.
    repeat split; reflexivity.
Qed.

Lemma authenticated_run : forall method content path w t u w1 f rest dt r,
  get_salesforce_credentials w = (Ok (t, u), w1) ->
  net_script w1 = f :: rest ->
  f (api_request method content path t u (SF_REQUEST_TIMEOUT w1)) = Responds dt r ->
  authenticated method content path w
  = (Ok (api_url u path, r),
     exchanged (api_request method content path t u (SF_REQUEST_TIMEOUT w1)) dt rest w1).
Proof.
  intros method content path w t u w1 f rest dt r G S F.
  unfold authenticated. unfold bind at 1. rewrite G.
  unfold bind at 1. unfold bind at 1.
  rewrite (http_answered _ w1 f rest dt r S F). reflexivity.
Qed.

(** The world after [_invalidate_token_cache] *)
Definition invalidated (w : World) : World :=
  set_trace (trace w ++ [EAcquire "_token_lock"; ERelease "_token_lock"])
    (set_cache PNone (cached_instance w) None w).

Lemma invalidate_run : forall w, _invalidate_token_cache w = (Ok tt, invalidated w).
Proof.
  intros w. unfold _invalidate_token_cache, with_lock, invalidated. cbn [emit].
  cbn [trace set_trace set_cache cached_instance]. rewrite <- app_assoc. reflexivity.
Qed.

(** X18.  [sf_api_get] and [sf_api_post] try again once, and only once, when
    the answer is 401.  In token mode, with the network answering:
    - an answer other than 401 is kept after one request (an HTTPError is
      raised for a status from 400 to 599, the body is parsed otherwise);
    - after a 401 the cached token is dropped, the credentials are resolved
      again (here: read from the environment) and the request is sent a
      second time with them; the second answer is kept whatever it is, a
      second 401 included, which raises HTTPError.  Two requests are sent and
      never a third. *)
Theorem api_calls_retry_once_on_401 :
  (forall path, sf_api_get path = api_call "GET" NoBody path)
  /\
  (forall path content, sf_api_post path content = api_call "POST" (JsonBody content) path)
  /\
  (forall method content path w access instance,
     var "SF_ACCESS_TOKEN" w = Some access -> access <> "" ->
     var "SF_INSTANCE_URL" w = Some instance -> instance <> "" ->
     exists t u,
       fst (get_salesforce_credentials w) = Ok (t, u)
       /\ let timeout := SF_REQUEST_TIMEOUT w in
          let first := api_request method content path t u timeout in
          let second := api_request method content path (PStr access) (PStr instance)
                          timeout in
          (forall f rest dt r,
             net_script w = f :: rest -> f first = Responds dt r ->
             status_code r <> 401 ->
             exists w',
               api_call method content path w = (answer_of (api_url u path) r, w')
               /\ requests (trace w') = (requests (trace w) ++ [first])%list
               /\ net_script w' = rest)
          /\
          (forall f1 f2 rest dt1 r1 dt2 r2,
             net_script w = f1 :: f2 :: rest ->
             f1 first = Responds dt1 r1 -> status_code r1 = 401 ->
             f2 second = Responds dt2 r2 ->
             exists w',
               api_call method content path w
               = (answer_of (api_url (PStr instance) path) r2, w')
               /\ requests (trace w') = (requests (trace w) ++ [first; second])%list
               /\ net_script w' = rest)).
Proof.
  split; [reflexivity|]. split; [reflexivity|].
  intros method content path w access instance Ha Na Hi Ni.
  destruct (token_resolution w access instance Ha Na Hi Ni)
    as (t & u & w1 & G & E1 & S1 & T1 & R1 & _).
  exists t, u. split; [rewrite G; reflexivity|]. cbv zeta. split.
  - intros f rest dt r S F N.
    rewrite <- S1 in S. rewrite <- T1 in F.
    pose proof (authenticated_run method content path w t u w1 f rest dt r G S F) as A.
    unfold api_call. unfold bind at 1. rewrite A.
    apply Z.eqb_neq in N. rewrite N. unfold bind at 1. cbn [ret].
    rewrite answer_of_run. eexists. split; [reflexivity|].
    unfold exchanged, advance. cbn [trace net_script set_trace set_net_script set_clock].
    rewrite requests_app, R1, T1. split; reflexivity.
  - intros f1 f2 rest dt1 r1 dt2 r2 S F1 N F2.
    rewrite <- S1 in S. rewrite <- T1 in F1.
    pose proof (authenticated_run method content path w t u w1 f1 (f2 :: rest) dt1 r1
                  G S F1) as A.
    unfold api_call. unfold bind at 1. rewrite A.
    apply Z.eqb_eq in N. rewrite N.
    set (w2 := exchanged _ dt1 (f2 :: rest) w1) in *.
    unfold bind at 1. unfold bind at 1. rewrite invalidate_run.
    assert (Ha3 : var "SF_ACCESS_TOKEN" (invalidated w2) = Some access).
    { unfold var in *. change (environ (invalidated w2)) with (environ w1).
      rewrite E1. exact Ha. }
    assert (Hi3 : var "SF_INSTANCE_URL" (invalidated w2) = Some instance).
    { unfold var in *. change (environ (invalidated w2)) with (environ w1).
      rewrite E1. exact Hi. }
    destruct (token_resolution (invalidated w2) access instance Ha3 Na Hi3 Ni)
      as (t' & u' & w4 & G4 & E4 & S4 & T4 & R4 & Fresh).
    destruct (Fresh eq_refl) as [-> ->].
    assert (S4' : net_script w4 = f2 :: rest).
    { rewrite S4. reflexivity. }
    assert (T4' : SF_REQUEST_TIMEOUT w4 = SF_REQUEST_TIMEOUT w).
    { rewrite T4. change (SF_REQUEST_TIMEOUT (invalidated w2)) with (SF_REQUEST_TIMEOUT w1).
      exact T1. }
    rewrite <- T4' in F2.
    pose proof (authenticated_run method content path (invalidated w2)
                  (PStr access) (PStr instance) w4 f2 rest dt2 r2 G4 S4' F2) as A2.
    rewrite A2. rewrite answer_of_run. eexists. split; [reflexivity|].
    unfold exchanged at 1 2, advance.
    cbn [trace net_script set_trace set_net_script set_clock].
    rewrite requests_app, R4. split; [|reflexivity].
    unfold invalidated. cbn [trace set_trace set_cache].
    rewrite requests_app.
    change (requests [EAcquire "_token_lock"; ERelease "_token_lock"]) with (@nil Request).
    rewrite app_nil_r.
    subst w2. unfold exchanged, advance.
    cbn [trace net_script set_trace set_net_script set_clock].
    rewrite requests_app, R1, T1, T4'. rewrite <- app_assoc. reflexivity.
Qed.

(** A Salesforce that refuses the token once and then answers *)
Definition expired_once : World :=
  token_world [answer 401 "[]"; answer 200 "{}"].

Lemma api_calls_retry_once_on_401_witness :
  exists w',
    api_call "GET" NoBody "/limits" expired_once = (Ok (PDict []), w')
    /\ List.length (requests (trace w')) = 2%nat
    /\ net_script w' = [].
Proof.
  destruct (proj2 (proj2 api_calls_retry_once_on_401) "GET" NoBody "/limits"
              expired_once "tok" "https://sf.example" eq_refl
              ltac:(discriminate) eq_refl ltac:(discriminate))
    as (t & u & G & _ & Retry).
  destruct (Retry (answer 401 "[]") (answer 200 "{}") [] 1000
              (mkResponse 401 "application/json" "[]") 1000
              (mkResponse 200 "application/json" "{}") eq_refl eq_refl eq_refl eq_refl)
    as (w' & Run & Sent & Script).
  exists w'. split; [exact Run|]. split; [|exact Script].
  rewrite Sent. reflexivity.
Defined.

(** ** The paginated query *)

(** The fields of one answer of the query endpoint *)
Definition page : Type := list (string * pyval).

(** The records of a page, none when it has no list of them *)
Definition records_of (p : page) : list pyval :=
  match Py.dict_lookup "records" p with
  | Some (PList l) => l
  | _ => []
  end.

Definition has_records (p : page) : Prop :=
  Py.dict_lookup "records" p = None
  \/ exists l, Py.dict_lookup "records" p = Some (PList l).

(** [not result.get("done", True) and result.get("nextRecordsUrl")], the
    test of the loop, as a truth value *)
Definition continues (p : page) : bool :=
  negb (Py.truthy (match Py.dict_lookup "done" p with
                   | Some d => d
                   | None => PBool true
                   end))
  && Py.truthy (match Py.dict_lookup "nextRecordsUrl" p with
                | Some n => n
                | None => PNone
                end).

Definition next_of (p : page) : string :=
  match Py.dict_lookup "nextRecordsUrl" p with
  | Some (PStr u) => u
  | _ => ""
  end.

Definition next_is_text (p : page) : Prop :=
  exists u, Py.dict_lookup "nextRecordsUrl" p = Some (PStr u).

(** The path asked for the next page: a link that starts with
    /services/data/ loses its first 20 characters, the length of that prefix
    with the version of the client. *)
Definition next_path (u : string) : string :=
  if Str.startswith "/services/data/" u then Str.drop 20 u else u.

(** [chained p ps]: [p] and the pages of [ps] but the last ask for a next
    page, the last one does not. *)
Fixpoint chained (p : page) (ps : list page) : Prop :=
  match ps with
  | [] => continues p = false
  | q :: qs => continues p = true /\ next_is_text p /\ chained q qs
  end.

(** The paths asked for the pages of [ps], after [p] *)
Fixpoint paths (p : page) (ps : list page) : list string :=
  match ps with
  | [] => []
  | q :: qs => next_path (next_of p) :: paths q qs
  end.

(** The entry of the script answers every request with the page [p]. *)
Definition page_answer (f : Request -> net_outcome) (p : page) : Prop :=
  forall req, exists dt r,
    f req = Responds dt r /\ status_code r = 200 /\ Json.loads (text r) = Ok (PDict p).

(** The cache holds nothing fresh, or it holds the pair of the environment:
    in token mode every resolution then returns that pair. *)
Definition cache_agrees (access instance : string) (w : World) : Prop :=
  cache_fresh w = false
  \/ (cached_token w = PStr access /\ cached_instance w = PStr instance).

Section TokenMode.

Variables access instance : string.
Hypothesis access_set : access <> "".
Hypothesis instance_set : instance <> "".

(** The process runs in token mode with these two values. *)
Definition configured (w : World) : Prop :=
  var "SF_ACCESS_TOKEN" w = Some access /\ var "SF_INSTANCE_URL" w = Some instance.

Definition env_request (method : string) (content : body) (path : string) (w : World)
  : Request :=
  api_request method content path (PStr access) (PStr instance) (SF_REQUEST_TIMEOUT w).

Lemma env_resolution : forall w,
  configured w -> cache_agrees access instance w ->
  exists w1,
    get_salesforce_credentials w = (Ok (PStr access, PStr instance), w1)
    /\ environ w1 = environ w /\ net_script w1 = net_script w
    /\ SF_REQUEST_TIMEOUT w1 = SF_REQUEST_TIMEOUT w
    /\ requests (trace w1) = requests (trace w)
    /\ cached_token w1 = PStr access /\ cached_instance w1 = PStr instance.
Proof.
  intros w [Ha Hi] Agree.
  destruct (cache_fresh w) eqn:F.
  - destruct Agree as [C|[Ct Ci]]; [congruence|].
    exists (locked w). split.
    + unfold get_salesforce_credentials, with_lock. cbn [emit].
      assert (F' : cache_fresh (set_trace (trace w ++ [EAcquire "_token_lock"]) w) = true)
        by exact F.
      rewrite F'. unfold locked. cbn [trace set_trace cached_token cached_instance].
      rewrite Ct, Ci, <- app_assoc. reflexivity.
    + unfold locked.
      cbn [environ net_script SF_REQUEST_TIMEOUT trace set_trace cached_token
           cached_instance].
      rewrite requests_app. cbn [requests flat_map app]. rewrite app_nil_r.
      repeat split; try reflexivity; assumption.
  - rewrite (token_mode_run w access instance F Ha access_set Hi instance_set).
    eexists. split; [reflexivity|].
    unfold resolved.
    cbn [environ net_script SF_REQUEST_TIMEOUT trace set_trace set_cache cached_token
         cached_instance].
    rewrite requests_app. cbn [requests flat_map app]. rewrite app_nil_r.
    repeat split; reflexivity.
Qed.

(** One call that is answered with a status other than 401: the answer is
    kept, one request has been sent, and the process is still in token mode
    with a cache that agrees. *)
Lemma api_call_answered : forall method content path w f rest dt r,
  configured w -> cache_agrees access instance w ->
  net_script w = f :: rest ->
  f (env_request method content path w) = Responds dt r ->
  status_code r <> 401 ->
  exists w',
    api_call method content path w = (answer_of (api_url (PStr instance) path) r, w')
    /\ configured w' /\ cache_agrees access instance w'
    /\ net_script w' = rest
    /\ SF_REQUEST_TIMEOUT w' = SF_REQUEST_TIMEOUT w
    /\ requests (trace w')
       = (requests (trace w) ++ [env_request method content path w])%list.
Proof.
  intros method content path w f rest dt r Conf Agree S F N.
  destruct (env_resolution w Conf Agree) as (w1 & G & E1 & S1 & T1 & R1 & Ct & Ci).
  rewrite <- S1 in S. unfold env_request in *. rewrite <- T1 in F.
  pose proof (authenticated_run method content path w _ _ w1 f rest dt r G S F) as A.
  unfold api_call. unfold bind at 1. rewrite A.
  apply Z.eqb_neq in N. rewrite N. unfold bind at 1. cbn [ret].
  rewrite answer_of_run. eexists. split; [reflexivity|].
  unfold exchanged, advance, configured, var, cache_agrees.
  cbn [trace net_script set_trace set_net_script set_clock environ SF_REQUEST_TIMEOUT
       cached_token cached_instance].
  rewrite requests_app, R1, T1, E1.
  destruct Conf as [Ha Hi].
  split; [split; assumption|]. split; [right; split; assumption|].
  repeat split; reflexivity.
Qed.

Lemma page_fetched : forall path w f rest p,
  configured w -> cache_agrees access instance w ->
  net_script w = f :: rest -> page_answer f p ->
  exists w',
    sf_api_get path w = (Ok (PDict p), w')
    /\ configured w' /\ cache_agrees access instance w'
    /\ net_script w' = rest
    /\ SF_REQUEST_TIMEOUT w' = SF_REQUEST_TIMEOUT w
    /\ requests (trace w') = (requests (trace w) ++ [env_request "GET" NoBody path w])%list.
Proof.
  intros path w f rest p Conf Agree S Hf.
  destruct (Hf (env_request "GET" NoBody path w)) as (dt & r & F & St & J).
  assert (N : status_code r <> 401) by (rewrite St; discriminate).
  destruct (api_call_answered "GET" NoBody path w f rest dt r Conf Agree S F N)
    as (w' & Run & K).
  exists w'. split; [|exact K].
  change (sf_api_get path) with (api_call "GET" NoBody path). rewrite Run.
  unfold answer_of. rewrite St, J. reflexivity.
Qed.

Lemma query_pages_chain : forall ps p fs rest w fuel acc,
  configured w -> cache_agrees access instance w ->
  net_script w = (fs ++ rest)%list -> Forall2 page_answer fs ps ->
  chained p ps -> Forall has_records ps ->
  (List.length ps < fuel)%nat ->
  exists w',
    query_pages fuel (PDict p) (PList acc) w
    = (Ok (PList (acc ++ List.concat (map records_of ps))), w')
    /\ net_script w' = rest
    /\ requests (trace w')
       = (requests (trace w)
          ++ map (fun path => env_request "GET" NoBody path w) (paths p ps))%list.
Proof.
  induction ps as [|q qs IH]; intros p fs rest w fuel acc Conf Agree S Ans Ch Rec L;
    (destruct fuel as [|fuel]; [cbn in L; lia|]).
  - inversion Ans; subst. cbn [chained] in Ch. unfold continues in Ch.
    exists w. cbn [query_pages]. unfold bind at 1, lift at 1. cbn [Py.get].
    split; [|split; [exact S|cbn [paths map]; rewrite app_nil_r; reflexivity]].
    cbn [map List.concat]. rewrite app_nil_r.
    destruct (negb (Py.truthy match Py.dict_lookup "done" p with
                               | Some d => d
                               | None => PBool true
                               end)) eqn:D.
    + cbn [andb] in Ch. unfold bind at 1 2, lift at 1. rewrite Ch. reflexivity.
    + reflexivity.
  - inversion Ans as [|f ? fs' ? Hf Ans']; subst. cbn [chained] in Ch.
    destruct Ch as (Go & (u & Hu) & Ch). unfold continues in Go.
    apply andb_true_iff in Go. destruct Go as [D N].
    inversion Rec as [|? ? Rq Rqs]; subst.
    cbn [app] in S.
    destruct (page_fetched (next_path u) w f (fs' ++ rest)%list q Conf Agree S Hf)
      as (w1 & Run & Conf1 & Agree1 & S1 & T1 & R1).
    cbn [List.length] in L.
    destruct (IH q fs' rest w1 fuel (acc ++ records_of q)%list Conf1 Agree1 S1 Ans' Ch Rqs
                ltac:(lia)) as (w' & Loop & S' & R').
    exists w'. split; [|split; [exact S'|]].
    + cbn [query_pages]. unfold bind at 1, lift at 1. cbn [Py.get]. rewrite D.
      unfold bind at 1 2, lift at 1. rewrite N. cbn [ret].
      unfold bind at 1, lift at 1. cbn [Py.getitem]. rewrite Hu.
      unfold bind at 1, lift at 1. cbn [Py.startswith Py.str].
      change (String.length ("/services/data/" ++ SF_API_VERSION)) with 20%nat.
      fold (next_path u). unfold bind at 1. rewrite Run.
      unfold bind at 1, lift at 1. cbn [has_extend].
      unfold bind at 1, lift at 1. cbn [Py.get].
      unfold bind at 1, lift at 1.
      assert (E : extend (PList acc)
                    match Py.dict_lookup "records" q with
                    | Some x => x
                    | None => PList []
                    end = Ok (PList (acc ++ records_of q))).
      { unfold records_of. destruct Rq as [Rn|(l & Rl)].
        - rewrite Rn. reflexivity.
        - rewrite Rl. reflexivity. }
      rewrite E, Loop. cbn [map List.concat]. rewrite <- app_assoc. reflexivity.
    + rewrite R', R1. cbn [paths map]. unfold next_of. rewrite Hu.
      rewrite <- app_assoc. cbn [app]. unfold env_request. rewrite T1. reflexivity.
Qed.

End TokenMode.


Definition first_page : page :=
  [("records", PList [PDict [("Id", PStr "a")]]); ("done", PBool false);
   ("nextRecordsUrl", PStr "/services/data/v59.0/query/01g-2000")].

Definition last_page : page :=
  [("records", PList [PDict [("Id", PStr "b")]]); ("done", PBool true)].

Definition two_pages : World :=
  token_world [answer 200 (Json.dumps (PDict first_page));
               answer 200 (Json.dumps (PDict last_page))].


(** ** The escaped query *)

(** A character that may stand in a URL as it is: a letter, a digit, one of
    [_.-~/], or the percent sign of an escape *)
Definition url_char (c : ascii) : bool :=
  let n := Str.code c in
  ((48 <=? n) && (n <=? 57) || (65 <=? n) && (n <=? 90) || (97 <=? n) && (n <=? 122)
   || (n =? 95) || (n =? 46) || (n =? 45) || (n =? 126) || (n =? 47) || (n =? 37))%N.

(** Reading percent escapes back *)
Fixpoint unquote (s : string) : string :=
  match s with
  | EmptyString => EmptyString
  | String c rest =>
      match rest with
      | String h (String l rest') =>
          if Ascii.eqb c "%" then
            match Json.hex_value h, Json.hex_value l with
            | Some x, Some y => String (ascii_of_N (16 * x + y)) (unquote rest')
            | _, _ => String c (unquote rest)
            end
          else String c (unquote rest)
      | _ => String c (unquote rest)
      end
  end.

Lemma quote_char_safe : forall c, Str.forallb url_char (quote_char c) = true.
Proof. intros c. destruct c as [[] [] [] [] [] [] [] []]; reflexivity. Qed.

Lemma forallb_app : forall f s t,
  Str.forallb f (s ++ t) = Str.forallb f s && Str.forallb f t.
Proof.
  intros f. induction s as [|c s IH]; intros t; [reflexivity|].
  cbn [append Str.forallb]. rewrite IH, andb_assoc. reflexivity.
Qed.

Lemma unquote_quote_char : forall c s,
  unquote (quote_char c ++ quote s) = String c (unquote (quote s)).
Proof.
  intros c s.
  assert (H : forall t, unquote (String c t) = String c (unquote t)
                        \/ quote_char c <> String c "").
  { intros t. destruct (Ascii.eqb c "%") eqn:E.
    - right. apply Ascii.eqb_eq in E. subst c. discriminate.
    - left. cbn [unquote]. rewrite E. destruct t as [|h [|l t]]; reflexivity. }
  destruct c as [[] [] [] [] [] [] [] []];
    try reflexivity;
    (destruct (H (quote s)) as [K|K]; [exact K|contradiction K; reflexivity]).
Qed.

Lemma unquote_quote : forall s, unquote (quote s) = s.
Proof.
  induction s as [|c s IH]; [reflexivity|].
  cbn [quote]. rewrite unquote_quote_char, IH. reflexivity.
Qed.



(** ** Record creation: one attempt unless the request times out *)

Section Creation.

Variables access instance : string.
Hypothesis access_set : access <> "".
Hypothesis instance_set : instance <> "".

(** The record has the three fields of the payload. *)
Definition record_fields (record contact job stage : pyval) : Prop :=
  Py.getitem record "contact_id" = Ok contact
  /\ Py.getitem record "job_id" = Ok job
  /\ Py.getitem record "stage" = Ok stage.

(** The creation request the function sends in token mode *)
Definition creation_request (contact job stage : pyval) : Request :=
  create_request (PStr access) (PStr instance) (create_payload contact job stage).

(** The world when the first creation request is about to be sent *)
Lemma create_job_applicant_first_post : forall record contact job stage w,
  configured access instance w -> cache_agrees access instance w ->
  record_fields record contact job stage ->
  exists w1,
    net_script w1 = net_script w
    /\ requests (trace w1) = requests (trace w)
    /\ create_job_applicant get_salesforce_credentials record w
       = (answered <- post_loop get_salesforce_credentials [0; 1; 2]
                        (PStr access) (PStr instance)
                        (create_payload contact job stage) ;;
          match answered with
          | None => ret (false, timeout_error)
          | Some resp => read_create_response record resp
          end) w1.
Proof.
  intros record contact job stage w Conf Agree (Hc & Hj & Hs).
  destruct (env_resolution access instance access_set instance_set w Conf Agree)
    as (w1 & G & _ & S1 & _ & R1 & _).
  exists w1. split; [exact S1|]. split; [exact R1|].
  unfold create_job_applicant. unfold bind at 1. rewrite G.
  unfold bind at 1 2 3, lift at 1 2 3. rewrite Hc, Hj, Hs. reflexivity.
Qed.

Lemma requests_sent : forall req dt rest w,
  requests (trace (exchanged req dt rest w)) = (requests (trace w) ++ [req])%list
  /\ net_script (exchanged req dt rest w) = rest.
Proof.
  intros req dt rest w. unfold exchanged, advance.
  cbn [trace net_script set_trace set_net_script set_clock].
  rewrite requests_app. split; reflexivity.
Qed.

Lemma http_failed : forall req w f rest dt e,
  net_script w = f :: rest -> f req = Fails dt e ->
  http req w = (Raise e, exchanged req dt rest w).
Proof.
  intros req w f rest dt e S F. unfold http. cbn [emit net_script set_trace].
  rewrite S, F. reflexivity.
Qed.

(** The error [create_job_applicant] reports for an answer that is not 200 *)
Definition http_error (r : Response) : pyval :=
  PDict [("error", PStr ("HTTP " ++ Str.of_Z (status_code r) ++ ": "
                           ++ Str.take 300 (text r)))].

End Creation.

(** X21.  [create_job_applicant] tries again only after a read timeout.  In
    token mode, for a record with the three fields of the payload:
    - when the first creation request raises anything else (a connection
      error, a connect timeout), that exception leaves the function after the
      one request;
    - when it is answered with a status other than 200, whatever it is (401
      and 503 included), the function returns the failure
      'HTTP <status>: <first 300 characters of the body>' after the one
      request: no credentials are resolved again and nothing is sent again. *)
Theorem create_job_applicant_tries_once :
  forall access instance record contact job stage w f rest,
    access <> "" -> instance <> "" ->
    configured access instance w -> cache_agrees access instance w ->
    record_fields record contact job stage ->
    net_script w = f :: rest ->
    let req := creation_request access instance contact job stage in
    (forall dt e,
       f req = Fails dt e -> is_ReadTimeout e = false ->
       exists w',
         create_job_applicant get_salesforce_credentials record w = (Raise e, w')
         /\ requests (trace w') = (requests (trace w) ++ [req])%list
         /\ net_script w' = rest)
    /\
    (forall dt r,
       f req = Responds dt r -> status_code r <> 200 ->
       exists w',
         create_job_applicant get_salesforce_credentials record w
         = (Ok (false, http_error r), w')
         /\ requests (trace w') = (requests (trace w) ++ [req])%list
         /\ net_script w' = rest).
Proof.
  intros access instance record contact job stage w f rest Na Ni Conf Agree Rec S req.
  destruct (create_job_applicant_first_post access instance Na Ni record contact job
              stage w Conf Agree Rec) as (w1 & S1 & R1 & Run).
  rewrite <- S1 in S. split.
  - intros dt e F T. rewrite Run.
    unfold bind at 1. cbn [post_loop]. unfold bind at 1.
    unfold attempt_post, try_except. unfold bind at 1.
    fold (creation_request access instance contact job stage). fold req.
    rewrite (http_failed req w1 f rest dt e S F), T.
    destruct (requests_sent req dt rest w1) as [Rq Sq].
    eexists. split; [reflexivity|]. rewrite Rq, R1, Sq. split; reflexivity.
  - intros dt r F N. rewrite Run.
    unfold bind at 1. cbn [post_loop]. unfold bind at 1.
    unfold attempt_post, try_except. unfold bind at 1.
    fold (creation_request access instance contact job stage). fold req.
    rewrite (http_answered req w1 f rest dt r S F). cbn [ret].
    unfold read_create_response. apply Z.eqb_neq in N. rewrite N.
    unfold bind at 1. unfold core_log, log, emit. cbn [ret].
    destruct (requests_sent req dt rest w1) as [Rq Sq].
    eexists. split; [reflexivity|].
    cbn [trace net_script set_trace]. rewrite requests_app, Rq, R1, Sq.
    cbn [requests flat_map app]. rewrite app_nil_r. split; reflexivity.
Qed.

(** A Salesforce that answers the creation with status 401 *)
Definition unauthorized : World := token_world [answer 401 "expired"].

Lemma create_job_applicant_tries_once_witness :
  exists w',
    create_job_applicant get_salesforce_credentials sample_record unauthorized
    = (Ok (false, PDict [("error", PStr "HTTP 401: expired")]), w')
    /\ requests (trace w')
       = (requests (trace unauthorized)
          ++ [creation_request "tok" "https://sf.example"
                (PStr "003000000000001AAA") (PStr "a0F000000000001AAA")
                (PStr "New Application")])%list
    /\ net_script w' = [].
Proof.
  apply (proj2 (create_job_applicant_tries_once "tok" "https://sf.example"
                  sample_record (PStr "003000000000001AAA")
                  (PStr "a0F000000000001AAA") (PStr "New Application")
                  unauthorized (answer 401 "expired") []
                  ltac:(discriminate) ltac:(discriminate)
                  ltac:(split; reflexivity) ltac:(left; reflexivity)
                  ltac:(repeat split) eq_refl)
           1000 (mkResponse 401 "application/json" "expired")).
  - reflexivity.
  - discriminate.
Defined.

(** The creation request was answered at the first attempt: what is left is
    to read the answer. *)
Lemma create_job_applicant_answered :
  forall access instance record contact job stage w f rest dt r,
    access <> "" -> instance <> "" ->
    configured access instance w -> cache_agrees access instance w ->
    record_fields record contact job stage ->
    net_script w = f :: rest ->
    f (creation_request access instance contact job stage) = Responds dt r ->
    exists w1,
      create_job_applicant get_salesforce_credentials record w
      = read_create_response record r w1
      /\ requests (trace w1)
         = (requests (trace w)
            ++ [creation_request access instance contact job stage])%list
      /\ net_script w1 = rest.
Proof.
  intros access instance record contact job stage w f rest dt r Na Ni Conf Agree Rec S F.
  destruct (create_job_applicant_first_post access instance Na Ni record contact job
              stage w Conf Agree Rec) as (w1 & S1 & R1 & Run).
  rewrite <- S1 in S. rewrite Run.
  unfold bind at 1. cbn [post_loop]. unfold bind at 1.
  unfold attempt_post, try_except. unfold bind at 1.
  fold (creation_request access instance contact job stage).
  rewrite (http_answered _ w1 f rest dt r S F). cbn [ret].
  destruct (requests_sent (creation_request access instance contact job stage)
              dt rest w1) as [Rq Sq].
  eexists. split; [reflexivity|]. rewrite Rq, R1, Sq. split; reflexivity.
Qed.


(** A Salesforce that creates the record *)
Definition creating : World :=
  token_world [answer 200 (Json.dumps (PList [PDict [("id", PStr "a0G000000000001");
                                                    ("success", PBool true)]]))].


(** ** Notifications *)

(** Slack is told about an event: the hook is configured and the event is a
    creation or an error. *)
Definition slack_told (event_type : string) (w : World) : bool :=
  negb (String.eqb (SLACK_WEBHOOK_URL w) "")
  && (String.eqb event_type "created" || String.eqb event_type "error").

(** X23.  [send_notification] always writes one structured log line for the
    event, and without a Slack hook, or for an event that is neither a
    creation nor an error, that line is all it does: nothing is sent, and the
    call returns whatever the details hold. *)
Theorem send_notification_logs_only : forall event_type d w,
  slack_told event_type w = false ->
  notify.send_notification event_type (PDict d) w
  = (Ok tt, set_trace (trace w ++ [event_line event_type d]) w)
  /\ requests (trace w ++ [event_line event_type d]) = requests (trace w).
Proof.
  intros event_type d w H. split.
  - unfold notify.send_notification. unfold bind at 1. rewrite log_event_run.
    unfold bind at 1. cbn [SLACK_WEBHOOK_URL set_trace].
    unfold slack_told in H. rewrite H. reflexivity.
  - rewrite requests_app. unfold event_line.
    destruct (String.eqb event_type "created"); [|destruct (String.eqb event_type "error")];
      cbn [requests flat_map app]; apply app_nil_r.
Qed.

Lemma send_notification_logs_only_witness :
  notify.send_notification "created" (PDict [("chat_id", PStr "chat_42")]) (bare_world [])
  = (Ok tt, set_trace (trace (bare_world [])
                         ++ [event_line "created" [("chat_id", PStr "chat_42")]])
              (bare_world []))
  /\ requests (trace (bare_world [])
               ++ [event_line "created" [("chat_id", PStr "chat_42")]])
     = requests (trace (bare_world [])).
Proof.
  apply (send_notification_logs_only "created" [("chat_id", PStr "chat_42")]
           (bare_world [])).
  reflexivity.
Defined.

(** The fields [_send_slack] slices or changes the case of hold text. *)
Definition slack_fields (d : list (string * pyval)) : Prop :=
  (exists s, field d "tier" = PStr s)
  /\ (exists s, field d "chat_id" = PStr s)
  /\ (exists s, field d "error" = PStr s).

Lemma slack_payload_run : forall event_type d w,
  slack_fields d ->
  String.eqb event_type "created" || String.eqb event_type "error" = true ->
  exists payload, notify.slack_payload event_type (PDict d) w = (Ok (Some payload), w).
Proof.
  intros event_type d w ((tier & Ht) & (cid & Hc) & (err & He)) H.
  unfold notify.slack_payload, bind, lift, getenv, ret. cbn [Py.get].
  fold (field d "tier") (field d "chat_id") (field d "error").
  rewrite Ht, Hc, He. cbn [notify.py_upper Py.slice_to].
  destruct (String.eqb event_type "created").
  - eexists. reflexivity.
  - cbn [orb] in H. rewrite H. eexists. reflexivity.
Qed.

(** X24.  A Slack hook that fails does not fail the caller.  With the hook
    configured, for a creation or an error whose tier, chat id and error are
    text, [send_notification] returns normally whatever the network does --
    an answer other than 200, a timeout, a connection error: it has written
    its log line, sent exactly one request, a POST of a JSON message to the
    hook with a timeout of 10 seconds, and nothing is raised. *)
Theorem send_notification_survives_slack : forall event_type d w,
  slack_told event_type w = true -> slack_fields d ->
  exists payload w',
    notify.send_notification event_type (PDict d) w = (Ok tt, w')
    /\ requests (trace w')
       = (requests (trace w)
          ++ [mkRequest "POST" (SLACK_WEBHOOK_URL w) [] (JsonBody payload) 10])%list
    /\ net_script w' = tl (net_script w).
Proof.
  intros event_type d w H Fields. unfold slack_told in H.
  apply andb_true_iff in H. destruct H as [Hook Kind].
  unfold notify.send_notification. unfold bind at 1. rewrite log_event_run.
  unfold bind at 1. cbn [SLACK_WEBHOOK_URL set_trace]. rewrite Hook, Kind. cbn [andb].
  set (w0 := set_trace (trace w ++ [event_line event_type d]) w).
  destruct (slack_payload_run event_type d w0 Fields Kind) as (payload & P).
  unfold notify._send_slack. unfold bind at 1. rewrite P.
  exists payload.
  assert (R0 : requests (trace w0) = requests (trace w)).
  { subst w0. cbn [trace set_trace]. rewrite requests_app. unfold event_line.
    destruct (String.eqb event_type "created"); [|destruct (String.eqb event_type "error")];
      cbn [requests flat_map app]; apply app_nil_r. }
  assert (S0 : net_script w0 = net_script w) by reflexivity.
  unfold try_except. unfold bind at 1.
  change (SLACK_WEBHOOK_URL w0) with (SLACK_WEBHOOK_URL w).
  set (req := mkRequest "POST" (SLACK_WEBHOOK_URL w) [] (JsonBody payload) 10).
  unfold bind at 1.
  destruct (net_script w0) as [|f rest] eqn:S.
  - assert (D : http req w0 = (Raise (net_down w0 req), set_trace (trace w0 ++ [ENet req]) w0)).
    { unfold http. cbn [emit net_script set_trace]. rewrite S. reflexivity. }
    rewrite D. cbn [any_exception]. unfold notify.notify_log, log, emit.
    eexists. split; [reflexivity|].
    cbn [trace net_script set_trace]. rewrite !requests_app, R0.
    cbn [requests flat_map app]. rewrite app_nil_r, <- S0.
    split; [reflexivity | exact S].
  - destruct (f req) as [dt r|dt e] eqn:F.
    + rewrite (http_answered req w0 f rest dt r S F).
      destruct (negb (status_code r =? 200)).
      * unfold notify.notify_log, log, emit. eexists. split; [reflexivity|].
        unfold exchanged, advance.
        cbn [trace net_script set_trace set_net_script set_clock].
        rewrite !requests_app, R0. cbn [requests flat_map app].
        rewrite app_nil_r, <- S0. split; reflexivity.
      * eexists. split; [reflexivity|].
        unfold exchanged, advance.
        cbn [trace net_script set_trace set_net_script set_clock].
        rewrite !requests_app, R0, <- S0. split; reflexivity.
    + rewrite (http_failed req w0 f rest dt e S F).
      cbn [any_exception]. unfold notify.notify_log, log, emit.
      eexists. split; [reflexivity|].
      unfold exchanged, advance.
      cbn [trace net_script set_trace set_net_script set_clock].
      rewrite !requests_app, R0. cbn [requests flat_map app].
      rewrite app_nil_r, <- S0. split; reflexivity.
Qed.

(** A process with a Slack hook and a network that is down *)
Definition hooked : World :=
  mkWorld [] (fun l => l) 900 "" "https://hooks.slack.example/T0" 30 1800 PNone PNone None
          1762163700000000 [] (fun _ => mkExn ConnectionError "the network is down")
          [] [] stats0.

Lemma send_notification_survives_slack_witness :
  exists payload w',
    notify.send_notification "error" (PDict [("error", PStr "HTTP 500: boom")]) hooked
    = (Ok tt, w')
    /\ requests (trace w')
       = (requests (trace hooked)
          ++ [mkRequest "POST" (SLACK_WEBHOOK_URL hooked) [] (JsonBody payload) 10])%list
    /\ net_script w' = tl (net_script hooked).
Proof.
  apply (send_notification_survives_slack "error" [("error", PStr "HTTP 500: boom")]
           hooked).
  - reflexivity.
  - repeat split; eexists; reflexivity.
Defined.

(** ** The search of the object catalogue *)

(** The text [keyword], whatever its case, occurs in the text [v]. *)
Definition occurs_in (keyword : string) (v : pyval) : bool :=
  match v with
  | PStr s => Str.contains (lower keyword) (lower s)
  | _ => false
  end.

(** The object mentions the keyword in its name, its label or its plural
    label. *)
Definition mentions (keyword : string) (obj : pyval) : bool :=
  match obj with
  | PDict d =>
      occurs_in keyword (field d "name") || occurs_in keyword (field d "label")
      || occurs_in keyword (field d "labelPlural")
  | _ => false
  end.

Definition is_text (v : pyval) : Prop := exists s, v = PStr s /\ Str.is_ascii s = true.

(** An entry of the catalogue as the CRM describes it: a dictionary with a
    name, whose name, label and plural label are ASCII text. *)
Definition described (obj : pyval) : Prop :=
  exists d,
    obj = PDict d
    /\ Py.dict_lookup "name" d <> None
    /\ is_text (field d "name") /\ is_text (field d "label")
    /\ is_text (field d "labelPlural").

Definition name_of (obj : pyval) : pyval :=
  match obj with
  | PDict d => field d "name"
  | _ => PNone
  end.

Definition SUMMARY_KEYS : list string :=
  ["name"; "label"; "labelPlural"; "keyPrefix"; "custom"; "queryable"; "urls"].

Definition summary_shaped (m : pyval) : Prop :=
  exists d, m = PDict d /\ map fst d = SUMMARY_KEYS.

Lemma sobject_matches_described : forall keyword obj,
  described obj -> sobject_matches (lower keyword) obj = Ok (mentions keyword obj).
Proof.
  intros keyword obj (d & -> & _ & (n & Hn & _) & (l & Hl & _) & (p & Hp & _)).
  unfold sobject_matches, keyword_in, mentions. rewrite !get_block_field.
  rewrite Hn, Hl, Hp. cbn [py_lower rbind occurs_in].
  destruct (Str.contains (lower keyword) (lower n)); [reflexivity|].
  cbn [orb]. destruct (Str.contains (lower keyword) (lower l)); reflexivity.
Qed.

Lemma sobject_summary_described : forall obj,
  described obj ->
  exists m, sobject_summary obj = Ok m /\ name_of m = name_of obj /\ summary_shaped m.
Proof.
  intros obj (d & -> & N & _). unfold sobject_summary. cbn [Py.getitem Py.get rbind].
  cbn [name_of]. unfold field.
  destruct (Py.dict_lookup "name" d) as [v|] eqn:E; [|congruence].
  cbn [rbind]. eexists. split; [reflexivity|]. split; [reflexivity|].
  eexists. split; reflexivity.
Qed.

Lemma match_sobjects_described : forall keyword objs,
  Forall described objs ->
  exists matches,
    match_sobjects (lower keyword) objs = Ok matches
    /\ map name_of matches = map name_of (filter (mentions keyword) objs)
    /\ Forall summary_shaped matches.
Proof.
  intros keyword objs H. induction H as [|obj objs D _ IH].
  - exists []. repeat split; constructor.
  - destruct IH as (more & Run & Names & Shapes).
    cbn [match_sobjects filter]. rewrite (sobject_matches_described keyword obj D).
    cbn [rbind]. destruct (mentions keyword obj).
    + destruct (sobject_summary_described obj D) as (m & Sm & Nm & Shape).
      rewrite Sm. cbn [rbind]. rewrite Run. cbn [rbind].
      exists (m :: more). split; [reflexivity|]. split.
      * cbn [map]. rewrite Nm, Names. reflexivity.
      * constructor; assumption.
    + exists more. repeat split; assumption.
Qed.

(** X25.  [find_sobjects] reads the catalogue with one GET of [/sobjects] and
    keeps, in the order of the catalogue, exactly the entries whose name,
    label or plural label contains the keyword, the case of ASCII letters
    ignored on both sides.  Each entry it returns has the seven keys name,
    label, labelPlural, keyPrefix, custom, queryable and urls.  This holds in
    token mode, for an answer 200 whose entries have a name and ASCII text in
    the three fields compared. *)
Theorem find_sobjects_keeps_the_matches :
  forall access instance keyword data objs w f rest,
  access <> "" -> instance <> "" ->
  configured access instance w -> cache_agrees access instance w ->
  net_script w = f :: rest -> page_answer f data ->
  Py.dict_lookup "sobjects" data = Some (PList objs) ->
  Str.is_ascii keyword = true -> Forall described objs ->
  exists matches w',
    find_sobjects (PStr keyword) w = (Ok (PList matches), w')
    /\ map name_of matches = map name_of (filter (mentions keyword) objs)
    /\ Forall summary_shaped matches
    /\ requests (trace w')
       = (requests (trace w)
          ++ [env_request access instance "GET" NoBody "/sobjects" w])%list.
Proof.
  intros access instance keyword data objs w f rest Ha Hi Conf Agree S Hf L _ D.
  destruct (page_fetched access instance Ha Hi "/sobjects" w f rest data Conf Agree S Hf)
    as (w' & Run & _ & _ & _ & _ & R).
  destruct (match_sobjects_described keyword objs D) as (matches & M & Names & Shapes).
  exists matches, w'. split; [|repeat split; assumption].
  unfold find_sobjects. unfold bind at 1. rewrite Run.
  unfold bind at 1, lift at 1. cbn [Py.get]. rewrite L.
  unfold bind at 1, lift at 1. cbn [py_lower].
  unfold bind at 1, lift at 1. cbn [iterate].
  unfold bind at 1, lift at 1. rewrite M. reflexivity.
Qed.

(** A catalogue of three objects, two of which mention [applicant] *)
Definition catalogue : list pyval :=
  [PDict [("name", PStr "AVTRRT__Job_Applicant__c"); ("label", PStr "Job Applicant")];
   PDict [("name", PStr "Contact"); ("label", PStr "Contact")];
   PDict [("name", PStr "Placement__c"); ("labelPlural", PStr "APPLICANT placements")]].

Definition cataloguing : World :=
  token_world [answer 200 (Json.dumps (PDict [("sobjects", PList catalogue)]))].

Lemma find_sobjects_keeps_the_matches_witness :
  exists matches w',
    find_sobjects (PStr "Applicant") cataloguing = (Ok (PList matches), w')
    /\ map name_of matches
       = map name_of (filter (mentions "Applicant") catalogue)
    /\ Forall summary_shaped matches
    /\ requests (trace w')
       = (requests (trace cataloguing)
          ++ [env_request "tok" "https://sf.example" "GET" NoBody "/sobjects"
                cataloguing])%list.
Proof.
  apply (find_sobjects_keeps_the_matches "tok" "https://sf.example" "Applicant"
           [("sobjects", PList catalogue)] catalogue cataloguing
           (answer 200 (Json.dumps (PDict [("sobjects", PList catalogue)]))) []).
  - discriminate.
  - discriminate.
  - split; reflexivity.
  - left. reflexivity.
  - reflexivity.
  - intro req. exists 1000, (mkResponse 200 "application/json"
                             (Json.dumps (PDict [("sobjects", PList catalogue)]))).
    repeat split.
  - reflexivity.
  - reflexivity.
  - unfold catalogue.
    repeat constructor; eexists; (split; [reflexivity|]);
      (split; [discriminate|]); repeat split; eexists; split; reflexivity.
Defined.

(** ** The health route *)

(** The credentials resolve, to a token and an instance that are both set. *)
Definition connected (w : World) : bool :=
  match fst (get_salesforce_credentials w) with
  | Ok (token, url) => Py.truthy token && Py.truthy url
  | Raise _ => false
  end.

(** What the health route says about the CRM *)
Definition crm_report (w : World) : pyval :=
  match fst (get_salesforce_credentials w) with
  | Ok (token, url) =>
      if Py.truthy token && Py.truthy url
      then PDict [("connected", PBool true); ("instance", url); ("error", PNone)]
      else PDict [("connected", PBool false); ("instance", PNone);
                  ("error", PStr "no credentials")]
  | Raise e =>
      PDict [("connected", PBool false); ("instance", PNone);
             ("error", PStr (Str.take 200 (exn_msg e)))]
  end.

Lemma count_world : forall w,
  exists w',
    dead_letter.count w = (Ok (dead_letter.count_lines (stored_lines w)), w')
    /\ stats w' = stats w /\ files w' = files w /\ clock w' = clock w.
Proof.
  intros w. unfold dead_letter.count, stored_lines, bind, File.exists_.
  destruct (assoc dead_letter.DEAD_LETTER_FILE (files w)) eqn:E.
  - cbn [negb]. unfold with_lock, emit, bind, File.read_lines, ret.
    cbn [files set_trace]. rewrite E. eexists. split; [reflexivity|].
    repeat split; reflexivity.
  - cbn [negb]. exists w. repeat split; reflexivity.
Qed.

(** X26.  The health route answers whatever the CRM does.  As long as the
    start time of the process is read back, [health] returns its report and
    raises nothing: the status is 'healthy' exactly when the credentials
    resolve to a token and an instance that are both set, and 'degraded'
    otherwise, with the first 200 characters of the exception, or 'no
    credentials', as the error.  The report carries the number of lines of
    the dead-letter store that are not blank and three of the counters, and
    the call changes neither the counters nor the files. *)
Theorem health_answers_whatever_the_crm_does : forall fromisoformat w start,
  fromisoformat (start_time (stats w)) = Ok start ->
  exists w',
    health fromisoformat w
    = (Ok (PDict [("status", PStr (if connected w then "healthy" else "degraded"));
                  ("salesforce", crm_report w);
                  ("uptime_seconds", PInt (Z.quot (clock w' - start) 1000000));
                  ("dead_letter_count",
                   PInt (dead_letter.count_lines (stored_lines w)));
                  ("stats",
                   PDict [("webhooks_received", PInt (webhooks_received (stats w)));
                          ("created", PInt (created (stats w)));
                          ("errors", PInt (errors (stats w)))])]), w')
    /\ stats w' = stats w /\ files w' = files w.
Proof.
  intros fromisoformat w start P.
  destruct Calm_get_salesforce_credentials as [Ks Kf].
  unfold health, connected, crm_report.
  destruct (get_salesforce_credentials w) as [r w1] eqn:G.
  pose proof (Ks _ _ _ G) as S1. pose proof (Kf _ _ _ G) as F1.
  destruct (count_world w1) as (w2 & C & S2 & F2 & T2).
  assert (L : stored_lines w1 = stored_lines w) by (unfold stored_lines; rewrite F1; reflexivity).
  rewrite L in C.
  exists w2. split; [|split; congruence].
  unfold bind at 1. unfold try_except. unfold bind at 1. rewrite G. cbn [fst].
  destruct r as [[token url]|e].
  - cbn [ret]. 
    assert (B : Py.truthy (if Py.truthy token then url else token)
                = Py.truthy token && Py.truthy url).
    { destruct (Py.truthy token) eqn:T; [reflexivity|]. cbn [andb]. exact T. }
    rewrite B.
    unfold bind at 1. rewrite S1, P. unfold bind at 1, lift at 1.
    unfold bind at 1, datetime_now. unfold bind at 1. rewrite C.
    unfold bind at 1. cbn [ret]. rewrite S2, S1, T2.
    destruct (Py.truthy token && Py.truthy url); reflexivity.
  - cbn [any_exception ret].
    unfold bind at 1. rewrite S1, P. unfold bind at 1, lift at 1.
    unfold bind at 1, datetime_now. unfold bind at 1. rewrite C.
    unfold bind at 1. cbn [ret]. rewrite S2, S1, T2. reflexivity.
Qed.

Lemma health_answers_whatever_the_crm_does_witness :
  exists w',
    health (fun _ => Ok 1762163640000000) (bare_world [])
    = (Ok (PDict [("status",
                   PStr (if connected (bare_world []) then "healthy" else "degraded"));
                  ("salesforce", crm_report (bare_world []));
                  ("uptime_seconds",
                   PInt (Z.quot (clock w' - 1762163640000000) 1000000));
                  ("dead_letter_count",
                   PInt (dead_letter.count_lines (stored_lines (bare_world []))));
                  ("stats",
                   PDict [("webhooks_received",
                           PInt (webhooks_received (stats (bare_world []))));
                          ("created", PInt (created (stats (bare_world []))));
                          ("errors", PInt (errors (stats (bare_world []))))])]), w')
    /\ stats w' = stats (bare_world []) /\ files w' = files (bare_world []).
Proof.
  apply (health_answers_whatever_the_crm_does (fun _ => Ok 1762163640000000)
           (bare_world []) 1762163640000000).
  reflexivity.
Defined.

(** Without any configuration the report is 'degraded', after a minute of
    uptime. *)
Example health_unconfigured :
  connected (bare_world []) = false
  /\ Py.dict_lookup "uptime_seconds"
       match fst (health (fun _ => Ok 1762163640000000) (bare_world [])) with
       | Ok (PDict d) => d
       | _ => []
       end = Some (PInt 60).
Proof. split; vm_compute; reflexivity. Qed.
